(** * Go-DB: the copy-on-write B+-tree and its transaction layer

    A shallow embedding of the storage core of the repository:
    - the node page codec ([BNode], refactor_code/internal/storage/btree),
    - the B+-tree operations of [operations.go] (lookup, insert, split,
      delete, merge) run against the in-memory pager of the tree's test
      harness,
    - the older copies of [Get], [Delete] and [nodeDelete] kept in the
      repository,
    - the iterator of [iterator.go] ([SeekLE], [Deref], [Next], [Prev]),
    - the write transaction of [transaction/define.go] and its page
      callbacks over the store of [concurrent-reader-writer/define.go],
      with the store's list of readers and its free list,
    - the page reads and the growth of the file and of its mappings in
      the store of the memory-mapped file.

    Go's [uint16] and [uint64] are integers in [Z] with the wrap-around
    written out; a [[]byte] is a [list byte]; a panic is the result
    [Panic]. *)

From Stdlib Require Import ZArith Lia List String.
From Stdlib Require Import Strings.Byte DecimalString.
From stdpp Require Import base list gmap.

Local Open Scope Z_scope.

(** ** Results of code that may panic *)

Inductive res (A : Type) : Type :=
| Ok (a : A)
| Panic (msg : string)
| OutOfFuel.
Arguments Ok {A} a.
Arguments Panic {A} msg.
Arguments OutOfFuel {A}.

Definition rbind {A B} (m : res A) (f : A -> res B) : res B :=
  match m with
  | Ok a => f a
  | Panic msg => Panic msg
  | OutOfFuel => OutOfFuel
  end.

Declare Scope res_scope.
Delimit Scope res_scope with res.
Notation "'let*' x := e 'in' k" := (rbind e (fun x => k))
  (at level 10, x pattern, e at level 100, k at level 200) : res_scope.
Notation "e ;;; k" := (rbind e (fun _ => k))
  (at level 100, k at level 200, right associativity) : res_scope.
Local Open Scope res_scope.

(** utils.Assert: panics with the message when the condition is false. *)
Definition Assert (condition : bool) (message : string) : res unit :=
  if condition then Ok tt else Panic message.

(** ** Machine integers and bytes *)

Definition u16 (z : Z) : Z := z mod 65536.
Definition u64 (z : Z) : Z := z mod 18446744073709551616.

Definition b2z (b : byte) : Z := Z.of_N (Byte.to_N b).
Definition z2b (z : Z) : byte :=
  match Byte.of_N (Z.to_N (z mod 256)) with
  | Some b => b
  | None => x00
  end.

#[global] Instance byte_eq_dec : EqDecision byte := Byte.byte_eq_dec.

Definition blen (d : list byte) : Z := Z.of_nat (length d).

(** bytes.Compare: lexicographic order on unsigned bytes. *)
Fixpoint bytes_Compare (a b : list byte) : Z :=
  match a, b with
  | [], [] => 0
  | [], _ :: _ => -1
  | _ :: _, [] => 1
  | x :: a', y :: b' =>
      if b2z x <? b2z y then -1
      else if b2z y <? b2z x then 1
      else bytes_Compare a' b'
  end.

(** bytes.Equal *)
Definition bytes_Equal (a b : list byte) : bool :=
  bool_decide (a = b).

(** make([]byte, n) *)
Definition make (n : Z) : list byte := replicate (Z.to_nat n) x00.

(** [copy(dst[pos:], src)] once [pos <= len(dst)]: the bytes of [src] that
    fit are written, the length of [dst] is unchanged. *)
Definition overwrite (pos : nat) (src d : list byte) : list byte :=
  take pos d ++ take (length d - pos) src ++ drop (pos + length src) d.

(** binary.LittleEndian.Uint16(d[pos:]) *)
Definition Uint16 (d : list byte) (pos : Z) : res Z :=
  if (0 <=? pos) && (pos + 2 <=? blen d) then
    match drop (Z.to_nat pos) d with
    | b0 :: b1 :: _ => Ok (b2z b0 + 256 * b2z b1)
    | _ => Panic "index out of range"
    end
  else Panic "slice bounds out of range".

Fixpoint le_bytes (n : nat) (v : Z) : list byte :=
  match n with
  | O => []
  | S n' => z2b v :: le_bytes n' (v / 256)
  end.

Fixpoint le_value (bs : list byte) : Z :=
  match bs with
  | [] => 0
  | b :: bs' => b2z b + 256 * le_value bs'
  end.

(** binary.LittleEndian.Uint64(d[pos:]) *)
Definition Uint64 (d : list byte) (pos : Z) : res Z :=
  if (0 <=? pos) && (pos + 8 <=? blen d) then
    Ok (le_value (take 8 (drop (Z.to_nat pos) d)))
  else Panic "slice bounds out of range".

(** binary.LittleEndian.PutUint16(d[pos:], v) *)
Definition PutUint16 (d : list byte) (pos : Z) (v : Z) : res (list byte) :=
  if (0 <=? pos) && (pos + 2 <=? blen d) then
    Ok (overwrite (Z.to_nat pos) (le_bytes 2 v) d)
  else Panic "slice bounds out of range".

(** binary.LittleEndian.PutUint64(d[pos:], v) *)
Definition PutUint64 (d : list byte) (pos : Z) (v : Z) : res (list byte) :=
  if (0 <=? pos) && (pos + 8 <=? blen d) then
    Ok (overwrite (Z.to_nat pos) (le_bytes 8 v) d)
  else Panic "slice bounds out of range".

(** [copy(d[pos:], src)] *)
Definition copy_at (d : list byte) (pos : Z) (src : list byte)
  : res (list byte) :=
  if (0 <=? pos) && (pos <=? blen d) then
    Ok (overwrite (Z.to_nat pos) src d)
  else Panic "slice bounds out of range".

(** [d[lo:hi]] *)
Definition slice (d : list byte) (lo hi : Z) : res (list byte) :=
  if (0 <=? lo) && (lo <=? hi) && (hi <=? blen d) then
    Ok (take (Z.to_nat (hi - lo)) (drop (Z.to_nat lo) d))
  else Panic "slice bounds out of range".

(** ** The node page (BNode)

    | type | nkeys |  pointers  |  offsets   | key-values | unused |
    |  2B  |   2B  | nkeys * 8B | nkeys * 2B |     ...    |        |
    each key-value being | klen 2B | vlen 2B | key | val |. *)

Definition BNODE_NODE : Z := 1.
Definition BNODE_LEAF : Z := 2.
Definition BTREE_PAGE_SIZE : Z := 4096.
Definition BTREE_MAX_KEY_SIZE : Z := 1000.
Definition BTREE_MAX_VAL_SIZE : Z := 3000.
Definition HEADER : Z := 4.

(** [BNode.data] *)
Definition BNode : Type := list byte.

Definition btype (node : BNode) : res Z := Uint16 node 0.
Definition nkeys (node : BNode) : res Z := Uint16 node 2.

Definition setHeader (node : BNode) (btype nkeys : Z) : res BNode :=
  let* node := PutUint16 node 0 btype in
  PutUint16 node 2 nkeys.

Definition getPtr (node : BNode) (index : Z) : res Z :=
  let* n := nkeys node in
  Assert (index <? n) "Index out of bounds" ;;;
  let pos := u16 (HEADER + index * 8) in
  Uint64 node pos.

Definition setPtr (node : BNode) (index : Z) (val : Z) : res BNode :=
  let* n := nkeys node in
  Assert (index <? n) "Index out of bounds" ;;;
  let pos := u16 (HEADER + index * 8) in
  PutUint64 node pos val.

Definition offsetPos (node : BNode) (idx : Z) : res Z :=
  let* n := nkeys node in
  Assert ((1 <=? idx) && (idx <=? n)) "1<=idx && idx <= node.nkeys()" ;;;
  Ok (u16 (HEADER + n * 8 + u16 (idx - 1) * 2)).

Definition getOffset (node : BNode) (idx : Z) : res Z :=
  if idx =? 0 then Ok 0
  else
    let* pos := offsetPos node idx in
    Uint16 node pos.

Definition setOffset (node : BNode) (idx : Z) (val : Z) : res BNode :=
  let* pos := offsetPos node idx in
  PutUint16 node pos val.

Definition kvPos (node : BNode) (idx : Z) : res Z :=
  let* n := nkeys node in
  Assert (idx <=? n) "idx <= node.nkeys()" ;;;
  let* off := getOffset node idx in
  Ok (u16 (HEADER + n * 8 + n * 2 + off)).

Definition getKey (node : BNode) (idx : Z) : res (list byte) :=
  let* n := nkeys node in
  Assert (idx <? n) "idx < node.nkeys()" ;;;
  let* pos := kvPos node idx in
  let* klen := Uint16 node pos in
  slice node (u16 (pos + 4)) (u16 (pos + 4) + klen).

Definition getVal (node : BNode) (idx : Z) : res (list byte) :=
  let* n := nkeys node in
  Assert (idx <? n) "idx < node.nkeys()" ;;;
  let* pos := kvPos node idx in
  let* klen := Uint16 node (u16 (pos + 0)) in
  let* vlen := Uint16 node (u16 (pos + 2)) in
  slice node (u16 (pos + 4 + klen)) (u16 (pos + 4 + klen) + vlen).

Definition nbytes (node : BNode) : res Z :=
  let* n := nkeys node in
  kvPos node n.

(** ** Node construction (operations.go)

    The Go functions write into the buffer of [new]; here they return the
    buffer written. Loop counters are [uint16]. *)

(** [for i := uint16(1); i < nkeys; i++] of nodeLookupLE, with [rem]
    iterations left. *)
Fixpoint nodeLookupLE_loop (rem : nat) (node : BNode) (key : list byte)
    (i found : Z) : res Z :=
  match rem with
  | O => Ok found
  | S rem' =>
      let* k := getKey node i in
      let cmp := bytes_Compare k key in
      let found := if cmp <=? 0 then i else found in
      if cmp >=? 0 then Ok found
      else nodeLookupLE_loop rem' node key (i + 1) found
  end.

Definition nodeLookupLE (node : BNode) (key : list byte) : res Z :=
  let* nkeys := nkeys node in
  nodeLookupLE_loop (Z.to_nat (nkeys - 1)) node key 1 0.

(** [for i := uint16(0); i < n; i++ { new.setPtr(dstNew+i, old.getPtr(srcOld+i)) }] *)
Fixpoint copyPtrs (rem : nat) (new old : BNode) (dstNew srcOld i : Z)
  : res BNode :=
  match rem with
  | O => Ok new
  | S rem' =>
      let* p := getPtr old (u16 (srcOld + i)) in
      let* new := setPtr new (u16 (dstNew + i)) p in
      copyPtrs rem' new old dstNew srcOld (i + 1)
  end.

(** [for i := uint16(1); i <= n; i++ { ... new.setOffset(dstNew+i, offset) }] *)
Fixpoint copyOffsets (rem : nat) (new old : BNode)
    (dstNew srcOld dstBegin srcBegin i : Z) : res BNode :=
  match rem with
  | O => Ok new
  | S rem' =>
      let* o := getOffset old (u16 (srcOld + i)) in
      let offset := u16 (dstBegin + o - srcBegin) in
      let* new := setOffset new (u16 (dstNew + i)) offset in
      copyOffsets rem' new old dstNew srcOld dstBegin srcBegin (i + 1)
  end.

Definition nodeAppendRange (new old : BNode) (dstNew srcOld n : Z)
  : res BNode :=
  let* oldn := nkeys old in
  Assert (u16 (srcOld + n) <=? oldn) "srcOld+n <= old.nkeys()" ;;;
  let* newn := nkeys new in
  Assert (u16 (dstNew + n) <=? newn) "dstNew+n <= new.nkeys()" ;;;
  if n =? 0 then Ok new
  else
    let* new := copyPtrs (Z.to_nat n) new old dstNew srcOld 0 in
    let* dstBegin := getOffset new dstNew in
    let* srcBegin := getOffset old srcOld in
    let* new :=
      copyOffsets (Z.to_nat n) new old dstNew srcOld dstBegin srcBegin 1 in
    let* begin := kvPos old srcOld in
    let* end_ := kvPos old (u16 (srcOld + n)) in
    let* pos := kvPos new dstNew in
    let* src := slice old begin end_ in
    copy_at new pos src.

Definition nodeAppendKV (node : BNode) (idx ptr : Z) (key val : list byte)
  : res BNode :=
  let* node := setPtr node idx ptr in
  let* pos := kvPos node idx in
  let* node := PutUint16 node (u16 (pos + 0)) (u16 (blen key)) in
  let* node := PutUint16 node (u16 (pos + 2)) (u16 (blen val)) in
  let* node := copy_at node (u16 (pos + 4)) key in
  let* node := copy_at node (u16 (pos + 4 + u16 (blen key))) val in
  let* off := getOffset node idx in
  setOffset node (u16 (idx + 1)) (u16 (off + 4 + u16 (blen key + blen val))).

Definition leafInsert (new old : BNode) (idx : Z) (key val : list byte)
  : res BNode :=
  let* n := nkeys old in
  let* new := setHeader new BNODE_LEAF (u16 (n + 1)) in
  let* new := nodeAppendRange new old 0 0 idx in
  let* new := nodeAppendKV new idx 0 key val in
  nodeAppendRange new old (u16 (idx + 1)) idx (u16 (n - idx)).

Definition leafUpdate (new old : BNode) (idx : Z) (key val : list byte)
  : res BNode :=
  let* n := nkeys old in
  let* new := setHeader new BNODE_LEAF n in
  let* new := nodeAppendRange new old 0 0 idx in
  let* new := nodeAppendKV new idx 0 key val in
  nodeAppendRange new old (u16 (idx + 1)) (u16 (idx + 1))
    (u16 (n - u16 (idx + 1))).

Definition leafDelete (new old : BNode) (idx : Z) : res BNode :=
  let* n := nkeys old in
  let* new := setHeader new BNODE_LEAF (u16 (n - 1)) in
  let* new := nodeAppendRange new old 0 0 idx in
  nodeAppendRange new old idx (u16 (idx + 1)) (u16 (n - u16 (idx + 1))).

Definition nodeMerge (new left right : BNode) : res BNode :=
  let* t := btype left in
  let* ln := nkeys left in
  let* rn := nkeys right in
  let* new := setHeader new t (u16 (ln + rn)) in
  let* new := nodeAppendRange new left 0 0 ln in
  nodeAppendRange new right ln 0 rn.

Definition nodeReplace2Kid (new old : BNode) (idx ptr : Z) (key : list byte)
  : res BNode :=
  let* n := nkeys old in
  let* new := setHeader new BNODE_NODE (u16 (n - 1)) in
  let* new := nodeAppendRange new old 0 0 idx in
  let* new := nodeAppendKV new idx ptr key [] in
  nodeAppendRange new old (u16 (idx + 1)) (u16 (idx + 2))
    (u16 (n - u16 (idx + 2))).

(** ** Splitting *)

(** [left_bytes()] of nodeSplit2 *)
Definition left_bytes (old : BNode) (nleft : Z) : res Z :=
  let* off := getOffset old nleft in
  Ok (u16 (4 + 8 * nleft + 2 * nleft + off)).

(** [right_bytes()] of nodeSplit2 *)
Definition right_bytes (old : BNode) (nleft : Z) : res Z :=
  let* nb := nbytes old in
  let* lb := left_bytes old nleft in
  Ok (u16 (nb - lb + 4)).

(** [for left_bytes() > BTREE_PAGE_SIZE { nleft-- }]; the loop stops at
    [nleft = 0] at the latest, where [left_bytes()] is 4. *)
Fixpoint shrinkLeft (fuel : nat) (old : BNode) (nleft : Z) : res Z :=
  match fuel with
  | O => OutOfFuel
  | S fuel' =>
      let* lb := left_bytes old nleft in
      if lb >? BTREE_PAGE_SIZE then shrinkLeft fuel' old (u16 (nleft - 1))
      else Ok nleft
  end.

(** [for right_bytes() > BTREE_PAGE_SIZE { nleft++ }]; [getOffset] panics
    once [nleft] exceeds [nkeys]. *)
Fixpoint growLeft (fuel : nat) (old : BNode) (nleft : Z) : res Z :=
  match fuel with
  | O => OutOfFuel
  | S fuel' =>
      let* rb := right_bytes old nleft in
      if rb >? BTREE_PAGE_SIZE then growLeft fuel' old (u16 (nleft + 1))
      else Ok nleft
  end.

Definition nodeSplit2 (left right old : BNode) : res (BNode * BNode) :=
  let* n := nkeys old in
  Assert (n >=? 2) "old.nkeys() >= 2" ;;;
  let nleft := n / 2 in
  let* nleft := shrinkLeft (Z.to_nat nleft + 1) old nleft in
  Assert (nleft >=? 1) "nleft >= 1" ;;;
  let* nleft := growLeft (Z.to_nat (n - nleft) + 2) old nleft in
  Assert (nleft <? n) "nleft < old.nkeys()" ;;;
  let nright := u16 (n - nleft) in
  let* t := btype old in
  let* left := setHeader left t nleft in
  let* right := setHeader right t nright in
  let* left := nodeAppendRange left old 0 0 nleft in
  let* right := nodeAppendRange right old 0 nleft nright in
  let* rb := nbytes right in
  Assert (rb <=? BTREE_PAGE_SIZE) "right.nbytes() <= BTREE_PAGE_SIZE" ;;;
  Ok (left, right).

(** nodeSplit3 returns [(nsplit, split)]; the list returned here is
    [split[:nsplit]]. *)
Definition nodeSplit3 (old : BNode) : res (list BNode) :=
  let* nb := nbytes old in
  if nb <=? BTREE_PAGE_SIZE then
    let* old := slice old 0 BTREE_PAGE_SIZE in
    Ok [old]
  else
    let* lr :=
      nodeSplit2 (make (2 * BTREE_PAGE_SIZE)) (make BTREE_PAGE_SIZE) old in
    let '(left_, right_) := lr in
    let* lb := nbytes left_ in
    if lb <=? BTREE_PAGE_SIZE then
      let* left_ := slice left_ 0 BTREE_PAGE_SIZE in
      Ok [left_; right_]
    else
      let* lm :=
        nodeSplit2 (make BTREE_PAGE_SIZE) (make BTREE_PAGE_SIZE) left_ in
      let '(leftleft, middle) := lm in
      let* llb := nbytes leftleft in
      Assert (llb <=? BTREE_PAGE_SIZE)
        "leftleft.nbytes() <= BTREE_PAGE_SIZE" ;;;
      Ok [leftleft; middle; right_].

(** ** The pager

    The tree reaches its pages through three callbacks, [get], [new] and
    [del]. They are modelled by the in-memory pager of the tree's test
    harness (the map [pages] of [newC]); the address of a new buffer, which
    is the page number there, is the counter [fresh]. *)

Record Pager : Type := mkPager {
  pages : gmap Z BNode;
  fresh : Z
}.

Definition M (A : Type) : Type := Pager -> res (A * Pager).

Definition mret {A} (a : A) : M A := fun s => Ok (a, s).
Definition sbind {A B} (m : M A) (f : A -> M B) : M B :=
  fun s => match m s with
           | Ok (a, s') => f a s'
           | Panic msg => Panic msg
           | OutOfFuel => OutOfFuel
           end.
Definition lift {A} (r : res A) : M A :=
  fun s => match r with
           | Ok a => Ok (a, s)
           | Panic msg => Panic msg
           | OutOfFuel => OutOfFuel
           end.
Definition panic {A} (msg : string) : M A := fun _ => Panic msg.

Declare Scope pager_scope.
Delimit Scope pager_scope with pager.
Notation "'let!' x := e 'in' k" := (sbind e (fun x => k))
  (at level 10, x pattern, e at level 100, k at level 200) : pager_scope.
Notation "e ;;! k" := (sbind e (fun _ => k))
  (at level 100, k at level 200, right associativity) : pager_scope.
Local Open Scope pager_scope.

Definition tree_get (ptr : Z) : M BNode :=
  fun s => match pages s !! ptr with
           | Some node => Ok (node, s)
           | None => Panic "node not found"
           end.

Definition tree_new (node : BNode) : M Z :=
  let! nb := lift (nbytes node) in
  lift (Assert (nb <=? BTREE_PAGE_SIZE) "node too large") ;;!
  fun s =>
    let key := fresh s in
    match pages s !! key with
    | Some _ => Panic "node already exists"
    | None => Ok (key, mkPager (<[key := node]> (pages s)) (key + 1))
    end.

Definition tree_del (ptr : Z) : M unit :=
  fun s => match pages s !! ptr with
           | Some _ => Ok (tt, mkPager (delete ptr (pages s)) (fresh s))
           | None => Panic "node not found"
           end.

(** ** Insertion *)

(** [for i, node := range kids { nodeAppendKV(new, idx+uint16(i),
    tree.new(node), node.getKey(0), nil) }] *)
Fixpoint appendKids (new : BNode) (idx : Z) (i : Z) (kids : list BNode)
  : M BNode :=
  match kids with
  | [] => mret new
  | node :: kids' =>
      let! ptr := tree_new node in
      let! key := lift (getKey node 0) in
      let! new := lift (nodeAppendKV new (u16 (idx + u16 i)) ptr key []) in
      appendKids new idx (i + 1) kids'
  end.

Definition nodeReplaceKidN (new old : BNode) (idx : Z) (kids : list BNode)
  : M BNode :=
  let inc := u16 (Z.of_nat (length kids)) in
  let! n := lift (nkeys old) in
  let! new := lift (setHeader new BNODE_NODE (u16 (n + inc - 1))) in
  let! new := lift (nodeAppendRange new old 0 0 idx) in
  let! new := appendKids new idx 0 kids in
  lift (nodeAppendRange new old (u16 (idx + inc)) (u16 (idx + 1))
          (u16 (n - u16 (idx + 1)))).

Definition nodeInsert (treeInsert : BNode -> list byte -> list byte -> M BNode)
    (new node : BNode) (idx : Z) (key val : list byte) : M BNode :=
  let! kptr := lift (getPtr node idx) in
  let! knode := tree_get kptr in
  tree_del kptr ;;!
  let! knode := treeInsert knode key val in
  let! split := lift (nodeSplit3 knode) in
  nodeReplaceKidN new node idx split.

(** The recursion of treeInsert follows the height of the tree; [fuel]
    bounds it. *)
Fixpoint treeInsert (fuel : nat) (node : BNode) (key val : list byte)
  : M BNode :=
  match fuel with
  | O => fun _ => OutOfFuel
  | S fuel' =>
      let new := make (2 * BTREE_PAGE_SIZE) in
      let! idx := lift (nodeLookupLE node key) in
      let! t := lift (btype node) in
      if t =? BNODE_LEAF then
        let! k := lift (getKey node idx) in
        if bytes_Equal key k then lift (leafUpdate new node idx key val)
        else lift (leafInsert new node (u16 (idx + 1)) key val)
      else if t =? BNODE_NODE then
        nodeInsert (treeInsert fuel') new node idx key val
      else panic "invalid node type"
  end.

Definition checkLimit (key val : list byte) : option string :=
  if blen key >? BTREE_MAX_KEY_SIZE then Some "key too large"%string
  else if blen val >? BTREE_MAX_VAL_SIZE then Some "value too large"%string
  else None.

(** [BTree]: the root pointer; the callbacks act on the pager. *)
Record BTree : Type := mkBTree {
  root : Z;
  pager : Pager
}.

(** [for i, knode := range split[:nsplit] { ptr, key := tree.new(knode),
    knode.getKey(0); nodeAppendKV(root, uint16(i), ptr, key, nil) }] *)
Fixpoint appendRootKids (rootn : BNode) (i : Z) (split : list BNode)
  : M BNode :=
  match split with
  | [] => mret rootn
  | knode :: split' =>
      let! ptr := tree_new knode in
      let! key := lift (getKey knode 0) in
      let! rootn := lift (nodeAppendKV rootn (u16 i) ptr key []) in
      appendRootKids rootn (i + 1) split'
  end.

(** The body of Insert once the limits are checked; the result is the new
    root pointer. *)
Definition Insert_body (fuel : nat) (root : Z) (key val : list byte) : M Z :=
  if root =? 0 then
    let rootn := make BTREE_PAGE_SIZE in
    let! rootn := lift (setHeader rootn BNODE_LEAF 2) in
    let! rootn := lift (nodeAppendKV rootn 0 0 [] []) in
    let! rootn := lift (nodeAppendKV rootn 1 0 key val) in
    tree_new rootn
  else
    let! node := tree_get root in
    tree_del root ;;!
    let! node := treeInsert fuel node key val in
    let! split := lift (nodeSplit3 node) in
    let nsplit := Z.of_nat (length split) in
    if nsplit >? 1 then
      let rootn := make BTREE_PAGE_SIZE in
      let! rootn := lift (setHeader rootn BNODE_NODE nsplit) in
      let! rootn := appendRootKids rootn 0 split in
      tree_new rootn
    else
      match split with
      | split0 :: _ => tree_new split0
      | [] => panic "index out of range"
      end.

(** [(tree *BTree).Insert]: the error returned ([None] for nil) and the
    tree afterwards. *)
Definition Insert (fuel : nat) (tree : BTree) (key val : list byte)
  : res (option string * BTree) :=
  match checkLimit key val with
  | Some err => Ok (Some err, tree)
  | None =>
      match Insert_body fuel (root tree) key val (pager tree) with
      | Ok (r, s) => Ok (None, mkBTree r s)
      | Panic msg => Panic msg
      | OutOfFuel => OutOfFuel
      end
  end.

(** ** Lookup *)

(** The [for] loop of Get, from [node] downwards. *)
Fixpoint Get_loop (fuel : nat) (node : BNode) (key : list byte)
  : M (option (list byte)) :=
  match fuel with
  | O => fun _ => OutOfFuel
  | S fuel' =>
      let! idx := lift (nodeLookupLE node key) in
      let! t := lift (btype node) in
      if t =? BNODE_LEAF then
        let! n := lift (nkeys node) in
        if idx <? n then
          let! k := lift (getKey node idx) in
          if bytes_Equal k key then
            let! v := lift (getVal node idx) in
            mret (Some v)
          else mret None
        else mret None
      else if t =? BNODE_NODE then
        let! p := lift (getPtr node idx) in
        let! node := tree_get p in
        Get_loop fuel' node key
      else panic "invalid node type"
  end.

(** [(tree *BTree).Get]: [Some v] for [(v, true)], [None] for
    [(nil, false)]. *)
Definition Get (fuel : nat) (tree : BTree) (key : list byte)
  : res (option (list byte)) :=
  if root tree =? 0 then Ok None
  else
    match (let! node := tree_get (root tree) in
           Get_loop fuel node key) (pager tree) with
    | Ok (r, _) => Ok r
    | Panic msg => Panic msg
    | OutOfFuel => OutOfFuel
    end.

(** ** Deletion *)

(** [shouldMerge]: the direction (-1, 0 or +1) and the sibling. *)
Definition shouldMerge (node : BNode) (idx : Z) (updated : BNode)
  : M (Z * BNode) :=
  let! ub := lift (nbytes updated) in
  if ub >? BTREE_PAGE_SIZE / 4 then mret (0, [])
  else
    let tryRight : M (Z * BNode) :=
      let! n := lift (nkeys node) in
      if u16 (idx + 1) <? n then
        let! p := lift (getPtr node (u16 (idx + 1))) in
        let! sibling := tree_get p in
        let! sb := lift (nbytes sibling) in
        let merged := u16 (sb + ub - HEADER) in
        if merged <=? BTREE_PAGE_SIZE then mret (1, sibling)
        else mret (0, [])
      else mret (0, []) in
    if idx >? 0 then
      let! p := lift (getPtr node (u16 (idx - 1))) in
      let! sibling := tree_get p in
      let! sb := lift (nbytes sibling) in
      let merged := u16 (sb + ub - HEADER) in
      if merged <=? BTREE_PAGE_SIZE then mret (-1, sibling)
      else tryRight
    else tryRight.

Definition nodeDelete (treeDelete : BNode -> list byte -> M BNode)
    (node : BNode) (idx : Z) (key : list byte) : M BNode :=
  let! kptr := lift (getPtr node idx) in
  let! knode := tree_get kptr in
  let! updated := treeDelete knode key in
  if blen updated =? 0 then mret []
  else
    tree_del kptr ;;!
    let new := make BTREE_PAGE_SIZE in
    let! ms := shouldMerge node idx updated in
    let '(mergeDir, sibling) := ms in
    if mergeDir <? 0 then
      let merged := make BTREE_PAGE_SIZE in
      let! merged := lift (nodeMerge merged sibling updated) in
      let! p := lift (getPtr node (u16 (idx - 1))) in
      tree_del p ;;!
      let! mptr := tree_new merged in
      let! k0 := lift (getKey merged 0) in
      lift (nodeReplace2Kid new node (u16 (idx - 1)) mptr k0)
    else if mergeDir >? 0 then
      let merged := make BTREE_PAGE_SIZE in
      let! merged := lift (nodeMerge merged updated sibling) in
      let! p := lift (getPtr node (u16 (idx + 1))) in
      tree_del p ;;!
      let! mptr := tree_new merged in
      let! k0 := lift (getKey merged 0) in
      lift (nodeReplace2Kid new node idx mptr k0)
    else
      let! un := lift (nkeys updated) in
      lift (Assert (un >? 0) "updated.nkeys() > 0") ;;!
      nodeReplaceKidN new node idx [updated].

(** [treeDelete]: the empty node [BNode{}] stands for "not found". *)
Fixpoint treeDelete (fuel : nat) (node : BNode) (key : list byte) : M BNode :=
  match fuel with
  | O => fun _ => OutOfFuel
  | S fuel' =>
      let! idx := lift (nodeLookupLE node key) in
      let! t := lift (btype node) in
      if t =? BNODE_LEAF then
        let! k := lift (getKey node idx) in
        if negb (bytes_Equal key k) then mret []
        else lift (leafDelete (make BTREE_PAGE_SIZE) node idx)
      else if t =? BNODE_NODE then
        nodeDelete (treeDelete fuel') node idx key
      else panic "invalid node type"
  end.

(** The root handler of Delete, once [treeDelete] has found the key. *)
Definition Delete_root (root : Z) (updated : BNode) : M Z :=
  tree_del root ;;!
  let! t := lift (btype updated) in
  let! shrink :=
    (if t =? BNODE_NODE then
       let! n := lift (nkeys updated) in mret (n =? 1)
     else mret false) in
  if shrink : bool then lift (getPtr updated 0)
  else tree_new updated.

(** [(tree *BTree).Delete] of operations.go: whether the key was there. *)
Definition Delete (fuel : nat) (tree : BTree) (key : list byte)
  : res (bool * BTree) :=
  if root tree =? 0 then Ok (false, tree)
  else
    match checkLimit key [] with
    | Some _ => Ok (false, tree)
    | None =>
        match (let! node := tree_get (root tree) in
               let! updated := treeDelete fuel node key in
               if blen updated =? 0 then mret None
               else let! r := Delete_root (root tree) updated in
                    mret (Some r)) (pager tree) with
        | Ok (Some r, s) => Ok (true, mkBTree r s)
        | Ok (None, s) => Ok (false, mkBTree (root tree) s)
        | Panic msg => Panic msg
        | OutOfFuel => OutOfFuel
        end
    end.

(** ** The store and its transactions
    (concurrent-reader-writer/define.go, transaction/define.go) *)

Module Tx.

(** [KVReader]: a read-only transaction, as kept in the reader list. *)
Record KVReader : Type := mkKVReader {
  r_version : Z;
  r_root : Z;
  r_chunks : list (list byte);
  r_index : Z
}.

(** [ReaderList]: the heap of readers, ordered by [Less]. *)
Definition ReaderList : Type := list KVReader.

Definition Less (rl : ReaderList) (i j : nat) : bool :=
  match rl !! i, rl !! j with
  | Some a, Some b => r_version a <? r_version b
  | _, _ => false
  end.

Record FreeListData : Type := mkFreeListData {
  head : Z;
  nodes : list Z;
  total : Z;
  offset : Z
}.

(** [FreeList]: the data and the fields of the running transaction. *)
Record FreeList : Type := mkFreeList {
  fl_data : FreeListData;
  fl_version : Z;
  minReader : Z;
  freed : list Z
}.

(** What reaches the file: FlushPages, Sync (fsync) and StoreMaster. *)
Inductive event : Type := EvFlushPages | EvSync | EvStoreMaster.

Record KV : Type := mkKV {
  tree_root : Z;
  free : FreeListData;
  mmap_chunks : list (list byte);
  page_flushed : Z;
  writer : bool;   (* the writer mutex: locked? *)
  version : Z;
  readers : ReaderList;
  io : list event  (* the calls made on the file, latest first *)
}.
(** The mutex [mu] guards sections that start and end within one call;
    they are atomic here and the mutex is left out. *)

Record KVTX : Type := mkKVTX {
  tx_version : Z;
  tx_chunks : list (list byte);
  tx_root : Z;
  tx_free : FreeList;
  nappend : Z;
  updates : gmap Z (option (list byte))
}.

Definition set_root (r : Z) (kv : KV) : KV :=
  mkKV r (free kv) (mmap_chunks kv) (page_flushed kv) (writer kv)
    (version kv) (readers kv) (io kv).
Definition set_free (f : FreeListData) (kv : KV) : KV :=
  mkKV (tree_root kv) f (mmap_chunks kv) (page_flushed kv) (writer kv)
    (version kv) (readers kv) (io kv).
Definition set_flushed (n : Z) (kv : KV) : KV :=
  mkKV (tree_root kv) (free kv) (mmap_chunks kv) n (writer kv) (version kv)
    (readers kv) (io kv).
Definition set_writer (b : bool) (kv : KV) : KV :=
  mkKV (tree_root kv) (free kv) (mmap_chunks kv) (page_flushed kv) b
    (version kv) (readers kv) (io kv).
Definition emit (e : event) (kv : KV) : KV :=
  mkKV (tree_root kv) (free kv) (mmap_chunks kv) (page_flushed kv)
    (writer kv) (version kv) (readers kv) (e :: io kv).

(** [(fl *FreeList).Pop]: the page number returned (0 on failure) and the
    list afterwards. *)
Definition Pop (fl : FreeList) : Z * FreeList :=
  if total (fl_data fl) =? 0 then (0, fl)
  else
    let d := fl_data fl in
    (head d,
     mkFreeList (mkFreeListData (head d) (nodes d) (total d - 1) (offset d))
       (fl_version fl) (minReader fl) (freed fl)).


(** [kv.FlushPages], [kv.StoreMaster]: they return nil. *)
Definition FlushPages (kv : KV) : option string * KV :=
  (None, emit EvFlushPages kv).
Definition StoreMaster (kv : KV) : option string * KV :=
  (None, emit EvStoreMaster kv).
(** [kv.Sync]: [kv.fp.Sync()], whose outcome [err] is the file system's. *)
Definition Sync (err : option string) (kv : KV) : option string * KV :=
  (err, emit EvSync kv).

(** [Begin] writes into the transaction [tx] of the caller: it puts an
    empty map in [page.updates] and sets the chunks, the version, the root
    and the free list data, its version and [minReader]; [page.nappend]
    and [free.freed] are left as the caller has them. [None] when the
    writer mutex is held, where [Lock] does not return. *)
Definition Begin (kv : KV) (tx : KVTX) : option (KV * KVTX) :=
  if writer kv then None
  else
    let kv := set_writer true kv in
    let fl :=
      mkFreeList (free kv) (version kv) (version kv) (freed (tx_free tx)) in
    let fl :=
      match readers kv with
      | r0 :: _ =>
          mkFreeList (fl_data fl) (fl_version fl) (r_version r0) (freed fl)
      | [] => fl
      end in
    Some (kv,
          mkKVTX (version kv) (mmap_chunks kv) (tree_root kv) fl (nappend tx)
            ∅).

(** [rollbackTX] *)
Definition rollbackTX (kv : KV) (tx : KVTX) : KV :=
  set_flushed 0 (set_root (tx_root tx) kv).

(** [kv.GetWriterMutex().Unlock()]; unlocking a mutex that is not locked
    is a fatal error. *)
Definition Unlock (kv : KV) : res KV :=
  if writer kv then Ok (set_writer false kv)
  else Panic "sync: unlock of unlocked mutex".

(** [Commit] up to the deferred unlock: the error returned and the store;
    [sync1] and [sync2] are the outcomes of the two fsyncs. *)
Definition Commit_body (sync1 sync2 : option string) (kv : KV) (tx : KVTX)
  : option string * KV :=
  if tree_root kv =? tx_root tx then (None, kv)
  else
    match FlushPages kv with
    | (Some err, kv) => (Some err, rollbackTX kv tx)
    | (None, kv) =>
        match Sync sync1 kv with
        | (Some err, kv) => (Some ("fsync: " ++ err)%string, rollbackTX kv tx)
        | (None, kv) =>
            let kv :=
              set_flushed (u64 (page_flushed kv + u64 (nappend tx))) kv in
            let kv := set_free (fl_data (tx_free tx)) kv in
            let kv := set_root (tx_root tx) kv in
            (* kv.version++ - would need a setter for version *)
            match StoreMaster kv with
            | (Some err, kv) => (Some err, kv)
            | (None, kv) =>
                match Sync sync2 kv with
                | (Some err, kv) => (Some ("fsync: " ++ err)%string, kv)
                | (None, kv) => (None, kv)
                end
            end
        end
    end.

(** [Commit] *)
Definition Commit (sync1 sync2 : option string) (kv : KV) (tx : KVTX)
  : res (option string * KV) :=
  let '(err, kv) := Commit_body sync1 sync2 kv tx in
  let* kv := Unlock kv in
  Ok (err, kv).

(** [Abort] *)
Definition Abort (kv : KV) (tx : KVTX) : res KV := Unlock kv.

(** [tx.Update] and [tx.Del] run the tree on the pages of the transaction
    and store the root they obtain in [tx.tree.root]. *)
Definition set_tx_root (r : Z) (tx : KVTX) : KVTX :=
  mkKVTX (tx_version tx) (tx_chunks tx) r (tx_free tx) (nappend tx)
    (updates tx).



(** ** The stores and transactions a program can hold

    Both packages export no constructor: a store and a transaction start
    as Go's zero values, [KV{}] and [KVTX{}], whose free lists have all
    fields zero. [head], [nodes], [total] and [offset] are not exported;
    [total] is written by [Pop] and [Add] only, [head] by no function.
    A free list passes from the store to a transaction in [Begin] and
    back in [Commit]; a program may hold several stores and transactions
    and use any of its transactions with any of its stores. The other
    fields of a store and of a transaction are left open: the last two
    rules let them take any value. *)
Definition zeroFreeListData : FreeListData := mkFreeListData 0 [] 0 0.


End Tx.

(** ** The copy of the tree outside refactor_code

    The package keeps an earlier copy of [Delete], [Insert] and [Get]
    (same node format, same helpers). Its [Insert] and [Delete] are the
    ones above; its [Get] reads the root node only. *)

Module Legacy.

(** [(tree *BTree).Get] *)
Definition Get (tree : BTree) (key : list byte)
  : res (option (list byte)) :=
  if root tree =? 0 then Ok None
  else
    match (let! node := tree_get (root tree) in
           let! idx := lift (nodeLookupLE node key) in
           let! n := lift (nkeys node) in
           if (idx >=? 0) && (idx <? n) then
             let! k := lift (getKey node idx) in
             if bytes_Equal k key then
               let! v := lift (getVal node idx) in
               mret (Some v)
             else mret None
           else mret None) (pager tree) with
    | Ok (r, _) => Ok r
    | Panic msg => Panic msg
    | OutOfFuel => OutOfFuel
    end.

(** [(tree *BTree).Delete]: a [bool] is all it returns. *)
Definition Delete (fuel : nat) (tree : BTree) (key : list byte)
  : res (bool * BTree) :=
  if root tree =? 0 then Ok (false, tree)
  else
    match checkLimit key [] with
    | Some _ => Ok (false, tree)
    | None =>
        match (let! node := tree_get (root tree) in
               let! updated := treeDelete fuel node key in
               if blen updated =? 0 then mret None
               else let! r := Delete_root (root tree) updated in
                    mret (Some r)) (pager tree) with
        | Ok (Some r, s) => Ok (true, mkBTree r s)
        | Ok (None, s) => Ok (false, mkBTree (root tree) s)
        | Panic msg => Panic msg
        | OutOfFuel => OutOfFuel
        end
    end.

End Legacy.

(** ** The first draft of Delete

    The draft whose nodes are plain byte slices returns an error next to
    the [bool]. Its [treeDelete] is a parameter here. *)

Module Draft.

Section Delete.
Variable treeDelete : BNode -> list byte -> M BNode.

(** [(tree *BTree).Delete]: [(found, err)] and the tree afterwards. *)
Definition Delete (tree : BTree) (key : list byte)
: res (bool * option string * BTree) :=
if root tree =? 0 then Ok (false, None, tree)
else
  match checkLimit key [] with
  | Some err => Ok (false, Some err, tree)
  | None =>
      match (let! rootn := tree_get (root tree) in
             let! node := treeDelete rootn key in
             if blen node =? 0 then mret None
             else
               tree_del (root tree) ;;!
               let! n := lift (nkeys node) in
               if n =? 0 then mret (Some 0)
               else let! r := tree_new node in mret (Some r))
              (pager tree) with
      | Ok (Some r, s) => Ok (true, None, mkBTree r s)
      | Ok (None, s) => Ok (false, None, mkBTree (root tree) s)
      | Panic msg => Panic msg
      | OutOfFuel => OutOfFuel
      end
  end.
End Delete.

End Draft.

(** ** Runs of the tree used below *)

Definition emptyTree : BTree := mkBTree 0 (mkPager ∅ 1).

(** A key of 1000 bytes that starts with [b], and a value of 3000 bytes. *)
Definition bigKey (b : byte) : list byte := b :: replicate 999 x00.
Definition bigVal : list byte := replicate 3000 x01.

Definition InsertAll (fuel : nat) (keys : list (list byte)) (val : list byte)
    (tree : BTree) : res BTree :=
  fold_left
    (fun t key => let* t := t in
                  let* r := Insert fuel t key val in
                  Ok r.2)
    keys (Ok tree).

Definition DeleteAll (fuel : nat) (keys : list (list byte)) (tree : BTree)
  : res BTree :=
  fold_left
    (fun t key => let* t := t in
                  let* r := Delete fuel t key in
                  Ok r.2)
    keys (Ok tree).

(** The type and the number of keys of the nodes from the root down to
    the leaf where [key] is looked up. *)
Fixpoint pathShape (fuel : nat) (node : BNode) (key : list byte)
  : M (list (Z * Z)) :=
  match fuel with
  | O => fun _ => OutOfFuel
  | S fuel' =>
      let! t := lift (btype node) in
      let! n := lift (nkeys node) in
      if t =? BNODE_NODE then
        let! idx := lift (nodeLookupLE node key) in
        let! p := lift (getPtr node idx) in
        let! kid := tree_get p in
        let! rest := pathShape fuel' kid key in
        mret ((t, n) :: rest)
      else mret [(t, n)]
  end.

Definition shapeTo (key : list byte) (tree : BTree) : res (list (Z * Z)) :=
  let* r := (let! node := tree_get (root tree) in
             pathShape 8 node key) (pager tree) in
  Ok r.1.

(** Two large entries do not fit in one leaf: the root becomes an
    internal node over two leaves. *)
Definition twoLeaves : res BTree :=
  InsertAll 4 [bigKey x0a; bigKey x14] bigVal emptyTree.

(** A tree of height 3 whose right internal node has one leaf left, with
    one key: eight insertions, then two deletions. *)
Definition oneChildOneKey : res BTree :=
  let* t := InsertAll 4
              [bigKey x0a; bigKey x14; bigKey x1e; bigKey x28; bigKey x32;
               bigKey x3c; bigKey x0b; bigKey x0c] bigVal emptyTree in
  DeleteAll 4 [bigKey x3c; bigKey x32] t.

(** ** Stores used below *)

(** A store at version 7 with root page 1, no reader and nothing freed. *)
Definition storeV7 : Tx.KV :=
  Tx.mkKV 1 (Tx.mkFreeListData 0 [] 0 0) [] 2 false 7 [] [].

(** The same store with readers at versions 3, 5 and 4. *)
Definition storeThreeReaders : Tx.KV :=
  Tx.mkKV 1 (Tx.mkFreeListData 0 [] 0 0) [] 2 false 7
    [Tx.mkKVReader 3 1 [] 0; Tx.mkKVReader 5 1 [] 1; Tx.mkKVReader 4 1 [] 2]
    [].

(** A transaction as declared, [KVTX{}]: every field is Go's zero value. *)
Definition zeroTX : Tx.KVTX :=
  Tx.mkKVTX 0 [] 0 (Tx.mkFreeList Tx.zeroFreeListData 0 0 []) 0 ∅.

(** A transaction that was used before: it counts three appended pages
    and holds a page update and a freed page. *)
Definition usedTX : Tx.KVTX :=
  Tx.mkKVTX 6 [] 1 (Tx.mkFreeList Tx.zeroFreeListData 6 6 [4]) 3
    (<[5 := None]> ∅).

(** The reader list is a heap for [Less] (container/heap): no reader is
    below its parent, the reader at [(j-1)/2]. *)
Definition is_heap (rl : Tx.ReaderList) : Prop :=
  forall j : nat, (1 <= j)%nat -> Tx.Less rl j ((j - 1) / 2)%nat = false.

(** A leaf in a buffer of 64 bytes: the empty key, then the key "b" with
    the value "1", written as Insert writes the first leaf. *)
Definition the_node (r : res BNode) : BNode :=
  match r with
  | Ok node => node
  | _ => []
  end.

Definition smallLeaf : BNode :=
  the_node (let* node := setHeader (make 64) BNODE_LEAF 2 in
            let* node := nodeAppendKV node 0 0 [] [] in
            nodeAppendKV node 1 0 [x62] [x31]).

(** ** A node read as a list of entries

    What the bytes of a node stand for: its type and, per key, the child
    pointer, the key and the value. [node_rep d t n es] reads the buffer
    [d] as a node of type [t] declared with [n] keys of which the entries
    [es] are written; the node is complete when [n] is the length of
    [es]. *)

#[warnings="-notation-for-abbreviation"]
Notation entry := (Z * list byte * list byte)%type.
Definition e_ptr (e : entry) : Z := e.1.1.
Definition e_key (e : entry) : list byte := e.1.2.
Definition e_val (e : entry) : list byte := e.2.

(** The bytes an entry takes in the key-value area. *)
Definition esz (e : entry) : Z := 4 + blen (e_key e) + blen (e_val e).

Fixpoint kvsize (es : list entry) : Z :=
  match es with
  | [] => 0
  | e :: es' => esz e + kvsize es'
  end.

(** The size of a node with the entries [es]: [nbytes]. *)
Definition nsize (es : list entry) : Z :=
  4 + 10 * Z.of_nat (length es) + kvsize es.

Definition enc_kv (e : entry) : list byte :=
  le_bytes 2 (blen (e_key e)) ++ le_bytes 2 (blen (e_val e))
    ++ e_key e ++ e_val e.

Fixpoint enc_kvs (es : list entry) : list byte :=
  match es with
  | [] => []
  | e :: es' => enc_kv e ++ enc_kvs es'
  end.

(** The [m] bytes of [d] from position [p]. *)
Definition rd (d : list byte) (p m : Z) : list byte :=
  take (Z.to_nat m) (drop (Z.to_nat p) d).

Record node_rep (d : BNode) (t n : Z) (es : list entry) : Prop := {
  nr_len : blen d < 65536;
  nr_fit : 4 + 10 * n + kvsize es <= blen d;
  nr_cnt : Z.of_nat (length es) <= n;
  nr_type : 0 <= t < 65536 /\ rd d 0 2 = le_bytes 2 t;
  nr_nkeys : rd d 2 2 = le_bytes 2 n;
  nr_ptrs : forall (i : nat) (e : entry), es !! i = Some e ->
      0 <= e_ptr e < 18446744073709551616
      /\ rd d (4 + 8 * Z.of_nat i) 8 = le_bytes 8 (e_ptr e);
  nr_offs : forall i : nat, (i < length es)%nat ->
      rd d (4 + 8 * n + 2 * Z.of_nat i) 2
      = le_bytes 2 (kvsize (take (S i) es));
  nr_kvs : rd d (4 + 10 * n) (kvsize es) = enc_kvs es
}.

(** A complete node. *)
Definition node_is (d : BNode) (t : Z) (es : list entry) : Prop :=
  node_rep d t (Z.of_nat (length es)) es.

(** The entries of a node, read with the accessors. *)
Fixpoint entries_from (rem : nat) (node : BNode) (i : Z) : res (list entry) :=
  match rem with
  | O => Ok []
  | S rem' =>
      let* p := getPtr node i in
      let* k := getKey node i in
      let* v := getVal node i in
      let* rest := entries_from rem' node (i + 1) in
      Ok ((p, k, v) :: rest)
  end.

Definition entries_of (node : BNode) : res (list entry) :=
  let* n := nkeys node in
  entries_from (Z.to_nat n) node 0.

Fixpoint all_entries (nodes : list BNode) : res (list (list entry)) :=
  match nodes with
  | [] => Ok []
  | node :: nodes' =>
      let* es := entries_of node in
      let* rest := all_entries nodes' in
      Ok (es :: rest)
  end.

(** The limits checkLimit enforces, on an entry. *)
Definition entry_ok (e : entry) : Prop :=
  blen (e_key e) <= BTREE_MAX_KEY_SIZE /\ blen (e_val e) <= BTREE_MAX_VAL_SIZE.

(** The entries of a node as an insertion leaves them, before the split:
    those of a node that fitted in a page, with one entry added
    (leafInsert) or replaced (leafUpdate), or with the link to a child
    replaced by the links to the one to three nodes the child was split
    into (nodeReplaceKidN). *)
Inductive insert_grown : list entry -> Prop :=
| grown_insert (pre post : list entry) (e : entry) :
    nsize (pre ++ post) <= BTREE_PAGE_SIZE ->
    insert_grown (pre ++ e :: post)
| grown_update (pre post : list entry) (e0 e : entry) :
    nsize (pre ++ e0 :: post) <= BTREE_PAGE_SIZE ->
    insert_grown (pre ++ e :: post)
| grown_kids (pre post kids : list entry) (e0 : entry) :
    nsize (pre ++ e0 :: post) <= BTREE_PAGE_SIZE ->
    (1 <= length kids <= 3)%nat ->
    Forall (fun k => e_val k = []) kids ->
    insert_grown (pre ++ kids ++ post).

(** The root leaf after the insertion of [bigKey x0a], and the node
    leafInsert makes of it for [bigKey x14], before any split. *)
Definition firstLeaf : BNode :=
  the_node (let* node := setHeader (make BTREE_PAGE_SIZE) BNODE_LEAF 2 in
            let* node := nodeAppendKV node 0 0 [] [] in
            nodeAppendKV node 1 0 (bigKey x0a) bigVal).

Definition grownLeaf : BNode :=
  the_node (leafInsert (make (2 * BTREE_PAGE_SIZE)) firstLeaf 2
              (bigKey x14) bigVal).

Definition grownLeafEntries : list entry :=
  [(0, [], []); (0, bigKey x0a, bigVal); (0, bigKey x14, bigVal)].

(** ** Keys in order

    The order of bytes.Compare, and the index nodeLookupLE computes, on
    the list of the keys of a node. *)

Definition key_le (a b : list byte) : Prop := bytes_Compare a b <= 0.
Definition key_lt (a b : list byte) : Prop := bytes_Compare a b < 0.

(** The loop of nodeLookupLE over the keys from position [i] on. *)
Fixpoint lookup_loop (ks : list (list byte)) (key : list byte)
    (i found : nat) : nat :=
  match ks with
  | [] => found
  | k :: ks' =>
      let cmp := bytes_Compare k key in
      let found := if cmp <=? 0 then i else found in
      if cmp >=? 0 then found else lookup_loop ks' key (S i) found
  end.

(** The index nodeLookupLE returns on a node with the keys [ks]. *)
Definition lookupLE (ks : list (list byte)) (key : list byte) : nat :=
  lookup_loop (drop 1 ks) key 1 0.

(** Strictly increasing keys. *)
Definition increasing (ks : list (list byte)) : Prop :=
  forall (i j : nat) (a b : list byte),
    (i < j)%nat -> ks !! i = Some a -> ks !! j = Some b -> key_lt a b.

(** The keys of a node or of a tree in order: strictly increasing from
    position 1 on, the first key not above the second (the two are equal
    in a tree whose first insertion was that of the empty key). *)
Definition sorted1 (ks : list (list byte)) : Prop :=
  increasing (drop 1 ks)
  /\ forall a b : list byte,
       ks !! 0%nat = Some a -> ks !! 1%nat = Some b -> key_le a b.

(** [idx] is the last position from 1 on whose key is at most [key], or 0
    when there is none. *)
Definition LE_at (ks : list (list byte)) (key : list byte) (idx : nat)
  : Prop :=
  ((idx < length ks)%nat \/ idx = 0%nat)
  /\ (forall (j : nat) (k : list byte),
        (1 <= j <= idx)%nat -> ks !! j = Some k -> key_le k key)
  /\ (forall (j : nat) (k : list byte),
        (1 <= j)%nat -> (idx < j)%nat -> ks !! j = Some k -> key_lt key k).

Definition keys (es : list entry) : list (list byte) := map e_key es.

(** What Get finds in a leaf with the entries [es]. *)
Definition leaf_get (es : list entry) (key : list byte)
  : option (list byte) :=
  match es !! lookupLE (keys es) key with
  | Some e => if bool_decide (e_key e = key) then Some (e_val e) else None
  | None => None
  end.

(** What treeInsert makes of the entries [es] of a leaf. *)
Definition leaf_put (es : list entry) (key val : list byte) : list entry :=
  let idx := lookupLE (keys es) key in
  match es !! idx with
  | Some e =>
      if bool_decide (key = e_key e)
      then take idx es ++ (0, key, val) :: drop (S idx) es
      else take (S idx) es ++ (0, key, val) :: drop (S idx) es
  | None => es
  end.

(** ** The tree as a whole

    A tree of height [h] over the pages: a leaf is its list of entries, an
    internal node the list of its children, each with the page number it
    is stored under. The key of the link to a child is the first key of
    the child (nodeReplaceKidN and Insert take it with [getKey(0)]). *)

Fixpoint tree (h : nat) : Type :=
  match h with
  | O => list entry
  | S h' => list (Z * tree h')
  end.

(** The entries of the leaves, from left to right. *)
Fixpoint flat (h : nat) : tree h -> list entry :=
  match h with
  | O => fun es => es
  | S h' => fun kids => concat (map (fun pt => flat h' pt.2) kids)
  end.

Definition first_key (es : list entry) : list byte :=
  match es with
  | e :: _ => e_key e
  | [] => []
  end.

Definition link (h : nat) (pt : Z * tree h) : entry :=
  (pt.1, first_key (flat h pt.2), []).

(** The entries of the top node. *)
Definition node_entries (h : nat) : tree h -> list entry :=
  match h with
  | O => fun es => es
  | S h' => fun kids => map (link h') kids
  end.

Definition node_type (h : nat) : Z :=
  match h with
  | O => BNODE_LEAF
  | S _ => BNODE_NODE
  end.

(** The page numbers of the nodes below the top node. *)
Fixpoint ptrs (h : nat) : tree h -> list Z :=
  match h with
  | O => fun _ => []
  | S h' => fun kids => concat (map (fun pt => pt.1 :: ptrs h' pt.2) kids)
  end.

(** The buffer [d] holds the top node of [t], and the pages [pg] the nodes
    below it. *)
Fixpoint rep (pg : gmap Z BNode) (h : nat) : tree h -> BNode -> Prop :=
  match h with
  | O => fun es d => node_is d BNODE_LEAF es
  | S h' => fun kids d =>
      node_is d BNODE_NODE (map (link h') kids)
      /\ Forall (fun pt => exists d', pg !! pt.1 = Some d'
                                      /\ rep pg h' pt.2 d') kids
  end.

(** Every node has an entry and fits in a page; keys and values are
    within the limits. *)
Fixpoint tok (h : nat) : tree h -> Prop :=
  match h with
  | O => fun es =>
      es <> [] /\ nsize es <= BTREE_PAGE_SIZE /\ Forall entry_ok es
  | S h' => fun kids =>
      kids <> [] /\ nsize (map (link h') kids) <= BTREE_PAGE_SIZE
      /\ Forall (fun pt => tok h' pt.2) kids
  end.

Definition below_ok (h : nat) : tree h -> Prop :=
  match h with
  | O => fun es => Forall entry_ok es
  | S h' => fun kids => Forall (fun pt => tok h' pt.2) kids
  end.

(** The tree treeInsert returns: the top node may have outgrown the page,
    it is split by the caller. *)
Definition grown (h : nat) (t : tree h) : Prop :=
  node_entries h t <> [] /\ insert_grown (node_entries h t) /\ below_ok h t.

(** The pager has given out the page numbers below [fr] only. *)
Definition pager_ok (s : Pager) : Prop :=
  0 < fresh s /\ forall p : Z, fresh s <= p -> pages s !! p = None.

(** The entries are in the order of their keys and start with the entry
    of the empty key that the first insertion puts there. *)
Definition in_order (es : list entry) : Prop :=
  sorted1 (keys es) /\ keys es !! 0%nat = Some [].

(** [tr] is a tree of height [h] with the entries [es] in its leaves. *)
Definition holds (h : nat) (tr : BTree) (es : list entry) : Prop :=
  exists (t : tree h) (d : BNode),
    pages (pager tr) !! root tr = Some d
    /\ rep (pages (pager tr)) h t d
    /\ tok h t
    /\ flat h t = es
    /\ in_order es
    /\ NoDup (root tr :: ptrs h t)
    /\ Forall (fun p => 0 < p < fresh (pager tr)) (root tr :: ptrs h t).

(** The states of the tree: the empty tree, or a tree of some height. *)
Definition contents (h : nat) (tr : BTree) (es : list entry) : Prop :=
  pager_ok (pager tr)
  /\ ((root tr = 0 /\ h = 0%nat /\ es = []) \/ holds h tr es).

(** The links to nodes stored under the page numbers from [fr] on, one
    per list of entries. *)
Fixpoint alloc_links (fr : Z) (parts : list (list entry)) : list entry :=
  match parts with
  | [] => []
  | p :: parts' => (fr, first_key p, []) :: alloc_links (fr + 1) parts'
  end.

(** The trees [ts] as children stored under the page numbers from [fr]
    on. *)
Fixpoint alloc_kids (h : nat) (fr : Z) (ts : list (tree h))
  : list (Z * tree h) :=
  match ts with
  | [] => []
  | t :: ts' => (fr, t) :: alloc_kids h (fr + 1) ts'
  end.

(** The entries of the tree after Insert: the first insertion puts the
    entry of the empty key before the new entry. *)
Definition put (es : list entry) (key val : list byte) : list entry :=
  match es with
  | [] => [(0, [], []); (0, key, val)]
  | _ :: _ => leaf_put es key val
  end.

(** The type of the root node of a tree that has one. *)
Definition rootType (tr : BTree) : res Z :=
  let* r := (let! node := tree_get (root tr) in lift (btype node))
              (pager tr) in
  Ok r.1.

(** The tree of a run that ended well. *)
Definition the_tree (r : res BTree) : BTree :=
  match r with
  | Ok t => t
  | _ => emptyTree
  end.

(** The tree of [twoLeaves] and the entries of its leaves. *)
Definition twoLeavesTree : BTree := the_tree twoLeaves.

Definition twoLeavesEntries : list entry :=
  [(0, [], []); (0, bigKey x0a, bigVal); (0, bigKey x14, bigVal)].

(** The tree after the insertion of the key "a" with the value "1" into
    the empty tree: one leaf. *)
Definition oneKeyTree : BTree :=
  the_tree (let* r := Insert 2 emptyTree [x61] [x31] in Ok r.2).

Definition oneKeyEntries : list entry := [(0, [], []); (0, [x61], [x31])].

(** A node written entry by entry, the way Insert writes the first leaf
    and a new root: [setHeader], then one [nodeAppendKV] per entry. *)
Fixpoint appendAll (node : BNode) (idx : Z) (es : list entry) : res BNode :=
  match es with
  | [] => Ok node
  | e :: es' =>
      let* node := nodeAppendKV node idx (e_ptr e) (e_key e) (e_val e) in
      appendAll node (idx + 1) es'
  end.

Definition buildNode (buf : BNode) (btype : Z) (es : list entry)
  : res BNode :=
  let* node := setHeader buf btype (Z.of_nat (length es)) in
  appendAll node 0 es.

(** Small nodes for the examples: two leaves and an internal node, each
    in a buffer of 128 bytes. *)
Definition acEntries : list entry :=
  [(0, [], []); (0, [x61], [x31]); (0, [x63], [x33])].
Definition egEntries : list entry :=
  [(0, [x65], [x35]); (0, [x67], [x37])].
Definition kidEntries : list entry :=
  [(5, [], []); (6, [x65], []); (7, [x6d], [])].

Definition leafAC : BNode :=
  the_node (buildNode (make 128) BNODE_LEAF acEntries).
Definition leafEG : BNode :=
  the_node (buildNode (make 128) BNODE_LEAF egEntries).
Definition nodeKids : BNode :=
  the_node (buildNode (make 128) BNODE_NODE kidEntries).

(** What treeDelete makes of the entries [es] of a leaf. *)
Definition leaf_del (es : list entry) (key : list byte) : list entry :=
  let idx := lookupLE (keys es) key in
  match es !! idx with
  | Some e =>
      if bool_decide (key = e_key e)
      then take idx es ++ drop (S idx) es
      else es
  | None => es
  end.

(** ** Update (operations.go) *)

(** [fmt.Errorf("invalid mode: %d", mode)] *)
Definition invalid_mode (mode : Z) : string :=
  ("invalid mode: " ++ NilZero.string_of_int (Z.to_int mode))%string.

(** [(tree *BTree).Update]: the boolean, the error ([None] for nil) and
    the tree afterwards. Mode 0 inserts or replaces, mode 1 replaces only,
    mode 2 inserts only. *)
Definition Update (fuel : nat) (tree : BTree) (key val : list byte)
    (mode : Z) : res (bool * option string * BTree) :=
  let insert : res (bool * option string * BTree) :=
    let* r := Insert fuel tree key val in Ok (true, r.1, r.2) in
  if mode =? 0 then insert
  else if mode =? 1 then
    let* g := Get fuel tree key in
    match g with
    | Some _ => insert
    | None => Ok (false, None, tree)
    end
  else if mode =? 2 then
    let* g := Get fuel tree key in
    match g with
    | Some _ => Ok (false, None, tree)
    | None => insert
    end
  else Ok (false, Some (invalid_mode mode), tree).

(** ** The iterator (iterator.go) *)

(** [BIter]: the nodes from the root to a leaf and the position in each;
    the tree it points to is the argument of the functions below. *)
Record BIter : Type := mkBIter {
  Path : list BNode;
  Pos : list Z
}.

(** The [for] loop of SeekLE from the page [ptr] downwards. *)
Fixpoint SeekLE_loop (fuel : nat) (ptr : Z) (key : list byte)
    (iter : BIter) : M BIter :=
  if ptr =? 0 then mret iter
  else
    match fuel with
    | O => fun _ => OutOfFuel
    | S fuel' =>
        let! node := tree_get ptr in
        let! idx := lift (nodeLookupLE node key) in
        let iter := mkBIter (Path iter ++ [node]) (Pos iter ++ [idx]) in
        let! t := lift (btype node) in
        let! ptr :=
          (if t =? BNODE_NODE then lift (getPtr node idx) else mret 0) in
        SeekLE_loop fuel' ptr key iter
    end.

(** [(tree *BTree).SeekLE] *)
Definition SeekLE (fuel : nat) (tree : BTree) (key : list byte)
  : res BIter :=
  let* r := SeekLE_loop fuel (root tree) key (mkBIter [] []) (pager tree) in
  Ok r.1.

(** [(iter *BIter).Valid] *)
Definition Valid (iter : BIter) : bool :=
  (0 <? length (Path iter))%nat && (0 <? length (Pos iter))%nat.

(** [(iter *BIter).Deref]: [([], [])] stands for [(nil, nil)]. *)
Definition Deref (iter : BIter) : res (list byte * list byte) :=
  if negb (Valid iter) then Ok ([], [])
  else
    match last (Path iter), last (Pos iter) with
    | Some leaf, Some idx =>
        let* k := getKey leaf idx in
        let* v := getVal leaf idx in
        Ok (k, v)
    | _, _ => Panic "index out of range"
    end.

(** *** Moving the iterator *)

(** [s[i]] and [s[i] = x] on a slice: an index out of range panics. *)
Definition at_index {A} (l : list A) (i : nat) : res A :=
  match l !! i with
  | Some x => Ok x
  | None => Panic "index out of range"
  end.

Definition set_at {A} (l : list A) (i : nat) (x : A) : res (list A) :=
  if (i <? length l)%nat then Ok (<[i := x]> l)
  else Panic "index out of range".

(** The node under the position at [level]:
    [iter.Tree.GetNode(iter.Path[level].GetPtr(iter.Pos[level]))] *)
Definition kidAt (level : nat) (iter : BIter) : M BNode :=
  let! node := lift (at_index (Path iter) level) in
  let! pos := lift (at_index (Pos iter) level) in
  let! p := lift (getPtr node pos) in
  tree_get p.

(** The block [if level+1 < len(iter.Pos) { ... }] of iterNext: the kid
    becomes the node of the next level, at its first position. *)
Definition nextKid (level : nat) (iter : BIter) : M BIter :=
  if (level + 1 <? length (Pos iter))%nat then
    let! kid := kidAt level iter in
    let! path := lift (set_at (Path iter) (level + 1) kid) in
    let! pos := lift (set_at (Pos iter) (level + 1) 0) in
    mret (mkBIter path pos)
  else mret iter.

(** [iterNext]; the [return] of level 0 leaves the block out. *)
Fixpoint iterNext (level : nat) (iter : BIter) : M BIter :=
  let! pos := lift (at_index (Pos iter) level) in
  let! node := lift (at_index (Path iter) level) in
  let! n := lift (nkeys node) in
  if u16 (pos + 1) <? n then
    let! pos' := lift (set_at (Pos iter) level (u16 (pos + 1))) in
    nextKid level (mkBIter (Path iter) pos')
  else
    match level with
    | S level' =>
        let! iter := iterNext level' iter in
        nextKid level iter
    | O => mret iter
    end.

(** The block of iterPrev: the kid becomes the node of the next level, at
    its last position. *)
Definition prevKid (level : nat) (iter : BIter) : M BIter :=
  if (level + 1 <? length (Pos iter))%nat then
    let! kid := kidAt level iter in
    let! path := lift (set_at (Path iter) (level + 1) kid) in
    let! n := lift (nkeys kid) in
    let! pos := lift (set_at (Pos iter) (level + 1) (u16 (n - 1))) in
    mret (mkBIter path pos)
  else mret iter.

(** [iterPrev] *)
Fixpoint iterPrev (level : nat) (iter : BIter) : M BIter :=
  let! pos := lift (at_index (Pos iter) level) in
  if pos >? 0 then
    let! pos' := lift (set_at (Pos iter) level (u16 (pos - 1))) in
    prevKid level (mkBIter (Path iter) pos')
  else
    match level with
    | S level' =>
        let! iter := iterPrev level' iter in
        prevKid level iter
    | O => mret iter
    end.

(** [(iter *BIter).Next] and [(iter *BIter).Prev] on the iterator of
    [tree]: the level [len(iter.Path)-1] is -1 on an empty path, where
    [iter.Pos[level]] panics. *)
Definition Next (tree : BTree) (iter : BIter) : res BIter :=
  match length (Path iter) with
  | O => Panic "index out of range"
  | S level => let* r := iterNext level iter (pager tree) in Ok r.1
  end.

Definition Prev (tree : BTree) (iter : BIter) : res BIter :=
  match length (Path iter) with
  | O => Panic "index out of range"
  | S level => let* r := iterPrev level iter (pager tree) in Ok r.1
  end.

(** [n] calls of Next, and of Prev. *)
Fixpoint Nexts (n : nat) (tree : BTree) (iter : BIter) : res BIter :=
  match n with
  | O => Ok iter
  | S n' => let* iter := Next tree iter in Nexts n' tree iter
  end.

Fixpoint Prevs (n : nat) (tree : BTree) (iter : BIter) : res BIter :=
  match n with
  | O => Ok iter
  | S n' => let* iter := Prev tree iter in Prevs n' tree iter
  end.

(** Pages for the three links of [nodeKids]. *)
Definition kidPages : gmap Z BNode :=
  <[5 := leafAC]> (<[6 := leafEG]> (<[7 := leafEG]> ∅)).

(** ** The reader list (concurrent-reader-writer/define.go)

    [ReaderList] is a slice of pointers: the readers live in a store
    [objs], keyed by address, and the list holds addresses. Swap, Push and
    Pop write the field [index] of the readers they move. *)

Module Readers.

Record state : Type := mkState {
  objs : gmap Z Tx.KVReader;
  rl : list Z
}.

(** [p.index = i] for the reader at the address [p] *)
Definition set_index (p : Z) (i : Z) (o : gmap Z Tx.KVReader)
  : res (gmap Z Tx.KVReader) :=
  match o !! p with
  | Some r =>
      Ok (<[p := Tx.mkKVReader (Tx.r_version r) (Tx.r_root r)
                   (Tx.r_chunks r) i]> o)
  | None => Panic "invalid memory address or nil pointer dereference"
  end.

(** [(rl ReaderList).Len] *)
Definition Len (s : state) : Z := Z.of_nat (length (rl s)).

(** [(rl ReaderList).Less] *)
Definition Less (s : state) (i j : nat) : res bool :=
  match rl s !! i, rl s !! j with
  | Some p, Some q =>
      match objs s !! p, objs s !! q with
      | Some a, Some b => Ok (Tx.r_version a <? Tx.r_version b)
      | _, _ => Panic "invalid memory address or nil pointer dereference"
      end
  | _, _ => Panic "index out of range"
  end.

(** [(rl ReaderList).Swap]:
    [rl[i], rl[j] = rl[j], rl[i]; rl[i].index, rl[j].index = i, j] *)
Definition Swap (s : state) (i j : nat) : res state :=
  match rl s !! i, rl s !! j with
  | Some p, Some q =>
      let l := <[j := p]> (<[i := q]> (rl s)) in
      match l !! i, l !! j with
      | Some p', Some q' =>
          let* o := set_index p' (Z.of_nat i) (objs s) in
          let* o := set_index q' (Z.of_nat j) o in
          Ok (mkState o l)
      | _, _ => Panic "index out of range"
      end
  | _, _ => Panic "index out of range"
  end.

(** [(rl *ReaderList).Push] of the reader at the address [item] *)
Definition Push (s : state) (item : Z) : res state :=
  let n := length (rl s) in
  let* o := set_index item (Z.of_nat n) (objs s) in
  Ok (mkState o (rl s ++ [item])).

(** [(rl *ReaderList).Pop]: the address of the reader removed. *)
Definition Pop (s : state) : res (Z * state) :=
  let n := length (rl s) in
  match rl s !! (n - 1)%nat with
  | Some item =>
      let* o := set_index item (-1) (objs s) in
      Ok (item, mkState o (take (n - 1) (rl s)))
  | None => Panic "index out of range"
  end.

(** Every reader of the list knows its position. *)
Definition indexed (s : state) : Prop :=
  forall (i : nat) (p : Z),
    rl s !! i = Some p ->
    exists r, objs s !! p = Some r /\ Tx.r_index r = Z.of_nat i.

End Readers.

(** Two readers, at the addresses 100 and 200, in a list. *)
Definition twoReaders : Readers.state :=
  Readers.mkState
    (<[100 := Tx.mkKVReader 3 1 [] 0]>
       (<[200 := Tx.mkKVReader 5 1 [] 1]>
          (<[300 := Tx.mkKVReader 4 1 [] (-1)]> ∅)))
    [100; 200].

(** *** The iterator over the tree as a whole *)

(** [c] runs of the block of iterNext, on the levels [m], [m + 1], ... *)
Fixpoint nextKids (m c : nat) (iter : BIter) : M BIter :=
  match c with
  | O => mret iter
  | S c' => let! iter := nextKid m iter in nextKids (S m) c' iter
  end.

Fixpoint prevKids (m c : nat) (iter : BIter) : M BIter :=
  match c with
  | O => mret iter
  | S c' => let! iter := prevKid m iter in prevKids (S m) c' iter
  end.

(** A result on the levels below [d], seen from the level of [d]. *)
Definition under (d : BNode) (j : Z) (r : res (BIter * Pager))
  : res (BIter * Pager) :=
  match r with
  | Ok (it, s) => Ok (mkBIter (d :: Path it) (j :: Pos it), s)
  | Panic msg => Panic msg
  | OutOfFuel => OutOfFuel
  end.

(** [path] holds the nodes from the top node [d] of [t] down to a leaf
    along the positions [js]. *)
Fixpoint descent (pg : gmap Z BNode) (h : nat)
  : tree h -> BNode -> list nat -> list BNode -> Prop :=
  match h with
  | O => fun es d js path =>
      exists j : nat, js = [j] /\ path = [d] /\ (j < length es)%nat
  | S h' => fun (kids : list (Z * tree h')) d js path =>
      exists (j : nat) (js' : list nat) (path' : list BNode)
             (pt : Z * tree h') (d' : BNode),
        js = j :: js' /\ path = d :: path'
        /\ kids !! j = Some pt /\ pg !! pt.1 = Some d'
        /\ descent pg h' pt.2 d' js' path'
  end.

(** The number of entries of [t] before the one at the positions [js]. *)
Fixpoint rank (h : nat) : tree h -> list nat -> nat :=
  match h with
  | O => fun _ js => match js with j :: _ => j | [] => 0%nat end
  | S h' => fun (kids : list (Z * tree h')) js =>
      match js with
      | j :: js' =>
          (length (concat (take j (map (fun pt => flat h' pt.2) kids)))
           + match kids !! j with
             | Some pt => rank h' pt.2 js'
             | None => 0
             end)%nat
      | [] => 0%nat
      end
  end.

(** The iterator [it] stands on the entry number [i] of the tree. *)
Definition stands_at (h : nat) (tr : BTree) (es : list entry) (it : BIter)
    (i : nat) : Prop :=
  exists (t : tree h) (d : BNode) (js : list nat),
    pages (pager tr) !! root tr = Some d
    /\ rep (pages (pager tr)) h t d
    /\ tok h t
    /\ flat h t = es
    /\ descent (pages (pager tr)) h t d js (Path it)
    /\ Pos it = map Z.of_nat js
    /\ rank h t js = i.

(** The level [x] of the iterator can move forward, or cannot. *)
Definition movable (it : BIter) (x : nat) (fwd : bool) : Prop :=
  exists (p : Z) (d : BNode) (n : Z),
    Pos it !! x = Some p /\ Path it !! x = Some d /\ nkeys d = Ok n
    /\ (u16 (p + 1) <? n) = fwd.

(** The level [x] of the iterator can move backward, or cannot. *)
Definition movable_back (it : BIter) (x : nat) (bwd : bool) : Prop :=
  exists p : Z, Pos it !! x = Some p /\ (p >? 0) = bwd.

(** The number of entries of [t] under the first [k] positions of its top
    node. *)
Definition upto (h : nat) : tree h -> nat -> nat :=
  match h with
  | O => fun _ k => k
  | S h' => fun (kids : list (Z * tree h')) k =>
      length (concat (take k (map (fun pt => flat h' pt.2) kids)))
  end.

(** ** The store on a memory-mapped file (the KV of the first tree)

    The pages are read from the chunks mapped from the file; the file and
    the mapping are extended before new pages are written. The outcomes of
    syscall.Fallocate and syscall.Mmap are the operating system's: they
    are arguments here. *)

Module Store.

(** Go's [int], of 64 bits. *)
Definition int (z : Z) : Z :=
  (z + 9223372036854775808) mod 18446744073709551616 - 9223372036854775808.

Record KV : Type := mkKV {
  mmap_file : Z;                    (* file size *)
  mmap_total : Z;                   (* mmap size *)
  mmap_chunks : list (list byte);   (* the mappings *)
  fallocated : list Z   (* the sizes passed to Fallocate, latest first *)
}.

(** The loop of pageRead over the chunks, [start] being the number of the
    first page of the next chunk. *)
Fixpoint pageRead_loop (chunks : list (list byte)) (start ptr : Z)
  : res (list byte) :=
  match chunks with
  | [] => Panic "bad ptr"
  | chunk :: chunks' =>
      let end_ := u64 (start + u64 (blen chunk) / BTREE_PAGE_SIZE) in
      if ptr <? end_ then
        let offset := u64 (BTREE_PAGE_SIZE * u64 (ptr - start)) in
        slice chunk offset (u64 (offset + BTREE_PAGE_SIZE))
      else pageRead_loop chunks' end_ ptr
  end.

(** [(db *KV).pageRead] *)
Definition pageRead (db : KV) (ptr : Z) : res (list byte) :=
  pageRead_loop (mmap_chunks db) 0 ptr.

(** The loop of extendFile: the number of pages grows by an eighth, and
    by one page at least, until it reaches [npages]. *)
Fixpoint grow_pages (fuel : nat) (filePages npages : Z) : res Z :=
  if filePages <? npages then
    match fuel with
    | O => OutOfFuel
    | S fuel' =>
        let inc := Z.quot filePages 8 in
        let inc := if inc <? 1 then 1 else inc in
        grow_pages fuel' (int (filePages + inc)) npages
    end
  else Ok filePages.

(** [extendFile]: the error returned and the store afterwards;
    [fallocate size] is the outcome of syscall.Fallocate. *)
Definition extendFile (fuel : nat) (fallocate : Z -> option string)
    (db : KV) (npages : Z) : res (option string * KV) :=
  let filePages := Z.quot (mmap_file db) BTREE_PAGE_SIZE in
  if filePages >=? npages then Ok (None, db)
  else
    let* filePages := grow_pages fuel filePages npages in
    let fileSize := int (filePages * BTREE_PAGE_SIZE) in
    let calls := fileSize :: fallocated db in
    match fallocate fileSize with
    | Some err =>
        Ok (Some ("fallocate: " ++ err)%string,
            mkKV (mmap_file db) (mmap_total db) (mmap_chunks db) calls)
    | None =>
        Ok (None, mkKV fileSize (mmap_total db) (mmap_chunks db) calls)
    end.

(** The loop of extendMmap: the size of the new mapping doubles until the
    mappings reach [size]. *)
Fixpoint grow_alloc (fuel : nat) (total alloc size : Z) : res Z :=
  if int (total + alloc) <? size then
    match fuel with
    | O => OutOfFuel
    | S fuel' => grow_alloc fuel' total (int (alloc * 2)) size
    end
  else Ok alloc.

(** [extendMmap]; [mmap offset length] is the outcome of syscall.Mmap,
    the chunk mapped and the error. *)
Definition extendMmap (fuel : nat)
    (mmap : Z -> Z -> list byte * option string) (db : KV) (size : Z)
  : res (option string * KV) :=
  if size <=? mmap_total db then Ok (None, db)
  else
    let* alloc :=
      grow_alloc fuel (mmap_total db)
        (Z.max (mmap_total db) (Z.shiftl 64 20)) size in
    match mmap (mmap_total db) alloc with
    | (_, Some err) => Ok (Some ("mmap: " ++ err)%string, db)
    | (chunk, None) =>
        Ok (None,
            mkKV (mmap_file db) (int (mmap_total db + alloc))
              (mmap_chunks db ++ [chunk]) (fallocated db))
    end.

(** Every chunk is a whole number of pages, and [mmap.total] is their
    size. *)
Definition mapped (db : KV) : Prop :=
  Forall (fun c => blen c mod BTREE_PAGE_SIZE = 0) (mmap_chunks db)
  /\ mmap_total db = blen (concat (mmap_chunks db)).

End Store.

(** A store with two mappings, of two pages and of one page. *)
Definition twoChunks : Store.KV :=
  Store.mkKV 12288 12288
    [replicate 4096 x01 ++ replicate 4096 x02; replicate 4096 x03] [].

(** An outcome of syscall.Mmap: a mapping of zero bytes of the length
    asked for, and EINVAL for a negative length. *)
Definition zeroMmap (offset length : Z) : list byte * option string :=
  if length <? 0 then ([], Some "EINVAL"%string)
  else (replicate (Z.to_nat length) x00, None).

(** [tr] is a tree of one leaf with the entries [es], in whatever
    order. *)
Definition leaf_tree (tr : BTree) (es : list entry) : Prop :=
  pager_ok (pager tr)
  /\ 0 < root tr < fresh (pager tr)
  /\ es <> [] /\ nsize es <= BTREE_PAGE_SIZE /\ Forall entry_ok es
  /\ exists d : BNode,
       pages (pager tr) !! root tr = Some d /\ node_is d BNODE_LEAF es.

(** ** The pages of a transaction (transaction/define.go)

    The tree and the free list of a transaction read and write pages
    through these callbacks. [get] is the page getter of the tree of the
    store, [tx.db.GetTree().GetNode]. A nil slice and an empty one are
    both the empty list. *)

Module KVTX.

Definition set_page (n : Z) (u : gmap Z (option (list byte)))
    (tx : Tx.KVTX) : Tx.KVTX :=
  Tx.mkKVTX (Tx.tx_version tx) (Tx.tx_chunks tx) (Tx.tx_root tx)
    (Tx.tx_free tx) n u.

(** [tx.pageGet]: a nil entry of [page.updates] is a deallocated page. *)
Definition pageGet (get : Z -> res BNode) (tx : Tx.KVTX) (ptr : Z)
  : res BNode :=
  match Tx.updates tx !! ptr with
  | Some None => Ok []
  | Some (Some data) => Ok data
  | None => get ptr
  end.

(** [tx.pageNew]: the page number and the transaction afterwards. *)
Definition pageNew (kv : Tx.KV) (tx : Tx.KVTX) (node : BNode)
  : Z * Tx.KVTX :=
  let ptr := u64 (Tx.page_flushed kv + u64 (Tx.nappend tx)) in
  (ptr,
   set_page (Store.int (Tx.nappend tx + 1))
     (<[ptr := Some node]> (Tx.updates tx)) tx).

(** [tx.pageDel] *)
Definition pageDel (tx : Tx.KVTX) (ptr : Z) : Tx.KVTX :=
  set_page (Tx.nappend tx) (<[ptr := None]> (Tx.updates tx)) tx.

(** [tx.pageAppend] *)
Definition pageAppend (kv : Tx.KV) (tx : Tx.KVTX) (node : BNode)
  : Z * Tx.KVTX :=
  pageNew kv tx node.

(** [tx.pageUse] *)
Definition pageUse (tx : Tx.KVTX) (ptr : Z) (node : BNode) : Tx.KVTX :=
  set_page (Tx.nappend tx) (<[ptr := Some node]> (Tx.updates tx)) tx.

(** [pageNew] for each node of a list, in order: the page numbers and the
    transaction afterwards. *)
Fixpoint pageNews (kv : Tx.KV) (tx : Tx.KVTX) (nodes : list BNode)
  : list Z * Tx.KVTX :=
  match nodes with
  | [] => ([], tx)
  | node :: rest =>
      let r := pageNew kv tx node in
      let rs := pageNews kv r.2 rest in
      (r.1 :: rs.1, rs.2)
  end.

End KVTX.

(** * Properties *)

Arguments blen : simpl never.
Arguments rd : simpl never.
Arguments u16 : simpl never.
Arguments u64 : simpl never.
Arguments esz : simpl never.
Arguments overwrite : simpl never.
Arguments make : simpl never.

Lemma rbind_Ok {A B} (m : res A) (f : A -> res B) (b : B) :
  rbind m f = Ok b -> exists a, m = Ok a /\ f a = Ok b.
Proof. destruct m as [a| |]; simpl; intros H; try discriminate; eauto. Qed.

Lemma Assert_Ok (c : bool) (msg : string) (u : unit) :
  Assert c msg = Ok u -> c = true.
Proof. destruct c; simpl; [reflexivity | discriminate]. Qed.

(** ** The lookup of the earlier copy stops at the root *)

(** C1 (fails in the earlier copy). After two insertions that split the
    root leaf, the root is an internal node with two keys over leaves, and
    the key inserted first is in the tree: the [Get] of operations.go,
    which walks down from the root, returns its value; the [Get] of the
    earlier copy looks into the root node only and reports the key as
    absent. *)
Theorem Legacy_Get_misses_key_below_root :
  (let* t := twoLeaves in shapeTo (bigKey x0a) t) = Ok [(1, 2); (2, 2)]
  /\ (let* t := twoLeaves in Get 4 t (bigKey x0a)) = Ok (Some bigVal)
  /\ (let* t := twoLeaves in Legacy.Get t (bigKey x0a)) = Ok None.
Proof. split; [|split]; vm_compute; reflexivity. Qed.

(** ** The root handler of operations.go after a collapse *)

(** C5 (fails in operations.go). In [oneChildOneKey] the key [bigKey x28]
    sits in a leaf with one key, the only child of an internal node below
    the root. Deleting that key leaves the child with no key and no
    sibling to merge with; [nodeDelete] then stops on its assertion
    instead of returning a parent without keys. *)
Theorem Delete_panics_on_collapsed_child :
  (let* t := oneChildOneKey in shapeTo (bigKey x28) t)
    = Ok [(1, 2); (1, 1); (2, 1)]
  /\ (let* t := oneChildOneKey in Get 4 t (bigKey x28)) = Ok (Some bigVal)
  /\ (let* t := oneChildOneKey in
      let* r := Delete 4 t (bigKey x28) in Ok r.1)
     = Panic "updated.nkeys() > 0".
Proof. split; [|split]; vm_compute; reflexivity. Qed.

(** ** Delete and the size limit *)

(** Delete answers [false] for a key above the limit and leaves the tree
    as it is. *)
Lemma Delete_too_large (fuel : nat) (tree : BTree) (key : list byte) :
  blen key > BTREE_MAX_KEY_SIZE ->
  Delete fuel tree key = Ok (false, tree)
  /\ Legacy.Delete fuel tree key = Ok (false, tree).
Proof.
  intros Hk. unfold Delete, Legacy.Delete, checkLimit.
  destruct (root tree =? 0); [split; reflexivity|].
  destruct (Z.gtb_spec (blen key) BTREE_MAX_KEY_SIZE) as [_|N];
    [split; reflexivity|lia].
Qed.

(** C6 (fails in operations.go and in the earlier copy). On a tree that
    holds keys, deleting a key of 1001 bytes returns [false], which is
    also what deleting an absent key of 3 bytes returns: no error tells
    the two apart. *)
Theorem Delete_too_large_is_false :
  blen (replicate 1001 x61) = 1001
  /\ (let* t := twoLeaves in
      let* r := Legacy.Delete 4 t (replicate 1001 x61) in Ok r.1) = Ok false
  /\ (let* t := twoLeaves in
      let* r := Delete 4 t (replicate 1001 x61) in Ok r.1) = Ok false
  /\ (let* t := twoLeaves in
      let* r := Delete 4 t (replicate 3 x61) in Ok r.1) = Ok false.
Proof. split; [|split; [|split]]; vm_compute; reflexivity. Qed.

(** The draft returns the error, on every tree that has a root. *)
Lemma Draft_Delete_too_large treeDelete (tree : BTree) (key : list byte) :
  root tree <> 0 ->
  blen key > BTREE_MAX_KEY_SIZE ->
  Draft.Delete treeDelete tree key = Ok (false, Some "key too large"%string, tree).
Proof.
  intros Hr Hk. unfold Draft.Delete.
  destruct (Z.eqb_spec (root tree) 0) as [E|_]; [contradiction|].
  unfold checkLimit.
  destruct (Z.gtb_spec (blen key) BTREE_MAX_KEY_SIZE) as [_|N]; [reflexivity|lia].
Qed.

(** On an empty tree both return [false] without an error, whatever the
    key. *)
Lemma Draft_Delete_empty treeDelete (tree : BTree) (key : list byte) :
  root tree = 0 -> Draft.Delete treeDelete tree key = Ok (false, None, tree).
Proof. intros Hr. unfold Draft.Delete. rewrite Hr. reflexivity. Qed.

(** ** The transaction layer *)

(** No path of Commit touches the version. *)
Lemma Commit_body_version s1 s2 kv tx :
  Tx.version (Tx.Commit_body s1 s2 kv tx).2 = Tx.version kv.
Proof.
  unfold Tx.Commit_body.
  destruct (Tx.tree_root kv =? Tx.tx_root tx); [reflexivity|].
  simpl. destruct s1 as [e1|]; [reflexivity|].
  simpl. destruct s2 as [e2|]; reflexivity.
Qed.

Lemma Commit_version s1 s2 kv tx err kv' :
  Tx.Commit s1 s2 kv tx = Ok (err, kv') -> Tx.version kv' = Tx.version kv.
Proof.
  unfold Tx.Commit. intros H.
  pose proof (Commit_body_version s1 s2 kv tx) as Hv.
  destruct (Tx.Commit_body s1 s2 kv tx) as [e k]. simpl in *.
  unfold Tx.Unlock in H. destruct (Tx.writer k); simpl in H; [|discriminate].
  injection H as _ <-. exact Hv.
Qed.

(** C2 (fails in the code). A transaction begins on the store at
    version 7, moves its root from page 1 to page 2 and commits, both
    fsyncs succeeding. Commit returns nil, publishes the new root, and the
    version of the store is still 7. *)
Theorem Commit_leaves_version_unchanged :
  exists kv tx kv',
    Tx.Begin storeV7 zeroTX = Some (kv, tx)
    /\ Tx.Commit None None kv (Tx.set_tx_root 2 tx) = Ok (None, kv')
    /\ Tx.tree_root kv' = 2
    /\ Tx.version storeV7 = 7
    /\ Tx.version kv' = 7.
Proof. do 3 eexists. repeat split. Qed.

(** Pop returns the head pointer whenever the list counts an item. *)
Lemma Pop_returns_head (fl : Tx.FreeList) :
  Tx.total (Tx.fl_data fl) <> 0 -> (Tx.Pop fl).1 = Tx.head (Tx.fl_data fl).
Proof.
  intros H. unfold Tx.Pop.
  destruct (Z.eqb_spec (Tx.total (Tx.fl_data fl)) 0); [contradiction|reflexivity].
Qed.

(** The reader version plays no part in it. *)
Lemma Pop_ignores_minReader d v m1 m2 f :
  (Tx.Pop (Tx.mkFreeList d v m1 f)).1 = (Tx.Pop (Tx.mkFreeList d v m2 f)).1.
Proof. unfold Tx.Pop. simpl. destruct (Tx.total d =? 0); reflexivity. Qed.




(** C8. A Commit whose root is the root of the store returns nil, calls
    neither FlushPages nor Sync nor StoreMaster, and leaves the store as it
    was, the writer mutex released. *)
Theorem Commit_unchanged_root s1 s2 (kv : Tx.KV) (tx : Tx.KVTX) :
  Tx.writer kv = true ->
  Tx.tree_root kv = Tx.tx_root tx ->
  Tx.Commit s1 s2 kv tx = Ok (None, Tx.set_writer false kv).
Proof.
  intros Hw Hr. unfold Tx.Commit, Tx.Commit_body.
  rewrite Hr, Z.eqb_refl. unfold Tx.Unlock. rewrite Hw. reflexivity.
Qed.

(** A transaction that begins on [storeV7] and commits at once. *)
Lemma Commit_unchanged_root_witness :
  exists kv tx,
    Tx.Begin storeV7 zeroTX = Some (kv, tx)
    /\ Tx.writer kv = true
    /\ Tx.tree_root kv = Tx.tx_root tx
    /\ Tx.Commit None None kv tx = Ok (None, Tx.set_writer false kv)
    /\ Tx.set_writer false kv = storeV7.
Proof.
  do 2 eexists. split; [reflexivity|]. split; [reflexivity|].
  split; [reflexivity|]. split; [|reflexivity].
  apply (Commit_unchanged_root None None); reflexivity.
Defined.

(** In a heap the first reader has the least version. *)
Lemma heap_root_least (rl : Tx.ReaderList) (r0 : Tx.KVReader) :
  is_heap rl -> rl !! 0%nat = Some r0 ->
  forall (j : nat) (a : Tx.KVReader),
    rl !! j = Some a -> Tx.r_version r0 <= Tx.r_version a.
Proof.
  intros Hh H0 j. induction j as [j IH] using lt_wf_ind. intros a Ha.
  destruct (Nat.eq_dec j 0%nat) as [->|Hj].
  - rewrite H0 in Ha. injection Ha as <-. lia.
  - assert (Hlen : (j < length rl)%nat) by (eapply lookup_lt_Some; eauto).
    specialize (Hh j ltac:(lia)). unfold Tx.Less in Hh. rewrite Ha in Hh.
    match type of Hh with
    | match _ !! ?p with _ => _ end = _ =>
        assert (Hp : (p < j)%nat)
          by (apply Nat.Div0.div_lt_upper_bound; lia);
        destruct (rl !! p) as [b|] eqn:Hb
    end.
    + apply Z.ltb_ge in Hh. specialize (IH _ Hp b Hb). lia.
    + apply lookup_ge_None in Hb. lia.
Qed.

(** C7, as the code has it. Begin captures the least version among the
    registered readers, that of the reader at the root of the heap, when
    there is a reader; with no reader it captures the current version of
    the store (not the version plus one). *)
Theorem Begin_minReader (kv kv' : Tx.KV) (tx0 tx : Tx.KVTX) :
  Tx.Begin kv tx0 = Some (kv', tx) ->
  is_heap (Tx.readers kv) ->
  (Tx.readers kv = [] ->
     Tx.minReader (Tx.tx_free tx) = Tx.version kv)
  /\ (Tx.readers kv <> [] ->
        (exists r, r ∈ Tx.readers kv
                   /\ Tx.r_version r = Tx.minReader (Tx.tx_free tx))
        /\ forall r, r ∈ Tx.readers kv ->
                     Tx.minReader (Tx.tx_free tx) <= Tx.r_version r).
Proof.
  unfold Tx.Begin. intros HB Hh.
  destruct (Tx.writer kv); [discriminate|]. simpl in HB.
  injection HB as _ <-. simpl.
  destruct (Tx.readers kv) as [|r0 rl] eqn:Hr.
  - split; [reflexivity|]. intros N. contradiction.
  - split; [discriminate|]. intros _. simpl. split.
    + exists r0. split; [apply list_elem_of_here|reflexivity].
    + intros r Hin. apply list_elem_of_lookup in Hin as [j Hj].
      exact (heap_root_least (r0 :: rl) r0 Hh eq_refl j r Hj).
Qed.

Lemma Begin_minReader_witness :
  is_heap (Tx.readers storeThreeReaders)
  /\ exists kv' tx,
       Tx.Begin storeThreeReaders zeroTX = Some (kv', tx)
       /\ Tx.minReader (Tx.tx_free tx) = 3
       /\ forall r, r ∈ Tx.readers storeThreeReaders ->
                    Tx.minReader (Tx.tx_free tx) <= Tx.r_version r.
Proof.
  assert (Hh : is_heap (Tx.readers storeThreeReaders)).
  { intros j Hj. destruct j as [|[|[|j]]];
      [lia|reflexivity|reflexivity|reflexivity]. }
  split; [exact Hh|].
  do 2 eexists. split; [reflexivity|]. split; [reflexivity|].
  apply (Begin_minReader storeThreeReaders _ zeroTX _ eq_refl Hh).
  discriminate.
Defined.

(** C7 as stated fails on the store without readers: Begin captures 7,
    the version of the store, where the claim has 8. *)
Lemma Begin_minReader_plus_one_counterexample :
  ~ (forall kv' tx, Tx.Begin storeV7 zeroTX = Some (kv', tx) ->
       Tx.readers storeV7 = [] ->
       Tx.minReader (Tx.tx_free tx) = Tx.version storeV7 + 1).
Proof.
  intros H. specialize (H _ _ eq_refl eq_refl). discriminate H.
Qed.

(** ** nodeLookupLE *)

Lemma nodeLookupLE_loop_range (rem : nat) (node : BNode) (key : list byte)
    (i found idx : Z) :
  0 <= found < i ->
  nodeLookupLE_loop rem node key i found = Ok idx ->
  0 <= idx < i + Z.of_nat rem.
Proof.
  revert i found. induction rem as [|rem IH]; intros i found Hf H; simpl in H.
  - injection H as <-. lia.
  - apply rbind_Ok in H as [k [_ H]].
    destruct (bytes_Compare k key >=? 0).
    + injection H as <-. destruct (bytes_Compare k key <=? 0); lia.
    + apply IH in H; [lia|].
      destruct (bytes_Compare k key <=? 0); lia.
Qed.

Lemma nodeLookupLE_loop_total (rem : nat) (node : BNode) (key : list byte)
    (i found : Z) :
  (forall j, i <= j < i + Z.of_nat rem -> exists k, getKey node j = Ok k) ->
  exists idx, nodeLookupLE_loop rem node key i found = Ok idx.
Proof.
  revert i found. induction rem as [|rem IH]; intros i found Hk; simpl.
  - eauto.
  - destruct (Hk i ltac:(lia)) as [k ->]. simpl.
    destruct (bytes_Compare k key >=? 0); [eauto|].
    apply IH. intros j Hj. apply Hk. lia.
Qed.

(** C10. On a node with at least one key, the index nodeLookupLE returns
    is below [nkeys]; it returns one whenever the keys from position 1 on
    can be read; and it returns 0 when the key at position 1 is above the
    search key (as it is when every key from position 1 on is), the key
    at position 0 never being read. *)
Theorem nodeLookupLE_in_range (node : BNode) (key : list byte) (n : Z) :
  nkeys node = Ok n ->
  1 <= n ->
  (forall idx, nodeLookupLE node key = Ok idx -> 0 <= idx < n)
  /\ ((forall i, 1 <= i < n -> exists k, getKey node i = Ok k) ->
      exists idx, nodeLookupLE node key = Ok idx /\ 0 <= idx < n)
  /\ ((forall i, 1 <= i < n ->
         exists k, getKey node i = Ok k /\ bytes_Compare k key > 0) ->
      nodeLookupLE node key = Ok 0).
Proof.
  intros Hn Hpos. unfold nodeLookupLE. rewrite Hn. simpl.
  assert (Hrange : forall idx,
            nodeLookupLE_loop (Z.to_nat (n - 1)) node key 1 0 = Ok idx ->
            0 <= idx < n).
  { intros idx H. apply nodeLookupLE_loop_range in H; lia. }
  split; [exact Hrange|]. split.
  - intros Hk.
    destruct (nodeLookupLE_loop_total (Z.to_nat (n - 1)) node key 1 0)
      as [idx Hidx].
    { intros j Hj. apply Hk. lia. }
    exists idx. split; [exact Hidx|]. apply Hrange, Hidx.
  - intros Hk. destruct (Z.to_nat (n - 1)) as [|rem] eqn:Hrem; [reflexivity|].
    simpl. destruct (Hk 1 ltac:(lia)) as [k [-> Hgt]]. simpl.
    destruct (Z.geb_spec (bytes_Compare k key) 0); [|lia].
    destruct (Z.leb_spec (bytes_Compare k key) 0); [lia|reflexivity].
Qed.


(** A small leaf: the empty key, then the key "b" with the value "1". *)
Lemma nodeLookupLE_in_range_witness :
  nkeys smallLeaf = Ok 2
  /\ getKey smallLeaf 1 = Ok [x62]
  /\ nodeLookupLE smallLeaf [x61] = Ok 0
  /\ (forall idx, nodeLookupLE smallLeaf [x63] = Ok idx -> 0 <= idx < 2).
Proof.
  assert (Hn : nkeys smallLeaf = Ok 2) by (vm_compute; reflexivity).
  assert (Hk : getKey smallLeaf 1 = Ok [x62]) by (vm_compute; reflexivity).
  split; [exact Hn|]. split; [exact Hk|].
  split.
  - apply (nodeLookupLE_in_range smallLeaf [x61] 2 Hn); [lia|].
    intros i Hi. assert (i = 1) as -> by lia.
    exists [x62]. split; [exact Hk|]. reflexivity.
  - apply (nodeLookupLE_in_range smallLeaf [x63] 2 Hn). lia.
Defined.

(** ** Bytes and little-endian integers *)

Lemma b2z_range (b : byte) : 0 <= b2z b < 256.
Proof.
  unfold b2z. pose proof (Byte.to_N_bounded b). lia.
Qed.

Lemma b2z_z2b (z : Z) : b2z (z2b z) = z mod 256.
Proof.
  unfold z2b, b2z.
  pose proof (Z.mod_pos_bound z 256 ltac:(lia)) as Hm.
  destruct (Byte.of_N (Z.to_N (z mod 256))) as [b|] eqn:E.
  - apply Byte.to_of_N in E. rewrite E. lia.
  - apply Byte.of_N_None_iff in E. lia.
Qed.

Lemma z2b_b2z (b : byte) : z2b (b2z b) = b.
Proof.
  unfold z2b, b2z. pose proof (Byte.to_N_bounded b).
  rewrite Z.mod_small by lia. rewrite N2Z.id, Byte.of_to_N. reflexivity.
Qed.

Lemma length_le_bytes (n : nat) (v : Z) : length (le_bytes n v) = n.
Proof. revert v. induction n; intros v; simpl; [reflexivity|]. now rewrite IHn. Qed.

Lemma le_value_le_bytes (n : nat) (v : Z) :
  le_value (le_bytes n v) = v mod 256 ^ Z.of_nat n.
Proof.
  revert v. induction n as [|n IH]; intros v.
  - simpl. now rewrite Z.mod_1_r.
  - cbn [le_bytes le_value]. rewrite IH, b2z_z2b.
    rewrite Nat2Z.inj_succ, Z.pow_succ_r by lia.
    rewrite (Z.rem_mul_r v 256 (256 ^ Z.of_nat n)) by lia. reflexivity.
Qed.

Lemma le_value_le_bytes_small (n : nat) (v : Z) :
  0 <= v < 256 ^ Z.of_nat n -> le_value (le_bytes n v) = v.
Proof. intros H. rewrite le_value_le_bytes. now apply Z.mod_small. Qed.

Lemma blen_nonneg (d : list byte) : 0 <= blen d.
Proof. unfold blen. lia. Qed.

Lemma blen_app (a b : list byte) : blen (a ++ b) = blen a + blen b.
Proof. unfold blen. rewrite length_app. lia. Qed.

Arguments le_bytes : simpl never.

(** ** Reading and writing regions of a buffer *)

Lemma length_overwrite (pos : nat) (src d : list byte) :
  (pos <= length d)%nat -> length (overwrite pos src d) = length d.
Proof.
  intros H. unfold overwrite.
  rewrite !length_app, !length_take, length_drop. lia.
Qed.

Lemma blen_rd (d : list byte) (p m : Z) :
  0 <= p -> 0 <= m -> p + m <= blen d -> blen (rd d p m) = m.
Proof.
  unfold rd, blen. intros. rewrite length_take, length_drop. lia.
Qed.

Lemma lookup_rd (d : list byte) (p m : Z) (i : nat) :
  rd d p m !! i
  = if decide (i < Z.to_nat m)%nat then d !! (Z.to_nat p + i)%nat else None.
Proof.
  unfold rd. destruct (decide (i < Z.to_nat m)%nat).
  - rewrite lookup_take_lt by assumption. apply lookup_drop.
  - apply lookup_take_ge. lia.
Qed.

Lemma lookup_overwrite (q : nat) (src d : list byte) (i : nat) :
  (q + length src <= length d)%nat ->
  overwrite q src d !! i
  = if decide (q <= i < q + length src)%nat then src !! (i - q)%nat
    else d !! i.
Proof.
  intros Hfit. unfold overwrite. rewrite (take_ge src) by lia.
  destruct (decide (q <= i < q + length src)%nat) as [Hin|Hout].
  - rewrite lookup_app_r by (rewrite length_take; lia).
    rewrite length_take, Nat.min_l by lia.
    apply lookup_app_l. lia.
  - destruct (decide (i < q)%nat).
    + rewrite lookup_app_l by (rewrite length_take; lia).
      now apply lookup_take_lt.
    + rewrite lookup_app_r by (rewrite length_take; lia).
      rewrite length_take, Nat.min_l by lia.
      rewrite lookup_app_r by lia.
      rewrite lookup_drop. f_equal. lia.
Qed.

Lemma rd_overwrite_same (d src : list byte) (p : Z) :
  0 <= p -> p + blen src <= blen d ->
  rd (overwrite (Z.to_nat p) src d) p (blen src) = src.
Proof.
  unfold blen. intros Hp Hfit. apply list_eq. intros i.
  rewrite lookup_rd. rewrite Nat2Z.id.
  destruct (decide (i < length src)%nat) as [Hi|Hi].
  - rewrite lookup_overwrite by lia.
    destruct (decide _) as [_|N]; [f_equal; lia|lia].
  - symmetry. apply lookup_ge_None. lia.
Qed.

Lemma rd_overwrite_disj (d src : list byte) (q p m : Z) :
  0 <= q -> q + blen src <= blen d ->
  0 <= p -> 0 <= m ->
  p + m <= q \/ q + blen src <= p ->
  rd (overwrite (Z.to_nat q) src d) p m = rd d p m.
Proof.
  unfold blen. intros Hq Hfit Hp Hm Hdisj. apply list_eq. intros i.
  rewrite !lookup_rd.
  destruct (decide (i < Z.to_nat m)%nat) as [Hi|Hi]; [|reflexivity].
  rewrite lookup_overwrite by lia.
  destruct (decide _) as [Hin|_]; [lia|reflexivity].
Qed.

Lemma rd_rd (d : list byte) (base S o m : Z) :
  0 <= base -> 0 <= o -> 0 <= m -> o + m <= S ->
  rd (rd d base S) o m = rd d (base + o) m.
Proof.
  intros Hb Ho Hm Hfit. apply list_eq. intros i. rewrite !lookup_rd.
  destruct (decide (i < Z.to_nat m)%nat) as [Hi|Hi]; [|reflexivity].
  destruct (decide _) as [_|N]; [f_equal; lia|lia].
Qed.

Lemma rd_split (d : list byte) (p m1 m2 : Z) :
  0 <= p -> 0 <= m1 -> 0 <= m2 -> p + m1 <= blen d ->
  rd d p (m1 + m2) = rd d p m1 ++ rd d (p + m1) m2.
Proof.
  unfold blen. intros Hp H1 H2 Hfit. apply list_eq. intros i.
  assert (Hl : length (rd d p m1) = Z.to_nat m1).
  { unfold rd. rewrite length_take, length_drop. lia. }
  destruct (decide (i < Z.to_nat m1)%nat) as [Hi|Hi].
  - rewrite lookup_app_l by lia. rewrite !lookup_rd.
    destruct (decide _) as [_|N]; [|lia].
    destruct (decide _) as [_|N]; [reflexivity|lia].
  - rewrite lookup_app_r by lia. rewrite Hl, !lookup_rd.
    destruct (decide (i < Z.to_nat (m1 + m2))%nat);
      destruct (decide (i - Z.to_nat m1 < Z.to_nat m2)%nat); try lia;
      [f_equal; lia|reflexivity].
Qed.

Lemma rd_all (d : list byte) : rd d 0 (blen d) = d.
Proof. unfold rd, blen. rewrite Nat2Z.id. simpl. apply take_ge. lia. Qed.

Lemma rd_app_l (a b : list byte) (p m : Z) :
  0 <= p -> 0 <= m -> p + m <= blen a -> rd (a ++ b) p m = rd a p m.
Proof.
  unfold blen. intros Hp Hm Hfit. apply list_eq. intros i. rewrite !lookup_rd.
  destruct (decide _); [|reflexivity]. apply lookup_app_l. lia.
Qed.

Lemma rd_app_r (a b : list byte) (p m : Z) :
  blen a <= p -> 0 <= m -> rd (a ++ b) p m = rd b (p - blen a) m.
Proof.
  unfold blen. intros Hp Hm. apply list_eq. intros i. rewrite !lookup_rd.
  destruct (decide _); [|reflexivity].
  rewrite lookup_app_r by lia. f_equal. lia.
Qed.

Lemma rd_nil (d : list byte) (p : Z) : rd d p 0 = [].
Proof. reflexivity. Qed.

(** Reading integers through [rd]. *)

Lemma Uint16_rd (d : list byte) (pos : Z) :
  0 <= pos -> pos + 2 <= blen d ->
  Uint16 d pos = Ok (le_value (rd d pos 2)).
Proof.
  intros Hp Hfit. unfold Uint16, rd.
  destruct (Z.leb_spec 0 pos); [|lia].
  destruct (Z.leb_spec (pos + 2) (blen d)); [|lia]. simpl.
  assert (Hl : (2 <= length (drop (Z.to_nat pos) d))%nat).
  { rewrite length_drop. unfold blen in Hfit. lia. }
  destruct (drop (Z.to_nat pos) d) as [|b0 [|b1 l]]; simpl in Hl; try lia.
  simpl. f_equal. lia.
Qed.

Lemma Uint64_rd (d : list byte) (pos : Z) :
  0 <= pos -> pos + 8 <= blen d ->
  Uint64 d pos = Ok (le_value (rd d pos 8)).
Proof.
  intros Hp Hfit. unfold Uint64, rd.
  destruct (Z.leb_spec 0 pos); [|lia].
  destruct (Z.leb_spec (pos + 8) (blen d)); [|lia]. reflexivity.
Qed.

Lemma PutUint16_ok (d : list byte) (pos v : Z) :
  0 <= pos -> pos + 2 <= blen d ->
  PutUint16 d pos v = Ok (overwrite (Z.to_nat pos) (le_bytes 2 v) d).
Proof.
  intros Hp Hfit. unfold PutUint16.
  destruct (Z.leb_spec 0 pos); [|lia].
  destruct (Z.leb_spec (pos + 2) (blen d)); [|lia]. reflexivity.
Qed.

Lemma PutUint64_ok (d : list byte) (pos v : Z) :
  0 <= pos -> pos + 8 <= blen d ->
  PutUint64 d pos v = Ok (overwrite (Z.to_nat pos) (le_bytes 8 v) d).
Proof.
  intros Hp Hfit. unfold PutUint64.
  destruct (Z.leb_spec 0 pos); [|lia].
  destruct (Z.leb_spec (pos + 8) (blen d)); [|lia]. reflexivity.
Qed.

Lemma copy_at_ok (d : list byte) (pos : Z) (src : list byte) :
  0 <= pos -> pos <= blen d ->
  copy_at d pos src = Ok (overwrite (Z.to_nat pos) src d).
Proof.
  intros Hp Hfit. unfold copy_at.
  destruct (Z.leb_spec 0 pos); [|lia].
  destruct (Z.leb_spec pos (blen d)); [|lia]. reflexivity.
Qed.

Lemma slice_ok (d : list byte) (lo hi : Z) :
  0 <= lo -> lo <= hi -> hi <= blen d ->
  slice d lo hi = Ok (rd d lo (hi - lo)).
Proof.
  intros H0 H1 H2. unfold slice.
  destruct (Z.leb_spec 0 lo); [|lia].
  destruct (Z.leb_spec lo hi); [|lia].
  destruct (Z.leb_spec hi (blen d)); [|lia]. reflexivity.
Qed.

Lemma blen_overwrite (pos : Z) (src d : list byte) :
  0 <= pos -> pos <= blen d ->
  blen (overwrite (Z.to_nat pos) src d) = blen d.
Proof.
  unfold blen. intros. rewrite length_overwrite; lia.
Qed.

Lemma u16_small (z : Z) : 0 <= z < 65536 -> u16 z = z.
Proof. intros H. unfold u16. now apply Z.mod_small. Qed.

(** ** The accessors on a represented node *)

Lemma kvsize_nonneg (es : list entry) : 0 <= kvsize es.
Proof.
  induction es as [|e es IH]; simpl; [lia|].
  unfold esz. pose proof (blen_nonneg (e_key e)).
  pose proof (blen_nonneg (e_val e)). lia.
Qed.

Lemma esz_pos (e : entry) : 4 <= esz e.
Proof.
  unfold esz. pose proof (blen_nonneg (e_key e)).
  pose proof (blen_nonneg (e_val e)). lia.
Qed.

Lemma kvsize_app (a b : list entry) : kvsize (a ++ b) = kvsize a + kvsize b.
Proof. induction a as [|e a IH]; simpl; lia. Qed.

Lemma kvsize_take_drop (i : nat) (es : list entry) :
  kvsize (take i es) + kvsize (drop i es) = kvsize es.
Proof. rewrite <- kvsize_app, take_drop. reflexivity. Qed.

Lemma kvsize_take_le (i : nat) (es : list entry) :
  0 <= kvsize (take i es) <= kvsize es.
Proof.
  pose proof (kvsize_take_drop i es). pose proof (kvsize_nonneg (take i es)).
  pose proof (kvsize_nonneg (drop i es)). lia.
Qed.

Lemma kvsize_take_S (i : nat) (es : list entry) (e : entry) :
  es !! i = Some e -> kvsize (take (S i) es) = kvsize (take i es) + esz e.
Proof.
  intros H. rewrite (take_S_r es i e H), kvsize_app. simpl. lia.
Qed.

Lemma kvsize_lookup_le (i : nat) (es : list entry) (e : entry) :
  es !! i = Some e -> kvsize (take i es) + esz e <= kvsize es.
Proof.
  intros H. rewrite <- (kvsize_take_S i es e H). apply kvsize_take_le.
Qed.

Lemma blen_le_bytes (n : nat) (v : Z) : blen (le_bytes n v) = Z.of_nat n.
Proof. unfold blen. now rewrite length_le_bytes. Qed.

Lemma blen_enc_kv (e : entry) : blen (enc_kv e) = esz e.
Proof.
  unfold enc_kv, esz. rewrite !blen_app, !blen_le_bytes. lia.
Qed.

Lemma blen_enc_kvs (es : list entry) : blen (enc_kvs es) = kvsize es.
Proof.
  induction es as [|e es IH]; cbn [enc_kvs kvsize]; [reflexivity|].
  rewrite blen_app, blen_enc_kv, IH. reflexivity.
Qed.

Lemma enc_kvs_app (a b : list entry) :
  enc_kvs (a ++ b) = enc_kvs a ++ enc_kvs b.
Proof.
  induction a as [|e a IH]; cbn [enc_kvs app]; [reflexivity|].
  now rewrite IH, app_assoc.
Qed.

(** The bytes of the entries [i .. i+c) inside the key-value area. *)
Lemma rd_enc_kvs_sub (es : list entry) (i c : nat) :
  rd (enc_kvs es) (kvsize (take i es)) (kvsize (take c (drop i es)))
  = enc_kvs (take c (drop i es)).
Proof.
  rewrite <- (take_drop i es) at 1. rewrite enc_kvs_app.
  rewrite rd_app_r;
    [|rewrite blen_enc_kvs; lia|apply kvsize_nonneg].
  rewrite blen_enc_kvs, Z.sub_diag.
  rewrite <- (take_drop c (drop i es)) at 1. rewrite enc_kvs_app.
  rewrite rd_app_l;
    [|lia|apply kvsize_nonneg|rewrite blen_enc_kvs; lia].
  rewrite <- blen_enc_kvs. apply rd_all.
Qed.

Lemma rd_enc_kvs_entry (es : list entry) (i : nat) (e : entry) (o m : Z) :
  es !! i = Some e -> 0 <= o -> 0 <= m -> o + m <= esz e ->
  rd (enc_kvs es) (kvsize (take i es) + o) m = rd (enc_kv e) o m.
Proof.
  intros He Ho Hm Hfit.
  pose proof (rd_enc_kvs_sub es i 1) as H.
  rewrite (drop_S es e i He) in H. cbn [take enc_kvs kvsize] in H.
  rewrite app_nil_r, Z.add_0_r in H.
  rewrite <- H. rewrite rd_rd; try lia; [reflexivity|].
  apply kvsize_nonneg.
Qed.

Lemma rd_mid (a b c : list byte) (p m : Z) :
  p = blen a -> m = blen b -> rd (a ++ b ++ c) p m = b.
Proof.
  intros -> ->. pose proof (blen_nonneg a). pose proof (blen_nonneg b).
  rewrite rd_app_r by lia. rewrite Z.sub_diag.
  rewrite rd_app_l by lia. apply rd_all.
Qed.

Lemma rd_enc_kv_klen (e : entry) :
  rd (enc_kv e) 0 2 = le_bytes 2 (blen (e_key e)).
Proof.
  unfold enc_kv. apply (rd_mid [] _ _ 0 2); [reflexivity|].
  now rewrite blen_le_bytes.
Qed.

Lemma rd_enc_kv_vlen (e : entry) :
  rd (enc_kv e) 2 2 = le_bytes 2 (blen (e_val e)).
Proof.
  unfold enc_kv. apply rd_mid; now rewrite blen_le_bytes.
Qed.

Lemma rd_enc_kv_key (e : entry) :
  rd (enc_kv e) 4 (blen (e_key e)) = e_key e.
Proof.
  unfold enc_kv. rewrite app_assoc. apply rd_mid; [|reflexivity].
  now rewrite blen_app, !blen_le_bytes.
Qed.

Lemma rd_enc_kv_val (e : entry) :
  rd (enc_kv e) (4 + blen (e_key e)) (blen (e_val e)) = e_val e.
Proof.
  unfold enc_kv. rewrite !app_assoc.
  pose proof (blen_nonneg (e_key e)). pose proof (blen_nonneg (e_val e)).
  rewrite rd_app_r by (rewrite ?blen_app, ?blen_le_bytes; lia).
  rewrite !blen_app, !blen_le_bytes.
  replace (4 + blen (e_key e) - (Z.of_nat 2 + Z.of_nat 2 + blen (e_key e)))
    with 0 by lia.
  apply rd_all.
Qed.

Section Accessors.
Context (d : BNode) (t n : Z) (es : list entry).
Hypothesis R : node_rep d t n es.

Lemma rep_n_range : 0 <= n /\ 4 + 10 * n <= blen d /\ blen d < 65536.
Proof.
  destruct R. pose proof (kvsize_nonneg es). lia.
Qed.

Lemma rep_nkeys : nkeys d = Ok n.
Proof.
  pose proof rep_n_range as Hn. unfold nkeys.
  rewrite Uint16_rd by lia. rewrite (nr_nkeys _ _ _ _ R).
  rewrite le_value_le_bytes_small; [reflexivity|]. simpl. lia.
Qed.

Lemma rep_btype : btype d = Ok t.
Proof.
  pose proof rep_n_range as Hn. destruct (nr_type _ _ _ _ R) as [Ht E].
  unfold btype. rewrite Uint16_rd by lia. rewrite E.
  rewrite le_value_le_bytes_small; [reflexivity|]. simpl. lia.
Qed.

Lemma rep_getPtr (i : nat) (e : entry) :
  es !! i = Some e -> getPtr d (Z.of_nat i) = Ok (e_ptr e).
Proof.
  intros He. pose proof rep_n_range as Hn.
  pose proof (lookup_lt_Some _ _ _ He) as Hi.
  pose proof (nr_cnt _ _ _ _ R) as Hc.
  destruct (nr_ptrs _ _ _ _ R i e He) as [Hp E].
  unfold getPtr. rewrite rep_nkeys. simpl.
  destruct (Z.ltb_spec (Z.of_nat i) n); [|lia]. simpl.
  unfold HEADER. rewrite u16_small by lia.
  rewrite Uint64_rd by lia.
  replace (4 + Z.of_nat i * 8) with (4 + 8 * Z.of_nat i) by lia.
  rewrite E. rewrite le_value_le_bytes_small; [reflexivity|].
  simpl. lia.
Qed.

Lemma rep_getOffset (i : nat) :
  (i <= length es)%nat ->
  getOffset d (Z.of_nat i) = Ok (kvsize (take i es)).
Proof.
  intros Hi. pose proof rep_n_range as Hn.
  pose proof (nr_cnt _ _ _ _ R) as Hc.
  unfold getOffset. destruct i as [|i].
  - reflexivity.
  - destruct (Z.eqb_spec (Z.of_nat (S i)) 0); [lia|].
    unfold offsetPos. rewrite rep_nkeys. simpl.
    destruct (Z.leb_spec 1 (Z.of_nat (S i))); [|lia].
    destruct (Z.leb_spec (Z.of_nat (S i)) n); [|lia]. simpl.
    unfold HEADER. rewrite (u16_small (Z.of_nat (S i) - 1)) by lia.
    rewrite u16_small by lia.
    rewrite Uint16_rd by lia.
    replace (4 + n * 8 + (Z.of_nat (S i) - 1) * 2)
      with (4 + 8 * n + 2 * Z.of_nat i) by lia.
    rewrite (nr_offs _ _ _ _ R i) by lia.
    pose proof (kvsize_take_le (S i) es). pose proof (nr_fit _ _ _ _ R).
    rewrite le_value_le_bytes_small; [reflexivity|]. simpl. lia.
Qed.

Lemma rep_kvPos (i : nat) :
  (i <= length es)%nat ->
  kvPos d (Z.of_nat i) = Ok (4 + 10 * n + kvsize (take i es)).
Proof.
  intros Hi. pose proof rep_n_range as Hn.
  pose proof (nr_cnt _ _ _ _ R) as Hc.
  unfold kvPos. rewrite rep_nkeys. simpl.
  destruct (Z.leb_spec (Z.of_nat i) n); [|lia]. simpl.
  rewrite rep_getOffset by assumption. simpl.
  pose proof (kvsize_take_le i es). pose proof (nr_fit _ _ _ _ R).
  unfold HEADER. rewrite u16_small by lia. f_equal. lia.
Qed.

Lemma rep_rd_entry (i : nat) (e : entry) (o m : Z) :
  es !! i = Some e -> 0 <= o -> 0 <= m -> o + m <= esz e ->
  rd d (4 + 10 * n + kvsize (take i es) + o) m = rd (enc_kv e) o m.
Proof.
  intros He Ho Hm Hfit. pose proof rep_n_range as Hn.
  pose proof (kvsize_take_le i es). pose proof (kvsize_lookup_le i es e He).
  rewrite <- (rd_enc_kvs_entry es i e o m He Ho Hm Hfit).
  rewrite <- (nr_kvs _ _ _ _ R).
  rewrite rd_rd by lia. f_equal. lia.
Qed.

Lemma rep_entry_bounds (i : nat) (e : entry) :
  es !! i = Some e ->
  4 + 10 * n + kvsize (take i es) + esz e <= blen d
  /\ 0 <= kvsize (take i es)
  /\ 0 <= blen (e_key e) /\ 0 <= blen (e_val e).
Proof.
  intros He. pose proof (kvsize_lookup_le i es e He).
  pose proof (kvsize_take_le i es). pose proof (nr_fit _ _ _ _ R).
  pose proof (blen_nonneg (e_key e)). pose proof (blen_nonneg (e_val e)).
  lia.
Qed.

Lemma rep_getKey (i : nat) (e : entry) :
  es !! i = Some e -> getKey d (Z.of_nat i) = Ok (e_key e).
Proof.
  intros He. pose proof rep_n_range as Hn.
  pose proof (lookup_lt_Some _ _ _ He) as Hi.
  pose proof (nr_cnt _ _ _ _ R) as Hc.
  destruct (rep_entry_bounds i e He) as (Hb & Ho & Hk & Hv).
  unfold esz in Hb.
  unfold getKey. rewrite rep_nkeys. simpl.
  destruct (Z.ltb_spec (Z.of_nat i) n); [|lia]. simpl.
  rewrite rep_kvPos by lia. simpl.
  set (pos := 4 + 10 * n + kvsize (take i es)).
  rewrite Uint16_rd by (unfold pos; lia).
  replace (rd d pos 2) with (rd d (pos + 0) 2) by (f_equal; lia).
  unfold pos.
  rewrite (rep_rd_entry i e 0 2 He) by (unfold esz; lia).
  rewrite rd_enc_kv_klen, le_value_le_bytes_small by (simpl; lia).
  simpl. fold pos. rewrite u16_small by (unfold pos; lia).
  rewrite slice_ok by (unfold pos; lia).
  replace (pos + 4 + blen (e_key e) - (pos + 4)) with (blen (e_key e)) by lia.
  unfold pos. rewrite (rep_rd_entry i e 4 (blen (e_key e)) He)
    by (unfold esz; lia).
  now rewrite rd_enc_kv_key.
Qed.

Lemma rep_getVal (i : nat) (e : entry) :
  es !! i = Some e -> getVal d (Z.of_nat i) = Ok (e_val e).
Proof.
  intros He. pose proof rep_n_range as Hn.
  pose proof (lookup_lt_Some _ _ _ He) as Hi.
  pose proof (nr_cnt _ _ _ _ R) as Hc.
  destruct (rep_entry_bounds i e He) as (Hb & Ho & Hk & Hv).
  unfold esz in Hb.
  unfold getVal. rewrite rep_nkeys. simpl.
  destruct (Z.ltb_spec (Z.of_nat i) n); [|lia]. simpl.
  rewrite rep_kvPos by lia. simpl.
  set (pos := 4 + 10 * n + kvsize (take i es)).
  rewrite (u16_small (pos + 0)) by (unfold pos; lia).
  rewrite Uint16_rd by (unfold pos; lia).
  unfold pos.
  rewrite (rep_rd_entry i e 0 2 He) by (unfold esz; lia).
  rewrite rd_enc_kv_klen, le_value_le_bytes_small by (simpl; lia).
  simpl. fold pos.
  rewrite (u16_small (pos + 2)) by (unfold pos; lia).
  rewrite Uint16_rd by (unfold pos; lia).
  unfold pos.
  rewrite (rep_rd_entry i e 2 2 He) by (unfold esz; lia).
  rewrite rd_enc_kv_vlen, le_value_le_bytes_small by (simpl; lia).
  simpl. fold pos.
  rewrite u16_small by (unfold pos; lia).
  rewrite slice_ok by (unfold pos; lia).
  replace (pos + 4 + blen (e_key e) + blen (e_val e)
           - (pos + 4 + blen (e_key e))) with (blen (e_val e)) by lia.
  unfold pos.
  replace (4 + 10 * n + kvsize (take i es) + 4 + blen (e_key e))
    with (4 + 10 * n + kvsize (take i es) + (4 + blen (e_key e))) by lia.
  rewrite (rep_rd_entry i e (4 + blen (e_key e)) (blen (e_val e)) He)
    by (unfold esz; lia).
  now rewrite rd_enc_kv_val.
Qed.

Lemma rep_nbytes :
  n = Z.of_nat (length es) -> nbytes d = Ok (nsize es).
Proof.
  intros Hn. unfold nbytes. rewrite rep_nkeys. simpl.
  rewrite Hn. rewrite rep_kvPos by lia.
  rewrite take_ge by lia. unfold nsize. rewrite <- Hn. reflexivity.
Qed.
End Accessors.

(** ** Writing into a represented node *)

Ltac solve_len :=
  repeat (rewrite blen_overwrite by solve_len);
  rewrite ?blen_le_bytes; lia.

Lemma rd_overwrite_eq (d src : list byte) (p m : Z) :
  0 <= p -> p + blen src <= blen d -> m = blen src ->
  rd (overwrite (Z.to_nat p) src d) p m = src.
Proof. intros Hp Hfit ->. now apply rd_overwrite_same. Qed.

(** A write outside the header, the written pointers and offsets and the
    written key-values leaves the node as it reads. *)
Lemma node_rep_write (d : BNode) (t n : Z) (es : list entry)
    (q : Z) (src : list byte) :
  node_rep d t n es ->
  0 <= q -> q + blen src <= blen d ->
  (4 + 8 * Z.of_nat (length es) <= q /\ q + blen src <= 4 + 8 * n)
  \/ (4 + 8 * n + 2 * Z.of_nat (length es) <= q
      /\ q + blen src <= 4 + 10 * n)
  \/ 4 + 10 * n + kvsize es <= q ->
  node_rep (overwrite (Z.to_nat q) src d) t n es.
Proof.
  intros R Hq Hfit Hreg.
  pose proof (rep_n_range _ _ _ _ R) as Hn.
  pose proof (kvsize_nonneg es) as Hk.
  pose proof (blen_nonneg src) as Hs.
  destruct R as [Hlen Hf Hc [Ht Et] En Hp Ho Hkv].
  split.
  - solve_len.
  - solve_len.
  - assumption.
  - split; [assumption|]. rewrite rd_overwrite_disj by lia. assumption.
  - rewrite rd_overwrite_disj by lia. assumption.
  - intros i e He. destruct (Hp i e He) as [Hr E]. split; [assumption|].
    pose proof (lookup_lt_Some _ _ _ He).
    rewrite rd_overwrite_disj by lia. assumption.
  - intros i Hi. rewrite rd_overwrite_disj by lia. now apply Ho.
  - rewrite rd_overwrite_disj by lia. assumption.
Qed.

(** Entries whose pointers, offsets and key-values are in place behind the
    written ones are part of the node. *)
Lemma node_rep_extend (d : BNode) (t n : Z) (es add : list entry) :
  node_rep d t n es ->
  Z.of_nat (length es) + Z.of_nat (length add) <= n ->
  4 + 10 * n + kvsize es + kvsize add <= blen d ->
  (forall (j : nat) (e : entry), add !! j = Some e ->
     0 <= e_ptr e < 18446744073709551616
     /\ rd d (4 + 8 * (Z.of_nat (length es) + Z.of_nat j)) 8
        = le_bytes 8 (e_ptr e)) ->
  (forall j : nat, (j < length add)%nat ->
     rd d (4 + 8 * n + 2 * (Z.of_nat (length es) + Z.of_nat j)) 2
     = le_bytes 2 (kvsize es + kvsize (take (S j) add))) ->
  rd d (4 + 10 * n + kvsize es) (kvsize add) = enc_kvs add ->
  node_rep d t n (es ++ add).
Proof.
  intros R Hcnt Hfit Hp Ho Hkv.
  pose proof (rep_n_range _ _ _ _ R) as Hn.
  pose proof (kvsize_nonneg es). pose proof (kvsize_nonneg add).
  destruct R as [Hlen Hf Hc Ht En Hp0 Ho0 Hkv0].
  split; try assumption.
  - rewrite kvsize_app. lia.
  - rewrite length_app. lia.
  - intros i e He. apply lookup_app_Some in He as [He|[Hi He]].
    + now apply Hp0.
    + destruct (Hp _ _ He) as [Hr E]. split; [assumption|].
      rewrite <- E. f_equal. lia.
  - intros i Hi. rewrite length_app in Hi.
    destruct (decide (i < length es)%nat) as [Hl|Hl].
    + rewrite take_app_le by lia. now apply Ho0.
    + rewrite take_app_ge by lia. rewrite kvsize_app.
      specialize (Ho (i - length es)%nat ltac:(lia)).
      replace (S i - length es)%nat with (S (i - length es)) by lia.
      rewrite <- Ho. f_equal. lia.
  - rewrite kvsize_app, enc_kvs_app.
    rewrite rd_split by lia. now rewrite Hkv0, Hkv.
Qed.

Lemma setHeader_rep (d : BNode) (t n : Z) :
  blen d < 65536 -> 0 <= n -> 4 + 10 * n <= blen d -> 0 <= t < 65536 ->
  exists d', setHeader d t n = Ok d'
             /\ blen d' = blen d /\ node_rep d' t n [].
Proof.
  intros Hlen Hn Hfit Ht. unfold setHeader.
  rewrite PutUint16_ok by lia. simpl.
  rewrite PutUint16_ok by solve_len.
  eexists. split; [reflexivity|]. split; [solve_len|].
  split; cbn [length kvsize].
  - solve_len.
  - solve_len.
  - lia.
  - split; [assumption|].
    rewrite rd_overwrite_disj by solve_len.
    rewrite rd_overwrite_eq by solve_len. reflexivity.
  - rewrite rd_overwrite_eq by solve_len. reflexivity.
  - intros i e He. discriminate.
  - intros i Hi. lia.
  - apply rd_nil.
Qed.

Ltac rdw :=
  repeat first
    [ rewrite rd_overwrite_eq by solve_len
    | rewrite rd_overwrite_disj by solve_len ].

Lemma Assert_true (c : bool) (msg : string) : c = true -> Assert c msg = Ok tt.
Proof. intros ->. reflexivity. Qed.

Lemma nodeAppendKV_rep (d : BNode) (t n : Z) (es : list entry)
    (ptr : Z) (k v : list byte) :
  node_rep d t n es ->
  Z.of_nat (length es) < n ->
  0 <= ptr < 18446744073709551616 ->
  4 + 10 * n + kvsize es + (4 + blen k + blen v) <= blen d ->
  exists d', nodeAppendKV d (Z.of_nat (length es)) ptr k v = Ok d'
             /\ blen d' = blen d
             /\ node_rep d' t n (es ++ [(ptr, k, v)]).
Proof.
  intros R Hi Hptr Hfit.
  pose proof (rep_n_range _ _ _ _ R) as Hn.
  pose proof (kvsize_nonneg es) as Hks.
  pose proof (blen_nonneg k) as Hk. pose proof (blen_nonneg v) as Hv.
  set (i := Z.of_nat (length es)) in *.
  set (pos := 4 + 10 * n + kvsize es).
  unfold nodeAppendKV.
  (* setPtr *)
  unfold setPtr. rewrite (rep_nkeys _ _ _ _ R). cbn [rbind].
  rewrite Assert_true by (apply Z.ltb_lt; lia). cbn [rbind].
  unfold HEADER. rewrite u16_small by lia.
  rewrite PutUint64_ok by lia. cbn [rbind].
  set (d1 := overwrite _ _ d).
  assert (R1 : node_rep d1 t n es).
  { apply node_rep_write; [assumption|lia|solve_len|].
    left. rewrite blen_le_bytes. fold i. lia. }
  assert (L1 : blen d1 = blen d) by (unfold d1; solve_len).
  (* kvPos *)
  unfold i. rewrite (rep_kvPos _ _ _ _ R1) by lia. cbn [rbind].
  rewrite take_ge by lia. fold pos.
  rewrite !(u16_small (blen k)), !(u16_small (blen v)) by lia.
  rewrite (u16_small (pos + 0)) by (unfold pos; lia).
  rewrite PutUint16_ok by (unfold pos; lia). cbn [rbind].
  set (d2 := overwrite _ _ d1).
  assert (L2 : blen d2 = blen d) by (unfold d2, pos; solve_len).
  rewrite (u16_small (pos + 2)) by (unfold pos; lia).
  rewrite PutUint16_ok by (unfold pos; lia). cbn [rbind].
  set (d3 := overwrite _ _ d2).
  assert (L3 : blen d3 = blen d) by (unfold d3, pos; solve_len).
  rewrite (u16_small (pos + 4)) by (unfold pos; lia).
  rewrite copy_at_ok by (unfold pos; lia). cbn [rbind].
  set (d4 := overwrite _ _ d3).
  assert (L4 : blen d4 = blen d) by (unfold d4, pos; solve_len).
  rewrite (u16_small (pos + 4 + blen k)) by (unfold pos; lia).
  rewrite copy_at_ok by (unfold pos; lia). cbn [rbind].
  set (d5 := overwrite _ _ d4).
  assert (L5 : blen d5 = blen d) by (unfold d5, pos; solve_len).
  assert (R5 : node_rep d5 t n es).
  { unfold d5, d4, d3, d2.
    repeat (apply node_rep_write;
            [|unfold pos; lia|unfold pos; solve_len
             |right; right; unfold pos; lia]).
    exact R1. }
  (* getOffset, setOffset *)
  rewrite (rep_getOffset _ _ _ _ R5) by lia. cbn [rbind].
  rewrite take_ge by lia.
  unfold setOffset, offsetPos. rewrite (rep_nkeys _ _ _ _ R5). cbn [rbind].
  fold i. rewrite (u16_small (i + 1)) by lia.
  rewrite Assert_true by (apply andb_true_intro; split; apply Z.leb_le; lia).
  cbn [rbind].
  rewrite (u16_small (i + 1 - 1)) by lia. unfold HEADER.
  rewrite (u16_small (4 + n * 8 + (i + 1 - 1) * 2)) by lia.
  rewrite (u16_small (blen k + blen v)) by lia.
  rewrite (u16_small (kvsize es + 4 + (blen k + blen v))) by lia.
  rewrite PutUint16_ok by lia.
  eexists. split; [reflexivity|].
  set (d6 := overwrite _ _ d5).
  assert (L6 : blen d6 = blen d) by (unfold d6; solve_len).
  split; [exact L6|].
  apply node_rep_extend.
  - unfold d6. apply node_rep_write; [exact R5|lia|solve_len|].
    right. left. rewrite blen_le_bytes. fold i. lia.
  - cbn [length]. fold i. lia.
  - cbn [kvsize]. unfold esz, e_key, e_val. cbn [fst snd]. lia.
  - intros j e He. destruct j as [|j]; [|discriminate].
    injection He as <-. unfold e_ptr. cbn [fst]. split; [assumption|].
    fold i. replace (4 + 8 * (i + Z.of_nat 0)) with (4 + i * 8) by lia.
    unfold d6, d5, d4, d3, d2, d1, pos. rdw. reflexivity.
  - intros j Hj. cbn [length] in Hj. assert (j = 0%nat) as -> by lia.
    cbn [take kvsize]. unfold esz, e_key, e_val. cbn [fst snd].
    fold i.
    replace (4 + 8 * n + 2 * (i + Z.of_nat 0))
      with (4 + n * 8 + (i + 1 - 1) * 2) by lia.
    unfold d6. rdw. f_equal. lia.
  - cbn [kvsize enc_kvs]. rewrite app_nil_r. fold pos.
    unfold esz, enc_kv, e_key, e_val. cbn [fst snd].
    replace (4 + blen k + blen v + 0) with (2 + (2 + (blen k + blen v)))
      by lia.
    rewrite rd_split by (unfold pos; lia).
    rewrite rd_split by (unfold pos; lia).
    rewrite rd_split by (unfold pos; lia).
    f_equal; [|f_equal; [|f_equal]].
    + replace pos with (pos + 0) by lia.
      unfold d6, d5, d4, d3, d2, pos. rdw. reflexivity.
    + unfold d6, d5, d4, d3, pos. rdw. reflexivity.
    + replace (pos + 2 + 2) with (pos + 4) by lia.
      unfold d6, d5, d4, pos. rdw. reflexivity.
    + replace (pos + 2 + 2 + blen k) with (pos + 4 + blen k) by lia.
      unfold d6, d5, pos. rdw. reflexivity.
Qed.

Lemma kvsize_take_add (es : list entry) (a b : nat) :
  kvsize (take (a + b) es) = kvsize (take a es) + kvsize (take b (drop a es)).
Proof. rewrite <- take_take_drop, kvsize_app. reflexivity. Qed.

Lemma take_S_take_drop (es : list entry) (src cnt j : nat) :
  (j < cnt)%nat ->
  take (S j) (take cnt (drop src es)) = take (S j) (drop src es).
Proof. intros H. rewrite take_take. f_equal. lia. Qed.

Section AppendRange.
Context (old : BNode) (t' n' : Z) (es' : list entry).
Hypothesis Rold : node_rep old t' n' es'.
Context (t n : Z) (es : list entry).

Lemma copyPtrs_spec (src : nat) (rem : nat) :
  forall (i : nat) (cur : BNode),
    node_rep cur t n es ->
    (src + i + rem <= length es')%nat ->
    Z.of_nat (length es) + Z.of_nat i + Z.of_nat rem <= n ->
    exists new',
      copyPtrs rem cur old (Z.of_nat (length es)) (Z.of_nat src)
        (Z.of_nat i) = Ok new'
      /\ blen new' = blen cur
      /\ node_rep new' t n es
      /\ (forall (j : nat) (e : entry),
            (i <= j < i + rem)%nat -> es' !! (src + j)%nat = Some e ->
            rd new' (4 + 8 * (Z.of_nat (length es) + Z.of_nat j)) 8
            = le_bytes 8 (e_ptr e))
      /\ (forall p m, 0 <= p -> 0 <= m ->
            p + m <= 4 + 8 * (Z.of_nat (length es) + Z.of_nat i)
            \/ 4 + 8 * (Z.of_nat (length es) + Z.of_nat i + Z.of_nat rem)
               <= p ->
            rd new' p m = rd cur p m).
Proof.
  induction rem as [|rem IH]; intros i cur R Hsrc Hdst.
  - exists cur. cbn [copyPtrs].
    split; [reflexivity|]. split; [reflexivity|]. split; [assumption|].
    split; [intros j e Hj; lia|reflexivity].
  - cbn [copyPtrs].
    pose proof (rep_n_range _ _ _ _ R) as Hn.
    pose proof (rep_n_range _ _ _ _ Rold) as Hn'.
    pose proof (nr_cnt _ _ _ _ Rold) as Hc'.
    destruct (lookup_lt_is_Some_2 es' (src + i)%nat ltac:(lia)) as [e He].
    rewrite u16_small by lia.
    replace (Z.of_nat src + Z.of_nat i) with (Z.of_nat (src + i)) by lia.
    rewrite (rep_getPtr _ _ _ _ Rold _ _ He). cbn [rbind].
    destruct (nr_ptrs _ _ _ _ Rold _ _ He) as [Hpr _].
    unfold setPtr. rewrite (rep_nkeys _ _ _ _ R). cbn [rbind].
    rewrite u16_small by lia.
    rewrite Assert_true by (apply Z.ltb_lt; lia). cbn [rbind].
    unfold HEADER. rewrite u16_small by lia.
    rewrite PutUint64_ok by lia. cbn [rbind].
    set (cur1 := overwrite _ _ cur).
    assert (R1 : node_rep cur1 t n es).
    { apply node_rep_write; [assumption|lia|solve_len|].
      left. rewrite blen_le_bytes. lia. }
    assert (L1 : blen cur1 = blen cur) by (unfold cur1; solve_len).
    destruct (IH (S i) cur1 R1 ltac:(lia) ltac:(lia))
      as (new' & Hrun & Hlen & Rn & Hslots & Hframe).
    replace (Z.of_nat i + 1) with (Z.of_nat (S i)) by lia.
    exists new'. split; [exact Hrun|]. split; [lia|].
    split; [exact Rn|]. split.
    + intros j e0 Hj He0.
      destruct (decide (j = i)) as [->|Hne].
      * rewrite Hframe by lia.
        assert (e0 = e) as -> by congruence.
        replace (4 + 8 * (Z.of_nat (length es) + Z.of_nat i))
          with (4 + (Z.of_nat (length es) + Z.of_nat i) * 8) by lia.
        unfold cur1. rdw. reflexivity.
      * apply Hslots; [lia|assumption].
    + intros p m Hp Hm Hreg. rewrite Hframe by lia.
      unfold cur1. rewrite rd_overwrite_disj; [reflexivity|lia|solve_len|
        lia|lia|rewrite blen_le_bytes; lia].
Qed.

Lemma copyOffsets_spec (src : nat) (rem : nat) :
  forall (i : nat) (cur : BNode),
    node_rep cur t n es ->
    (src + i + rem <= length es')%nat ->
    Z.of_nat (length es) + Z.of_nat i + Z.of_nat rem <= n ->
    4 + 10 * n + kvsize es + kvsize (take (i + rem) (drop src es'))
      <= blen cur ->
    exists new',
      copyOffsets rem cur old (Z.of_nat (length es)) (Z.of_nat src)
        (kvsize es) (kvsize (take src es')) (Z.of_nat (S i)) = Ok new'
      /\ blen new' = blen cur
      /\ node_rep new' t n es
      /\ (forall j : nat, (i <= j < i + rem)%nat ->
            rd new' (4 + 8 * n + 2 * (Z.of_nat (length es) + Z.of_nat j)) 2
            = le_bytes 2 (kvsize es + kvsize (take (S j) (drop src es'))))
      /\ (forall p m, 0 <= p -> 0 <= m ->
            p + m <= 4 + 8 * n + 2 * (Z.of_nat (length es) + Z.of_nat i)
            \/ 4 + 8 * n
               + 2 * (Z.of_nat (length es) + Z.of_nat i + Z.of_nat rem)
               <= p ->
            rd new' p m = rd cur p m).
Proof.
  induction rem as [|rem IH]; intros i cur R Hsrc Hdst Hcap.
  - exists cur. cbn [copyOffsets].
    split; [reflexivity|]. split; [reflexivity|]. split; [assumption|].
    split; [intros j Hj; lia|reflexivity].
  - cbn [copyOffsets].
    pose proof (rep_n_range _ _ _ _ R) as Hn.
    pose proof (rep_n_range _ _ _ _ Rold) as Hn'.
    pose proof (nr_cnt _ _ _ _ Rold) as Hc'.
    pose proof (kvsize_nonneg es) as Hks.
    rewrite u16_small by lia.
    replace (Z.of_nat src + Z.of_nat (S i)) with (Z.of_nat (src + S i))
      by lia.
    rewrite (rep_getOffset _ _ _ _ Rold) by lia. cbn [rbind].
    rewrite kvsize_take_add.
    pose proof (kvsize_take_le (S i) (drop src es')) as Hsub.
    assert (Hmono : kvsize (take (S i) (drop src es'))
                    <= kvsize (take (i + S rem) (drop src es'))).
    { replace (i + S rem)%nat with (S i + rem)%nat by lia.
      rewrite kvsize_take_add.
      pose proof (kvsize_nonneg (take rem (drop (S i) (drop src es')))).
      lia. }
    replace (kvsize es
             + (kvsize (take src es') + kvsize (take (S i) (drop src es')))
             - kvsize (take src es'))
      with (kvsize es + kvsize (take (S i) (drop src es'))) by lia.
    rewrite (u16_small (kvsize es + _)) by lia.
    unfold setOffset, offsetPos. rewrite (rep_nkeys _ _ _ _ R). cbn [rbind].
    rewrite (u16_small (Z.of_nat (length es) + Z.of_nat (S i))) by lia.
    rewrite Assert_true
      by (apply andb_true_intro; split; apply Z.leb_le; lia).
    cbn [rbind].
    rewrite (u16_small (Z.of_nat (length es) + Z.of_nat (S i) - 1)) by lia.
    unfold HEADER. rewrite u16_small by lia.
    rewrite PutUint16_ok by lia. cbn [rbind].
    set (cur1 := overwrite _ _ cur).
    assert (R1 : node_rep cur1 t n es).
    { apply node_rep_write; [assumption|lia|solve_len|].
      right. left. rewrite blen_le_bytes. lia. }
    assert (L1 : blen cur1 = blen cur) by (unfold cur1; solve_len).
    destruct (IH (S i) cur1 R1 ltac:(lia) ltac:(lia))
      as (new' & Hrun & Hlen & Rn & Hslots & Hframe).
    { replace (S i + rem)%nat with (i + S rem)%nat by lia. lia. }
    replace (Z.of_nat (S i) + 1) with (Z.of_nat (S (S i))) by lia.
    exists new'. split; [exact Hrun|]. split; [lia|].
    split; [exact Rn|]. split.
    + intros j Hj.
      destruct (decide (j = i)) as [->|Hne].
      * rewrite Hframe by lia.
        replace (4 + 8 * n + 2 * (Z.of_nat (length es) + Z.of_nat i))
          with (4 + n * 8
                + (Z.of_nat (length es) + Z.of_nat (S i) - 1) * 2) by lia.
        unfold cur1. rdw. reflexivity.
      * apply Hslots. lia.
    + intros p m Hp Hm Hreg. rewrite Hframe by lia.
      unfold cur1. rewrite rd_overwrite_disj; [reflexivity|lia|solve_len|
        lia|lia|rewrite blen_le_bytes; lia].
Qed.
End AppendRange.

(** nodeAppendRange appends the entries [src .. src+cnt) of [old] to the
    entries written in [new]. *)
Lemma nodeAppendRange_rep (new old : BNode) (t n t' n' : Z)
    (es es' : list entry) (src cnt : nat) :
  node_rep new t n es ->
  node_rep old t' n' es' ->
  (src + cnt <= length es')%nat ->
  Z.of_nat (length es) + Z.of_nat cnt <= n ->
  4 + 10 * n + kvsize es + kvsize (take cnt (drop src es')) <= blen new ->
  exists new',
    nodeAppendRange new old (Z.of_nat (length es)) (Z.of_nat src)
      (Z.of_nat cnt) = Ok new'
    /\ blen new' = blen new
    /\ node_rep new' t n (es ++ take cnt (drop src es')).
Proof.
  intros R Rold Hsrc Hdst Hcap.
  pose proof (rep_n_range _ _ _ _ R) as Hn.
  pose proof (rep_n_range _ _ _ _ Rold) as Hn'.
  pose proof (nr_cnt _ _ _ _ Rold) as Hc'.
  pose proof (nr_fit _ _ _ _ Rold) as Hf'.
  pose proof (kvsize_nonneg es) as Hks.
  unfold nodeAppendRange.
  rewrite (rep_nkeys _ _ _ _ Rold). cbn [rbind].
  rewrite (u16_small (Z.of_nat src + Z.of_nat cnt)) by lia.
  rewrite Assert_true by (apply Z.leb_le; lia). cbn [rbind].
  rewrite (rep_nkeys _ _ _ _ R). cbn [rbind].
  rewrite (u16_small (Z.of_nat (length es) + Z.of_nat cnt)) by lia.
  rewrite Assert_true by (apply Z.leb_le; lia). cbn [rbind].
  destruct (Z.eqb_spec (Z.of_nat cnt) 0) as [E0|N0].
  { exists new. assert (cnt = 0%nat) as -> by lia.
    rewrite take_0, app_nil_r. auto. }
  rewrite Nat2Z.id.
  destruct (copyPtrs_spec old t' n' es' Rold t n es src cnt 0%nat new R)
    as (new1 & Hrun1 & L1 & R1 & Hp1 & _); [lia|lia|].
  change (Z.of_nat 0) with 0 in Hrun1. rewrite Hrun1. cbn [rbind].
  rewrite (rep_getOffset _ _ _ _ R1) by lia. cbn [rbind].
  rewrite (take_ge es) by lia.
  rewrite (rep_getOffset _ _ _ _ Rold) by lia. cbn [rbind].
  destruct (copyOffsets_spec old t' n' es' Rold t n es src cnt 0%nat new1 R1)
    as (new2 & Hrun2 & L2 & R2 & Ho2 & Hf2); [lia|lia|simpl; lia|].
  change (Z.of_nat 1) with 1 in Hrun2. rewrite Hrun2. cbn [rbind].
  rewrite (rep_kvPos _ _ _ _ Rold) by lia. cbn [rbind].
  replace (Z.of_nat src + Z.of_nat cnt) with (Z.of_nat (src + cnt)) by lia.
  rewrite (rep_kvPos _ _ _ _ Rold) by lia. cbn [rbind].
  rewrite (rep_kvPos _ _ _ _ R2) by lia. cbn [rbind].
  rewrite (take_ge es) by lia.
  pose proof (kvsize_take_le src es') as Hs1.
  pose proof (kvsize_take_le (src + cnt) es') as Hs2.
  pose proof (kvsize_nonneg (take cnt (drop src es'))) as Hs3.
  rewrite kvsize_take_add in *.
  rewrite slice_ok by lia. cbn [rbind].
  replace (4 + 10 * n' + (kvsize (take src es')
                          + kvsize (take cnt (drop src es')))
           - (4 + 10 * n' + kvsize (take src es')))
    with (kvsize (take cnt (drop src es'))) by lia.
  assert (Esrc : rd old (4 + 10 * n' + kvsize (take src es'))
                   (kvsize (take cnt (drop src es')))
                 = enc_kvs (take cnt (drop src es'))).
  { rewrite <- rd_enc_kvs_sub. rewrite <- (nr_kvs _ _ _ _ Rold).
    rewrite rd_rd by lia. reflexivity. }
  rewrite Esrc.
  rewrite copy_at_ok by lia.
  eexists. split; [reflexivity|].
  assert (Hbl : blen (enc_kvs (take cnt (drop src es')))
                = kvsize (take cnt (drop src es')))
    by apply blen_enc_kvs.
  split; [rewrite blen_overwrite by lia; lia|].
  apply node_rep_extend.
  - apply node_rep_write; [exact R2|lia|lia|]. right. right. lia.
  - rewrite length_take, length_drop. lia.
  - rewrite blen_overwrite by lia. lia.
  - intros j e He.
    assert (Hj : (j < cnt)%nat).
    { apply lookup_lt_Some in He. rewrite length_take in He. lia. }
    rewrite lookup_take_lt, lookup_drop in He by assumption.
    destruct (nr_ptrs _ _ _ _ Rold _ _ He) as [Hpr _].
    split; [assumption|].
    rewrite rd_overwrite_disj by lia.
    rewrite Hf2 by lia. apply Hp1; [lia|assumption].
  - intros j Hj. rewrite length_take, length_drop in Hj.
    rewrite rd_overwrite_disj by lia.
    rewrite take_S_take_drop by lia. apply Ho2. lia.
  - rewrite rd_overwrite_eq by lia. reflexivity.
Qed.

(** ** Splitting a node *)

Lemma nsize_take_drop (j : nat) (es : list entry) :
  (j <= length es)%nat ->
  nsize (take j es) + nsize (drop j es) = nsize es + 4.
Proof.
  intros Hj. unfold nsize. rewrite length_take, length_drop.
  pose proof (kvsize_take_drop j es). lia.
Qed.

Lemma nsize_take_mono (i j : nat) (es : list entry) :
  (i <= j)%nat -> nsize (take i es) <= nsize (take j es).
Proof.
  intros Hij. unfold nsize. rewrite !length_take.
  replace j with (i + (j - i))%nat by lia. rewrite kvsize_take_add.
  pose proof (kvsize_nonneg (take (j - i) (drop i es))). lia.
Qed.

Lemma nsize_take_le (j : nat) (es : list entry) :
  nsize (take j es) <= nsize es.
Proof.
  unfold nsize. rewrite length_take. pose proof (kvsize_take_le j es). lia.
Qed.

Lemma nsize_ge_4 (es : list entry) : 4 <= nsize es.
Proof. unfold nsize. pose proof (kvsize_nonneg es). lia. Qed.

Section Split.
Context (old : BNode) (t : Z) (es : list entry).
Hypothesis R : node_is old t es.

Lemma left_bytes_rep (j : nat) :
  (j <= length es)%nat ->
  left_bytes old (Z.of_nat j) = Ok (nsize (take j es)).
Proof.
  intros Hj. unfold left_bytes.
  rewrite (rep_getOffset _ _ _ _ R) by assumption. cbn [rbind].
  pose proof (rep_n_range _ _ _ _ R) as Hn.
  pose proof (kvsize_take_le j es). pose proof (nr_fit _ _ _ _ R).
  unfold nsize. rewrite length_take. rewrite u16_small by lia.
  f_equal. lia.
Qed.

Lemma right_bytes_rep (j : nat) :
  (j <= length es)%nat ->
  right_bytes old (Z.of_nat j) = Ok (nsize (drop j es)).
Proof.
  intros Hj. unfold right_bytes.
  rewrite (rep_nbytes _ _ _ _ R) by reflexivity. cbn [rbind].
  rewrite left_bytes_rep by assumption. cbn [rbind].
  pose proof (nsize_take_drop j es Hj).
  pose proof (nsize_ge_4 (drop j es)). pose proof (nsize_ge_4 (take j es)).
  pose proof (rep_n_range _ _ _ _ R) as Hn.
  pose proof (nr_fit _ _ _ _ R). unfold nsize in *.
  rewrite u16_small by lia. f_equal. lia.
Qed.

(** The first loop stops at the largest [j1] below the start whose left
    part fits, which exists when the first entry alone fits. *)
Lemma shrinkLeft_spec (fuel : nat) :
  forall j : nat,
    (j <= length es)%nat -> (j < fuel)%nat ->
    exists j1 : nat,
      shrinkLeft fuel old (Z.of_nat j) = Ok (Z.of_nat j1)
      /\ (j1 <= j)%nat
      /\ nsize (take j1 es) <= BTREE_PAGE_SIZE
      /\ (forall i : nat, (j1 < i <= j)%nat ->
            nsize (take i es) > BTREE_PAGE_SIZE).
Proof.
  induction fuel as [|fuel IH]; intros j Hj Hf; [lia|].
  cbn [shrinkLeft]. rewrite left_bytes_rep by assumption. cbn [rbind].
  destruct (Z.gtb_spec (nsize (take j es)) BTREE_PAGE_SIZE) as [Hgt|Hle].
  - destruct j as [|j].
    { rewrite take_0 in Hgt. unfold nsize, BTREE_PAGE_SIZE in Hgt.
      simpl in Hgt. lia. }
    rewrite u16_small
      by (pose proof (rep_n_range _ _ _ _ R); lia).
    replace (Z.of_nat (S j) - 1) with (Z.of_nat j) by lia.
    destruct (IH j ltac:(lia) ltac:(lia)) as (j1 & Hrun & Hle1 & Hfit & Hbig).
    exists j1. split; [exact Hrun|]. split; [lia|]. split; [exact Hfit|].
    intros i Hi. destruct (decide (i = S j)) as [->|Hne]; [lia|].
    apply Hbig. lia.
  - exists j. split; [reflexivity|]. split; [lia|]. split; [lia|].
    intros i Hi. lia.
Qed.

(** The second loop stops at the first [j2] from the start on whose
    right part fits. *)
Lemma growLeft_spec (fuel : nat) :
  forall j jmax : nat,
    (j <= jmax)%nat -> (jmax <= length es)%nat ->
    nsize (drop jmax es) <= BTREE_PAGE_SIZE ->
    (jmax - j < fuel)%nat ->
    exists j2 : nat,
      growLeft fuel old (Z.of_nat j) = Ok (Z.of_nat j2)
      /\ (j <= j2 <= jmax)%nat
      /\ nsize (drop j2 es) <= BTREE_PAGE_SIZE
      /\ (forall i : nat, (j <= i < j2)%nat ->
            nsize (drop i es) > BTREE_PAGE_SIZE).
Proof.
  induction fuel as [|fuel IH]; intros j jmax Hj Hmax Hfit Hf; [lia|].
  cbn [growLeft]. rewrite right_bytes_rep by lia. cbn [rbind].
  destruct (Z.gtb_spec (nsize (drop j es)) BTREE_PAGE_SIZE) as [Hgt|Hle].
  - assert (j <> jmax) by (intros ->; lia).
    rewrite u16_small
      by (pose proof (rep_n_range _ _ _ _ R); lia).
    replace (Z.of_nat j + 1) with (Z.of_nat (S j)) by lia.
    destruct (IH (S j) jmax ltac:(lia) Hmax Hfit ltac:(lia))
      as (j2 & Hrun & Hr & Hfit2 & Hbig).
    exists j2. split; [exact Hrun|]. split; [lia|]. split; [exact Hfit2|].
    intros i Hi. destruct (decide (i = j)) as [->|Hne]; [lia|].
    apply Hbig. lia.
  - exists j. split; [reflexivity|]. split; [lia|]. split; [lia|].
    intros i Hi. lia.
Qed.
End Split.

Lemma nsize_singleton (e : entry) : nsize [e] = 14 + esz e.
Proof. unfold nsize. cbn [length kvsize]. lia. Qed.

Lemma nsize_take_1 (es : list entry) :
  (forall e, e ∈ es -> 14 + esz e <= BTREE_PAGE_SIZE) ->
  nsize (take 1 es) <= BTREE_PAGE_SIZE.
Proof.
  intros H. destruct es as [|e es]; [vm_compute; discriminate|].
  cbn [take]. rewrite nsize_singleton. apply H. apply list_elem_of_here.
Qed.

Lemma nsize_drop_last (es : list entry) :
  (forall e, e ∈ es -> 14 + esz e <= BTREE_PAGE_SIZE) ->
  nsize (drop (length es - 1) es) <= BTREE_PAGE_SIZE.
Proof.
  intros H. destruct (decide (es = [])) as [->|Hne]; [vm_compute; discriminate|].
  destruct (lookup_lt_is_Some_2 es (length es - 1)) as [e He].
  { destruct es; [contradiction|simpl; lia]. }
  rewrite (drop_S es e _ He).
  rewrite drop_ge by (destruct es; [contradiction|simpl; lia]).
  rewrite nsize_singleton. apply H. eapply list_elem_of_lookup_2. exact He.
Qed.

Lemma nodeSplit2_spec (leftb rightb old : BNode) (t : Z) (es : list entry) :
  node_is old t es ->
  (2 <= length es)%nat ->
  (forall e, e ∈ es -> 14 + esz e <= BTREE_PAGE_SIZE) ->
  blen leftb < 65536 ->
  BTREE_PAGE_SIZE <= blen rightb < 65536 ->
  nsize es <= blen leftb
  \/ (BTREE_PAGE_SIZE <= blen leftb
      /\ nsize (take (length es - 1) es) <= BTREE_PAGE_SIZE) ->
  exists (j : nat) (l r : BNode),
    nodeSplit2 leftb rightb old = Ok (l, r)
    /\ (1 <= j < length es)%nat
    /\ node_is l t (take j es)
    /\ node_is r t (drop j es)
    /\ blen l = blen leftb
    /\ blen r = blen rightb
    /\ nsize (drop j es) <= BTREE_PAGE_SIZE
    /\ (nsize (take j es) <= BTREE_PAGE_SIZE
        \/ nsize (drop (j - 1) es) > BTREE_PAGE_SIZE).
Proof.
  intros R Hn2 Hent Hlb Hrb Hcap.
  pose proof (rep_n_range _ _ _ _ R) as Hn.
  destruct (nr_type _ _ _ _ R) as [Ht _].
  unfold nodeSplit2. rewrite (rep_nkeys _ _ _ _ R). cbn [rbind].
  rewrite Assert_true by (apply Z.geb_le; lia). cbn [rbind].
  replace (Z.of_nat (length es) / 2) with (Z.of_nat (length es / 2))
    by (rewrite Nat2Z.inj_div; reflexivity).
  rewrite Nat2Z.id.
  set (j0 := (length es / 2)%nat).
  assert (Hj0 : (1 <= j0 <= length es - 1)%nat).
  { unfold j0. split.
    - apply Nat.div_le_lower_bound; lia.
    - assert (length es / 2 < length es)%nat
        by (apply Nat.div_lt; lia). lia. }
  destruct (shrinkLeft_spec old t es R (j0 + 1) j0 ltac:(lia) ltac:(lia))
    as (j1 & Hrun1 & Hj1 & Hfit1 & Hbig1).
  rewrite Hrun1. cbn [rbind].
  assert (Hj1pos : (1 <= j1)%nat).
  { destruct j1; [|lia]. pose proof (nsize_take_1 es Hent).
    specialize (Hbig1 1%nat ltac:(lia)). lia. }
  rewrite Assert_true by (apply Z.geb_le; lia). cbn [rbind].
  replace (Z.to_nat (Z.of_nat (length es) - Z.of_nat j1) + 2)%nat
    with (length es - j1 + 2)%nat by lia.
  destruct (growLeft_spec old t es R (length es - j1 + 2) j1 (length es - 1))
    as (j2 & Hrun2 & Hj2 & Hfit2 & Hbig2);
    [lia|lia|apply nsize_drop_last; assumption|lia|].
  rewrite Hrun2. cbn [rbind].
  rewrite Assert_true by (apply Z.ltb_lt; lia). cbn [rbind].
  rewrite (rep_btype _ _ _ _ R). cbn [rbind].
  rewrite u16_small by lia.
  assert (Hleftcap : nsize (take j2 es) <= blen leftb).
  { destruct Hcap as [Hc|[Hc1 Hc2]].
    - pose proof (nsize_take_le j2 es). lia.
    - pose proof (nsize_take_mono j2 (length es - 1) es ltac:(lia)). lia. }
  assert (Hl10 : 4 + 10 * Z.of_nat j2 <= blen leftb).
  { unfold nsize in Hleftcap. rewrite length_take in Hleftcap.
    pose proof (kvsize_nonneg (take j2 es)). lia. }
  assert (Hr10 : 4 + 10 * (Z.of_nat (length es) - Z.of_nat j2)
                 <= blen rightb).
  { unfold nsize in Hfit2. rewrite length_drop in Hfit2.
    pose proof (kvsize_nonneg (drop j2 es)). lia. }
  destruct (setHeader_rep leftb t (Z.of_nat j2)) as (l0 & Hl0 & Ll0 & Rl0);
    [lia|lia|lia|lia|].
  rewrite Hl0. cbn [rbind].
  destruct (setHeader_rep rightb t (Z.of_nat (length es) - Z.of_nat j2))
    as (r0 & Hr0 & Lr0 & Rr0); [lia|lia|lia|lia|].
  rewrite Hr0. cbn [rbind].
  destruct (nodeAppendRange_rep l0 old t (Z.of_nat j2) t
              (Z.of_nat (length es)) [] es 0 j2 Rl0 R)
    as (l1 & Hl1 & Ll1 & Rl1).
  { lia. } { simpl. lia. }
  { rewrite drop_0. cbn [kvsize]. unfold nsize in Hleftcap.
    rewrite length_take in Hleftcap. lia. }
  change (Z.of_nat (length (@nil entry))) with 0 in Hl1.
  change (Z.of_nat 0) with 0 in Hl1.
  rewrite Hl1. cbn [rbind].
  destruct (nodeAppendRange_rep r0 old t
              (Z.of_nat (length es) - Z.of_nat j2) t
              (Z.of_nat (length es)) [] es j2 (length es - j2) Rr0 R)
    as (r1 & Hr1 & Lr1 & Rr1).
  { lia. } { simpl. lia. }
  { rewrite take_ge by (rewrite length_drop; lia). cbn [kvsize].
    unfold nsize in Hfit2. rewrite length_drop in Hfit2. lia. }
  change (Z.of_nat (length (@nil entry))) with 0 in Hr1.
  replace (Z.of_nat (length es - j2))
    with (Z.of_nat (length es) - Z.of_nat j2) in Hr1 by lia.
  rewrite Hr1. cbn [rbind].
  rewrite drop_0 in Rl1. cbn [app] in Rl1, Rr1.
  rewrite take_ge in Rr1 by (rewrite length_drop; lia).
  assert (Rl : node_is l1 t (take j2 es)).
  { unfold node_is. rewrite length_take.
    replace (Z.of_nat (j2 `min` length es)) with (Z.of_nat j2) by lia.
    exact Rl1. }
  assert (Rr : node_is r1 t (drop j2 es)).
  { unfold node_is. rewrite length_drop.
    replace (Z.of_nat (length es - j2))
      with (Z.of_nat (length es) - Z.of_nat j2) by lia.
    exact Rr1. }
  rewrite (rep_nbytes _ _ _ _ Rr) by reflexivity. cbn [rbind].
  rewrite Assert_true by (apply Z.leb_le; lia). cbn [rbind].
  exists j2, l1, r1. split; [reflexivity|]. split; [lia|].
  split; [exact Rl|]. split; [exact Rr|]. split; [lia|]. split; [lia|].
  split; [exact Hfit2|].
  destruct (decide (j2 = j1)) as [->|Hne]; [left; exact Hfit1|].
  right. apply Hbig2. lia.
Qed.

Lemma blen_make (n : Z) : 0 <= n -> blen (make n) = n.
Proof. intros H. unfold blen, make. rewrite length_replicate. lia. Qed.

(** The first [m] bytes of a node are the same node when they hold it. *)
Lemma node_rep_prefix (d : BNode) (t n : Z) (es : list entry) (m : Z) :
  node_rep d t n es ->
  4 + 10 * n + kvsize es <= m -> m <= blen d ->
  node_rep (rd d 0 m) t n es.
Proof.
  intros R Hm Hle.
  pose proof (rep_n_range _ _ _ _ R) as Hn.
  pose proof (kvsize_nonneg es) as Hk.
  assert (Hb : blen (rd d 0 m) = m) by (apply blen_rd; lia).
  assert (Hrd : forall p k, 0 <= p -> 0 <= k -> p + k <= m ->
                  rd (rd d 0 m) p k = rd d p k).
  { intros p k Hp Hk' Hpk. rewrite rd_rd by lia. f_equal. }
  destruct R as [Hlen Hf Hc [Ht Et] En Hp Ho Hkv].
  split; try assumption; try lia.
  - split; [assumption|]. rewrite Hrd by lia. assumption.
  - rewrite Hrd by lia. assumption.
  - intros i e He. destruct (Hp i e He) as [Hr E]. split; [assumption|].
    pose proof (lookup_lt_Some _ _ _ He). rewrite Hrd by lia. assumption.
  - intros i Hi. rewrite Hrd by lia. now apply Ho.
  - rewrite Hrd by lia. assumption.
Qed.

Lemma node_is_take (d : BNode) (t : Z) (es : list entry) (j : nat) :
  (j <= length es)%nat ->
  node_rep d t (Z.of_nat j) (take j es) -> node_is d t (take j es).
Proof.
  intros Hj R. unfold node_is. rewrite length_take.
  replace (j `min` length es)%nat with j by lia. exact R.
Qed.

(** What nodeSplit3 returns on a node whose entries fit one by one and
    whose size is at most two pages less three bytes. *)
Lemma nodeSplit3_spec (old : BNode) (t : Z) (es : list entry) :
  node_is old t es ->
  BTREE_PAGE_SIZE <= blen old ->
  (forall e, e ∈ es -> 14 + esz e <= BTREE_PAGE_SIZE) ->
  nsize es <= 2 * BTREE_PAGE_SIZE - 3 ->
  exists (nodes : list BNode) (parts : list (list entry)),
    nodeSplit3 old = Ok nodes
    /\ concat parts = es
    /\ (1 <= length nodes <= 3)%nat
    /\ Forall2 (fun d p => node_is d t p
                           /\ blen d = BTREE_PAGE_SIZE
                           /\ nsize p <= BTREE_PAGE_SIZE
                           /\ (es <> [] -> p <> [])) nodes parts.
Proof.
  intros R Hold Hent Hsize.
  pose proof (rep_n_range _ _ _ _ R) as Hn.
  unfold nodeSplit3. rewrite (rep_nbytes _ _ _ _ R) by reflexivity.
  cbn [rbind].
  destruct (Z.leb_spec (nsize es) BTREE_PAGE_SIZE) as [Hfit|Hbig].
  { rewrite slice_ok by (unfold BTREE_PAGE_SIZE in *; lia). cbn [rbind].
    exists [rd old 0 (BTREE_PAGE_SIZE - 0)], [es].
    split; [reflexivity|]. split; [cbn; apply app_nil_r|].
    split; [simpl; lia|]. constructor; [|constructor].
    split; [|split; [|split; [assumption|auto]]].
    - apply node_rep_prefix; [exact R|unfold nsize in Hfit; lia|lia].
    - apply blen_rd; unfold BTREE_PAGE_SIZE in *; lia. }
  assert (Hn2 : (2 <= length es)%nat).
  { destruct es as [|e1 [|e2 es2]]; [| |simpl; lia].
    - unfold nsize, BTREE_PAGE_SIZE in Hbig. cbn [length kvsize] in Hbig.
      lia.
    - rewrite nsize_singleton in Hbig.
      specialize (Hent e1 (list_elem_of_here _ _)). lia. }
  destruct (nodeSplit2_spec (make (2 * BTREE_PAGE_SIZE)) (make BTREE_PAGE_SIZE)
              old t es R Hn2 Hent)
    as (j & l & r & Hrun & Hj & Rl & Rr & Ll & Lr & Hrfit & Hor).
  { rewrite blen_make; vm_compute; [reflexivity|discriminate]. }
  { rewrite blen_make by (vm_compute; discriminate).
    vm_compute. split; [discriminate|reflexivity]. }
  { left. rewrite blen_make by (vm_compute; discriminate). lia. }
  rewrite Hrun. cbn [rbind].
  rewrite blen_make in Ll, Lr by (vm_compute; discriminate).
  rewrite (rep_nbytes _ _ _ _ Rl) by reflexivity. cbn [rbind].
  destruct (Z.leb_spec (nsize (take j es)) BTREE_PAGE_SIZE) as [Hlfit|Hlbig].
  { rewrite slice_ok by (unfold BTREE_PAGE_SIZE in *; lia). cbn [rbind].
    exists [rd l 0 (BTREE_PAGE_SIZE - 0); r], [take j es; drop j es].
    split; [reflexivity|].
    split; [cbn; rewrite app_nil_r; apply take_drop|].
    split; [simpl; lia|].
    constructor; [|constructor; [|constructor]].
    - split; [|split; [|split; [assumption|]]].
      + apply node_rep_prefix;
          [exact Rl|unfold nsize in Hlfit; lia
          |unfold BTREE_PAGE_SIZE in *; lia].
      + apply blen_rd; unfold BTREE_PAGE_SIZE in *; lia.
      + intros _ E. apply (f_equal length) in E.
        rewrite length_take in E. simpl in E. lia.
    - split; [exact Rr|]. split; [exact Lr|]. split; [assumption|].
      intros _ E. apply (f_equal length) in E.
      rewrite length_drop in E. simpl in E. lia. }
  destruct Hor as [Hc|Hprev]; [lia|].
  assert (Hj2 : (2 <= j)%nat).
  { destruct (decide (j = 1%nat)) as [->|]; [|lia].
    pose proof (nsize_take_1 es Hent). lia. }
  assert (Hprevfit : nsize (take (j - 1) es) <= BTREE_PAGE_SIZE).
  { pose proof (nsize_take_drop (j - 1) es ltac:(lia)).
    unfold BTREE_PAGE_SIZE in *. lia. }
  assert (Hent' : forall e, e ∈ take j es -> 14 + esz e <= BTREE_PAGE_SIZE).
  { intros e He. apply Hent. exact (subseteq_take j es e He). }
  assert (Hlen' : length (take j es) = j) by (rewrite length_take; lia).
  destruct (nodeSplit2_spec (make BTREE_PAGE_SIZE) (make BTREE_PAGE_SIZE)
              l t (take j es) Rl ltac:(lia) Hent')
    as (j' & ll & m & Hrun' & Hj' & Rll & Rm & Lll & Lm & Hmfit & _).
  { rewrite blen_make; vm_compute; [reflexivity|discriminate]. }
  { rewrite blen_make by (vm_compute; discriminate).
    vm_compute. split; [discriminate|reflexivity]. }
  { right. rewrite blen_make by (vm_compute; discriminate).
    split; [lia|]. rewrite Hlen', take_take.
    replace ((j - 1) `min` j)%nat with (j - 1)%nat by lia. exact Hprevfit. }
  rewrite Hrun'. cbn [rbind].
  rewrite blen_make in Lll, Lm by (vm_compute; discriminate).
  rewrite (rep_nbytes _ _ _ _ Rll) by reflexivity. cbn [rbind].
  rewrite Hlen' in Hj'.
  assert (Hllfit : nsize (take j' (take j es)) <= BTREE_PAGE_SIZE).
  { rewrite take_take. replace (j' `min` j)%nat with j' by lia.
    pose proof (nsize_take_mono j' (j - 1) es ltac:(lia)). lia. }
  rewrite Assert_true by (apply Z.leb_le; lia). cbn [rbind].
  exists [ll; m; r], [take j' (take j es); drop j' (take j es); drop j es].
  split; [reflexivity|].
  split; [cbn; rewrite app_nil_r, app_assoc, !take_drop; reflexivity|].
  split; [simpl; lia|].
  constructor; [|constructor; [|constructor; [|constructor]]].
  - split; [exact Rll|]. split; [exact Lll|]. split; [assumption|].
    intros _ E. apply (f_equal length) in E.
    rewrite length_take, Hlen' in E. simpl in E. lia.
  - split; [exact Rm|]. split; [exact Lm|]. split; [assumption|].
    intros _ E. apply (f_equal length) in E.
    rewrite length_drop, Hlen' in E. simpl in E. lia.
  - split; [exact Rr|]. split; [exact Lr|]. split; [assumption|].
    intros _ E. apply (f_equal length) in E.
    rewrite length_drop in E. simpl in E. lia.
Qed.

(** ** The nodes the insertion builds *)

Lemma nodeAppendKV_at (d : BNode) (t n : Z) (es : list entry)
    (i ptr : Z) (k v : list byte) :
  node_rep d t n es ->
  i = Z.of_nat (length es) ->
  i < n ->
  0 <= ptr < 18446744073709551616 ->
  4 + 10 * n + kvsize es + (4 + blen k + blen v) <= blen d ->
  exists d', nodeAppendKV d i ptr k v = Ok d'
             /\ blen d' = blen d
             /\ node_rep d' t n (es ++ [(ptr, k, v)]).
Proof. intros R -> Hi. now apply nodeAppendKV_rep. Qed.

Lemma nodeAppendRange_at (new old : BNode) (t n t' n' : Z)
    (es es' : list entry) (dst srcz cntz : Z) (src cnt : nat) :
  node_rep new t n es ->
  node_rep old t' n' es' ->
  dst = Z.of_nat (length es) ->
  srcz = Z.of_nat src -> cntz = Z.of_nat cnt ->
  (src + cnt <= length es')%nat ->
  Z.of_nat (length es) + Z.of_nat cnt <= n ->
  4 + 10 * n + kvsize es + kvsize (take cnt (drop src es')) <= blen new ->
  exists new',
    nodeAppendRange new old dst srcz cntz = Ok new'
    /\ blen new' = blen new
    /\ node_rep new' t n (es ++ take cnt (drop src es')).
Proof. intros R R' -> -> ->. now apply (nodeAppendRange_rep _ _ _ _ t' n'). Qed.

Lemma nsize_app (a b : list entry) : nsize (a ++ b) = nsize a + nsize b - 4.
Proof. unfold nsize. rewrite length_app, kvsize_app. lia. Qed.

Lemma nsize_cons (e : entry) (l : list entry) :
  nsize (e :: l) = nsize l + 10 + esz e.
Proof. unfold nsize. cbn [length kvsize]. lia. Qed.

Lemma kvsize_le_nsize (es : list entry) :
  4 + 10 * Z.of_nat (length es) + kvsize es = nsize es.
Proof. reflexivity. Qed.

Lemma leafInsert_rep (new old : BNode) (t : Z) (es : list entry)
    (idx : nat) (key val : list byte) :
  node_is old t es ->
  (idx <= length es)%nat ->
  blen new < 65536 ->
  nsize es + 14 + blen key + blen val <= blen new ->
  exists new',
    leafInsert new old (Z.of_nat idx) key val = Ok new'
    /\ blen new' = blen new
    /\ node_is new' BNODE_LEAF (take idx es ++ (0, key, val) :: drop idx es).
Proof.
  intros R Hidx Hlen Hcap.
  pose proof (rep_n_range _ _ _ _ R) as Hn.
  pose proof (kvsize_nonneg es) as Hks.
  pose proof (blen_nonneg key) as Hk. pose proof (blen_nonneg val) as Hv.
  pose proof (kvsize_take_drop idx es) as Htd.
  pose proof (kvsize_nonneg (take idx es)).
  pose proof (kvsize_nonneg (drop idx es)).
  unfold nsize in Hcap.
  unfold leafInsert. rewrite (rep_nkeys _ _ _ _ R). cbn [rbind].
  rewrite (u16_small (Z.of_nat (length es) + 1)) by lia.
  destruct (setHeader_rep new BNODE_LEAF (Z.of_nat (length es) + 1))
    as (d0 & Hr0 & L0 & R0); [lia|lia|lia|vm_compute; split; congruence|].
  rewrite Hr0. cbn [rbind].
  destruct (nodeAppendRange_at d0 old _ _ _ _ [] es 0 0 (Z.of_nat idx)
              0 idx R0 R) as (d1 & Hr1 & L1 & R1);
    [reflexivity|reflexivity|reflexivity|lia|simpl; lia
    |rewrite drop_0; cbn [kvsize]; lia|].
  rewrite Hr1. cbn [rbind]. rewrite drop_0 in R1. cbn [app] in R1.
  destruct (nodeAppendKV_at d1 _ _ _ (Z.of_nat idx) 0 key val R1)
    as (d2 & Hr2 & L2 & R2);
    [rewrite length_take; lia|lia|lia|lia|].
  rewrite Hr2. cbn [rbind].
  rewrite (u16_small (Z.of_nat idx + 1)) by lia.
  rewrite (u16_small (Z.of_nat (length es) - Z.of_nat idx)) by lia.
  destruct (nodeAppendRange_at d2 old _ _ _ _ _ es (Z.of_nat idx + 1)
              (Z.of_nat idx) (Z.of_nat (length es) - Z.of_nat idx)
              idx (length es - idx) R2 R) as (d3 & Hr3 & L3 & R3).
  { rewrite length_app, length_take. simpl. lia. }
  { reflexivity. } { lia. } { lia. }
  { rewrite length_app, length_take. simpl. lia. }
  { rewrite (take_ge (drop idx es)) by (rewrite length_drop; lia).
    rewrite kvsize_app. cbn [kvsize]. unfold esz, e_key, e_val.
    cbn [fst snd]. lia. }
  rewrite Hr3. exists d3. split; [reflexivity|]. split; [lia|].
  rewrite (take_ge (drop idx es)) in R3 by (rewrite length_drop; lia).
  rewrite <- app_assoc in R3. cbn [app] in R3.
  unfold node_is. rewrite length_app, length_take. cbn [length].
  rewrite length_drop.
  replace (Z.of_nat (idx `min` length es + S (length es - idx)))
    with (Z.of_nat (length es) + 1) by lia.
  exact R3.
Qed.

Lemma leafUpdate_rep (new old : BNode) (t : Z) (es : list entry)
    (idx : nat) (key val : list byte) :
  node_is old t es ->
  (idx < length es)%nat ->
  blen new < 65536 ->
  nsize (take idx es ++ (0, key, val) :: drop (S idx) es) <= blen new ->
  exists new',
    leafUpdate new old (Z.of_nat idx) key val = Ok new'
    /\ blen new' = blen new
    /\ node_is new' BNODE_LEAF
         (take idx es ++ (0, key, val) :: drop (S idx) es).
Proof.
  intros R Hidx Hlen Hcap.
  pose proof (rep_n_range _ _ _ _ R) as Hn.
  pose proof (blen_nonneg key) as Hk. pose proof (blen_nonneg val) as Hv.
  pose proof (kvsize_nonneg (take idx es)).
  pose proof (kvsize_nonneg (drop (S idx) es)).
  unfold nsize in Hcap. rewrite length_app, length_take in Hcap.
  cbn [length] in Hcap. rewrite length_drop, kvsize_app in Hcap.
  cbn [kvsize] in Hcap. unfold esz, e_key, e_val in Hcap.
  cbn [fst snd] in Hcap.
  unfold leafUpdate. rewrite (rep_nkeys _ _ _ _ R). cbn [rbind].
  destruct (setHeader_rep new BNODE_LEAF (Z.of_nat (length es)))
    as (d0 & Hr0 & L0 & R0); [lia|lia|lia|vm_compute; split; congruence|].
  rewrite Hr0. cbn [rbind].
  destruct (nodeAppendRange_at d0 old _ _ _ _ [] es 0 0 (Z.of_nat idx)
              0 idx R0 R) as (d1 & Hr1 & L1 & R1);
    [reflexivity|reflexivity|reflexivity|lia|simpl; lia
    |rewrite drop_0; cbn [kvsize]; lia|].
  rewrite Hr1. cbn [rbind]. rewrite drop_0 in R1. cbn [app] in R1.
  destruct (nodeAppendKV_at d1 _ _ _ (Z.of_nat idx) 0 key val R1)
    as (d2 & Hr2 & L2 & R2);
    [rewrite length_take; lia|lia|lia|lia|].
  rewrite Hr2. cbn [rbind].
  rewrite !(u16_small (Z.of_nat idx + 1)) by lia.
  rewrite (u16_small (Z.of_nat (length es) - (Z.of_nat idx + 1))) by lia.
  destruct (nodeAppendRange_at d2 old _ _ _ _ _ es (Z.of_nat idx + 1)
              (Z.of_nat idx + 1) (Z.of_nat (length es) - (Z.of_nat idx + 1))
              (S idx) (length es - S idx) R2 R) as (d3 & Hr3 & L3 & R3).
  { rewrite length_app, length_take. simpl. lia. }
  { lia. } { lia. } { lia. }
  { rewrite length_app, length_take. simpl. lia. }
  { rewrite (take_ge (drop (S idx) es)) by (rewrite length_drop; lia).
    rewrite kvsize_app. cbn [kvsize]. unfold esz, e_key, e_val.
    cbn [fst snd]. lia. }
  rewrite Hr3. exists d3. split; [reflexivity|]. split; [lia|].
  rewrite (take_ge (drop (S idx) es)) in R3 by (rewrite length_drop; lia).
  rewrite <- app_assoc in R3. cbn [app] in R3.
  unfold node_is. rewrite length_app, length_take. cbn [length].
  rewrite length_drop.
  replace (Z.of_nat (idx `min` length es + S (length es - S idx)))
    with (Z.of_nat (length es)) by lia.
  exact R3.
Qed.

(** ** Reading the entries back *)

Lemma entry_eta (e : entry) : (e_ptr e, e_key e, e_val e) = e.
Proof. destruct e as [[p k] v]. reflexivity. Qed.

Lemma entries_from_rep (d : BNode) (t n : Z) (es : list entry) :
  node_rep d t n es ->
  forall (rem i : nat),
    (i + rem = length es)%nat ->
    entries_from rem d (Z.of_nat i) = Ok (drop i es).
Proof.
  intros R rem. induction rem as [|rem IH]; intros i Hi.
  - cbn [entries_from]. rewrite drop_ge by lia. reflexivity.
  - cbn [entries_from].
    destruct (lookup_lt_is_Some_2 es i ltac:(lia)) as [e He].
    rewrite (rep_getPtr _ _ _ _ R _ _ He). cbn [rbind].
    rewrite (rep_getKey _ _ _ _ R _ _ He). cbn [rbind].
    rewrite (rep_getVal _ _ _ _ R _ _ He). cbn [rbind].
    replace (Z.of_nat i + 1) with (Z.of_nat (S i)) by lia.
    rewrite IH by lia. cbn [rbind].
    rewrite (drop_S es e i He), entry_eta. reflexivity.
Qed.

Lemma entries_of_rep (d : BNode) (t : Z) (es : list entry) :
  node_is d t es -> entries_of d = Ok es.
Proof.
  intros R. unfold entries_of. rewrite (rep_nkeys _ _ _ _ R). cbn [rbind].
  rewrite Nat2Z.id.
  exact (entries_from_rep d t _ es R (length es) 0%nat eq_refl).
Qed.

Lemma all_entries_rep (t : Z) (nodes : list BNode)
    (parts : list (list entry)) :
  Forall2 (fun d p => node_is d t p) nodes parts ->
  all_entries nodes = Ok parts.
Proof.
  induction 1 as [|d p nodes parts Hd _ IH]; cbn [all_entries].
  - reflexivity.
  - rewrite (entries_of_rep d t p Hd). cbn [rbind]. rewrite IH. reflexivity.
Qed.

(** ** C4: the split of a node grown by an insertion *)

Lemma entry_ok_size (e : entry) : entry_ok e -> 14 + esz e <= 4018.
Proof.
  unfold entry_ok, esz, BTREE_MAX_KEY_SIZE, BTREE_MAX_VAL_SIZE. lia.
Qed.

Lemma kids_size (kids : list entry) :
  Forall entry_ok kids -> Forall (fun k => e_val k = []) kids ->
  nsize kids <= 4 + 1014 * Z.of_nat (length kids).
Proof.
  induction kids as [|k kids IH]; intros Hok Hv.
  - vm_compute. discriminate.
  - inversion Hok as [|? ? Hk Hok']; subst.
    inversion Hv as [|? ? Hkv Hv']; subst.
    rewrite nsize_cons. specialize (IH Hok' Hv').
    unfold entry_ok, BTREE_MAX_KEY_SIZE in Hk. unfold esz.
    rewrite Hkv. cbn [length]. change (blen []) with 0. lia.
Qed.

(** A node grown by an insertion is below two pages, and has two keys at
    least when it is above one page. *)
Lemma insert_grown_size (es : list entry) :
  Forall entry_ok es -> insert_grown es ->
  nsize es <= BTREE_PAGE_SIZE + 4014.
Proof.
  intros Hok Hg. destruct Hg as [pre post e Hfit|pre post e0 e Hfit
                                |pre post kids e0 Hfit Hlen Hv].
  - apply Forall_app in Hok as [_ Hok]. inversion Hok as [|? ? He _]; subst.
    pose proof (entry_ok_size e He).
    rewrite nsize_app in *. rewrite nsize_cons. lia.
  - apply Forall_app in Hok as [_ Hok]. inversion Hok as [|? ? He _]; subst.
    pose proof (entry_ok_size e He). pose proof (esz_pos e0).
    rewrite nsize_app in *. rewrite nsize_cons in *. lia.
  - apply Forall_app in Hok as [_ Hok]. apply Forall_app in Hok as [Hk _].
    pose proof (kids_size kids Hk Hv). pose proof (esz_pos e0).
    rewrite !nsize_app in *. rewrite nsize_cons in *.
    unfold BTREE_PAGE_SIZE in *. lia.
Qed.

(** C4. For a well-formed node grown by an insertion (it is then at most
    two pages large, and has two keys at least when it is above one page),
    nodeSplit3 returns one to three nodes of the type of the node, each of
    [nbytes] at most 4096, whose entries, one node after the other, are
    the entries of the node. *)
Theorem nodeSplit3_partition (old : BNode) (t : Z) (es : list entry) :
  node_is old t es ->
  BTREE_PAGE_SIZE <= blen old ->
  Forall entry_ok es ->
  insert_grown es ->
  nsize es <= 2 * BTREE_PAGE_SIZE
  /\ (nsize es > BTREE_PAGE_SIZE -> (2 <= length es)%nat)
  /\ exists (nodes : list BNode) (parts : list (list entry)),
       nodeSplit3 old = Ok nodes
       /\ (1 <= length nodes <= 3)%nat
       /\ Forall (fun d => btype d = Ok t
                           /\ exists sz, nbytes d = Ok sz
                                         /\ sz <= BTREE_PAGE_SIZE) nodes
       /\ all_entries nodes = Ok parts
       /\ concat parts = es.
Proof.
  intros R Hold Hok Hg.
  pose proof (insert_grown_size es Hok Hg) as Hsz.
  assert (Hent : forall e, e ∈ es -> 14 + esz e <= BTREE_PAGE_SIZE).
  { intros e He. rewrite Forall_forall in Hok.
    pose proof (entry_ok_size e (Hok e He)). unfold BTREE_PAGE_SIZE. lia. }
  split; [unfold BTREE_PAGE_SIZE in *; lia|]. split.
  { intros Hbig. destruct es as [|e1 [|e2 es2]]; [| |simpl; lia].
    - unfold nsize, BTREE_PAGE_SIZE in Hbig. cbn [length kvsize] in Hbig. lia.
    - rewrite nsize_singleton in Hbig.
      specialize (Hent e1 (list_elem_of_here _ _)). lia. }
  destruct (nodeSplit3_spec old t es R Hold Hent)
    as (nodes & parts & Hrun & Hcat & Hlen & Hall);
    [unfold BTREE_PAGE_SIZE in *; lia|].
  exists nodes, parts. split; [exact Hrun|]. split; [exact Hlen|].
  split; [|split; [|exact Hcat]].
  - clear Hrun Hcat Hlen. induction Hall as [|d p nodes parts Hd _ IH].
    + constructor.
    + constructor; [|exact IH]. destruct Hd as (Rd & _ & Hfit & _).
      split; [exact (rep_btype _ _ _ _ Rd)|].
      exists (nsize p). split; [|exact Hfit].
      exact (rep_nbytes _ _ _ _ Rd eq_refl).
  - apply (all_entries_rep t). clear Hrun Hcat Hlen.
    induction Hall as [|d p nodes parts Hd _ IH]; constructor;
      [exact (proj1 Hd)|exact IH].
Qed.

Lemma blen_bigKey (b : byte) : blen (bigKey b) = 1000.
Proof. reflexivity. Qed.

Lemma blen_bigVal : blen bigVal = 3000.
Proof. reflexivity. Qed.

Lemma firstLeaf_is :
  node_is firstLeaf BNODE_LEAF [(0, [], []); (0, bigKey x0a, bigVal)]
  /\ blen firstLeaf = BTREE_PAGE_SIZE.
Proof.
  unfold firstLeaf.
  destruct (setHeader_rep (make BTREE_PAGE_SIZE) BNODE_LEAF 2)
    as (d0 & Hr0 & L0 & R0);
    [reflexivity|lia|vm_compute; discriminate|vm_compute; split; congruence|].
  rewrite Hr0. cbn [rbind].
  rewrite blen_make in L0 by (vm_compute; discriminate).
  destruct (nodeAppendKV_at d0 _ _ _ 0 0 [] [] R0) as (d1 & Hr1 & L1 & R1);
    [reflexivity|lia|lia|rewrite L0; vm_compute; discriminate|].
  rewrite Hr1. cbn [rbind].
  destruct (nodeAppendKV_at d1 _ _ _ 1 0 (bigKey x0a) bigVal R1)
    as (d2 & Hr2 & L2 & R2);
    [reflexivity|lia|lia|rewrite L1, L0; vm_compute; discriminate|].
  rewrite Hr2. cbn [the_node]. split; [exact R2|lia].
Qed.

Lemma grownLeaf_is :
  node_is grownLeaf BNODE_LEAF grownLeafEntries
  /\ blen grownLeaf = 2 * BTREE_PAGE_SIZE.
Proof.
  destruct firstLeaf_is as [R L]. unfold grownLeaf.
  destruct (leafInsert_rep (make (2 * BTREE_PAGE_SIZE)) firstLeaf _ _ 2
              (bigKey x14) bigVal R) as (d & Hr & Ld & Rd);
    [simpl; lia|reflexivity|vm_compute; discriminate|].
  change (Z.of_nat 2) with 2 in Hr. rewrite Hr. cbn [the_node].
  split; [exact Rd|]. rewrite Ld. reflexivity.
Qed.

(** The leaf with the empty key and two large entries, as leafInsert
    leaves it: 8046 bytes, split into the first two entries and the
    third. *)
Lemma nodeSplit3_partition_witness :
  node_is grownLeaf BNODE_LEAF grownLeafEntries
  /\ nsize grownLeafEntries = 8046
  /\ exists (nodes : list BNode) (parts : list (list entry)),
       nodeSplit3 grownLeaf = Ok nodes
       /\ (1 <= length nodes <= 3)%nat
       /\ Forall (fun d => btype d = Ok BNODE_LEAF
                           /\ exists sz, nbytes d = Ok sz
                                         /\ sz <= BTREE_PAGE_SIZE) nodes
       /\ all_entries nodes = Ok parts
       /\ concat parts = grownLeafEntries.
Proof.
  destruct grownLeaf_is as [R L].
  split; [exact R|]. split; [reflexivity|].
  apply (nodeSplit3_partition grownLeaf BNODE_LEAF grownLeafEntries R).
  - rewrite L. vm_compute. discriminate.
  - repeat constructor; vm_compute; discriminate.
  - apply (grown_insert [(0, [], []); (0, bigKey x0a, bigVal)] []
             (0, bigKey x14, bigVal)).
    vm_compute. discriminate.
Defined.

(** ** The order of the keys *)

Lemma b2z_inj (x y : byte) : b2z x = b2z y -> x = y.
Proof. intros H. rewrite <- (z2b_b2z x), <- (z2b_b2z y). now rewrite H. Qed.

Lemma cmp_range (a b : list byte) :
  bytes_Compare a b = -1 \/ bytes_Compare a b = 0 \/ bytes_Compare a b = 1.
Proof.
  revert b. induction a as [|x a IH]; intros [|y b]; simpl; auto.
  destruct (b2z x <? b2z y); auto. destruct (b2z y <? b2z x); auto.
Qed.

Lemma cmp_refl (a : list byte) : bytes_Compare a a = 0.
Proof.
  induction a as [|x a IH]; simpl; [reflexivity|].
  rewrite Z.ltb_irrefl. exact IH.
Qed.

Lemma cmp_eq (a b : list byte) : bytes_Compare a b = 0 -> a = b.
Proof.
  revert b. induction a as [|x a IH]; intros [|y b]; simpl; try discriminate;
    [reflexivity|].
  destruct (Z.ltb_spec (b2z x) (b2z y)) as [?|H1]; [discriminate|].
  destruct (Z.ltb_spec (b2z y) (b2z x)) as [?|H2]; [discriminate|].
  intros E. f_equal; [apply b2z_inj; lia|now apply IH].
Qed.

Lemma cmp_antisym (a b : list byte) :
  bytes_Compare b a = - bytes_Compare a b.
Proof.
  revert b. induction a as [|x a IH]; intros [|y b]; simpl; try reflexivity.
  destruct (Z.ltb_spec (b2z x) (b2z y)); destruct (Z.ltb_spec (b2z y) (b2z x));
    try reflexivity; try lia. apply IH.
Qed.

Lemma cmp_trans (a b c : list byte) :
  bytes_Compare a b <= 0 -> bytes_Compare b c <= 0 ->
  bytes_Compare a c <= 0
  /\ (bytes_Compare a b < 0 \/ bytes_Compare b c < 0 -> bytes_Compare a c < 0).
Proof.
  revert b c. induction a as [|x a IH]; intros [|y b] [|z c]; simpl;
    try lia.
  destruct (Z.ltb_spec (b2z x) (b2z y)); destruct (Z.ltb_spec (b2z y) (b2z z));
    destruct (Z.ltb_spec (b2z x) (b2z z)); try lia;
    destruct (Z.ltb_spec (b2z y) (b2z x)); try lia;
    destruct (Z.ltb_spec (b2z z) (b2z y)); try lia;
    destruct (Z.ltb_spec (b2z z) (b2z x)); try lia.
  apply IH.
Qed.

Lemma key_le_refl (a : list byte) : key_le a a.
Proof. unfold key_le. rewrite cmp_refl. lia. Qed.

Lemma key_le_trans (a b c : list byte) : key_le a b -> key_le b c -> key_le a c.
Proof. unfold key_le. intros H1 H2. now apply (cmp_trans a b c). Qed.

Lemma key_lt_le_trans (a b c : list byte) :
  key_lt a b -> key_le b c -> key_lt a c.
Proof.
  unfold key_le, key_lt. intros H1 H2.
  apply (cmp_trans a b c); [lia|assumption|now left].
Qed.

Lemma key_le_lt_trans (a b c : list byte) :
  key_le a b -> key_lt b c -> key_lt a c.
Proof.
  unfold key_le, key_lt. intros H1 H2.
  apply (cmp_trans a b c); [assumption|lia|now right].
Qed.

Lemma key_lt_trans (a b c : list byte) : key_lt a b -> key_lt b c -> key_lt a c.
Proof.
  intros H1 H2. apply (key_lt_le_trans a b c H1). unfold key_lt, key_le in *. lia.
Qed.

Lemma key_lt_le (a b : list byte) : key_lt a b -> key_le a b.
Proof. unfold key_lt, key_le. lia. Qed.

Lemma key_lt_irrefl (a : list byte) : ~ key_lt a a.
Proof. unfold key_lt. rewrite cmp_refl. lia. Qed.

Lemma key_le_antisym (a b : list byte) : key_le a b -> key_le b a -> a = b.
Proof.
  unfold key_le. intros H1 H2. rewrite (cmp_antisym a b) in H2.
  apply cmp_eq. lia.
Qed.

Lemma key_lt_not_le (a b : list byte) : key_lt a b <-> ~ key_le b a.
Proof. unfold key_lt, key_le. rewrite (cmp_antisym a b). lia. Qed.

Lemma key_le_not_lt (a b : list byte) : key_le a b <-> ~ key_lt b a.
Proof. unfold key_lt, key_le. rewrite (cmp_antisym a b). lia. Qed.

Lemma key_le_cases (a b : list byte) : key_le a b -> a = b \/ key_lt a b.
Proof.
  unfold key_le, key_lt. intros H.
  destruct (Z.eq_dec (bytes_Compare a b) 0) as [E|N];
    [left; now apply cmp_eq|right; lia].
Qed.

Lemma key_total (a b : list byte) : key_lt a b \/ a = b \/ key_lt b a.
Proof.
  unfold key_lt. rewrite (cmp_antisym a b).
  destruct (cmp_range a b) as [H|[H|H]]; [left; lia| |right; right; lia].
  right. left. now apply cmp_eq.
Qed.

Lemma key_le_nil (b : list byte) : key_le [] b.
Proof. unfold key_le. destruct b; simpl; lia. Qed.

(** ** The index of nodeLookupLE on sorted keys *)

Lemma lookup_loop_spec (q : list byte) (rest : list (list byte)) :
  forall i found : nat,
    i = S found -> increasing rest ->
    let r := lookup_loop rest q i found in
    (found <= r <= found + length rest)%nat
    /\ (forall (j : nat) (k : list byte),
          (j < r - found)%nat -> rest !! j = Some k -> key_le k q)
    /\ (forall (j : nat) (k : list byte),
          (r - found <= j)%nat -> rest !! j = Some k -> key_lt q k).
Proof.
  induction rest as [|k rest IH]; intros i found Hi Hinc; cbn [lookup_loop].
  - cbn zeta. split; [simpl; lia|]. split; intros j k' Hj Hk; discriminate.
  - cbn zeta.
    assert (Hinc' : increasing rest).
    { intros a b x y Hab Hx Hy. apply (Hinc (S a) (S b) x y); [lia|exact Hx|exact Hy]. }
    assert (Hhead : forall j k', rest !! j = Some k' -> key_lt k k').
    { intros j k' Hk. apply (Hinc 0%nat (S j) k k'); [lia|reflexivity|exact Hk]. }
    destruct (Z.geb_spec (bytes_Compare k q) 0) as [Hge|Hlt].
    + destruct (Z.leb_spec (bytes_Compare k q) 0) as [Hle|Hgt].
      * (* k = q *)
        assert (k = q) by (apply cmp_eq; lia). subst k.
        split; [simpl; lia|]. split.
        -- intros j k' Hj Hk. assert (j = 0%nat) as -> by lia.
           injection Hk as <-. apply key_le_refl.
        -- intros j k' Hj Hk. destruct j as [|j]; [lia|].
           exact (Hhead j k' Hk).
      * (* q < k *)
        assert (Hqk : key_lt q k).
        { unfold key_lt. rewrite (cmp_antisym k q). lia. }
        split; [simpl; lia|]. split.
        -- intros j k' Hj Hk. lia.
        -- intros j k' Hj Hk. destruct j as [|j].
           ++ injection Hk as <-. exact Hqk.
           ++ apply (key_lt_trans q k k' Hqk). exact (Hhead j k' Hk).
    + destruct (Z.leb_spec (bytes_Compare k q) 0) as [Hle|Hgt]; [|lia].
      specialize (IH (S i) i ltac:(reflexivity) Hinc').
      cbn zeta in IH. destruct IH as (Hr & Hle' & Hgt').
      split; [simpl; lia|]. split.
      * intros j k' Hj Hk. destruct j as [|j].
        -- injection Hk as <-. exact Hle.
        -- apply (Hle' j k'); [lia|exact Hk].
      * intros j k' Hj Hk. destruct j as [|j]; [lia|].
        apply (Hgt' j k'); [lia|exact Hk].
Qed.

Lemma lookupLE_spec (ks : list (list byte)) (q : list byte) :
  increasing (drop 1 ks) -> LE_at ks q (lookupLE ks q).
Proof.
  intros Hinc. unfold lookupLE.
  pose proof (lookup_loop_spec q (drop 1 ks) 1 0 eq_refl Hinc) as H.
  cbn zeta in H. destruct H as (Hr & Hle & Hgt).
  rewrite length_drop in Hr. rewrite Nat.sub_0_r in Hle, Hgt.
  split; [lia|]. split.
  - intros j k Hj Hk. apply (Hle (j - 1)%nat k); [lia|].
    rewrite lookup_drop. rewrite <- Hk. f_equal. lia.
  - intros j k Hj1 Hj Hk. apply (Hgt (j - 1)%nat k); [lia|].
    rewrite lookup_drop. rewrite <- Hk. f_equal. lia.
Qed.

Lemma LE_at_unique (ks : list (list byte)) (q : list byte) (i j : nat) :
  LE_at ks q i -> LE_at ks q j -> i = j.
Proof.
  intros (Hi & Hile & Higt) (Hj & Hjle & Hjgt).
  destruct (Nat.lt_trichotomy i j) as [Hlt|[E|Hgt]]; [|exact E|].
  - destruct (lookup_lt_is_Some_2 ks j ltac:(lia)) as [k Hk].
    pose proof (Hjle j k ltac:(lia) Hk) as H1.
    pose proof (Higt j k ltac:(lia) Hlt Hk) as H2.
    apply key_le_not_lt in H1. contradiction.
  - destruct (lookup_lt_is_Some_2 ks i ltac:(lia)) as [k Hk].
    pose proof (Hile i k ltac:(lia) Hk) as H1.
    pose proof (Hjgt i k ltac:(lia) Hgt Hk) as H2.
    apply key_le_not_lt in H1. contradiction.
Qed.

Lemma lookupLE_unique (ks : list (list byte)) (q : list byte) (i : nat) :
  increasing (drop 1 ks) -> LE_at ks q i -> lookupLE ks q = i.
Proof.
  intros Hinc Hi. apply (LE_at_unique ks q); [|exact Hi].
  now apply lookupLE_spec.
Qed.

Lemma lookupLE_lt (ks : list (list byte)) (q : list byte) :
  ks <> [] -> (lookupLE ks q < length ks)%nat.
Proof.
  intros Hne. unfold lookupLE.
  assert (H : forall rest i found,
             (lookup_loop rest q i found <= Nat.max found (i + length rest - 1))%nat).
  { induction rest as [|k rest IH]; intros i found; cbn [lookup_loop].
    - lia.
    - destruct (bytes_Compare k q >=? 0); destruct (bytes_Compare k q <=? 0);
        try (simpl; lia).
      + specialize (IH (S i) i). simpl. lia.
      + specialize (IH (S i) found). simpl. lia. }
  specialize (H (drop 1 ks) 1%nat 0%nat). rewrite length_drop in H.
  destruct ks; [contradiction|]. simpl in *. lia.
Qed.

(** nodeLookupLE computes this index. *)
Lemma nodeLookupLE_loop_rep (d : BNode) (t n : Z) (es : list entry)
    (q : list byte) :
  node_rep d t n es ->
  forall (rem i found : nat),
    (i + rem = length es)%nat ->
    nodeLookupLE_loop rem d q (Z.of_nat i) (Z.of_nat found)
    = Ok (Z.of_nat (lookup_loop (drop i (keys es)) q i found)).
Proof.
  intros R rem. induction rem as [|rem IH]; intros i found Hi.
  - cbn [nodeLookupLE_loop]. rewrite drop_ge by (unfold keys; rewrite length_map; lia).
    reflexivity.
  - cbn [nodeLookupLE_loop].
    destruct (lookup_lt_is_Some_2 es i ltac:(lia)) as [e He].
    rewrite (rep_getKey _ _ _ _ R _ _ He). cbn [rbind].
    assert (Hk : keys es !! i = Some (e_key e)).
    { unfold keys. rewrite list_lookup_fmap, He. reflexivity. }
    rewrite (drop_S _ _ _ Hk). cbn [lookup_loop]. cbn zeta.
    destruct (bytes_Compare (e_key e) q >=? 0).
    + destruct (bytes_Compare (e_key e) q <=? 0); reflexivity.
    + replace (Z.of_nat i + 1) with (Z.of_nat (S i)) by lia.
      destruct (bytes_Compare (e_key e) q <=? 0); apply IH; lia.
Qed.

Lemma nodeLookupLE_rep (d : BNode) (t : Z) (es : list entry) (q : list byte) :
  node_is d t es ->
  nodeLookupLE d q = Ok (Z.of_nat (lookupLE (keys es) q)).
Proof.
  intros R. unfold nodeLookupLE. rewrite (rep_nkeys _ _ _ _ R). cbn [rbind].
  unfold lookupLE. destruct es as [|e es].
  - reflexivity.
  - cbn [length]. replace (Z.to_nat (Z.of_nat (S (length es)) - 1))
      with (length es) by lia.
    exact (nodeLookupLE_loop_rep d t _ (e :: es) q R (length es) 1 0 eq_refl).
Qed.

(** ** Sorted keys *)

Lemma sorted1_lt (ks : list (list byte)) (i j : nat) (a b : list byte) :
  sorted1 ks -> (1 <= i < j)%nat ->
  ks !! i = Some a -> ks !! j = Some b -> key_lt a b.
Proof.
  intros [Hinc _] Hij Ha Hb.
  apply (Hinc (i - 1)%nat (j - 1)%nat a b); [lia| |];
    rewrite lookup_drop; [rewrite <- Ha|rewrite <- Hb]; f_equal; lia.
Qed.

Lemma sorted1_le0 (ks : list (list byte)) (j : nat) (a b : list byte) :
  sorted1 ks -> ks !! 0%nat = Some a -> ks !! j = Some b -> key_le a b.
Proof.
  intros Hs Ha Hb. destruct j as [|[|j]].
  - rewrite Ha in Hb. injection Hb as <-. apply key_le_refl.
  - exact (proj2 Hs a b Ha Hb).
  - destruct (lookup_lt_is_Some_2 ks 1) as [c Hc].
    { apply lookup_lt_Some in Hb. lia. }
    apply (key_le_trans a c b); [exact (proj2 Hs a c Ha Hc)|].
    apply key_lt_le. apply (sorted1_lt ks 1 (S (S j)) c b Hs); [lia|exact Hc|exact Hb].
Qed.

Lemma sorted1_intro (ks : list (list byte)) :
  (forall i j a b, (1 <= i < j)%nat ->
     ks !! i = Some a -> ks !! j = Some b -> key_lt a b) ->
  (forall a b, ks !! 0%nat = Some a -> ks !! 1%nat = Some b -> key_le a b) ->
  sorted1 ks.
Proof.
  intros Hlt Hle. split; [|exact Hle].
  intros i j a b Hij Ha Hb. rewrite lookup_drop in Ha, Hb.
  apply (Hlt (1 + i)%nat (1 + j)%nat a b); [lia|exact Ha|exact Hb].
Qed.

Lemma sorted1_increasing (ks : list (list byte)) :
  sorted1 ks -> increasing (drop 1 ks).
Proof. intros [H _]. exact H. Qed.

(** A segment of sorted keys is sorted. *)
Lemma sorted1_segment (a b c : list (list byte)) :
  sorted1 (a ++ b ++ c) -> sorted1 b.
Proof.
  intros Hs. apply sorted1_intro.
  - intros i j x y Hij Hx Hy.
    apply (sorted1_lt _ (length a + i) (length a + j) x y Hs); [lia| |].
    + rewrite lookup_app_r by lia. rewrite lookup_app_l.
      * rewrite <- Hx. f_equal. lia.
      * apply lookup_lt_Some in Hx. lia.
    + rewrite lookup_app_r by lia. rewrite lookup_app_l.
      * rewrite <- Hy. f_equal. lia.
      * apply lookup_lt_Some in Hy. lia.
  - intros x y Hx Hy.
    assert (Hx' : (a ++ b ++ c) !! (length a + 0)%nat = Some x).
    { rewrite lookup_app_r by lia. rewrite lookup_app_l.
      - rewrite <- Hx. f_equal. lia.
      - apply lookup_lt_Some in Hx. lia. }
    assert (Hy' : (a ++ b ++ c) !! (length a + 1)%nat = Some y).
    { rewrite lookup_app_r by lia. rewrite lookup_app_l.
      - rewrite <- Hy. f_equal. lia.
      - apply lookup_lt_Some in Hy. lia. }
    destruct a as [|a0 a].
    + exact (proj2 Hs x y Hx' Hy').
    + apply key_lt_le.
      apply (sorted1_lt _ (length (a0 :: a) + 0) (length (a0 :: a) + 1)
               x y Hs); [simpl; lia|exact Hx'|exact Hy'].
Qed.

(** The index in a list of sorted keys made of three segments, for a key
    that belongs in the middle one. *)
Lemma lookupLE_app (a b c : list (list byte)) (q : list byte) :
  sorted1 (a ++ b ++ c) ->
  b <> [] ->
  (a = [] \/ exists b0, b !! 0%nat = Some b0 /\ key_le b0 q) ->
  (forall c0, c !! 0%nat = Some c0 -> key_lt q c0) ->
  lookupLE (a ++ b ++ c) q = (length a + lookupLE b q)%nat.
Proof.
  intros Hs Hb Hlo Hhi.
  pose proof (sorted1_segment a b c Hs) as Hsb.
  pose proof (lookupLE_spec b q (sorted1_increasing b Hsb)) as (Hi & Hle & Hgt).
  pose proof (lookupLE_lt b q Hb) as Hlt.
  set (iB := lookupLE b q) in *.
  apply lookupLE_unique; [apply sorted1_increasing; exact Hs|].
  split; [left; rewrite !length_app; lia|]. split.
  - intros j k Hj Hk.
    destruct (decide (j < length a)%nat) as [Hja|Hja].
    + destruct Hlo as [->|(b0 & Hb0 & Hb0q)]; [simpl in Hja; lia|].
      apply key_lt_le. apply (key_lt_le_trans k b0 q); [|exact Hb0q].
      apply (sorted1_lt _ j (length a + 0) k b0 Hs); [lia|exact Hk|].
      rewrite lookup_app_r by lia. rewrite lookup_app_l by lia.
      rewrite <- Hb0. f_equal. lia.
    + rewrite lookup_app_r in Hk by lia.
      rewrite lookup_app_l in Hk by lia.
      destruct (decide (j = length a)) as [->|Hne].
      * destruct Hlo as [->|(b0 & Hb0 & Hb0q)]; [simpl in Hj; lia|].
        rewrite Nat.sub_diag, Hb0 in Hk. injection Hk as <-. exact Hb0q.
      * apply (Hle (j - length a)%nat k); [lia|exact Hk].
  - intros j k Hj1 Hj Hk.
    rewrite lookup_app_r in Hk by lia.
    destruct (decide (j - length a < length b)%nat) as [Hjb|Hjb].
    + rewrite lookup_app_l in Hk by lia.
      apply (Hgt (j - length a)%nat k); [lia|lia|exact Hk].
    + rewrite lookup_app_r in Hk by lia.
      destruct (lookup_lt_is_Some_2 c 0) as [c0 Hc0].
      { apply lookup_lt_Some in Hk. lia. }
      specialize (Hhi c0 Hc0).
      destruct (decide (j - length a - length b = 0)%nat) as [E|N].
      * rewrite E, Hc0 in Hk. injection Hk as <-. exact Hhi.
      * apply (key_lt_trans q c0 k Hhi).
        assert (Hbl : (0 < length b)%nat) by (destruct b; [contradiction|simpl; lia]).
        apply (sorted1_lt _ (length a + length b) j c0 k Hs); [lia| |].
        -- rewrite lookup_app_r by lia. rewrite lookup_app_r by lia.
           rewrite <- Hc0. f_equal. lia.
        -- rewrite lookup_app_r by lia. rewrite lookup_app_r by lia.
           exact Hk.
Qed.

(** ** Insertion into sorted entries *)

Lemma lookup_splice {A} (l : list A) (a b : nat) (x : A) (j : nat) :
  (a <= length l)%nat ->
  (take a l ++ x :: drop b l) !! j
  = if decide (j < a)%nat then l !! j
    else if decide (j = a) then Some x
    else l !! (b + (j - a - 1))%nat.
Proof.
  intros Ha. destruct (decide (j < a)%nat) as [Hlt|Hge].
  - rewrite lookup_app_l by (rewrite length_take; lia).
    now apply lookup_take_lt.
  - rewrite lookup_app_r by (rewrite length_take; lia).
    rewrite length_take, Nat.min_l by lia.
    destruct (decide (j = a)) as [->|Hne].
    + now rewrite Nat.sub_diag.
    + destruct (j - a)%nat as [|m] eqn:E; [lia|].
      change ((x :: drop b l) !! S m) with (drop b l !! m).
      rewrite lookup_drop. f_equal. lia.
Qed.

Lemma keys_splice (es : list entry) (a b : nat) (e : entry) :
  keys (take a es ++ e :: drop b es)
  = take a (keys es) ++ e_key e :: drop b (keys es).
Proof.
  unfold keys. now rewrite fmap_app, fmap_cons, fmap_take, fmap_drop.
Qed.

Lemma keys_lookup (es : list entry) (i : nat) :
  keys es !! i = e_key <$> es !! i.
Proof. unfold keys. apply list_lookup_fmap. Qed.

Lemma keys_length (es : list entry) : length (keys es) = length es.
Proof. unfold keys. apply length_map. Qed.

Lemma keys_app (a b : list entry) : keys (a ++ b) = keys a ++ keys b.
Proof. unfold keys. apply fmap_app. Qed.

Lemma keys_nil_inv (es : list entry) : keys es = [] -> es = [].
Proof. destruct es; [reflexivity|discriminate]. Qed.

(** The two cases of [leaf_put]: the entry at the index found has the key
    and is replaced, or the new entry goes after it. *)
Lemma leaf_put_shape (es : list entry) (k v : list byte) :
  es <> [] ->
  exists e, es !! lookupLE (keys es) k = Some e
    /\ ((e_key e = k
         /\ leaf_put es k v
            = take (lookupLE (keys es) k) es
                ++ (0, k, v) :: drop (S (lookupLE (keys es) k)) es)
        \/ (e_key e <> k
            /\ leaf_put es k v
               = take (S (lookupLE (keys es) k)) es
                   ++ (0, k, v) :: drop (S (lookupLE (keys es) k)) es)).
Proof.
  intros Hne.
  assert (Hlt : (lookupLE (keys es) k < length es)%nat).
  { rewrite <- keys_length. apply lookupLE_lt.
    intros E. apply keys_nil_inv in E. contradiction. }
  destruct (lookup_lt_is_Some_2 es _ Hlt) as [e He].
  exists e. split; [exact He|]. unfold leaf_put. rewrite He.
  destruct (decide (e_key e = k)) as [E|N].
  - left. split; [exact E|].
    now rewrite bool_decide_eq_true_2 by (symmetry; exact E).
  - right. split; [exact N|].
    now rewrite bool_decide_eq_false_2 by (intros E; apply N; now rewrite E).
Qed.

Section LeafPut.
Context (es : list entry) (k v : list byte).
Hypothesis Hne : es <> [].
Hypothesis Hs : sorted1 (keys es).
Hypothesis Hlo : forall k0, keys es !! 0%nat = Some k0 -> key_le k0 k.

Let idx := lookupLE (keys es) k.

Lemma put_idx_lt : (idx < length es)%nat.
Proof.
  unfold idx. rewrite <- keys_length. apply lookupLE_lt.
  intros E. apply keys_nil_inv in E. contradiction.
Qed.

Lemma put_LE : LE_at (keys es) k idx.
Proof. apply lookupLE_spec, sorted1_increasing, Hs. Qed.

(** The keys up to [idx] are at most [k]. *)
Lemma put_le (j : nat) (a : list byte) :
  (j <= idx)%nat -> keys es !! j = Some a -> key_le a k.
Proof.
  intros Hj Ha. destruct j as [|j].
  - now apply Hlo.
  - destruct put_LE as (_ & Hle & _). apply (Hle (S j) a); [lia|exact Ha].
Qed.

Lemma put_gt (j : nat) (a : list byte) :
  (idx < j)%nat -> keys es !! j = Some a -> key_lt k a.
Proof.
  intros Hj Ha. destruct put_LE as (_ & _ & Hgt).
  apply (Hgt j a); [lia|lia|exact Ha].
Qed.

Lemma leaf_put_update (e : entry) :
  es !! idx = Some e -> e_key e = k ->
  leaf_put es k v = take idx es ++ (0, k, v) :: drop (S idx) es
  /\ keys (leaf_put es k v) = keys es.
Proof.
  intros He Hk. unfold leaf_put. fold idx. rewrite He.
  rewrite bool_decide_eq_true_2 by (symmetry; exact Hk).
  split; [reflexivity|].
  rewrite keys_splice. unfold e_key at 1. cbn [fst snd].
  rewrite <- Hk. apply take_drop_middle.
  rewrite keys_lookup, He. reflexivity.
Qed.

Lemma leaf_put_insert (e : entry) :
  es !! idx = Some e -> e_key e <> k ->
  leaf_put es k v = take (S idx) es ++ (0, k, v) :: drop (S idx) es
  /\ keys (leaf_put es k v)
     = take (S idx) (keys es) ++ k :: drop (S idx) (keys es)
  /\ (forall (j : nat) (a : list byte),
        (j <= idx)%nat -> keys es !! j = Some a ->
        key_le a k /\ (1 <= j -> key_lt a k)%nat).
Proof.
  intros He Hk. unfold leaf_put. fold idx. rewrite He.
  rewrite bool_decide_eq_false_2 by (intros E; apply Hk; now rewrite E).
  split; [reflexivity|]. split; [now rewrite keys_splice|].
  intros j a Hj Ha. split; [now apply (put_le j)|]. intros Hj1.
  destruct (key_le_cases a k (put_le j a Hj Ha)) as [->|Hlt]; [|exact Hlt].
  exfalso. destruct (decide (j = idx)) as [->|Hne'].
  - rewrite keys_lookup, He in Ha. injection Ha as Ha. contradiction.
  - assert (Hidx : keys es !! idx = Some (e_key e))
      by (rewrite keys_lookup, He; reflexivity).
    pose proof (sorted1_lt (keys es) j idx k (e_key e) Hs ltac:(lia) Ha Hidx)
      as Hlt.
    pose proof (put_le idx (e_key e) ltac:(lia) Hidx) as Hle.
    apply key_le_not_lt in Hle. contradiction.
Qed.

Lemma leaf_put_cases :
  exists e, es !! idx = Some e
    /\ ((e_key e = k
         /\ leaf_put es k v = take idx es ++ (0, k, v) :: drop (S idx) es)
        \/ (e_key e <> k
            /\ leaf_put es k v
               = take (S idx) es ++ (0, k, v) :: drop (S idx) es)).
Proof. exact (leaf_put_shape es k v Hne). Qed.

Lemma leaf_put_head :
  keys (leaf_put es k v) !! 0%nat = keys es !! 0%nat.
Proof.
  destruct leaf_put_cases as (e & He & [[Hk Hp]|[Hk Hp]]).
  - now rewrite (proj2 (leaf_put_update e He Hk)).
  - rewrite (proj1 (proj2 (leaf_put_insert e He Hk))).
    rewrite lookup_app_l by (rewrite length_take, keys_length;
                             pose proof put_idx_lt; lia).
    apply lookup_take_lt. lia.
Qed.

Lemma leaf_put_sorted : sorted1 (keys (leaf_put es k v)).
Proof.
  destruct leaf_put_cases as (e & He & [[Hk Hp]|[Hk Hp]]).
  - now rewrite (proj2 (leaf_put_update e He Hk)).
  - destruct (leaf_put_insert e He Hk) as (_ & Hkeys & Hle).
    rewrite Hkeys. pose proof put_idx_lt as Hlt.
    assert (Hlen : (S idx <= length (keys es))%nat)
      by (rewrite keys_length; lia).
    apply sorted1_intro.
    + intros i j a b Hij Ha Hb.
      rewrite lookup_splice in Ha, Hb by assumption.
      destruct (decide (i < S idx)%nat) as [Hi|Hi].
      * destruct (decide (j < S idx)%nat) as [Hj|Hj].
        -- exact (sorted1_lt _ i j a b Hs Hij Ha Hb).
        -- destruct (decide (j = S idx)) as [->|Hj'].
           ++ injection Hb as <-. apply (Hle i a); [lia|exact Ha|lia].
           ++ apply (key_lt_trans a k b).
              ** apply (Hle i a); [lia|exact Ha|lia].
              ** (eapply put_gt; [|exact Hb]; lia).
      * destruct (decide (i = S idx)) as [->|Hi'].
        -- injection Ha as <-.
           destruct (decide (j < S idx)%nat); [lia|].
           destruct (decide (j = S idx)); [lia|].
           (eapply put_gt; [|exact Hb]; lia).
        -- destruct (decide (j < S idx)%nat); [lia|].
           destruct (decide (j = S idx)); [lia|].
           (eapply (sorted1_lt _ _ _ a b Hs); [|exact Ha|exact Hb]; lia).
    + intros a b Ha Hb.
      rewrite lookup_splice in Ha, Hb by assumption.
      destruct (decide (0 < S idx)%nat); [|lia].
      destruct (decide (1 < S idx)%nat) as [H1|H1].
      * exact (proj2 Hs a b Ha Hb).
      * destruct (decide (1 = S idx)%nat) as [E|]; [|lia].
        injection Hb as <-. apply (Hle 0%nat a); [lia|exact Ha].
Qed.

(** Where the key is after the insertion. *)
Lemma leaf_put_at :
  exists p : nat,
    lookupLE (keys (leaf_put es k v)) k = p
    /\ leaf_put es k v !! p = Some (0, k, v)
    /\ leaf_put es k v
       = take p (leaf_put es k v) ++ (0, k, v)
           :: drop (S p) (leaf_put es k v).
Proof.
  pose proof put_idx_lt as Hlt.
  destruct leaf_put_cases as (e & He & [[Hk Hp]|[Hk Hp]]).
  - exists idx. destruct (leaf_put_update e He Hk) as [_ Hkeys].
    rewrite Hkeys. split; [reflexivity|].
    assert (Hat : leaf_put es k v !! idx = Some (0, k, v)).
    { rewrite Hp, lookup_splice by lia.
      destruct (decide (idx < idx)%nat); [lia|].
      destruct (decide (idx = idx)); [reflexivity|lia]. }
    split; [exact Hat|]. symmetry. now apply take_drop_middle.
  - exists (S idx). destruct (leaf_put_insert e He Hk) as (_ & Hkeys & Hle).
    assert (Hat : leaf_put es k v !! S idx = Some (0, k, v)).
    { rewrite Hp, lookup_splice by lia.
      destruct (decide (S idx < S idx)%nat); [lia|].
      destruct (decide (S idx = S idx)); [reflexivity|lia]. }
    split; [|split; [exact Hat|symmetry; now apply take_drop_middle]].
    apply lookupLE_unique;
      [apply sorted1_increasing, leaf_put_sorted|].
    rewrite Hkeys.
    assert (Hlen : (S idx <= length (keys es))%nat)
      by (rewrite keys_length; lia).
    split; [left; rewrite length_app, length_take, length_cons, length_drop; lia|].
    split.
    + intros j a Hj Ha. rewrite lookup_splice in Ha by assumption.
      destruct (decide (j < S idx)%nat).
      * apply (Hle j a); [lia|exact Ha].
      * destruct (decide (j = S idx)); [|lia].
        injection Ha as <-. apply key_le_refl.
    + intros j a Hj1 Hj Ha. rewrite lookup_splice in Ha by assumption.
      destruct (decide (j < S idx)%nat); [lia|].
      destruct (decide (j = S idx)); [lia|].
      (eapply put_gt; [|exact Ha]; lia).
Qed.

Lemma leaf_get_put_same : leaf_get (leaf_put es k v) k = Some v.
Proof.
  destruct leaf_put_at as (p & Hp & Hat & _).
  unfold leaf_get. rewrite Hp, Hat. unfold e_key, e_val. cbn [fst snd].
  now rewrite bool_decide_eq_true_2.
Qed.
Lemma leaf_put_nonempty : leaf_put es k v <> [].
Proof.
  destruct leaf_put_cases as (e & He & [[Hk Hp]|[Hk Hp]]);
    rewrite Hp; intros E; apply (f_equal length) in E;
    rewrite length_app, length_cons in E; simpl in E; lia.
Qed.

Lemma leaf_put_idem : leaf_put (leaf_put es k v) k v = leaf_put es k v.
Proof.
  destruct leaf_put_at as (p & Hp & Hat & Hsplit).
  unfold leaf_put at 1. cbn zeta. rewrite Hp, Hat.
  unfold e_key at 1. cbn [fst snd].
  rewrite bool_decide_eq_true_2 by reflexivity.
  symmetry. exact Hsplit.
Qed.

Lemma leaf_get_put_other (q : list byte) :
  q <> k -> leaf_get (leaf_put es k v) q = leaf_get es q.
Proof.
  intros Hq. pose proof put_idx_lt as Hlt.
  assert (Hinc : increasing (drop 1 (keys es)))
    by apply sorted1_increasing, Hs.
  pose proof (lookupLE_spec (keys es) q Hinc) as HQ.
  set (i := lookupLE (keys es) q) in *.
  assert (Hi : (i < length es)%nat).
  { unfold i. rewrite <- keys_length. apply lookupLE_lt.
    intros E. apply keys_nil_inv in E. contradiction. }
  destruct leaf_put_cases as (e & He & [[Hk Hp]|[Hk Hp]]).
  - destruct (leaf_put_update e He Hk) as [_ Hkeys].
    unfold leaf_get. rewrite Hkeys. fold i. rewrite Hp.
    rewrite lookup_splice by lia.
    destruct (decide (i < idx)%nat) as [H1|H1]; [reflexivity|].
    destruct (decide (i = idx)) as [E|N].
    + rewrite E, He. unfold e_key at 1. cbn [fst snd].
      rewrite !bool_decide_eq_false_2; [reflexivity| |];
        intros E'; apply Hq; congruence.
    + replace (S idx + (i - idx - 1))%nat with i by lia. reflexivity.
  - destruct (leaf_put_insert e He Hk) as (_ & Hkeys & Hle).
    assert (Hlen : (S idx <= length (keys es))%nat)
      by (rewrite keys_length; lia).
    assert (Hidx : keys es !! idx = Some (e_key e))
      by (rewrite keys_lookup, He; reflexivity).
    destruct HQ as (HQr & HQle & HQgt).
    destruct (key_total q k) as [Hlt'|[E|Hgt']]; [|contradiction|].
    + (* q < k: the index is unchanged *)
      assert (Hii : (i <= idx)%nat).
      { destruct (decide (i <= idx)%nat) as [?|Hn]; [assumption|exfalso].
        destruct (lookup_lt_is_Some_2 (keys es) i) as [a Ha];
          [rewrite keys_length; lia|].
        pose proof (HQle i a ltac:(lia) Ha) as H1.
        pose proof (put_gt i a ltac:(lia) Ha) as H2.
        apply (key_lt_irrefl q).
        apply (key_lt_trans q k q); [exact Hlt'|].
        apply (key_lt_le_trans k a q); assumption. }
      assert (Hi' : lookupLE (keys (leaf_put es k v)) q = i).
      { apply lookupLE_unique;
          [apply sorted1_increasing, leaf_put_sorted|].
        rewrite Hkeys. split;
          [left; rewrite length_app, length_take, length_cons, length_drop;
           lia|].
        split.
        - intros j a Hj Ha. rewrite lookup_splice in Ha by assumption.
          destruct (decide (j < S idx)%nat); [|lia].
          apply (HQle j a); [lia|exact Ha].
        - intros j a Hj1 Hj Ha. rewrite lookup_splice in Ha by assumption.
          destruct (decide (j < S idx)%nat).
          + apply (HQgt j a); [lia|lia|exact Ha].
          + destruct (decide (j = S idx)).
            * injection Ha as <-. exact Hlt'.
            * (eapply HQgt; [| |exact Ha]; lia). }
      unfold leaf_get. rewrite Hi'. fold i. rewrite Hp.
      rewrite lookup_splice by lia.
      destruct (decide (i < S idx)%nat); [reflexivity|lia].
    + (* k < q: the index moves by one *)
      assert (Hii : (idx <= i)%nat).
      { destruct (decide (idx <= i)%nat) as [?|Hn]; [assumption|exfalso].
        pose proof (HQgt idx (e_key e) ltac:(lia) ltac:(lia) Hidx) as H1.
        pose proof (put_le idx (e_key e) ltac:(lia) Hidx) as H2.
        apply (key_lt_irrefl q).
        apply (key_lt_trans q k q); [|exact Hgt'].
        apply (key_lt_le_trans q (e_key e) k); assumption. }
      assert (Hi' : lookupLE (keys (leaf_put es k v)) q = S i).
      { apply lookupLE_unique;
          [apply sorted1_increasing, leaf_put_sorted|].
        rewrite Hkeys. split;
          [left; rewrite length_app, length_take, length_cons, length_drop;
           lia|].
        split.
        - intros j a Hj Ha. rewrite lookup_splice in Ha by assumption.
          destruct (decide (j < S idx)%nat).
          + apply (key_le_trans a k q); [|now apply key_lt_le].
            apply (put_le j a); [lia|exact Ha].
          + destruct (decide (j = S idx)).
            * injection Ha as <-. now apply key_lt_le.
            * (eapply HQle; [|exact Ha]; lia).
        - intros j a Hj1 Hj Ha. rewrite lookup_splice in Ha by assumption.
          destruct (decide (j < S idx)%nat); [lia|].
          destruct (decide (j = S idx)); [lia|].
          (eapply HQgt; [| |exact Ha]; lia). }
      unfold leaf_get. rewrite Hi'. fold i. rewrite Hp.
      rewrite lookup_splice by lia.
      destruct (decide (S i < S idx)%nat); [lia|].
      destruct (decide (S i = S idx)) as [E|N].
      * assert (i = idx) as Ei by lia. rewrite Ei, He.
        unfold e_key at 1. cbn [fst snd].
        rewrite !bool_decide_eq_false_2; [reflexivity| |].
        -- intros E'. rewrite E' in Hidx.
           pose proof (put_le idx q ltac:(lia) Hidx) as H2.
           apply key_le_not_lt in H2. contradiction.
        -- intros E'. apply Hq. congruence.
      * replace (S idx + (S i - S idx - 1))%nat with i by lia. reflexivity.
Qed.
End LeafPut.

(** The entries after [leaf_put] are those of a leaf with one entry added
    or replaced. *)
Lemma leaf_put_grown (es : list entry) (k v : list byte) :
  es <> [] -> nsize es <= BTREE_PAGE_SIZE -> insert_grown (leaf_put es k v).
Proof.
  intros Hne Hsz.
  destruct (leaf_put_shape es k v Hne) as (e & He & [[Hk Hp]|[Hk Hp]]);
    rewrite Hp.
  - apply (grown_update _ _ e). rewrite take_drop_middle by exact He.
    exact Hsz.
  - apply grown_insert. rewrite take_drop. exact Hsz.
Qed.

Lemma leaf_put_entry_ok (es : list entry) (k v : list byte) :
  es <> [] -> Forall entry_ok es -> entry_ok (0, k, v) ->
  Forall entry_ok (leaf_put es k v).
Proof.
  intros Hne Hok Hkv.
  destruct (leaf_put_shape es k v Hne) as (e & He & [[Hk Hp]|[Hk Hp]]);
    rewrite Hp; apply Forall_app; (split; [now apply Forall_take|]);
    apply Forall_cons; (split; [exact Hkv|now apply Forall_drop]).
Qed.

Lemma leaf_put_first_key (es : list entry) (k v : list byte) :
  es <> [] -> first_key (leaf_put es k v) = first_key es.
Proof.
  intros Hne.
  destruct (leaf_put_shape es k v Hne) as (e & He & [[Hk Hp]|[Hk Hp]]);
    rewrite Hp.
  - destruct (lookupLE (keys es) k) as [|i] eqn:E.
    + destruct es as [|e0 es]; [contradiction|].
      simpl in He. injection He as ->. simpl. exact (eq_sym Hk).
    + destruct es as [|e0 es]; [contradiction|]. reflexivity.
  - destruct es as [|e0 es]; [contradiction|]. reflexivity.
Qed.

(** ** From the node to the tree: the child a key is routed to *)

Lemma concat_middle {A} (segs : list (list A)) (i : nat) (s : list A) :
  segs !! i = Some s ->
  concat segs = concat (take i segs) ++ s ++ concat (drop (S i) segs).
Proof.
  intros H. rewrite <- (take_drop_middle segs i s H) at 1.
  now rewrite concat_app, concat_cons.
Qed.

Lemma keys_concat (segs : list (list entry)) :
  keys (concat segs) = concat (map keys segs).
Proof.
  induction segs as [|s segs IH]; [reflexivity|].
  simpl. now rewrite keys_app, IH.
Qed.

Lemma first_key_app (a b : list entry) :
  a <> [] -> first_key (a ++ b) = first_key a.
Proof. destruct a; [contradiction|reflexivity]. Qed.

Lemma keys_head (es : list entry) :
  es <> [] -> keys es !! 0%nat = Some (first_key es).
Proof. destruct es; [contradiction|reflexivity]. Qed.

Lemma concat_nonempty {A} (segs : list (list A)) :
  Forall (fun s => s <> []) segs -> segs <> [] -> concat segs <> [].
Proof.
  intros Hne Hs. destruct segs as [|s segs]; [contradiction|].
  apply Forall_cons in Hne as [Hs0 _]. simpl.
  destruct s; [contradiction|discriminate].
Qed.

Lemma first_key_concat (s : list entry) (segs : list (list entry)) :
  s <> [] -> first_key (concat (s :: segs)) = first_key s.
Proof. intros H. simpl. now apply first_key_app. Qed.

Section Route.
Context (segs : list (list entry)).
Hypothesis Hne : Forall (fun s => s <> []) segs.
Hypothesis Hs : sorted1 (keys (concat segs)).

Lemma seg_nonempty (i : nat) (s : list entry) :
  segs !! i = Some s -> s <> [].
Proof.
  intros H. eapply Forall_lookup_1 in Hne; [exact Hne|exact H].
Qed.

(** The first keys of two segments, in the order of the segments. *)
Lemma seg_heads_order (i j : nat) (si sj : list entry) :
  (i < j)%nat -> segs !! i = Some si -> segs !! j = Some sj ->
  key_le (first_key si) (first_key sj)
  /\ ((1 <= i)%nat -> key_lt (first_key si) (first_key sj)).
Proof.
  intros Hij Hi Hj.
  pose proof (seg_nonempty i si Hi) as Hsi.
  pose proof (seg_nonempty j sj Hj) as Hsj.
  assert (Hj' : drop (S i) segs !! (j - S i)%nat = Some sj).
  { rewrite lookup_drop. rewrite <- Hj. f_equal. lia. }
  pose proof (concat_middle segs i si Hi) as E1.
  pose proof (concat_middle _ _ sj Hj') as E2.
  set (P := concat (take i segs)) in *.
  set (X := concat (take (j - S i) (drop (S i) segs))) in *.
  set (Y := concat (drop (S (j - S i)) (drop (S i) segs))) in *.
  rewrite E2 in E1.
  assert (HP : (1 <= i)%nat -> (1 <= length (keys P))%nat).
  { intros H1. rewrite keys_length. subst P.
    destruct segs as [|s0 segs'] eqn:Esegs; [discriminate|].
    destruct i as [|i']; [lia|]. simpl.
    apply Forall_cons in Hne as [Hs0 _].
    rewrite length_app. destruct s0; [contradiction|simpl; lia]. }
  clearbody P X Y.
  assert (Hk : keys (concat segs)
               = keys P ++ keys si ++ keys X ++ keys sj ++ keys Y)
    by (rewrite E1, !keys_app; reflexivity).
  rewrite Hk in Hs.
  assert (Ha : (keys P ++ keys si ++ keys X ++ keys sj ++ keys Y)
                 !! length (keys P) = Some (first_key si)).
  { rewrite lookup_app_r by lia. rewrite Nat.sub_diag.
    rewrite lookup_app_l
      by (rewrite keys_length; destruct si; [contradiction|simpl; lia]).
    now apply keys_head. }
  assert (Hb : (keys P ++ keys si ++ keys X ++ keys sj ++ keys Y)
                 !! (length (keys P) + length (keys si) + length (keys X))%nat
               = Some (first_key sj)).
  { rewrite lookup_app_r by lia.
    rewrite lookup_app_r by lia.
    rewrite lookup_app_r by lia.
    replace (length (keys P) + length (keys si) + length (keys X)
             - length (keys P) - length (keys si) - length (keys X))%nat
      with 0%nat by lia.
    rewrite lookup_app_l
      by (rewrite keys_length; destruct sj; [contradiction|simpl; lia]).
    now apply keys_head. }
  assert (Hlen : (0 < length (keys si))%nat)
    by (rewrite keys_length; destruct si; [contradiction|simpl; lia]).
  split.
  - destruct (decide (length (keys P) = 0)%nat) as [E0|N0].
    + rewrite E0 in Ha. exact (sorted1_le0 _ _ _ _ Hs Ha Hb).
    + apply key_lt_le.
      eapply sorted1_lt; [exact Hs| |exact Ha|exact Hb]; lia.
  - intros H1. specialize (HP H1).
    eapply sorted1_lt; [exact Hs| |exact Ha|exact Hb]; lia.
Qed.

(** The keys of the links to the segments are in order. *)
Lemma seg_heads_sorted : sorted1 (map first_key segs).
Proof.
  apply sorted1_intro.
  - intros i j a b Hij Ha Hb.
    rewrite list_lookup_fmap in Ha, Hb.
    destruct (segs !! i) as [si|] eqn:Hi; [|discriminate].
    destruct (segs !! j) as [sj|] eqn:Hj; [|discriminate].
    injection Ha as <-. injection Hb as <-.
    apply (seg_heads_order i j si sj); [lia|assumption|assumption|lia].
  - intros a b Ha Hb.
    rewrite list_lookup_fmap in Ha, Hb.
    destruct (segs !! 0%nat) as [si|] eqn:Hi; [|discriminate].
    destruct (segs !! 1%nat) as [sj|] eqn:Hj; [|discriminate].
    injection Ha as <-. injection Hb as <-.
    apply (seg_heads_order 0 1 si sj); [lia|assumption|assumption].
Qed.

Context (q : list byte).
Let idx := lookupLE (map first_key segs) q.

Lemma route_idx (Hsegs : segs <> []) : exists B, segs !! idx = Some B.
Proof.
  apply lookup_lt_is_Some_2. unfold idx.
  rewrite <- (length_map first_key). apply lookupLE_lt.
  destruct segs; [contradiction|discriminate].
Qed.

Lemma route_lookup (B : list entry) :
  segs !! idx = Some B ->
  lookupLE (keys (concat segs)) q
  = (length (concat (take idx segs)) + lookupLE (keys B) q)%nat
  /\ (lookupLE (keys B) q < length B)%nat.
Proof.
  intros HB.
  pose proof (seg_nonempty idx B HB) as HBne.
  pose proof (lookupLE_spec (map first_key segs) q
                (sorted1_increasing _ seg_heads_sorted)) as HLE.
  fold idx in HLE. destruct HLE as (_ & Hle & Hgt).
  assert (HkB : keys B <> [])
    by (intros E; apply keys_nil_inv in E; contradiction).
  split; [|rewrite <- keys_length; now apply lookupLE_lt].
  rewrite (concat_middle segs idx B HB), !keys_app, <- (keys_length (concat _)).
  apply lookupLE_app.
  - rewrite <- !keys_app, <- concat_middle by exact HB. exact Hs.
  - exact HkB.
  - destruct (decide (idx = 0%nat)) as [E|N].
    + left. rewrite E. reflexivity.
    + right. exists (first_key B). split; [now apply keys_head|].
      apply (Hle idx); [lia|]. rewrite list_lookup_fmap, HB. reflexivity.
  - intros c0 Hc0.
    destruct (drop (S idx) segs) as [|s' rest] eqn:Ed;
      [discriminate|].
    assert (Hs' : segs !! S idx = Some s').
    { rewrite <- (Nat.add_0_r (S idx)), <- lookup_drop, Ed. reflexivity. }
    pose proof (seg_nonempty _ _ Hs') as Hne'.
    simpl in Hc0. rewrite keys_app in Hc0.
    rewrite lookup_app_l in Hc0
      by (rewrite keys_length; destruct s'; [contradiction|simpl; lia]).
    rewrite keys_head in Hc0 by exact Hne'. injection Hc0 as <-.
    apply (Hgt (S idx)); [lia|lia|].
    rewrite list_lookup_fmap, Hs'. reflexivity.
Qed.

Lemma route_get (B : list entry) :
  segs !! idx = Some B -> leaf_get (concat segs) q = leaf_get B q.
Proof.
  intros HB. destruct (route_lookup B HB) as [Hi Hlt].
  unfold leaf_get. rewrite Hi.
  rewrite (concat_middle segs idx B HB) at 1.
  rewrite lookup_app_r by lia.
  replace (length (concat (take idx segs)) + lookupLE (keys B) q
           - length (concat (take idx segs)))%nat
    with (lookupLE (keys B) q) by lia.
  now rewrite lookup_app_l by exact Hlt.
Qed.

Lemma route_put (B : list entry) (v : list byte) :
  segs !! idx = Some B ->
  leaf_put (concat segs) q v
  = concat (take idx segs) ++ leaf_put B q v ++ concat (drop (S idx) segs).
Proof.
  intros HB. destruct (route_lookup B HB) as [Hi Hlt].
  set (A := concat (take idx segs)) in *.
  set (C := concat (drop (S idx) segs)).
  assert (E : concat segs = A ++ B ++ C) by now apply concat_middle.
  destruct (lookup_lt_is_Some_2 B _ Hlt) as [e He].
  assert (Hat : (A ++ B ++ C) !! (length A + lookupLE (keys B) q)%nat
                = Some e).
  { rewrite lookup_app_r by lia.
    replace (length A + lookupLE (keys B) q - length A)%nat
      with (lookupLE (keys B) q) by lia.
    now rewrite lookup_app_l by exact Hlt. }
  unfold leaf_put. rewrite Hi, E, Hat, He.
  assert (Ht : forall j : nat, (j <= length B)%nat ->
            take (length A + j) (A ++ B ++ C) = A ++ take j B).
  { intros j Hj. rewrite take_app_add'  by reflexivity.
    now rewrite take_app_le by exact Hj. }
  assert (Hd : forall j : nat, (j <= length B)%nat ->
            drop (length A + j) (A ++ B ++ C) = drop j B ++ C).
  { intros j Hj. rewrite drop_app_add' by reflexivity.
    now rewrite drop_app_le by exact Hj. }
  destruct (bool_decide (q = e_key e)).
  - rewrite Ht by lia.
    replace (S (length A + lookupLE (keys B) q))
      with (length A + S (lookupLE (keys B) q))%nat by lia.
    rewrite Hd by lia. now rewrite <- !app_assoc.
  - replace (S (length A + lookupLE (keys B) q))
      with (length A + S (lookupLE (keys B) q))%nat by lia.
    rewrite Ht, Hd by lia. now rewrite <- !app_assoc.
Qed.
End Route.

(** ** Trees over the pages *)

Lemma tok_below (h : nat) (t : tree h) :
  tok h t <->
  node_entries h t <> [] /\ nsize (node_entries h t) <= BTREE_PAGE_SIZE
  /\ below_ok h t.
Proof.
  destruct h as [|h]; simpl; [tauto|].
  split; intros (H1 & H2 & H3); (split; [|split; assumption]).
  - destruct t; [contradiction|discriminate].
  - destruct t; [contradiction|discriminate].
Qed.

Lemma flat_nonempty (h : nat) :
  forall t : tree h, tok h t -> flat h t <> [].
Proof.
  induction h as [|h IH]; intros t Ht.
  - exact (proj1 Ht).
  - destruct Ht as (Hne & _ & Hk). simpl.
    apply concat_nonempty.
    + apply Forall_fmap. eapply Forall_impl; [exact Hk|].
      intros pt Hpt. apply IH, Hpt.
    + destruct t; [contradiction|discriminate].
Qed.

Lemma tok_entry_ok (h : nat) :
  forall t : tree h, tok h t -> Forall entry_ok (flat h t).
Proof.
  induction h as [|h IH]; intros t Ht.
  - exact (proj2 (proj2 Ht)).
  - destruct Ht as (_ & _ & Hk). simpl.
    apply Forall_concat, Forall_fmap. eapply Forall_impl; [exact Hk|].
    intros pt Hpt. apply IH, Hpt.
Qed.

Lemma segs_nonempty (h : nat) (kids : list (Z * tree h)) :
  Forall (fun pt => tok h pt.2) kids ->
  Forall (fun s : list entry => s <> [])
    (map (fun pt => flat h pt.2) kids).
Proof.
  intros Hk. apply Forall_fmap. eapply Forall_impl; [exact Hk|].
  intros pt Hpt. now apply flat_nonempty.
Qed.

Lemma node_entries_first (h : nat) (t : tree h) :
  node_entries h t <> [] -> below_ok h t ->
  first_key (node_entries h t) = first_key (flat h t).
Proof.
  destruct h as [|h]; [reflexivity|]. simpl. intros Hne Hk.
  destruct t as [|pt kids]; [contradiction|].
  apply Forall_cons in Hk as [Hpt _]. simpl.
  symmetry. apply first_key_app. now apply flat_nonempty.
Qed.

Lemma first_key_ok (es : list entry) :
  Forall entry_ok es -> blen (first_key es) <= BTREE_MAX_KEY_SIZE.
Proof.
  destruct es as [|e es]; intros H.
  - unfold BTREE_MAX_KEY_SIZE. simpl. unfold blen. simpl. lia.
  - apply Forall_cons in H as [[H _] _]. exact H.
Qed.

Lemma link_entry_ok (h : nat) (pt : Z * tree h) :
  tok h pt.2 -> entry_ok (link h pt) /\ e_val (link h pt) = [].
Proof.
  intros Ht. split; [|reflexivity]. split.
  - unfold link, e_key. cbn [fst snd]. now apply first_key_ok, tok_entry_ok.
  - unfold link, e_val, BTREE_MAX_VAL_SIZE. cbn [fst snd]. unfold blen.
    simpl. lia.
Qed.

Lemma node_entries_ok (h : nat) (t : tree h) :
  below_ok h t -> Forall entry_ok (node_entries h t).
Proof.
  destruct h as [|h]; simpl; [tauto|]. intros Hk.
  apply Forall_fmap. eapply Forall_impl; [exact Hk|].
  intros pt Hpt. now apply link_entry_ok.
Qed.

Lemma rep_node_is (pg : gmap Z BNode) (h : nat) (t : tree h) (d : BNode) :
  rep pg h t d -> node_is d (node_type h) (node_entries h t).
Proof. destruct h; simpl; [tauto|]. now intros [H _]. Qed.

Lemma elem_of_concat {A} (ls : list (list A)) (x : A) :
  x ∈ concat ls <-> exists l, x ∈ l /\ l ∈ ls.
Proof.
  induction ls as [|l ls IH]; simpl.
  - split; [intros H; inversion H|intros (l & _ & H); inversion H].
  - rewrite elem_of_app, IH. split.
    + intros [H|(l' & H1 & H2)].
      * exists l. split; [exact H|apply elem_of_cons; now left].
      * exists l'. split; [exact H1|apply elem_of_cons; now right].
    + intros (l' & H1 & H2). apply elem_of_cons in H2 as [->|H2].
      * now left.
      * right. now exists l'.
Qed.

Lemma elem_of_ptrs (h : nat) (kids : list (Z * tree h)) (pt : Z * tree h)
    (p : Z) :
  pt ∈ kids -> p = pt.1 \/ p ∈ ptrs h pt.2 -> p ∈ ptrs (S h) kids.
Proof.
  intros Hin Hp. simpl. apply elem_of_concat.
  exists (pt.1 :: ptrs h pt.2). split.
  - apply elem_of_cons. destruct Hp; [left|right]; assumption.
  - apply (list_elem_of_fmap_2 (fun pt => pt.1 :: ptrs h pt.2)). exact Hin.
Qed.

(** The representation depends on the pages of the tree only. *)
Lemma rep_frame (pg pg' : gmap Z BNode) (h : nat) :
  forall (t : tree h) (d : BNode),
    (forall p, p ∈ ptrs h t -> pg' !! p = pg !! p) ->
    rep pg h t d -> rep pg' h t d.
Proof.
  induction h as [|h IH]; intros t d Hfr Hrep; [exact Hrep|].
  destruct Hrep as [Hn Hk]. split; [exact Hn|].
  apply Forall_forall. intros pt Hin.
  rewrite Forall_forall in Hk. destruct (Hk pt Hin) as (d' & Hd' & Hr').
  exists d'. split.
  - rewrite Hfr; [exact Hd'|]. apply (elem_of_ptrs h t pt); auto.
  - apply IH; [|exact Hr'].
    intros p Hp. apply Hfr. apply (elem_of_ptrs h t pt); auto.
Qed.

Lemma keys_links (h : nat) (kids : list (Z * tree h)) :
  keys (map (link h) kids)
  = map first_key (map (fun pt => flat h pt.2) kids).
Proof.
  unfold keys. rewrite !map_map. reflexivity.
Qed.

(** ** Lookup in the tree *)

Lemma sbind_Ok {A B} (m : M A) (f : A -> M B) (s s' : Pager) (a : A) :
  m s = Ok (a, s') -> sbind m f s = f a s'.
Proof. intros H. unfold sbind. now rewrite H. Qed.

Lemma sbind_lift {A B} (r : res A) (f : A -> M B) (s : Pager) (a : A) :
  r = Ok a -> sbind (lift r) f s = f a s.
Proof. intros ->. reflexivity. Qed.

Lemma Get_loop_spec (pg : gmap Z BNode) (fr : Z) (q : list byte) (h : nat) :
  forall (fuel : nat) (t : tree h) (d : BNode),
    rep pg h t d -> tok h t -> sorted1 (keys (flat h t)) ->
    (h < fuel)%nat ->
    Get_loop fuel d q (mkPager pg fr)
    = Ok (leaf_get (flat h t) q, mkPager pg fr).
Proof.
  induction h as [|h IH]; intros fuel t d Hrep Htok Hs Hfuel;
    (destruct fuel as [|fuel]; [lia|]); cbn [Get_loop].
  - (* a leaf *)
    simpl in Hrep, Htok. destruct Htok as (Hne & _ & _).
    rewrite (sbind_lift _ _ _ _ (nodeLookupLE_rep _ _ _ q Hrep)).
    rewrite (sbind_lift _ _ _ _ (rep_btype _ _ _ _ Hrep)).
    change (BNODE_LEAF =? BNODE_LEAF) with true. cbn iota.
    rewrite (sbind_lift _ _ _ _ (rep_nkeys _ _ _ _ Hrep)).
    assert (Hlt : (lookupLE (keys t) q < length t)%nat).
    { rewrite <- keys_length. apply lookupLE_lt.
      intros E. apply keys_nil_inv in E. contradiction. }
    destruct (lookup_lt_is_Some_2 t _ Hlt) as [e He].
    replace (Z.of_nat (lookupLE (keys t) q) <? Z.of_nat (length t))
      with true by (symmetry; apply Z.ltb_lt; lia).
    rewrite (sbind_lift _ _ _ _ (rep_getKey _ _ _ _ Hrep _ _ He)).
    simpl flat. unfold leaf_get. rewrite He. unfold bytes_Equal.
    destruct (bool_decide (e_key e = q)); [|reflexivity].
    rewrite (sbind_lift _ _ _ _ (rep_getVal _ _ _ _ Hrep _ _ He)).
    reflexivity.
  - (* an internal node *)
    change (list (Z * tree h)) in (type of t).
    destruct Hrep as [Hn Hk]. destruct Htok as (Hne & _ & Hkt).
    rewrite (sbind_lift _ _ _ _ (nodeLookupLE_rep _ _ _ q Hn)).
    rewrite (sbind_lift _ _ _ _ (rep_btype _ _ _ _ Hn)).
    change (BNODE_NODE =? BNODE_LEAF) with false.
    change (BNODE_NODE =? BNODE_NODE) with true. cbn iota.
    rewrite keys_links.
    set (segs := map (fun pt => flat h pt.2) t) in *.
    pose proof (segs_nonempty h t Hkt) as Hsn. fold segs in Hsn.
    simpl flat in Hs |- *. fold segs in Hs |- *.
    assert (Hsegs : segs <> [])
      by (subst segs; destruct t; [contradiction|discriminate]).
    destruct (route_idx segs Hsn Hs q Hsegs) as [B HB].
    set (idx := lookupLE (map first_key segs) q) in *.
    assert (Hpt : exists pt, t !! idx = Some pt /\ B = flat h pt.2).
    { pose proof (lookup_lt_Some _ _ _ HB) as Hlt.
      unfold segs in Hlt. rewrite length_map in Hlt.
      destruct (lookup_lt_is_Some_2 t idx Hlt) as [pt Hpt].
      exists pt. split; [exact Hpt|].
      unfold segs in HB. rewrite list_lookup_fmap, Hpt in HB.
      simpl in HB. congruence. }
    destruct Hpt as (pt & Hpt & ->).
    assert (Hl : map (link h) t !! idx = Some (link h pt))
      by (rewrite list_lookup_fmap, Hpt; reflexivity).
    rewrite (sbind_lift _ _ _ _ (rep_getPtr _ _ _ _ Hn _ _ Hl)).
    pose proof (Forall_lookup_1 _ _ _ _ Hk Hpt) as (d' & Hd' & Hr').
    pose proof (Forall_lookup_1 _ _ _ _ Hkt Hpt) as Ht'.
    unfold link at 1, e_ptr. cbn [fst snd].
    rewrite (sbind_Ok (tree_get pt.1) _ _ (mkPager pg fr) d')
      by (unfold tree_get; simpl; now rewrite Hd').
    rewrite (IH fuel pt.2 d' Hr' Ht'); [| |lia].
    + now rewrite (route_get segs Hsn Hs q _ HB).
    + rewrite (concat_middle segs idx _ HB), !keys_app in Hs.
      exact (sorted1_segment _ _ _ Hs).
Qed.

(** ** The pager *)

Lemma tree_get_spec (pg : gmap Z BNode) (fr p : Z) (d : BNode) :
  pg !! p = Some d -> tree_get p (mkPager pg fr) = Ok (d, mkPager pg fr).
Proof. intros H. unfold tree_get. simpl. now rewrite H. Qed.

Lemma tree_del_spec (pg : gmap Z BNode) (fr p : Z) (d : BNode) :
  pg !! p = Some d ->
  tree_del p (mkPager pg fr) = Ok (tt, mkPager (delete p pg) fr).
Proof. intros H. unfold tree_del. simpl. now rewrite H. Qed.

Lemma tree_new_spec (pg : gmap Z BNode) (fr : Z) (d : BNode) (t : Z)
    (es : list entry) :
  node_is d t es -> nsize es <= BTREE_PAGE_SIZE -> pg !! fr = None ->
  tree_new d (mkPager pg fr)
  = Ok (fr, mkPager (<[fr := d]> pg) (fr + 1)).
Proof.
  intros Hn Hsz Hfr. unfold tree_new.
  rewrite (sbind_lift _ _ _ _ (rep_nbytes _ _ _ _ Hn eq_refl)).
  rewrite (sbind_lift _ _ _ tt)
    by (apply Assert_true, Z.leb_le; exact Hsz).
  simpl. now rewrite Hfr.
Qed.

(** ** Linking split nodes into their parent *)

Lemma length_alloc_links (fr : Z) (parts : list (list entry)) :
  length (alloc_links fr parts) = length parts.
Proof.
  revert fr. induction parts as [|p parts IH]; intros fr; simpl;
    [reflexivity|]. now rewrite IH.
Qed.

Lemma appendRootKids_eq (split : list BNode) :
  forall (rootn : BNode) (i : Z) (s : Pager),
    appendRootKids rootn i split s = appendKids rootn 0 i split s.
Proof.
  induction split as [|knode split IH]; intros rootn i s; [reflexivity|].
  cbn [appendRootKids appendKids].
  assert (E : u16 (0 + u16 i) = u16 i).
  { unfold u16. rewrite Z.add_0_l. apply Z.mod_mod. lia. }
  rewrite E. unfold sbind.
  destruct (tree_new knode s) as [[ptr s1]| |]; try reflexivity.
  destruct (lift (getKey knode 0) s1) as [[key s2]| |]; try reflexivity.
  destruct (lift (nodeAppendKV rootn (u16 i) ptr key []) s2)
    as [[rootn' s3]| |]; try reflexivity.
  apply IH.
Qed.

Lemma appendKids_spec (ty : Z) (nodes : list BNode)
    (parts : list (list entry)) :
  Forall2 (fun dn p => node_is dn ty p /\ nsize p <= BTREE_PAGE_SIZE
                       /\ p <> []) nodes parts ->
  forall (new : BNode) (n : Z) (pre : list entry) (a b : nat)
         (pg : gmap Z BNode) (fr : Z),
    node_rep new BNODE_NODE n pre ->
    (a + b = length pre)%nat ->
    Z.of_nat (length pre) + Z.of_nat (length nodes) <= n ->
    4 + 10 * n + kvsize pre + kvsize (alloc_links fr parts) <= blen new ->
    0 < fr -> fr + Z.of_nat (length nodes) <= 18446744073709551616 ->
    (forall p, fr <= p -> pg !! p = None) ->
    exists (new' : BNode) (pg' : gmap Z BNode),
      appendKids new (Z.of_nat a) (Z.of_nat b) nodes (mkPager pg fr)
      = Ok (new', mkPager pg' (fr + Z.of_nat (length nodes)))
      /\ blen new' = blen new
      /\ node_rep new' BNODE_NODE n (pre ++ alloc_links fr parts)
      /\ (forall (j : nat) (dn : BNode), nodes !! j = Some dn ->
            pg' !! (fr + Z.of_nat j) = Some dn)
      /\ (forall p, p < fr -> pg' !! p = pg !! p)
      /\ (forall p, fr + Z.of_nat (length nodes) <= p -> pg' !! p = None).
Proof.
  induction 1 as [|dn p nodes parts (Hdn & Hsz & Hp) HF IH];
    intros new n pre a b pg fr Hnew Hab Hcnt Hfit Hfr Hmax Hpg.
  - exists new, pg. cbn [appendKids alloc_links length].
    rewrite Z.add_0_r, app_nil_r. unfold mret.
    split; [reflexivity|]. split; [reflexivity|]. split; [exact Hnew|].
    split; [intros j dn' H; inversion H|]. split; [reflexivity|].
    intros q Hq. apply Hpg. lia.
  - cbn [appendKids alloc_links length] in *.
    pose proof (rep_n_range _ _ _ _ Hnew) as (Hn0 & Hn1 & Hn2).
    pose proof (kvsize_nonneg pre) as Hkp.
    pose proof (kvsize_nonneg (alloc_links (fr + 1) parts)) as Hkr.
    cbn [kvsize] in Hfit.
    assert (Hesz : esz (fr, first_key p, []) = 4 + blen (first_key p)).
    { unfold esz, e_key, e_val. cbn [fst snd]. unfold blen at 2.
      simpl. lia. }
    pose proof (blen_nonneg (first_key p)) as Hkn.
    rewrite (sbind_Ok _ _ _ _ _
               (tree_new_spec pg fr dn ty p Hdn Hsz (Hpg fr ltac:(lia)))).
    destruct p as [|e0 p]; [contradiction|].
    rewrite (sbind_lift _ _ _ _ (rep_getKey _ _ _ _ Hdn 0%nat e0 eq_refl)).
    assert (Hi : u16 (Z.of_nat a + u16 (Z.of_nat b)) = Z.of_nat (length pre)).
    { rewrite (u16_small (Z.of_nat b)) by lia. rewrite u16_small by lia.
      lia. }
    rewrite Hi.
    destruct (nodeAppendKV_rep new BNODE_NODE n pre fr (e_key e0) [] Hnew)
      as (new1 & Hrun & Hlen1 & Hrep1);
      [lia|lia|simpl first_key in *; change (blen []) with 0; lia|].
    rewrite (sbind_lift _ _ _ _ Hrun).
    replace (Z.of_nat b + 1) with (Z.of_nat (S b)) by lia.
    destruct (IH new1 n (pre ++ [(fr, e_key e0, [])]) a (S b)
                (<[fr := dn]> pg) (fr + 1) Hrep1)
      as (new' & pg' & Hrun' & Hlen' & Hrep' & Hget' & Hold' & Hnone').
    + rewrite length_app. simpl. lia.
    + rewrite length_app. simpl. lia.
    + rewrite kvsize_app. cbn [kvsize]. simpl first_key in *. lia.
    + lia.
    + lia.
    + intros q Hq. rewrite lookup_insert_ne by lia. apply Hpg. lia.
    + exists new', pg'.
      replace (fr + Z.of_nat (S (length nodes)))
        with (fr + 1 + Z.of_nat (length nodes)) by lia.
      split; [exact Hrun'|]. split; [congruence|].
      split; [now rewrite <- app_assoc in Hrep'|].
      split; [|split].
      * intros [|j] dn' Hj.
        -- injection Hj as <-. rewrite Z.add_0_r.
           rewrite Hold' by lia. apply lookup_insert_eq.
        -- replace (fr + Z.of_nat (S j)) with (fr + 1 + Z.of_nat j) by lia.
           now apply Hget'.
      * intros q Hq. rewrite Hold' by lia. apply lookup_insert_ne. lia.
      * exact Hnone'.
Qed.

Lemma kvsize_alloc_links (fr fr' : Z) (parts : list (list entry)) :
  kvsize (alloc_links fr parts) = kvsize (alloc_links fr' parts).
Proof.
  revert fr fr'. induction parts as [|p parts IH]; intros fr fr';
    [reflexivity|].
  cbn [alloc_links kvsize]. rewrite (IH (fr + 1) (fr' + 1)). reflexivity.
Qed.

Lemma nodeReplaceKidN_spec (ty : Z) (nodes : list BNode)
    (parts : list (list entry)) (old : BNode) (es : list entry)
    (idx : nat) (pg : gmap Z BNode) (fr : Z) :
  Forall2 (fun dn p => node_is dn ty p /\ nsize p <= BTREE_PAGE_SIZE
                       /\ p <> []) nodes parts ->
  node_is old BNODE_NODE es ->
  (idx < length es)%nat ->
  (1 <= length nodes <= 3)%nat ->
  nsize (take idx es ++ alloc_links fr parts ++ drop (S idx) es)
    <= 2 * BTREE_PAGE_SIZE ->
  0 < fr -> fr + Z.of_nat (length nodes) <= 18446744073709551616 ->
  (forall p, fr <= p -> pg !! p = None) ->
  exists (new' : BNode) (pg' : gmap Z BNode),
    nodeReplaceKidN (make (2 * BTREE_PAGE_SIZE)) old (Z.of_nat idx) nodes
      (mkPager pg fr)
    = Ok (new', mkPager pg' (fr + Z.of_nat (length nodes)))
    /\ blen new' = 2 * BTREE_PAGE_SIZE
    /\ node_is new' BNODE_NODE
         (take idx es ++ alloc_links fr parts ++ drop (S idx) es)
    /\ (forall (j : nat) (dn : BNode), nodes !! j = Some dn ->
          pg' !! (fr + Z.of_nat j) = Some dn)
    /\ (forall p, p < fr -> pg' !! p = pg !! p)
    /\ (forall p, fr + Z.of_nat (length nodes) <= p -> pg' !! p = None).
Proof.
  intros HF R Hidx Hcnt Hcap Hfr Hmax Hpg.
  pose proof (rep_n_range _ _ _ _ R) as Hn.
  pose proof (Forall2_length _ _ _ HF) as Hlen.
  pose proof (length_alloc_links fr parts) as Hll.
  pose proof (kvsize_nonneg (take idx es)) as Hk1.
  pose proof (kvsize_nonneg (alloc_links fr parts)) as Hk2.
  pose proof (kvsize_nonneg (drop (S idx) es)) as Hk3.
  unfold nsize in Hcap.
  rewrite !length_app, !kvsize_app, length_take, length_drop, Hll in Hcap.
  unfold BTREE_PAGE_SIZE in Hcap.
  set (new := make (2 * BTREE_PAGE_SIZE)).
  assert (Hnew : blen new = 8192) by (apply blen_make; vm_compute; congruence).
  unfold nodeReplaceKidN.
  rewrite (u16_small (Z.of_nat (length nodes))) by lia.
  rewrite (sbind_lift _ _ _ _ (rep_nkeys _ _ _ _ R)).
  set (n' := Z.of_nat (length es) + Z.of_nat (length nodes) - 1).
  rewrite (u16_small n') by (unfold n'; lia).
  destruct (setHeader_rep new BNODE_NODE n')
    as (d0 & Hr0 & L0 & R0);
    [lia|unfold n'; lia|unfold n'; lia|vm_compute; split; congruence|].
  rewrite (sbind_lift _ _ _ _ Hr0).
  destruct (nodeAppendRange_at d0 old _ _ _ _ [] es 0 0 (Z.of_nat idx)
              0 idx R0 R) as (d1 & Hr1 & L1 & R1);
    [reflexivity|reflexivity|reflexivity|lia|simpl; unfold n'; lia
    |rewrite drop_0; cbn [kvsize]; unfold n'; lia|].
  rewrite (sbind_lift _ _ _ _ Hr1). rewrite drop_0 in R1. cbn [app] in R1.
  destruct (appendKids_spec ty nodes parts HF d1 n' (take idx es) idx 0
              pg fr R1)
    as (d2 & pg' & Hr2 & L2 & R2 & Hget & Hold & Hnone).
  { rewrite length_take. lia. }
  { rewrite length_take. unfold n'. lia. }
  { unfold n'. lia. }
  { exact Hfr. } { exact Hmax. } { exact Hpg. }
  rewrite (sbind_Ok _ _ _ _ _ Hr2).
  rewrite (u16_small (Z.of_nat idx + Z.of_nat (length nodes))) by lia.
  rewrite (u16_small (Z.of_nat idx + 1)) by lia.
  rewrite (u16_small (Z.of_nat (length es) - (Z.of_nat idx + 1))) by lia.
  destruct (nodeAppendRange_at d2 old _ _ _ _ _ es
              (Z.of_nat idx + Z.of_nat (length nodes))
              (Z.of_nat idx + 1)
              (Z.of_nat (length es) - (Z.of_nat idx + 1))
              (S idx) (length es - S idx) R2 R) as (d3 & Hr3 & L3 & R3).
  { rewrite length_app, length_take, Hll. lia. }
  { lia. } { lia. } { lia. }
  { rewrite length_app, length_take, Hll. unfold n'. lia. }
  { rewrite (take_ge (drop (S idx) es)) by (rewrite length_drop; lia).
    rewrite kvsize_app. unfold n'. lia. }
  exists d3, pg'. unfold lift. rewrite Hr3.
  split; [reflexivity|]. split; [unfold BTREE_PAGE_SIZE; lia|].
  split; [|split; [exact Hget|split; [exact Hold|exact Hnone]]].
  rewrite (take_ge (drop (S idx) es)) in R3 by (rewrite length_drop; lia).
  rewrite <- app_assoc in R3.
  unfold node_is. rewrite !length_app, length_take, length_drop, Hll.
  replace (Z.of_nat (idx `min` length es
                     + (length parts + (length es - S idx)))) with n'
    by (unfold n'; lia).
  exact R3.
Qed.

(** ** Splitting the node of a tree *)

Lemma concat_map_inv {A B} (f : A -> B) (parts : list (list B)) :
  forall l : list A,
    concat parts = map f l ->
    exists ls : list (list A), concat ls = l /\ map (map f) ls = parts.
Proof.
  induction parts as [|p parts IH]; intros l H.
  - exists []. split; [|reflexivity]. simpl in H.
    destruct l; [reflexivity|discriminate].
  - simpl in H.
    assert (Hlen : (length p <= length l)%nat).
    { apply (f_equal length) in H.
      rewrite length_app, length_map in H. lia. }
    rewrite <- (take_drop (length p) l) in H. rewrite map_app in H.
    apply app_inj_1 in H as [H1 H2];
      [|rewrite length_map, length_take; lia].
    destruct (IH _ H2) as (ls & Hc & Hm).
    exists (take (length p) l :: ls). split.
    + simpl. rewrite Hc. apply take_drop.
    + simpl. now rewrite Hm, <- H1.
Qed.

Lemma concat_concat_map {A B} (g : A -> list B) (ls : list (list A)) :
  concat (map (fun l => concat (map g l)) ls) = concat (map g (concat ls)).
Proof.
  induction ls as [|l ls IH]; [reflexivity|].
  simpl. now rewrite IH, map_app, concat_app.
Qed.

Lemma Forall_concat_elem {A} (P : A -> Prop) (ls : list (list A))
    (l : list A) :
  Forall P (concat ls) -> l ∈ ls -> Forall P l.
Proof.
  intros H Hin. apply Forall_forall. intros x Hx.
  rewrite Forall_forall in H. apply H, elem_of_concat. now exists l.
Qed.

Lemma split_tree (pg : gmap Z BNode) (h : nat) (t : tree h) (d : BNode) :
  rep pg h t d -> grown h t -> BTREE_PAGE_SIZE <= blen d ->
  exists (nodes : list BNode) (ts : list (tree h)),
    nodeSplit3 d = Ok nodes
    /\ (1 <= length nodes <= 3)%nat
    /\ Forall2 (fun dn tn => rep pg h tn dn /\ tok h tn) nodes ts
    /\ concat (map (flat h) ts) = flat h t
    /\ concat (map (ptrs h) ts) = ptrs h t.
Proof.
  intros Hrep (Hne & Hgr & Hbel) Hlen.
  pose proof (rep_node_is _ _ _ _ Hrep) as Hn.
  pose proof (node_entries_ok _ _ Hbel) as Hok.
  destruct (nodeSplit3_spec d (node_type h) (node_entries h t) Hn Hlen)
    as (nodes & parts & Hrun & Hcat & Hcnt & HF).
  { intros e He. rewrite Forall_forall in Hok.
    pose proof (entry_ok_size e (Hok e He)). unfold BTREE_PAGE_SIZE. lia. }
  { pose proof (insert_grown_size _ Hok Hgr). unfold BTREE_PAGE_SIZE in *.
    lia. }
  exists nodes. destruct h as [|h].
  - (* a leaf: the parts are the trees *)
    exists parts. split; [exact Hrun|]. split; [exact Hcnt|].
    simpl in *. split; [|split].
    + apply Forall2_same_length_lookup_2; [now apply Forall2_length in HF|].
      intros i dn p Hi Hp.
      pose proof (Forall2_lookup_lr _ _ _ _ _ _ HF Hi Hp)
        as (H1 & _ & H3 & H4).
      split; [exact H1|]. split; [now apply H4|]. split; [exact H3|].
      apply (Forall_concat_elem _ parts); [now rewrite Hcat|].
      now apply list_elem_of_lookup_2 in Hp.
    + now rewrite map_id.
    + clear. induction parts; [reflexivity|assumption].
  - (* an internal node: the children are cut as the links are *)
    change (list (Z * tree h)) in (type of t).
    simpl in Hne, Hgr, Hbel, Hn, Hok, Hcat. destruct Hrep as [_ Hk].
    destruct (concat_map_inv (link h) parts t Hcat) as (ls & Hc & Hm).
    exists ls. split; [exact Hrun|]. split; [exact Hcnt|].
    subst parts. split; [|split].
    + apply Forall2_same_length_lookup_2;
        [apply Forall2_length in HF; now rewrite length_map in HF|].
      intros i dn l Hi Hl.
      assert (Hp : map (map (link h)) ls !! i = Some (map (link h) l)).
      { etrans; [apply list_lookup_fmap|].
        exact (f_equal (fmap (map (link h))) Hl). }
      pose proof (Forall2_lookup_lr _ _ _ _ _ _ HF Hi Hp)
        as (H1 & _ & H3 & H4).
      assert (Hin : l ∈ ls) by now apply list_elem_of_lookup_2 in Hl.
      split; [split|split; [|split]].
      * exact H1.
      * apply (Forall_concat_elem _ ls); [now rewrite Hc|exact Hin].
      * intros ->. now apply H4.
      * exact H3.
      * apply (Forall_concat_elem _ ls); [now rewrite Hc|exact Hin].
    + rewrite <- Hc. simpl. apply concat_concat_map.
    + rewrite <- Hc. simpl.
      apply (concat_concat_map (fun pt => pt.1 :: ptrs h pt.2)).
Qed.

(** ** The children allocated for split nodes *)

Lemma length_alloc_kids (h : nat) (ts : list (tree h)) :
  forall fr : Z, length (alloc_kids h fr ts) = length ts.
Proof.
  induction ts as [|t ts IH]; intros fr; simpl; [reflexivity|].
  now rewrite IH.
Qed.

Lemma links_alloc_kids (h : nat) (ts : list (tree h)) :
  Forall (tok h) ts ->
  forall fr : Z,
    map (link h) (alloc_kids h fr ts)
    = alloc_links fr (map (node_entries h) ts).
Proof.
  induction 1 as [|t ts Ht _ IH]; intros fr; [reflexivity|].
  cbn [alloc_kids alloc_links map]. rewrite IH. f_equal.
  unfold link. cbn [fst snd]. f_equal. f_equal.
  apply tok_below in Ht as (H1 & _ & H3).
  symmetry. now apply node_entries_first.
Qed.

Lemma flat_alloc_kids (h : nat) (ts : list (tree h)) :
  forall fr : Z,
    concat (map (fun pt => flat h pt.2) (alloc_kids h fr ts))
    = concat (map (flat h) ts).
Proof.
  induction ts as [|t ts IH]; intros fr; [reflexivity|].
  cbn [alloc_kids map concat]. now rewrite IH.
Qed.

Lemma lookup_alloc_kids (h : nat) (ts : list (tree h)) :
  forall (fr : Z) (j : nat) (pt : Z * tree h),
    alloc_kids h fr ts !! j = Some pt ->
    pt.1 = fr + Z.of_nat j /\ ts !! j = Some pt.2.
Proof.
  induction ts as [|t ts IH]; intros fr j pt H; [inversion H|].
  destruct j as [|j]; simpl in H.
  - injection H as <-. simpl. split; [lia|reflexivity].
  - destruct (IH _ _ _ H) as [H1 H2]. split; [lia|exact H2].
Qed.

Lemma alloc_ptrs_elem (h : nat) (ts : list (tree h)) :
  forall (fr p : Z),
    p ∈ ptrs (S h) (alloc_kids h fr ts) ->
    fr <= p < fr + Z.of_nat (length ts)
    \/ p ∈ concat (map (ptrs h) ts).
Proof.
  induction ts as [|t ts IH]; intros fr p Hp; [inversion Hp|].
  cbn [ptrs alloc_kids map concat fst snd] in Hp.
  change (concat (map (fun pt => pt.1 :: ptrs h pt.2)
                    (alloc_kids h (fr + 1) ts)))
    with (ptrs (S h) (alloc_kids h (fr + 1) ts)) in Hp.
  apply elem_of_cons in Hp as [->|Hp]; [left; simpl; lia|].
  apply elem_of_app in Hp as [Hp|Hp].
  - right. simpl. apply elem_of_app. now left.
  - destruct (IH _ _ Hp) as [H|H].
    + left. simpl length. lia.
    + right. simpl. apply elem_of_app. now right.
Qed.

Lemma alloc_ptrs_NoDup (h : nat) (ts : list (tree h)) :
  forall fr : Z,
    NoDup (concat (map (ptrs h) ts)) ->
    Forall (fun p => p < fr) (concat (map (ptrs h) ts)) ->
    NoDup (ptrs (S h) (alloc_kids h fr ts)).
Proof.
  induction ts as [|t ts IH]; intros fr Hnd Hlt; [constructor|].
  cbn [ptrs alloc_kids map concat fst snd].
  change (concat (map (fun pt => pt.1 :: ptrs h pt.2)
                    (alloc_kids h (fr + 1) ts)))
    with (ptrs (S h) (alloc_kids h (fr + 1) ts)).
  simpl in Hnd, Hlt.
  apply NoDup_app in Hnd as (Hnd1 & Hdis & Hnd2).
  apply Forall_app in Hlt as [Hlt1 Hlt2].
  rewrite Forall_forall in Hlt1, Hlt2.
  apply NoDup_cons. split.
  - intros Hin. apply elem_of_app in Hin as [Hin|Hin].
    + pose proof (Hlt1 _ Hin). lia.
    + apply alloc_ptrs_elem in Hin as [Hin|Hin]; [lia|].
      pose proof (Hlt2 _ Hin). lia.
  - apply NoDup_app. split; [exact Hnd1|]. split.
    + intros x Hx Hin.
      apply alloc_ptrs_elem in Hin as [Hin|Hin].
      * pose proof (Hlt1 _ Hx). lia.
      * exact (Hdis x Hx Hin).
    + apply IH; [exact Hnd2|].
      apply Forall_forall. intros x Hx. pose proof (Hlt2 x Hx). lia.
Qed.

Lemma ptrs_app (h : nat) (a b : list (Z * tree h)) :
  ptrs (S h) (a ++ b) = ptrs (S h) a ++ ptrs (S h) b.
Proof. simpl. now rewrite map_app, concat_app. Qed.

Lemma ptrs_middle (h : nat) (kids : list (Z * tree h)) (i : nat)
    (pt : Z * tree h) :
  kids !! i = Some pt ->
  ptrs (S h) kids
  = ptrs (S h) (take i kids) ++ (pt.1 :: ptrs h pt.2)
      ++ ptrs (S h) (drop (S i) kids).
Proof.
  intros H. rewrite <- (take_drop_middle kids i pt H) at 1.
  rewrite ptrs_app. reflexivity.
Qed.

Lemma Forall2_right {A B} (P : A -> B -> Prop) (Q : B -> Prop)
    (l : list A) (k : list B) :
  Forall2 (fun a b => P a b /\ Q b) l k -> Forall Q k.
Proof. induction 1 as [|a b l k [_ H] _ IH]; constructor; assumption. Qed.

Lemma tok_alloc_kids (h : nat) (ts : list (tree h)) :
  Forall (tok h) ts ->
  forall fr : Z, Forall (fun pt => tok h pt.2) (alloc_kids h fr ts).
Proof.
  induction 1 as [|t ts Ht _ IH]; intros fr; constructor;
    [exact Ht|apply IH].
Qed.

Lemma rep_kids_frame (pg pg' : gmap Z BNode) (h : nat)
    (l : list (Z * tree h)) :
  Forall (fun pt => exists d', pg !! pt.1 = Some d' /\ rep pg h pt.2 d') l ->
  (forall p, p ∈ ptrs (S h) l -> pg' !! p = pg !! p) ->
  Forall (fun pt => exists d', pg' !! pt.1 = Some d' /\ rep pg' h pt.2 d') l.
Proof.
  intros Hk Hfr. apply Forall_forall. intros pt Hin.
  rewrite Forall_forall in Hk. destruct (Hk pt Hin) as (d' & Hd' & Hr').
  exists d'. split.
  - rewrite Hfr; [exact Hd'|]. apply (elem_of_ptrs h l pt); auto.
  - apply (rep_frame pg); [|exact Hr'].
    intros p Hp. apply Hfr. apply (elem_of_ptrs h l pt); auto.
Qed.

(** The page numbers of a child are apart from those of its siblings. *)
Lemma ptrs_apart (h : nat) (kids : list (Z * tree h)) (i : nat)
    (pt : Z * tree h) :
  kids !! i = Some pt -> NoDup (ptrs (S h) kids) ->
  NoDup (ptrs (S h) (take i kids))
  /\ NoDup (ptrs (S h) (drop (S i) kids))
  /\ (pt.1 ∉ ptrs h pt.2)
  /\ NoDup (ptrs h pt.2)
  /\ (forall x, x ∈ ptrs (S h) (take i kids) ->
        (x <> pt.1) /\ (x ∉ ptrs h pt.2)
        /\ x ∉ ptrs (S h) (drop (S i) kids))
  /\ (forall x, x ∈ ptrs (S h) (drop (S i) kids) ->
        (x <> pt.1) /\ x ∉ ptrs h pt.2).
Proof.
  intros Hpt Hnd. rewrite (ptrs_middle h kids i pt Hpt) in Hnd.
  apply NoDup_app in Hnd as (HA & HAd & Hnd).
  apply NoDup_app in Hnd as (HX & HXd & HC).
  apply NoDup_cons in HX as [HX1 HX2].
  split; [exact HA|]. split; [exact HC|]. split; [exact HX1|].
  split; [exact HX2|]. split.
  - intros x Hx. pose proof (HAd x Hx) as Hn.
    rewrite elem_of_app, elem_of_cons in Hn. repeat split.
    + intros ->. apply Hn. left. now left.
    + intros H. apply Hn. left. now right.
    + intros H. apply Hn. now right.
  - intros x Hx. split.
    + intros ->. apply (HXd pt.1); [apply elem_of_cons; now left|exact Hx].
    + intros H. apply (HXd x); [apply elem_of_cons; now right|exact Hx].
Qed.

(** ** Insertion into the tree *)

Lemma leaf_insert_spec (k v : list byte) (es : list entry) (d : BNode) :
  entry_ok (0, k, v) ->
  node_is d BNODE_LEAF es -> es <> [] -> nsize es <= BTREE_PAGE_SIZE ->
  Forall entry_ok es ->
  forall (fuel : nat) (s : Pager),
  exists d' : BNode,
    treeInsert (S fuel) d k v s = Ok (d', s)
    /\ blen d' = 2 * BTREE_PAGE_SIZE
    /\ node_is d' BNODE_LEAF (leaf_put es k v).
Proof.
  intros Hkv Hrep Hne Hsz Hok fuel s.
  pose proof (rep_n_range _ _ _ _ Hrep) as Hn.
  pose proof (leaf_put_grown es k v Hne Hsz) as Hgr.
  pose proof (leaf_put_entry_ok es k v Hne Hok Hkv) as Hok'.
  pose proof (insert_grown_size _ Hok' Hgr) as Hsize.
  assert (Hnew : blen (make (2 * BTREE_PAGE_SIZE)) = 8192)
    by (apply blen_make; vm_compute; congruence).
  cbn [treeInsert].
  rewrite (sbind_lift _ _ _ _ (nodeLookupLE_rep _ _ _ k Hrep)).
  rewrite (sbind_lift _ _ _ _ (rep_btype _ _ _ _ Hrep)).
  change (BNODE_LEAF =? BNODE_LEAF) with true. cbn iota.
  destruct (leaf_put_shape es k v Hne) as (e & He & Hcase).
  pose proof (lookup_lt_Some _ _ _ He) as Hlt.
  rewrite (sbind_lift _ _ _ _ (rep_getKey _ _ _ _ Hrep _ _ He)).
  unfold bytes_Equal. unfold BTREE_PAGE_SIZE in *.
  destruct Hcase as [[Hk Hp]|[Hk Hp]]; rewrite Hp in *.
  - rewrite bool_decide_eq_true_2 by (symmetry; exact Hk).
    destruct (leafUpdate_rep (make (2 * 4096)) d BNODE_LEAF es
                (lookupLE (keys es) k) k v Hrep Hlt)
      as (d' & Hr & Hl & Hd'); [lia|lia|].
    exists d'. unfold lift. rewrite Hr.
    split; [reflexivity|]. split; [lia|exact Hd'].
  - rewrite bool_decide_eq_false_2 by (intros E; apply Hk; now rewrite E).
    replace (u16 (Z.of_nat (lookupLE (keys es) k) + 1))
      with (Z.of_nat (S (lookupLE (keys es) k)))
      by (rewrite u16_small by lia; lia).
    destruct Hkv as [Hk1 Hv1]. unfold e_key, e_val in Hk1, Hv1.
    cbn [fst snd] in Hk1, Hv1.
    unfold BTREE_MAX_KEY_SIZE, BTREE_MAX_VAL_SIZE in *.
    destruct (leafInsert_rep (make (2 * 4096)) d BNODE_LEAF es
                (S (lookupLE (keys es) k)) k v Hrep)
      as (d' & Hr & Hl & Hd'); [lia|lia|lia|].
    exists d'. unfold lift. rewrite Hr.
    split; [reflexivity|]. split; [lia|exact Hd'].
Qed.

Lemma treeInsert_spec (k v : list byte) (Hkv : entry_ok (0, k, v)) (h : nat) :
  forall (fuel : nat) (t : tree h) (d : BNode) (pg : gmap Z BNode) (fr : Z),
    rep pg h t d -> tok h t -> sorted1 (keys (flat h t)) ->
    NoDup (ptrs h t) -> Forall (fun p => 0 < p < fr) (ptrs h t) ->
    0 < fr -> (forall p, fr <= p -> pg !! p = None) ->
    fr + 3 * Z.of_nat h <= 18446744073709551616 ->
    (h < fuel)%nat ->
    exists (d' : BNode) (pg' : gmap Z BNode) (fr' : Z) (t' : tree h),
      treeInsert fuel d k v (mkPager pg fr) = Ok (d', mkPager pg' fr')
      /\ blen d' = 2 * BTREE_PAGE_SIZE
      /\ rep pg' h t' d'
      /\ grown h t'
      /\ flat h t' = leaf_put (flat h t) k v
      /\ fr <= fr' <= fr + 3 * Z.of_nat h
      /\ NoDup (ptrs h t')
      /\ Forall (fun p => 0 < p < fr') (ptrs h t')
      /\ (forall p, p ∈ ptrs h t' -> p ∈ ptrs h t \/ fr <= p)
      /\ (forall p, fr' <= p -> pg' !! p = None)
      /\ (forall p, p < fr -> p ∉ ptrs h t -> pg' !! p = pg !! p).
Proof.
  induction h as [|h IH];
    intros fuel t d pg fr Hrep Htok Hs Hnd Hb Hfr Hpg Hmax Hfuel;
    (destruct fuel as [|fuel]; [lia|]).
  - (* a leaf *)
    destruct Htok as (Hne & Hsz & Hok).
    destruct (leaf_insert_spec k v t d Hkv Hrep Hne Hsz Hok fuel
                (mkPager pg fr)) as (d' & Hrun & Hlen & Hd').
    exists d', pg, fr, (leaf_put t k v).
    split; [exact Hrun|]. split; [exact Hlen|]. split; [exact Hd'|].
    split.
    { split; [|split].
      - simpl. destruct (leaf_put_shape t k v Hne)
          as (e & He & [[_ Hp]|[_ Hp]]); rewrite Hp; intros E;
          apply (f_equal length) in E; rewrite length_app in E;
          simpl in E; lia.
      - now apply leaf_put_grown.
      - now apply leaf_put_entry_ok. }
    split; [reflexivity|]. split; [lia|]. split; [constructor|].
    split; [constructor|]. split; [intros p Hp; inversion Hp|].
    split; [exact Hpg|]. reflexivity.
  - (* an internal node *)
    change (list (Z * tree h)) in (type of t).
    destruct Hrep as [Hn Hk]. destruct Htok as (Hne & Hsz & Hkt).
    pose proof (rep_n_range _ _ _ _ Hn) as Hnr.
    rewrite length_map in Hnr.
    cbn [treeInsert].
    rewrite (sbind_lift _ _ _ _ (nodeLookupLE_rep _ _ _ k Hn)).
    rewrite (sbind_lift _ _ _ _ (rep_btype _ _ _ _ Hn)).
    change (BNODE_NODE =? BNODE_LEAF) with false.
    change (BNODE_NODE =? BNODE_NODE) with true. cbn iota.
    rewrite keys_links.
    set (segs := map (fun pt => flat h pt.2) t) in *.
    pose proof (segs_nonempty h t Hkt) as Hsn. fold segs in Hsn.
    simpl flat in Hs |- *. fold segs in Hs |- *.
    assert (Hsegs : segs <> [])
      by (subst segs; destruct t; [contradiction|discriminate]).
    destruct (route_idx segs Hsn Hs k Hsegs) as [B HB].
    set (idx := lookupLE (map first_key segs) k) in *.
    assert (Hpt : exists pt, t !! idx = Some pt /\ B = flat h pt.2).
    { pose proof (lookup_lt_Some _ _ _ HB) as Hlt.
      unfold segs in Hlt. rewrite length_map in Hlt.
      destruct (lookup_lt_is_Some_2 t idx Hlt) as [pt Hpt].
      exists pt. split; [exact Hpt|].
      unfold segs in HB. rewrite list_lookup_fmap, Hpt in HB.
      simpl in HB. congruence. }
    destruct Hpt as (pt & Hpt & ->).
    pose proof (lookup_lt_Some _ _ _ Hpt) as Hidx.
    assert (Hl : map (link h) t !! idx = Some (link h pt))
      by (rewrite list_lookup_fmap, Hpt; reflexivity).
    pose proof (Forall_lookup_1 _ _ _ _ Hk Hpt) as (dk & Hdk & Hrk).
    pose proof (Forall_lookup_1 _ _ _ _ Hkt Hpt) as Htk.
    destruct (ptrs_apart h t idx pt Hpt Hnd)
      as (HndA & HndC & Hself & Hndk & HapA & HapC).
    rewrite Forall_forall in Hb.
    assert (Hbk : forall p, p = pt.1 \/ p ∈ ptrs h pt.2 -> 0 < p < fr).
    { intros p Hp. apply Hb. apply (elem_of_ptrs h t pt); [|exact Hp].
      now apply list_elem_of_lookup_2 in Hpt. }
    unfold nodeInsert.
    rewrite (sbind_lift _ _ _ _ (rep_getPtr _ _ _ _ Hn _ _ Hl)).
    unfold link at 1 2, e_ptr. cbn [fst snd].
    rewrite (sbind_Ok _ _ _ _ _ (tree_get_spec pg fr _ _ Hdk)).
    rewrite (sbind_Ok _ _ _ _ _ (tree_del_spec pg fr _ _ Hdk)).
    (* the insertion into the child *)
    destruct (IH fuel pt.2 dk (delete pt.1 pg) fr)
      as (dk' & pg2 & fr2 & kt' & Hrun & Hlen' & Hrep' & Hgr' & Hflat'
          & Hfr2 & Hnd' & Hb' & Hsub' & Hnone' & Hfrm').
    { apply (rep_frame pg); [|exact Hrk].
      intros p Hp. apply lookup_delete_ne. intros <-. contradiction. }
    { exact Htk. }
    { rewrite (concat_middle segs idx _ HB), !keys_app in Hs.
      exact (sorted1_segment _ _ _ Hs). }
    { exact Hndk. }
    { apply Forall_forall. intros p Hp. apply Hbk. now right. }
    { exact Hfr. }
    { intros p Hp. destruct (decide (p = pt.1)) as [->|N].
      - apply lookup_delete_eq.
      - rewrite lookup_delete_ne by congruence. now apply Hpg. }
    { lia. }
    { lia. }
    rewrite (sbind_Ok _ _ _ _ _ Hrun).
    (* the split of the child *)
    destruct (split_tree pg2 h kt' dk' Hrep' Hgr')
      as (nodes & ts & Hsp & Hcnt & HF & Hfl & Hps);
      [unfold BTREE_PAGE_SIZE in *; lia|].
    rewrite (sbind_lift _ _ _ _ Hsp).
    pose proof (Forall2_length _ _ _ HF) as Hlen2.
    pose proof (Forall2_right _ _ _ _ HF) as Htoks.
    rewrite Forall_forall in Hb'.
    set (t' := take idx t ++ alloc_kids h fr2 ts ++ drop (S idx) t).
    assert (Hlinks : map (link h) t'
                     = take idx (map (link h) t)
                         ++ alloc_links fr2 (map (node_entries h) ts)
                         ++ drop (S idx) (map (link h) t)).
    { unfold t'. rewrite !map_app, <- fmap_take, <- fmap_drop.
      now rewrite links_alloc_kids. }
    assert (Hbel : Forall (fun pt => tok h pt.2) t').
    { unfold t'. apply Forall_app. split; [now apply Forall_take|].
      apply Forall_app. split; [now apply tok_alloc_kids|].
      now apply Forall_drop. }
    assert (Hgrown : grown (S h) t').
    { split; [|split; [|exact Hbel]].
      - simpl. rewrite Hlinks. intros E. apply (f_equal length) in E.
        rewrite !length_app, length_alloc_links, length_map in E.
        simpl in E. lia.
      - simpl. rewrite Hlinks.
        apply (grown_kids _ _ _ (link h pt)).
        + rewrite take_drop_middle by exact Hl. exact Hsz.
        + rewrite length_alloc_links, length_map. lia.
        + rewrite <- links_alloc_kids by exact Htoks.
          apply Forall_fmap. apply Forall_forall. intros x _. reflexivity. }
    pose proof (insert_grown_size _ (node_entries_ok (S h) t' Hbel)
                  (proj1 (proj2 Hgrown))) as Hsize.
    simpl node_entries in Hsize. rewrite Hlinks in Hsize.
    (* the node that replaces the parent *)
    destruct (nodeReplaceKidN_spec (node_type h) nodes
                (map (node_entries h) ts) d (map (link h) t) idx pg2 fr2)
      as (new' & pg3 & Hrun3 & Hlen3 & Hnew3 & Hget3 & Hold3 & Hnone3).
    { apply Forall2_fmap_r. eapply Forall2_impl; [exact HF|].
      intros dn tn [H1 H2]. apply tok_below in H2 as (H2 & H3 & _).
      split; [now apply rep_node_is in H1|]. split; assumption. }
    { exact Hn. }
    { now rewrite length_map. }
    { exact Hcnt. }
    { unfold BTREE_PAGE_SIZE in *. lia. }
    { lia. }
    { lia. }
    { exact Hnone'. }
    rewrite Hrun3.
    assert (F2 : forall p, p < fr2 -> pg3 !! p = pg2 !! p)
      by exact Hold3.
    assert (F1 : forall p, p < fr -> p <> pt.1 -> p ∉ ptrs h pt.2 ->
                 pg3 !! p = pg !! p).
    { intros p H1 H2 H3. rewrite F2 by lia. rewrite Hfrm' by assumption.
      apply lookup_delete_ne. congruence. }
    assert (Hin_t : forall x, x ∈ ptrs (S h) (take idx t) ->
              x ∈ ptrs (S h) t).
    { intros x Hx. rewrite (ptrs_middle h t idx pt Hpt).
      apply elem_of_app. now left. }
    assert (Hin_d : forall x, x ∈ ptrs (S h) (drop (S idx) t) ->
              x ∈ ptrs (S h) t).
    { intros x Hx. rewrite (ptrs_middle h t idx pt Hpt).
      apply elem_of_app. right. apply elem_of_app. now right. }
    assert (Hnew_elem : forall x, x ∈ ptrs (S h) (alloc_kids h fr2 ts) ->
              fr <= x < fr2 + Z.of_nat (length nodes)
              /\ 0 < x
              /\ (x ∈ ptrs h pt.2 \/ fr <= x)
              /\ (x ∉ ptrs (S h) (take idx t))
              /\ (x ∉ ptrs (S h) (drop (S idx) t))
              \/ (x ∈ ptrs h pt.2 /\ 0 < x < fr2)).
    { intros x Hx. apply alloc_ptrs_elem in Hx as [Hx|Hx].
      - left. split; [lia|]. split; [lia|]. split; [right; lia|].
        split; intros Hin.
        + pose proof (Hb x (Hin_t x Hin)). lia.
        + pose proof (Hb x (Hin_d x Hin)). lia.
      - rewrite Hps in Hx. pose proof (Hb' x Hx) as Hx2.
        destruct (Hsub' x Hx) as [Hx3|Hx3].
        + right. split; [exact Hx3|exact Hx2].
        + left. split; [lia|]. split; [lia|]. split; [right; lia|].
          split; intros Hin.
          * pose proof (Hb x (Hin_t x Hin)). lia.
          * pose proof (Hb x (Hin_d x Hin)). lia. }
    exists new', pg3, (fr2 + Z.of_nat (length nodes)), t'.
    split; [reflexivity|]. split; [exact Hlen3|].
    split.
    { (* the node and its children *)
      split; [rewrite Hlinks; exact Hnew3|].
      unfold t'. apply Forall_app. split; [|apply Forall_app; split].
      - apply (rep_kids_frame pg); [now apply Forall_take|].
        intros p Hp. destruct (HapA p Hp) as (H1 & H2 & _).
        apply F1; [|exact H1|exact H2].
        pose proof (Hb p (Hin_t p Hp)). lia.
      - apply Forall_lookup_2. intros j pt' Hj.
        destruct (lookup_alloc_kids h ts fr2 j pt' Hj) as [Hp1 Hp2].
        destruct (lookup_lt_is_Some_2 nodes j) as [dn Hdn];
          [apply lookup_lt_Some in Hp2; lia|].
        pose proof (Forall2_lookup_lr _ _ _ _ _ _ HF Hdn Hp2) as [Hr _].
        exists dn. split; [rewrite Hp1; now apply Hget3|].
        apply (rep_frame pg2); [|exact Hr].
        intros p Hp. apply F2.
        assert (Hp' : p ∈ ptrs h kt').
        { rewrite <- Hps. apply elem_of_concat. exists (ptrs h pt'.2).
          split; [exact Hp|].
          apply (list_elem_of_fmap_2 (ptrs h)).
          now apply list_elem_of_lookup_2 in Hp2. }
        pose proof (Hb' p Hp'). lia.
      - apply (rep_kids_frame pg); [now apply Forall_drop|].
        intros p Hp. destruct (HapC p Hp) as (H1 & H2).
        apply F1; [|exact H1|exact H2].
        pose proof (Hb p (Hin_d p Hp)). lia. }
    split; [exact Hgrown|].
    split.
    { (* the entries *)
      rewrite (route_put segs Hsn Hs k _ v HB). fold idx.
      rewrite <- Hflat', <- Hfl. simpl. unfold t'.
      rewrite !map_app, !concat_app, flat_alloc_kids.
      unfold segs. now rewrite fmap_take, fmap_drop. }
    split; [lia|].
    split.
    { (* the page numbers are distinct *)
      unfold t'. rewrite !ptrs_app.
      apply NoDup_app. split; [exact HndA|]. split.
      - intros x Hx Hin. destruct (HapA x Hx) as (H1 & H2 & H3).
        apply elem_of_app in Hin as [Hin|Hin]; [|contradiction].
        destruct (Hnew_elem x Hin) as [(_ & _ & _ & H4 & _)|[H4 _]];
          contradiction.
      - apply NoDup_app. split.
        + apply alloc_ptrs_NoDup; rewrite Hps; [exact Hnd'|].
          apply Forall_forall. intros x Hx. pose proof (Hb' x Hx). lia.
        + split; [|exact HndC].
          intros x Hin Hx. destruct (HapC x Hx) as (H1 & H2).
          destruct (Hnew_elem x Hin) as [(_ & _ & _ & _ & H4)|[H4 _]];
            contradiction. }
    split.
    { apply Forall_forall. intros x Hx. unfold t' in Hx.
      rewrite !ptrs_app, !elem_of_app in Hx.
      destruct Hx as [Hx|[Hx|Hx]].
      - pose proof (Hb x (Hin_t x Hx)). lia.
      - destruct (Hnew_elem x Hx) as [(H1 & H2 & _)|[_ H1]]; lia.
      - pose proof (Hb x (Hin_d x Hx)). lia. }
    split.
    { intros x Hx. unfold t' in Hx.
      rewrite !ptrs_app, !elem_of_app in Hx.
      destruct Hx as [Hx|[Hx|Hx]].
      - left. now apply Hin_t.
      - destruct (Hnew_elem x Hx) as [(H1 & _)|[H1 _]]; [right; lia|].
        left. apply (elem_of_ptrs h t pt);
          [now apply list_elem_of_lookup_2 in Hpt|now right].
      - left. now apply Hin_d. }
    split; [exact Hnone3|].
    intros p Hp Hnot. apply F1; [exact Hp| |].
    + intros ->. apply Hnot. apply (elem_of_ptrs h t pt);
        [now apply list_elem_of_lookup_2 in Hpt|now left].
    + intros Hin. apply Hnot. apply (elem_of_ptrs h t pt);
        [now apply list_elem_of_lookup_2 in Hpt|now right].
Qed.

Lemma alloc_kids_rep (pg2 pg3 : gmap Z BNode) (h : nat) (nodes : list BNode)
    (ts : list (tree h)) (fr2 : Z) :
  Forall2 (fun dn tn => rep pg2 h tn dn /\ tok h tn) nodes ts ->
  (forall (j : nat) (dn : BNode), nodes !! j = Some dn ->
     pg3 !! (fr2 + Z.of_nat j) = Some dn) ->
  (forall p, p ∈ concat (map (ptrs h) ts) -> pg3 !! p = pg2 !! p) ->
  Forall (fun pt => exists d', pg3 !! pt.1 = Some d' /\ rep pg3 h pt.2 d')
    (alloc_kids h fr2 ts).
Proof.
  intros HF Hget Hfrm. pose proof (Forall2_length _ _ _ HF) as Hlen.
  apply Forall_lookup_2. intros j pt' Hj.
  destruct (lookup_alloc_kids h ts fr2 j pt' Hj) as [Hp1 Hp2].
  destruct (lookup_lt_is_Some_2 nodes j) as [dn Hdn];
    [apply lookup_lt_Some in Hp2; lia|].
  pose proof (Forall2_lookup_lr _ _ _ _ _ _ HF Hdn Hp2) as [Hr _].
  exists dn. split; [rewrite Hp1; now apply Hget|].
  apply (rep_frame pg2); [|exact Hr].
  intros p Hp. apply Hfrm. apply elem_of_concat. exists (ptrs h pt'.2).
  split; [exact Hp|].
  apply (list_elem_of_fmap_2 (ptrs h)).
  now apply list_elem_of_lookup_2 in Hp2.
Qed.

Lemma checkLimit_ok (k v : list byte) :
  checkLimit k v = None <-> entry_ok (0, k, v).
Proof.
  unfold checkLimit, entry_ok, e_key, e_val. cbn [fst snd].
  destruct (Z.gtb_spec (blen k) BTREE_MAX_KEY_SIZE);
    [split; [discriminate|intros [? _]; lia]|].
  destruct (Z.gtb_spec (blen v) BTREE_MAX_VAL_SIZE);
    [split; [discriminate|intros [_ ?]; lia]|].
  split; [intros _; split; lia|reflexivity].
Qed.

(** The first leaf: the entry of the empty key, then the entry
    inserted. *)
Lemma root_leaf_is (k v : list byte) :
  entry_ok (0, k, v) ->
  exists d0 d1 d2 : BNode,
    setHeader (make BTREE_PAGE_SIZE) BNODE_LEAF 2 = Ok d0
    /\ nodeAppendKV d0 0 0 [] [] = Ok d1
    /\ nodeAppendKV d1 1 0 k v = Ok d2
    /\ node_is d2 BNODE_LEAF [(0, [], []); (0, k, v)]
    /\ nsize [(0, [], []); (0, k, v)] <= BTREE_PAGE_SIZE.
Proof.
  intros [Hk Hv]. unfold e_key, e_val in Hk, Hv. cbn [fst snd] in Hk, Hv.
  unfold BTREE_MAX_KEY_SIZE, BTREE_MAX_VAL_SIZE in *.
  pose proof (blen_nonneg k). pose proof (blen_nonneg v).
  destruct (setHeader_rep (make BTREE_PAGE_SIZE) BNODE_LEAF 2)
    as (d0 & Hr0 & L0 & R0);
    [reflexivity|lia|vm_compute; discriminate|vm_compute; split; congruence|].
  rewrite blen_make in L0 by (vm_compute; discriminate).
  unfold BTREE_PAGE_SIZE in *.
  destruct (nodeAppendKV_at d0 _ _ _ 0 0 [] [] R0) as (d1 & Hr1 & L1 & R1);
    [reflexivity|lia|lia|rewrite L0; vm_compute; discriminate|].
  destruct (nodeAppendKV_at d1 _ _ _ 1 0 k v R1)
    as (d2 & Hr2 & L2 & R2);
    [reflexivity|lia|lia
    |rewrite L1, L0; cbn [app kvsize]; change (esz (0, [], [])) with 4; lia|].
  exists d0, d1, d2. split; [exact Hr0|]. split; [exact Hr1|].
  split; [exact Hr2|]. split; [exact R2|].
  unfold nsize. cbn [length kvsize].
  change (esz (0, [], [])) with 4. unfold esz, e_key, e_val. cbn [fst snd].
  lia.
Qed.

Lemma in_order_first (k v : list byte) :
  in_order [(0, [], []); (0, k, v)].
Proof.
  split; [|reflexivity]. apply sorted1_intro.
  - intros i j a b Hij _ Hb. destruct j as [|[|j]]; [lia|lia|].
    inversion Hb.
  - intros a b Ha Hb. injection Ha as <-. apply key_le_nil.
Qed.

Lemma in_order_put (es : list entry) (k v : list byte) :
  es <> [] -> in_order es -> in_order (leaf_put es k v).
Proof.
  intros Hne [Hs H0].
  assert (Hlo : forall k0, keys es !! 0%nat = Some k0 -> key_le k0 k).
  { intros k0 Hk0. rewrite H0 in Hk0. injection Hk0 as <-.
    apply key_le_nil. }
  split.
  - now apply leaf_put_sorted.
  - rewrite <- H0. now apply leaf_put_head.
Qed.

Lemma Insert_body_spec (fuel h : nat) (tr : BTree) (es : list entry)
    (k v : list byte) :
  contents h tr es ->
  entry_ok (0, k, v) ->
  (h < fuel)%nat ->
  fresh (pager tr) + 3 * Z.of_nat h + 4 <= 18446744073709551616 ->
  exists (h' : nat) (r : Z) (s : Pager),
    Insert_body fuel (root tr) k v (pager tr) = Ok (r, s)
    /\ contents h' (mkBTree r s) (put es k v)
    /\ (h <= h' <= S h)%nat
    /\ fresh (pager tr) <= fresh s <= fresh (pager tr) + 3 * Z.of_nat h + 4.
Proof.
  destruct tr as [r [pg fr]]. cbn [root pager fresh pages].
  intros [[Hfr Hpg] Hc] Hkv Hfuel Hmax. cbn [root pager fresh pages] in *.
  destruct Hc as [(-> & -> & ->)|Hh].
  - (* the empty tree *)
    destruct (root_leaf_is k v Hkv) as (d0 & d1 & d2 & H0 & H1 & H2 & Hd & Hsz).
    unfold Insert_body. change (0 =? 0) with true. cbn iota.
    rewrite (sbind_lift _ _ _ _ H0), (sbind_lift _ _ _ _ H1),
      (sbind_lift _ _ _ _ H2).
    rewrite (tree_new_spec pg fr d2 _ _ Hd Hsz (Hpg fr ltac:(lia))).
    exists 0%nat, fr, (mkPager (<[fr := d2]> pg) (fr + 1)).
    split; [reflexivity|]. split; [|split; [lia|simpl; lia]].
    split.
    + split; [simpl; lia|]. intros p Hp. simpl in *.
      rewrite lookup_insert_ne by lia. apply Hpg. lia.
    + right. exists [(0, [], []); (0, k, v)], d2. simpl.
      split; [apply lookup_insert_eq|]. split; [exact Hd|].
      split.
      { split; [discriminate|]. split; [exact Hsz|].
        repeat constructor; try exact (proj1 Hkv); try exact (proj2 Hkv);
          vm_compute; discriminate. }
      split; [reflexivity|]. split; [apply in_order_first|].
      split; [repeat constructor; intros H; inversion H|].
      repeat constructor; lia.
  - (* a tree *)
    destruct Hh as (t & d & Hd & Hrep & Htok & Hflat & Hord & Hnd & Hb).
    cbn [root pager fresh pages] in *.
    apply NoDup_cons in Hnd as [Hr Hnd].
    apply Forall_cons in Hb as [Hrb Hb].
    pose proof (flat_nonempty h t Htok) as Hne. rewrite Hflat in Hne.
    unfold Insert_body.
    replace (r =? 0) with false by (symmetry; apply Z.eqb_neq; lia).
    cbn iota.
    rewrite (sbind_Ok _ _ _ _ _ (tree_get_spec pg fr _ _ Hd)).
    rewrite (sbind_Ok _ _ _ _ _ (tree_del_spec pg fr _ _ Hd)).
    destruct (treeInsert_spec k v Hkv h fuel t d (delete r pg) fr)
      as (d' & pg2 & fr2 & t' & Hrun & Hlen' & Hrep' & Hgr' & Hflat'
          & Hfr2 & Hnd' & Hb' & Hsub' & Hnone' & Hfrm').
    { apply (rep_frame pg); [|exact Hrep].
      intros p Hp. apply lookup_delete_ne. intros <-. contradiction. }
    { exact Htok. }
    { rewrite Hflat. exact (proj1 Hord). }
    { exact Hnd. }
    { exact Hb. }
    { exact Hfr. }
    { intros p Hp. destruct (decide (p = r)) as [->|N].
      - apply lookup_delete_eq.
      - rewrite lookup_delete_ne by congruence. now apply Hpg. }
    { lia. }
    { exact Hfuel. }
    rewrite (sbind_Ok _ _ _ _ _ Hrun).
    destruct (split_tree pg2 h t' d' Hrep' Hgr')
      as (nodes & ts & Hsp & Hcnt & HF & Hfl & Hps);
      [unfold BTREE_PAGE_SIZE in *; lia|].
    rewrite (sbind_lift _ _ _ _ Hsp).
    pose proof (Forall2_length _ _ _ HF) as Hlen2.
    pose proof (Forall2_right _ _ _ _ HF) as Htoks.
    rewrite Forall_forall in Hb'.
    assert (Hput : put es k v = leaf_put es k v)
      by (destruct es; [contradiction|reflexivity]).
    rewrite Hput.
    assert (Hord' : in_order (leaf_put es k v)) by now apply in_order_put.
    destruct (Z.gtb_spec (Z.of_nat (length nodes)) 1) as [Hmany|Hone].
    + (* the root was split: a new root over the parts *)
      set (parts := map (node_entries h) ts).
      assert (HFp : Forall2 (fun dn p => node_is dn (node_type h) p
                               /\ nsize p <= BTREE_PAGE_SIZE /\ p <> [])
                      nodes parts).
      { apply Forall2_fmap_r. eapply Forall2_impl; [exact HF|].
        intros dn tn [H1 H2]. apply tok_below in H2 as (H2 & H3 & _).
        split; [now apply rep_node_is in H1|]. split; assumption. }
      assert (Hlinks : map (link h) (alloc_kids h fr2 ts)
                       = alloc_links fr2 parts)
        by now apply links_alloc_kids.
      assert (Hbel : Forall (fun pt => tok h pt.2) (alloc_kids h fr2 ts))
        by now apply tok_alloc_kids.
      pose proof (kids_size (alloc_links fr2 parts)) as Hks.
      rewrite <- Hlinks in Hks.
      specialize (Hks (node_entries_ok (S h) _ Hbel)).
      rewrite Hlinks in Hks.
      assert (Hvals : Forall (fun e => e_val e = []) (alloc_links fr2 parts)).
      { rewrite <- Hlinks. apply Forall_fmap, Forall_forall.
        intros x _. reflexivity. }
      specialize (Hks Hvals).
      rewrite length_alloc_links in Hks. unfold parts in Hks.
      rewrite length_map in Hks. fold parts in Hks.
      unfold nsize in Hks. rewrite length_alloc_links in Hks.
      unfold parts in Hks at 1. rewrite length_map in Hks.
      destruct (setHeader_rep (make BTREE_PAGE_SIZE) BNODE_NODE
                  (Z.of_nat (length nodes)))
        as (d0 & Hr0 & L0 & R0);
        [reflexivity|lia|rewrite blen_make by (vm_compute; discriminate);
                         unfold BTREE_PAGE_SIZE; lia
        |vm_compute; split; congruence|].
      rewrite blen_make in L0 by (vm_compute; discriminate).
      rewrite (sbind_lift _ _ _ _ Hr0).
      destruct (appendKids_spec (node_type h) nodes parts HFp d0
                  (Z.of_nat (length nodes)) [] 0 0 pg2 fr2 R0)
        as (d3 & pg3 & Hr3 & L3 & R3 & Hget3 & Hold3 & Hnone3).
      { reflexivity. }
      { simpl. lia. }
      { cbn [kvsize]. unfold BTREE_PAGE_SIZE in *. lia. }
      { lia. }
      { lia. }
      { exact Hnone'. }
      cbn [app] in R3.
      assert (Hd3 : node_is d3 BNODE_NODE (alloc_links fr2 parts)).
      { unfold node_is. rewrite length_alloc_links. unfold parts.
        rewrite length_map, <- Hlen2. exact R3. }
      change (Z.of_nat 0) with 0 in Hr3.
      unfold sbind at 1. rewrite appendRootKids_eq, Hr3.
      set (fr3 := fr2 + Z.of_nat (length nodes)) in *.
      rewrite (tree_new_spec pg3 fr3 d3 _ _ Hd3);
        [|unfold nsize; rewrite length_alloc_links; unfold parts at 1;
          rewrite length_map; unfold BTREE_PAGE_SIZE; lia
         |apply Hnone3; lia].
      exists (S h), fr3, (mkPager (<[fr3 := d3]> pg3) (fr3 + 1)).
      split; [reflexivity|]. split; [|split; [lia|simpl; lia]].
      split.
      { split; [simpl; lia|]. intros p Hp. simpl in *.
        rewrite lookup_insert_ne by lia. apply Hnone3. lia. }
      right. exists (alloc_kids h fr2 ts), d3. simpl root. simpl pager.
      cbn [pages fresh].
      split; [apply lookup_insert_eq|].
      split.
      { split; [rewrite Hlinks; exact Hd3|].
        apply (alloc_kids_rep pg2 _ h nodes ts fr2 HF).
        - intros j dn Hj. pose proof (lookup_lt_Some _ _ _ Hj).
          rewrite lookup_insert_ne by lia. now apply Hget3.
        - intros p Hp. rewrite Hps in Hp. pose proof (Hb' p Hp).
          rewrite lookup_insert_ne by lia. apply Hold3. lia. }
      split.
      { split; [|split; [|exact Hbel]].
        - intros E. apply (f_equal length) in E.
          rewrite length_alloc_kids in E. simpl in E. lia.
        - rewrite Hlinks. unfold nsize. rewrite length_alloc_links.
          unfold parts at 1. rewrite length_map.
          unfold BTREE_PAGE_SIZE. lia. }
      split.
      { simpl. rewrite flat_alloc_kids, Hfl, Hflat', Hflat. reflexivity. }
      split; [exact Hord'|].
      split.
      { apply NoDup_cons. split.
        - intros Hin. apply alloc_ptrs_elem in Hin as [Hin|Hin]; [lia|].
          rewrite Hps in Hin. pose proof (Hb' _ Hin). lia.
        - apply alloc_ptrs_NoDup; rewrite Hps; [exact Hnd'|].
          apply Forall_forall. intros x Hx. pose proof (Hb' x Hx). lia. }
      apply Forall_cons. split; [lia|].
      apply Forall_forall. intros x Hx.
      apply alloc_ptrs_elem in Hx as [Hx|Hx]; [lia|].
      rewrite Hps in Hx. pose proof (Hb' x Hx). lia.
    + (* one node: it is the new root *)
      destruct nodes as [|n0 [|n1 nodes]]; [simpl in Hcnt; lia|
                                           |simpl in Hone; lia].
      destruct ts as [|t0 [|t1 ts]]; try discriminate Hlen2.
      apply Forall2_cons_1 in HF as [[Hr0 Ht0] _].
      simpl in Hfl, Hps. rewrite app_nil_r in Hfl, Hps.
      pose proof (tok_below h t0) as [Hb0 _].
      destruct (Hb0 Ht0) as (_ & Hsz0 & _).
      rewrite (tree_new_spec pg2 fr2 n0 _ _ (rep_node_is _ _ _ _ Hr0) Hsz0)
        by (apply Hnone'; lia).
      exists h, fr2, (mkPager (<[fr2 := n0]> pg2) (fr2 + 1)).
      split; [reflexivity|]. split; [|split; [lia|simpl; lia]].
      split.
      { split; [simpl; lia|]. intros p Hp. simpl in *.
        rewrite lookup_insert_ne by lia. apply Hnone'. lia. }
      right. exists t0, n0. simpl root. simpl pager. cbn [pages fresh].
      split; [apply lookup_insert_eq|].
      split.
      { apply (rep_frame pg2); [|exact Hr0].
        intros p Hp. rewrite Hps in Hp. pose proof (Hb' p Hp).
        apply lookup_insert_ne. lia. }
      split; [exact Ht0|].
      split; [rewrite Hfl, Hflat', Hflat; reflexivity|].
      split; [exact Hord'|].
      rewrite Hps. split.
      { apply NoDup_cons. split; [|exact Hnd'].
        intros Hin. pose proof (Hb' _ Hin). lia. }
      apply Forall_cons. split; [lia|].
      apply Forall_forall. intros x Hx. pose proof (Hb' x Hx). lia.
Qed.

(** ** Insert and Get on the whole tree *)

Lemma Get_spec (fuel h : nat) (tr : BTree) (es : list entry)
    (q : list byte) :
  contents h tr es -> (h < fuel)%nat ->
  Get fuel tr q = Ok (leaf_get es q).
Proof.
  destruct tr as [r [pg fr]]. intros [_ Hc] Hfuel.
  cbn [root pager fresh pages] in *. unfold Get. cbn [root pager].
  destruct Hc as [(-> & -> & ->)|Hh]; [reflexivity|].
  destruct Hh as (t & d & Hd & Hrep & Htok & Hflat & Hord & Hnd & Hb).
  cbn [root pager fresh pages] in *.
  apply Forall_cons in Hb as [Hrb _].
  replace (r =? 0) with false by (symmetry; apply Z.eqb_neq; lia).
  rewrite (sbind_Ok _ _ _ _ _ (tree_get_spec pg fr _ _ Hd)).
  rewrite (Get_loop_spec pg fr q h fuel t d Hrep Htok); [| |exact Hfuel].
  - now rewrite Hflat.
  - rewrite Hflat. exact (proj1 Hord).
Qed.

Lemma Insert_spec (fuel h : nat) (tr : BTree) (es : list entry)
    (k v : list byte) :
  contents h tr es ->
  checkLimit k v = None ->
  (h < fuel)%nat ->
  fresh (pager tr) + 3 * Z.of_nat h + 4 <= 18446744073709551616 ->
  exists (h' : nat) (tr' : BTree),
    Insert fuel tr k v = Ok (None, tr')
    /\ contents h' tr' (put es k v)
    /\ (h <= h' <= S h)%nat
    /\ fresh (pager tr) <= fresh (pager tr')
       <= fresh (pager tr) + 3 * Z.of_nat h + 4.
Proof.
  intros Hc Hlim Hfuel Hmax.
  destruct (Insert_body_spec fuel h tr es k v Hc
              (proj1 (checkLimit_ok k v) Hlim) Hfuel Hmax)
    as (h' & r & s & Hrun & Hc' & Hh & Hfr).
  exists h', (mkBTree r s). unfold Insert. rewrite Hlim, Hrun.
  split; [reflexivity|]. split; [exact Hc'|]. split; assumption.
Qed.

Lemma lookupLE_first (k : list byte) : lookupLE [[]; k] k = 1%nat.
Proof.
  unfold lookupLE. simpl. rewrite cmp_refl. reflexivity.
Qed.

Lemma put_idem (es : list entry) (k v : list byte) :
  es = [] \/ in_order es -> put (put es k v) k v = put es k v.
Proof.
  intros H. destruct es as [|e es].
  - simpl. unfold leaf_put, keys. simpl map.
    change (map e_key [(0, [], []); (0, k, v)]) with [[]; k].
    rewrite lookupLE_first. simpl.
    unfold e_key at 1. cbn [fst snd].
    now rewrite bool_decide_eq_true_2.
  - destruct H as [H|[Hs H0]]; [discriminate|].
    assert (Hne : e :: es <> []) by discriminate.
    assert (Hlo : forall k0, keys (e :: es) !! 0%nat = Some k0 -> key_le k0 k).
    { intros k0 Hk0. rewrite H0 in Hk0. injection Hk0 as <-.
      apply key_le_nil. }
    pose proof (leaf_put_nonempty (e :: es) k v Hne) as Hne'.
    cbn [put].
    destruct (leaf_put (e :: es) k v) as [|e' es'] eqn:E; [contradiction|].
    cbn [put]. rewrite <- E. now apply leaf_put_idem.
Qed.

Lemma get_put_same (es : list entry) (k v : list byte) :
  es = [] \/ in_order es -> leaf_get (put es k v) k = Some v.
Proof.
  intros H. destruct es as [|e es].
  - simpl. unfold leaf_get.
    change (keys [(0, [], []); (0, k, v)]) with [[]; k].
    rewrite lookupLE_first. simpl. unfold e_key, e_val. cbn [fst snd].
    now rewrite bool_decide_eq_true_2.
  - destruct H as [H|[Hs H0]]; [discriminate|]. cbn [put].
    apply leaf_get_put_same; [discriminate|exact Hs|].
    intros k0 Hk0. rewrite H0 in Hk0. injection Hk0 as <-.
    apply key_le_nil.
Qed.

Lemma get_put_other (es : list entry) (k v q : list byte) :
  in_order es -> q <> k -> leaf_get (put es k v) q = leaf_get es q.
Proof.
  intros [Hs H0] Hq. destruct es as [|e es]; [discriminate|]. cbn [put].
  apply leaf_get_put_other; [discriminate|exact Hs| |exact Hq].
  intros k0 Hk0. rewrite H0 in Hk0. injection Hk0 as <-.
  apply key_le_nil.
Qed.

Lemma contents_order (h : nat) (tr : BTree) (es : list entry) :
  contents h tr es -> es = [] \/ in_order es.
Proof.
  intros [_ [(_ & _ & ->)|(t & d & _ & _ & _ & _ & Hord & _)]];
    [now left|now right].
Qed.

(** X1. What was inserted is found, in a tree of any height, and the
    other keys are as they were (the empty key apart, which the first
    insertion puts into the tree). *)
Lemma Insert_then_Get (fuel h : nat) (tr : BTree) (es : list entry)
    (k v : list byte) :
  contents h tr es ->
  checkLimit k v = None ->
  (h + 2 <= fuel)%nat ->
  fresh (pager tr) + 3 * Z.of_nat h + 4 <= 18446744073709551616 ->
  exists tr' : BTree,
    Insert fuel tr k v = Ok (None, tr')
    /\ Get fuel tr' k = Ok (Some v)
    /\ (forall q, q <> k -> q <> [] -> Get fuel tr' q = Get fuel tr q).
Proof.
  intros Hc Hlim Hfuel Hmax.
  destruct (Insert_spec fuel h tr es k v Hc Hlim ltac:(lia) Hmax)
    as (h' & tr' & Hrun & Hc' & Hh & _).
  exists tr'. split; [exact Hrun|].
  pose proof (contents_order _ _ _ Hc) as Hord. split.
  - rewrite (Get_spec fuel h' tr' _ k Hc') by lia.
    now rewrite get_put_same.
  - intros q Hq Hq0.
    rewrite (Get_spec fuel h' tr' _ q Hc') by lia.
    rewrite (Get_spec fuel h tr _ q Hc) by lia.
    destruct Hord as [->|Hord]; [|now rewrite get_put_other].
    simpl. unfold leaf_get.
    change (keys [(0, [], []); (0, k, v)]) with [[]; k].
    unfold lookupLE. simpl.
    destruct (Z.leb_spec (bytes_Compare k q) 0) as [Hle|Hgt];
      destruct (Z.geb_spec (bytes_Compare k q) 0) as [Hge|Hlt]; simpl;
      unfold e_key; cbn [fst snd].
    + assert (k = q) by (apply cmp_eq; lia). congruence.
    + rewrite bool_decide_eq_false_2 by congruence. reflexivity.
    + now rewrite bool_decide_eq_false_2 by congruence.
    + lia.
Qed.

(** C9. For every tree state (the empty tree or a well-formed tree of any
    height), Insert(k, v) applied twice in succession returns the same
    error as once and leaves a tree with exactly the key/value contents
    of the tree after the first Insert: the same entries in the leaves,
    and the same answer of Get for every key. *)
Theorem Insert_twice_same_contents (fuel h : nat) (tr : BTree)
    (es : list entry) (k v : list byte) :
  contents h tr es ->
  (h + 3 <= fuel)%nat ->
  fresh (pager tr) + 6 * Z.of_nat h + 11 <= 18446744073709551616 ->
  exists (err : option string) (t1 t2 : BTree) (h1 h2 : nat)
         (es1 : list entry),
    Insert fuel tr k v = Ok (err, t1)
    /\ Insert fuel t1 k v = Ok (err, t2)
    /\ contents h1 t1 es1
    /\ contents h2 t2 es1
    /\ forall q : list byte,
         Get fuel t1 q = Ok (leaf_get es1 q)
         /\ Get fuel t2 q = Ok (leaf_get es1 q).
Proof.
  intros Hc Hfuel Hmax.
  destruct (checkLimit k v) as [err|] eqn:Hlim.
  - (* the limits are exceeded: both calls return the error *)
    exists (Some err), tr, tr, h, h, es. unfold Insert. rewrite Hlim.
    split; [reflexivity|]. split; [reflexivity|].
    split; [exact Hc|]. split; [exact Hc|].
    intros q. split; apply (Get_spec fuel h); (exact Hc || lia).
  - destruct (Insert_spec fuel h tr es k v Hc Hlim ltac:(lia) ltac:(lia))
      as (h1 & t1 & Hrun1 & Hc1 & Hh1 & Hfr1).
    destruct (Insert_spec fuel h1 t1 _ k v Hc1 Hlim ltac:(lia) ltac:(lia))
      as (h2 & t2 & Hrun2 & Hc2 & Hh2 & Hfr2).
    rewrite (put_idem es k v (contents_order _ _ _ Hc)) in Hc2.
    exists None, t1, t2, h1, h2, (put es k v).
    split; [exact Hrun1|]. split; [exact Hrun2|].
    split; [exact Hc1|]. split; [exact Hc2|].
    intros q. split.
    + apply (Get_spec fuel h1); [exact Hc1|lia].
    + apply (Get_spec fuel h2); [exact Hc2|lia].
Qed.

Lemma contents_emptyTree : contents 0 emptyTree [].
Proof.
  split.
  - split; [reflexivity|]. intros p _. apply lookup_empty.
  - left. repeat split.
Qed.

Lemma Insert_twice_same_contents_witness :
  contents 0 emptyTree []
  /\ exists (err : option string) (t1 t2 : BTree) (h1 h2 : nat)
            (es1 : list entry),
       Insert 3 emptyTree [x61] [x31] = Ok (err, t1)
       /\ Insert 3 t1 [x61] [x31] = Ok (err, t2)
       /\ contents h1 t1 es1
       /\ contents h2 t2 es1
       /\ forall q : list byte,
            Get 3 t1 q = Ok (leaf_get es1 q)
            /\ Get 3 t2 q = Ok (leaf_get es1 q).
Proof.
  split; [exact contents_emptyTree|].
  apply (Insert_twice_same_contents 3 0 emptyTree [] [x61] [x31]).
  - exact contents_emptyTree.
  - simpl. lia.
  - simpl. lia.
Defined.

(** ** A tree of height one

    The tree of [twoLeaves] is one of the states of [contents], with an
    internal node as its root. *)

Lemma rootType_contents (h : nat) (tr : BTree) (es : list entry) :
  contents h tr es -> es <> [] -> rootType tr = Ok (node_type h).
Proof.
  destruct tr as [r [pg fr]].
  intros [_ [(_ & _ & ->)|Hh]] Hne; [contradiction|].
  destruct Hh as (t & d & Hd & Hrep & _). cbn [root pager pages] in *.
  unfold rootType. cbn [root pager].
  rewrite (sbind_Ok _ _ _ _ _ (tree_get_spec pg fr _ _ Hd)).
  unfold lift. now rewrite (rep_btype _ _ _ _ (rep_node_is _ _ _ _ Hrep)).
Qed.

Lemma put_nonempty (es : list entry) (k v : list byte) : put es k v <> [].
Proof.
  destruct es as [|e es]; [discriminate|]. cbn [put].
  apply leaf_put_nonempty. discriminate.
Qed.

Lemma twoLeaves_contents :
  exists (t : BTree) (es : list entry),
    twoLeaves = Ok t /\ contents 1 t es.
Proof.
  destruct (Insert_spec 4 0 emptyTree [] (bigKey x0a) bigVal
              contents_emptyTree)
    as (h1 & t1 & Hrun1 & Hc1 & Hh1 & Hfr1);
    [vm_compute; reflexivity|lia|simpl; lia|].
  assert (E1 : (let* r := Insert 4 emptyTree (bigKey x0a) bigVal in
                rootType r.2) = Ok BNODE_LEAF) by (vm_compute; reflexivity).
  rewrite Hrun1 in E1. cbn [rbind snd] in E1.
  rewrite (rootType_contents h1 t1 _ Hc1) in E1 by discriminate.
  assert (h1 = 0%nat) as -> by (destruct h1; [reflexivity|discriminate]).
  simpl in Hfr1.
  destruct (Insert_spec 4 0 t1 _ (bigKey x14) bigVal Hc1)
    as (h2 & t2 & Hrun2 & Hc2 & Hh2 & Hfr2);
    [vm_compute; reflexivity|lia|simpl; lia|].
  assert (E2 : (let* r1 := Insert 4 emptyTree (bigKey x0a) bigVal in
                let* r2 := Insert 4 r1.2 (bigKey x14) bigVal in
                rootType r2.2) = Ok BNODE_NODE) by (vm_compute; reflexivity).
  rewrite Hrun1 in E2. cbn [rbind snd] in E2.
  rewrite Hrun2 in E2. cbn [rbind snd] in E2.
  rewrite (rootType_contents h2 t2 _ Hc2) in E2
    by apply put_nonempty.
  assert (h2 = 1%nat) as ->.
  { destruct h2 as [|[|h2]]; [discriminate|reflexivity|lia]. }
  exists t2, (put (put [] (bigKey x0a) bigVal) (bigKey x14) bigVal).
  split; [|exact Hc2].
  unfold twoLeaves, InsertAll. cbn [fold_left].
  cbn [rbind]. rewrite Hrun1. cbn [rbind snd]. rewrite Hrun2. reflexivity.
Qed.

Lemma twoLeavesTree_contents : contents 1 twoLeavesTree twoLeavesEntries.
Proof.
  destruct (Insert_spec 4 0 emptyTree [] (bigKey x0a) bigVal
              contents_emptyTree)
    as (h1 & t1 & Hrun1 & Hc1 & Hh1 & Hfr1);
    [vm_compute; reflexivity|lia|simpl; lia|].
  assert (E1 : (let* r := Insert 4 emptyTree (bigKey x0a) bigVal in
                rootType r.2) = Ok BNODE_LEAF) by (vm_compute; reflexivity).
  rewrite Hrun1 in E1. cbn [rbind snd] in E1.
  rewrite (rootType_contents h1 t1 _ Hc1) in E1 by discriminate.
  assert (h1 = 0%nat) as -> by (destruct h1; [reflexivity|discriminate]).
  simpl in Hfr1.
  destruct (Insert_spec 4 0 t1 _ (bigKey x14) bigVal Hc1)
    as (h2 & t2 & Hrun2 & Hc2 & Hh2 & Hfr2);
    [vm_compute; reflexivity|lia|simpl; lia|].
  assert (E2 : (let* r1 := Insert 4 emptyTree (bigKey x0a) bigVal in
                let* r2 := Insert 4 r1.2 (bigKey x14) bigVal in
                rootType r2.2) = Ok BNODE_NODE) by (vm_compute; reflexivity).
  rewrite Hrun1 in E2. cbn [rbind snd] in E2.
  rewrite Hrun2 in E2. cbn [rbind snd] in E2.
  rewrite (rootType_contents h2 t2 _ Hc2) in E2 by apply put_nonempty.
  assert (h2 = 1%nat) as ->.
  { destruct h2 as [|[|h2]]; [discriminate|reflexivity|lia]. }
  assert (Et : twoLeavesTree = t2).
  { unfold twoLeavesTree, twoLeaves, InsertAll. cbn [fold_left].
    cbn [rbind]. rewrite Hrun1. cbn [rbind snd]. rewrite Hrun2.
    reflexivity. }
  assert (Ee : put (put [] (bigKey x0a) bigVal) (bigKey x14) bigVal
               = twoLeavesEntries) by (vm_compute; reflexivity).
  rewrite Et, <- Ee. exact Hc2.
Qed.

Lemma twoLeavesTree_fresh : fresh (pager twoLeavesTree) = 5.
Proof. vm_compute. reflexivity. Qed.

Lemma oneKeyTree_contents : contents 0 oneKeyTree oneKeyEntries.
Proof.
  destruct (Insert_spec 2 0 emptyTree [] [x61] [x31] contents_emptyTree)
    as (h1 & t1 & Hrun1 & Hc1 & Hh1 & Hfr1);
    [reflexivity|lia|simpl; lia|].
  assert (E1 : (let* r := Insert 2 emptyTree [x61] [x31] in
                rootType r.2) = Ok BNODE_LEAF) by (vm_compute; reflexivity).
  rewrite Hrun1 in E1. cbn [rbind snd] in E1.
  rewrite (rootType_contents h1 t1 _ Hc1) in E1 by discriminate.
  assert (h1 = 0%nat) as -> by (destruct h1; [reflexivity|discriminate]).
  unfold oneKeyTree. rewrite Hrun1. exact Hc1.
Qed.

Lemma oneKeyTree_fresh : fresh (pager oneKeyTree) = 2.
Proof. vm_compute. reflexivity. Qed.

(** * Further properties of the tree *)

Lemma Insert_then_Get_witness :
  contents 1 twoLeavesTree twoLeavesEntries
  /\ checkLimit [x62] [x31] = None
  /\ exists tr' : BTree,
       Insert 4 twoLeavesTree [x62] [x31] = Ok (None, tr')
       /\ Get 4 tr' [x62] = Ok (Some [x31])
       /\ (forall q, q <> [x62] -> q <> [] ->
             Get 4 tr' q = Get 4 twoLeavesTree q).
Proof.
  split; [exact twoLeavesTree_contents|]. split; [reflexivity|].
  apply (Insert_then_Get 4 1 twoLeavesTree twoLeavesEntries).
  - exact twoLeavesTree_contents.
  - reflexivity.
  - lia.
  - rewrite twoLeavesTree_fresh. lia.
Defined.

(** ** What Insert returns *)

(** X2. On a well-formed tree Insert does not panic. With a key of more
    than 1000 bytes or a value of more than 3000 bytes it returns the
    error of checkLimit and the tree as it was; otherwise it returns nil
    and a well-formed tree whose leaves hold the old entries with the new
    one put in its place in key order, and whose height is the old one or
    one more. *)
Theorem Insert_outcome (fuel h : nat) (tr : BTree) (es : list entry)
    (k v : list byte) :
  contents h tr es ->
  (h < fuel)%nat ->
  fresh (pager tr) + 3 * Z.of_nat h + 4 <= 18446744073709551616 ->
  (blen k > BTREE_MAX_KEY_SIZE ->
     Insert fuel tr k v = Ok (Some "key too large"%string, tr))
  /\ (blen k <= BTREE_MAX_KEY_SIZE -> blen v > BTREE_MAX_VAL_SIZE ->
        Insert fuel tr k v = Ok (Some "value too large"%string, tr))
  /\ (blen k <= BTREE_MAX_KEY_SIZE -> blen v <= BTREE_MAX_VAL_SIZE ->
        exists (h' : nat) (tr' : BTree),
          Insert fuel tr k v = Ok (None, tr')
          /\ contents h' tr' (put es k v)
          /\ (h <= h' <= S h)%nat).
Proof.
  intros Hc Hfuel Hmax. split; [|split].
  - intros Hk. unfold Insert, checkLimit.
    destruct (Z.gtb_spec (blen k) BTREE_MAX_KEY_SIZE); [reflexivity|lia].
  - intros Hk Hv. unfold Insert, checkLimit.
    destruct (Z.gtb_spec (blen k) BTREE_MAX_KEY_SIZE); [lia|].
    destruct (Z.gtb_spec (blen v) BTREE_MAX_VAL_SIZE); [reflexivity|lia].
  - intros Hk Hv.
    assert (Hlim : checkLimit k v = None).
    { apply checkLimit_ok. split; assumption. }
    destruct (Insert_spec fuel h tr es k v Hc Hlim Hfuel Hmax)
      as (h' & tr' & Hrun & Hc' & Hh & _).
    exists h', tr'. split; [exact Hrun|]. split; assumption.
Qed.

Lemma Insert_outcome_witness :
  contents 1 twoLeavesTree twoLeavesEntries
  /\ (blen (bigKey x62) > BTREE_MAX_KEY_SIZE ->
        Insert 2 twoLeavesTree (bigKey x62) [x31]
        = Ok (Some "key too large"%string, twoLeavesTree))
  /\ (blen (bigKey x62) <= BTREE_MAX_KEY_SIZE ->
      blen [x31] > BTREE_MAX_VAL_SIZE ->
        Insert 2 twoLeavesTree (bigKey x62) [x31]
        = Ok (Some "value too large"%string, twoLeavesTree))
  /\ (blen (bigKey x62) <= BTREE_MAX_KEY_SIZE ->
      blen [x31] <= BTREE_MAX_VAL_SIZE ->
        exists (h' : nat) (tr' : BTree),
          Insert 2 twoLeavesTree (bigKey x62) [x31] = Ok (None, tr')
          /\ contents h' tr' (put twoLeavesEntries (bigKey x62) [x31])
          /\ (1 <= h' <= 2)%nat).
Proof.
  split; [exact twoLeavesTree_contents|].
  apply (Insert_outcome 2 1 twoLeavesTree twoLeavesEntries).
  - exact twoLeavesTree_contents.
  - lia.
  - rewrite twoLeavesTree_fresh. lia.
Defined.

(** ** What Get finds *)

Lemma lookupLE_found (ks : list (list byte)) (q : list byte) :
  sorted1 ks -> q ∈ ks -> ks !! lookupLE ks q = Some q.
Proof.
  intros Hs Hin. apply list_elem_of_lookup_1 in Hin as [j Hj].
  pose proof (lookupLE_spec ks q (sorted1_increasing _ Hs))
    as (Hr & Hle & Hgt).
  set (idx := lookupLE ks q) in *.
  assert (Hlt : (idx < length ks)%nat).
  { destruct Hr as [H0 | H0]; [assumption|]. rewrite H0.
    apply lookup_lt_Some in Hj. lia. }
  destruct (lookup_lt_is_Some_2 ks idx Hlt) as [a Ha].
  destruct (Nat.lt_trichotomy idx j) as [H | [E | H]].
  - destruct j as [|j]; [lia|].
    pose proof (Hgt (S j) q ltac:(lia) H Hj) as Hc.
    now apply key_lt_irrefl in Hc.
  - rewrite E. exact Hj.
  - pose proof (Hle idx a ltac:(lia) Ha) as H1.
    destruct j as [|j].
    + pose proof (sorted1_le0 ks idx q a Hs Hj Ha) as H2.
      rewrite Ha. f_equal. now apply key_le_antisym.
    + pose proof (sorted1_lt ks (S j) idx q a Hs ltac:(lia) Hj Ha) as H2.
      apply key_le_not_lt in H1. contradiction.
Qed.

Lemma leaf_get_stored (es : list entry) (q : list byte) :
  sorted1 (keys es) ->
  (q ∈ keys es ->
     exists p v, leaf_get es q = Some v /\ (p, q, v) ∈ es)
  /\ (q ∉ keys es -> leaf_get es q = None).
Proof.
  intros Hs. split.
  - intros Hin. pose proof (lookupLE_found _ _ Hs Hin) as Hk.
    rewrite keys_lookup in Hk. unfold leaf_get.
    destruct (es !! lookupLE (keys es) q) as [e|] eqn:He; [|discriminate].
    simpl in Hk. injection Hk as Hk.
    exists (e_ptr e), (e_val e).
    rewrite bool_decide_eq_true_2 by exact Hk. split; [reflexivity|].
    rewrite <- Hk, entry_eta. now apply list_elem_of_lookup_2 in He.
  - intros Hnot. unfold leaf_get.
    destruct (es !! lookupLE (keys es) q) as [e|] eqn:He; [|reflexivity].
    rewrite bool_decide_eq_false_2; [reflexivity|].
    intros E. apply Hnot. rewrite <- E.
    apply (list_elem_of_fmap_2 e_key). now apply list_elem_of_lookup_2 in He.
Qed.

(** X3. On a well-formed tree of any height, Get returns a value exactly
    for the keys of the entries in its leaves, and the value is that of an
    entry with the key; for every other key it returns "not found". *)
Theorem Get_finds_stored (fuel h : nat) (tr : BTree) (es : list entry)
    (q : list byte) :
  contents h tr es -> (h < fuel)%nat ->
  (q ∈ keys es ->
     exists p v, Get fuel tr q = Ok (Some v) /\ (p, q, v) ∈ es)
  /\ (q ∉ keys es -> Get fuel tr q = Ok None).
Proof.
  intros Hc Hfuel. rewrite (Get_spec fuel h tr es q Hc Hfuel).
  destruct (contents_order _ _ _ Hc) as [->|[Hs _]].
  - split; [intros H; inversion H|reflexivity].
  - destruct (leaf_get_stored es q Hs) as [H1 H2]. split.
    + intros Hin. destruct (H1 Hin) as (p & v & Hg & Hv).
      exists p, v. now rewrite Hg.
    + intros Hnot. now rewrite (H2 Hnot).
Qed.

Lemma Get_finds_stored_witness :
  contents 1 twoLeavesTree twoLeavesEntries
  /\ (bigKey x14 ∈ keys twoLeavesEntries ->
        exists p v, Get 2 twoLeavesTree (bigKey x14) = Ok (Some v)
                    /\ (p, bigKey x14, v) ∈ twoLeavesEntries)
  /\ (bigKey x14 ∉ keys twoLeavesEntries ->
        Get 2 twoLeavesTree (bigKey x14) = Ok None).
Proof.
  split; [exact twoLeavesTree_contents|].
  apply (Get_finds_stored 2 1 twoLeavesTree twoLeavesEntries (bigKey x14)).
  - exact twoLeavesTree_contents.
  - lia.
Defined.

(** ** The lookup within a node *)

(** X4. On a node whose keys from position 1 on are strictly increasing,
    nodeLookupLE returns the last position from 1 on whose key is at most
    the search key: every key from 1 up to the index returned is at most
    the search key, every key after it is above; it returns 0 when no
    key from position 1 on is at most the search key. *)
Theorem nodeLookupLE_greatest_le (d : BNode) (t : Z) (es : list entry)
    (q : list byte) :
  node_is d t es ->
  increasing (drop 1 (keys es)) ->
  exists idx : nat,
    nodeLookupLE d q = Ok (Z.of_nat idx)
    /\ ((idx < length es)%nat \/ idx = 0%nat)
    /\ (forall (j : nat) (e : entry),
          (1 <= j <= idx)%nat -> es !! j = Some e -> key_le (e_key e) q)
    /\ (forall (j : nat) (e : entry),
          (idx < j)%nat -> es !! j = Some e -> key_lt q (e_key e)).
Proof.
  intros Hn Hinc. exists (lookupLE (keys es) q).
  split; [now apply (nodeLookupLE_rep d t)|].
  destruct (lookupLE_spec (keys es) q Hinc) as (Hr & Hle & Hgt).
  rewrite keys_length in Hr. split; [exact Hr|]. split.
  - intros j e Hj He. apply (Hle j); [exact Hj|].
    rewrite keys_lookup, He. reflexivity.
  - intros j e Hj He. apply (Hgt j); [lia|exact Hj|].
    rewrite keys_lookup, He. reflexivity.
Qed.

Lemma increasing_one (k : list byte) : increasing [k].
Proof.
  intros i j a b Hij Ha Hb. destruct j as [|j]; [lia|]. inversion Hb.
Qed.

Lemma nodeLookupLE_greatest_le_witness :
  node_is firstLeaf BNODE_LEAF [(0, [], []); (0, bigKey x0a, bigVal)]
  /\ increasing (drop 1 (keys [(0, [], []); (0, bigKey x0a, bigVal)]))
  /\ exists idx : nat,
       nodeLookupLE firstLeaf [x62] = Ok (Z.of_nat idx)
       /\ ((idx < length [(0, [], []); (0, bigKey x0a, bigVal)])%nat
           \/ idx = 0%nat)
       /\ (forall (j : nat) (e : entry),
             (1 <= j <= idx)%nat ->
             [(0, [], []); (0, bigKey x0a, bigVal)] !! j = Some e ->
             key_le (e_key e) [x62])
       /\ (forall (j : nat) (e : entry),
             (idx < j)%nat ->
             [(0, [], []); (0, bigKey x0a, bigVal)] !! j = Some e ->
             key_lt [x62] (e_key e)).
Proof.
  split; [exact (proj1 firstLeaf_is)|].
  split; [apply increasing_one|].
  apply (nodeLookupLE_greatest_le firstLeaf BNODE_LEAF
           [(0, [], []); (0, bigKey x0a, bigVal)] [x62]).
  - exact (proj1 firstLeaf_is).
  - apply increasing_one.
Defined.

(** ** The earlier Get on a tree that is one leaf *)

(** X5. While the root is a leaf, the Get of the earlier copy answers as
    the Get of operations.go does: the value of the entry with the key,
    or "not found". *)
Theorem Legacy_Get_leaf_root (fuel : nat) (tr : BTree) (es : list entry)
    (q : list byte) :
  contents 0 tr es -> (0 < fuel)%nat ->
  Legacy.Get tr q = Ok (leaf_get es q)
  /\ Legacy.Get tr q = Get fuel tr q.
Proof.
  intros Hc Hfuel. rewrite (Get_spec fuel 0 tr es q Hc Hfuel).
  assert (H : Legacy.Get tr q = Ok (leaf_get es q)); [|now split].
  destruct tr as [r [pg fr]]. destruct Hc as [_ Hc].
  unfold Legacy.Get. cbn [root pager fresh pages] in *.
  destruct Hc as [(-> & _ & ->)|Hh]; [reflexivity|].
  destruct Hh as (t & d & Hd & Hrep & Htok & Hflat & Hord & Hnd & Hb).
  cbn [root pager fresh pages] in *. simpl in Hrep, Htok, Hflat. subst t.
  apply Forall_cons in Hb as [Hrb _]. destruct Htok as (Hne & _ & _).
  replace (r =? 0) with false by (symmetry; apply Z.eqb_neq; lia).
  rewrite (sbind_Ok _ _ _ _ _ (tree_get_spec pg fr _ _ Hd)).
  rewrite (sbind_lift _ _ _ _ (nodeLookupLE_rep _ _ _ q Hrep)).
  rewrite (sbind_lift _ _ _ _ (rep_nkeys _ _ _ _ Hrep)).
  assert (Hlt : (lookupLE (keys es) q < length es)%nat).
  { rewrite <- keys_length. apply lookupLE_lt.
    intros E. apply keys_nil_inv in E. contradiction. }
  destruct (lookup_lt_is_Some_2 es _ Hlt) as [e He].
  replace ((Z.of_nat (lookupLE (keys es) q) >=? 0)
           && (Z.of_nat (lookupLE (keys es) q) <? Z.of_nat (length es)))
    with true
    by (symmetry; apply andb_true_iff; split;
        [apply Z.geb_le|apply Z.ltb_lt]; lia).
  rewrite (sbind_lift _ _ _ _ (rep_getKey _ _ _ _ Hrep _ _ He)).
  unfold leaf_get. rewrite He. unfold bytes_Equal.
  destruct (bool_decide (e_key e = q)); [|reflexivity].
  rewrite (sbind_lift _ _ _ _ (rep_getVal _ _ _ _ Hrep _ _ He)).
  reflexivity.
Qed.

Lemma Legacy_Get_leaf_root_witness :
  contents 0 oneKeyTree oneKeyEntries
  /\ Legacy.Get oneKeyTree [x61] = Ok (leaf_get oneKeyEntries [x61])
  /\ Legacy.Get oneKeyTree [x61] = Get 1 oneKeyTree [x61].
Proof.
  split; [exact oneKeyTree_contents|].
  apply (Legacy_Get_leaf_root 1 oneKeyTree oneKeyEntries [x61]).
  - exact oneKeyTree_contents.
  - lia.
Defined.

(** * The node codec and the node operations *)

(** What the accessors read on a complete node. *)
Lemma node_is_read (d : BNode) (t : Z) (es : list entry) :
  node_is d t es ->
  btype d = Ok t /\ nkeys d = Ok (Z.of_nat (length es))
  /\ entries_of d = Ok es /\ nbytes d = Ok (nsize es).
Proof.
  intros R. split; [exact (rep_btype _ _ _ _ R)|].
  split; [exact (rep_nkeys _ _ _ _ R)|].
  split; [now apply (entries_of_rep d t)|].
  now apply (rep_nbytes d t _ es R).
Qed.

Lemma appendAll_rep (t n : Z) (es : list entry) :
  forall (d : BNode) (pre : list entry),
    node_rep d t n pre ->
    Z.of_nat (length pre) + Z.of_nat (length es) <= n ->
    4 + 10 * n + kvsize pre + kvsize es <= blen d ->
    Forall (fun e => 0 <= e_ptr e < 18446744073709551616) es ->
    exists d',
      appendAll d (Z.of_nat (length pre)) es = Ok d'
      /\ blen d' = blen d
      /\ node_rep d' t n (pre ++ es).
Proof.
  induction es as [|e es IH]; intros d pre R Hcnt Hfit Hp.
  - exists d. rewrite app_nil_r. now split; [|split].
  - apply Forall_cons in Hp as [Hp0 Hp]. cbn [appendAll length kvsize] in *.
    pose proof (kvsize_nonneg es) as Hk. pose proof (kvsize_nonneg pre).
    destruct (nodeAppendKV_rep d t n pre (e_ptr e) (e_key e) (e_val e) R)
      as (d1 & Hr1 & L1 & R1); [lia|exact Hp0|unfold esz in Hfit; lia|].
    rewrite Hr1. cbn [rbind]. rewrite entry_eta in R1.
    destruct (IH d1 (pre ++ [e]) R1) as (d2 & Hr2 & L2 & R2).
    + rewrite length_app. simpl. lia.
    + rewrite kvsize_app. cbn [kvsize]. lia.
    + exact Hp.
    + exists d2. rewrite length_app in Hr2. simpl in Hr2.
      replace (Z.of_nat (length pre) + 1)
        with (Z.of_nat (length pre + 1)) by lia.
      split; [exact Hr2|]. split; [congruence|].
      now rewrite <- app_assoc in R2.
Qed.

Lemma leafDelete_rep (new old : BNode) (t : Z) (es : list entry)
    (idx : nat) :
  node_is old t es ->
  (idx < length es)%nat ->
  blen new < 65536 ->
  nsize (take idx es ++ drop (S idx) es) <= blen new ->
  exists new',
    leafDelete new old (Z.of_nat idx) = Ok new'
    /\ blen new' = blen new
    /\ node_is new' BNODE_LEAF (take idx es ++ drop (S idx) es).
Proof.
  intros R Hidx Hlen Hcap.
  pose proof (rep_n_range _ _ _ _ R) as Hn.
  pose proof (kvsize_nonneg (take idx es)).
  pose proof (kvsize_nonneg (drop (S idx) es)).
  unfold nsize in Hcap.
  rewrite length_app, length_take, length_drop, kvsize_app in Hcap.
  unfold leafDelete. rewrite (rep_nkeys _ _ _ _ R). cbn [rbind].
  rewrite (u16_small (Z.of_nat (length es) - 1)) by lia.
  destruct (setHeader_rep new BNODE_LEAF (Z.of_nat (length es) - 1))
    as (d0 & Hr0 & L0 & R0); [lia|lia|lia|vm_compute; split; congruence|].
  rewrite Hr0. cbn [rbind].
  destruct (nodeAppendRange_at d0 old _ _ _ _ [] es 0 0 (Z.of_nat idx)
              0 idx R0 R) as (d1 & Hr1 & L1 & R1);
    [reflexivity|reflexivity|reflexivity|lia|simpl; lia
    |rewrite drop_0; cbn [kvsize]; lia|].
  rewrite Hr1. cbn [rbind]. rewrite drop_0 in R1. cbn [app] in R1.
  rewrite !(u16_small (Z.of_nat idx + 1)) by lia.
  rewrite (u16_small (Z.of_nat (length es) - (Z.of_nat idx + 1))) by lia.
  destruct (nodeAppendRange_at d1 old _ _ _ _ _ es (Z.of_nat idx)
              (Z.of_nat idx + 1) (Z.of_nat (length es) - (Z.of_nat idx + 1))
              (S idx) (length es - S idx) R1 R) as (d2 & Hr2 & L2 & R2).
  { rewrite length_take. lia. }
  { lia. } { lia. } { lia. }
  { rewrite length_take. lia. }
  { rewrite (take_ge (drop (S idx) es)) by (rewrite length_drop; lia). lia. }
  rewrite Hr2. exists d2. split; [reflexivity|]. split; [lia|].
  rewrite (take_ge (drop (S idx) es)) in R2 by (rewrite length_drop; lia).
  unfold node_is. rewrite length_app, length_take, length_drop.
  replace (Z.of_nat (idx `min` length es + (length es - S idx)))
    with (Z.of_nat (length es) - 1) by lia.
  exact R2.
Qed.

Lemma nodeMerge_rep (new left_ right_ : BNode) (t t' : Z)
    (l r : list entry) :
  node_is left_ t l ->
  node_is right_ t' r ->
  blen new < 65536 ->
  nsize (l ++ r) <= blen new ->
  exists new',
    nodeMerge new left_ right_ = Ok new'
    /\ blen new' = blen new
    /\ node_is new' t (l ++ r).
Proof.
  intros Rl Rr Hlen Hcap.
  pose proof (rep_n_range _ _ _ _ Rl) as Hnl.
  pose proof (rep_n_range _ _ _ _ Rr) as Hnr.
  pose proof (kvsize_nonneg l). pose proof (kvsize_nonneg r).
  unfold nsize in Hcap. rewrite length_app, kvsize_app in Hcap.
  unfold nodeMerge.
  rewrite (rep_btype _ _ _ _ Rl), (rep_nkeys _ _ _ _ Rl),
    (rep_nkeys _ _ _ _ Rr). cbn [rbind].
  rewrite (u16_small (Z.of_nat (length l) + Z.of_nat (length r))) by lia.
  destruct (setHeader_rep new t (Z.of_nat (length l) + Z.of_nat (length r)))
    as (d0 & Hr0 & L0 & R0); [lia|lia|lia|exact (proj1 (nr_type _ _ _ _ Rl))|].
  rewrite Hr0. cbn [rbind].
  destruct (nodeAppendRange_at d0 left_ _ _ _ _ [] l 0 0
              (Z.of_nat (length l)) 0 (length l) R0 Rl)
    as (d1 & Hr1 & L1 & R1);
    [reflexivity|reflexivity|reflexivity|lia|simpl; lia
    |rewrite drop_0, take_ge by lia; cbn [kvsize]; lia|].
  rewrite Hr1. cbn [rbind].
  rewrite drop_0, take_ge in R1 by lia. cbn [app] in R1.
  destruct (nodeAppendRange_at d1 right_ _ _ _ _ l r (Z.of_nat (length l)) 0
              (Z.of_nat (length r)) 0 (length r) R1 Rr)
    as (d2 & Hr2 & L2 & R2);
    [reflexivity|reflexivity|reflexivity|lia|lia
    |rewrite drop_0, take_ge by lia; lia|].
  rewrite Hr2. exists d2. split; [reflexivity|]. split; [lia|].
  rewrite drop_0, take_ge in R2 by lia.
  unfold node_is. rewrite length_app.
  replace (Z.of_nat (length l + length r))
    with (Z.of_nat (length l) + Z.of_nat (length r)) by lia.
  exact R2.
Qed.

Lemma nodeReplace2Kid_rep (new old : BNode) (t : Z) (es : list entry)
    (idx : nat) (ptr : Z) (key : list byte) :
  node_is old t es ->
  (idx + 1 < length es)%nat ->
  0 <= ptr < 18446744073709551616 ->
  blen new < 65536 ->
  nsize (take idx es ++ (ptr, key, []) :: drop (idx + 2) es) <= blen new ->
  exists new',
    nodeReplace2Kid new old (Z.of_nat idx) ptr key = Ok new'
    /\ blen new' = blen new
    /\ node_is new' BNODE_NODE
         (take idx es ++ (ptr, key, []) :: drop (idx + 2) es).
Proof.
  intros R Hidx Hptr Hlen Hcap.
  pose proof (rep_n_range _ _ _ _ R) as Hn.
  pose proof (blen_nonneg key) as Hk.
  pose proof (kvsize_nonneg (take idx es)).
  pose proof (kvsize_nonneg (drop (idx + 2) es)).
  unfold nsize in Hcap. rewrite length_app, length_take in Hcap.
  cbn [length] in Hcap. rewrite length_drop, kvsize_app in Hcap.
  cbn [kvsize] in Hcap. unfold esz, e_key, e_val in Hcap.
  cbn [fst snd] in Hcap. change (blen []) with 0 in Hcap.
  unfold nodeReplace2Kid. rewrite (rep_nkeys _ _ _ _ R). cbn [rbind].
  rewrite (u16_small (Z.of_nat (length es) - 1)) by lia.
  destruct (setHeader_rep new BNODE_NODE (Z.of_nat (length es) - 1))
    as (d0 & Hr0 & L0 & R0); [lia|lia|lia|vm_compute; split; congruence|].
  rewrite Hr0. cbn [rbind].
  destruct (nodeAppendRange_at d0 old _ _ _ _ [] es 0 0 (Z.of_nat idx)
              0 idx R0 R) as (d1 & Hr1 & L1 & R1);
    [reflexivity|reflexivity|reflexivity|lia|simpl; lia
    |rewrite drop_0; cbn [kvsize]; lia|].
  rewrite Hr1. cbn [rbind]. rewrite drop_0 in R1. cbn [app] in R1.
  destruct (nodeAppendKV_at d1 _ _ _ (Z.of_nat idx) ptr key [] R1)
    as (d2 & Hr2 & L2 & R2);
    [rewrite length_take; lia|lia|lia|change (blen []) with 0; lia|].
  rewrite Hr2. cbn [rbind].
  rewrite (u16_small (Z.of_nat idx + 1)) by lia.
  rewrite !(u16_small (Z.of_nat idx + 2)) by lia.
  rewrite (u16_small (Z.of_nat (length es) - (Z.of_nat idx + 2))) by lia.
  destruct (nodeAppendRange_at d2 old _ _ _ _ _ es (Z.of_nat idx + 1)
              (Z.of_nat idx + 2) (Z.of_nat (length es) - (Z.of_nat idx + 2))
              (idx + 2) (length es - (idx + 2)) R2 R)
    as (d3 & Hr3 & L3 & R3).
  { rewrite length_app, length_take. simpl. lia. }
  { lia. } { lia. } { lia. }
  { rewrite length_app, length_take. simpl. lia. }
  { rewrite (take_ge (drop (idx + 2) es)) by (rewrite length_drop; lia).
    rewrite kvsize_app. cbn [kvsize]. unfold esz, e_key, e_val.
    cbn [fst snd]. change (blen []) with 0. lia. }
  rewrite Hr3. exists d3. split; [reflexivity|]. split; [lia|].
  rewrite (take_ge (drop (idx + 2) es)) in R3
    by (rewrite length_drop; lia).
  rewrite <- app_assoc in R3. cbn [app] in R3.
  unfold node_is. rewrite length_app, length_take. cbn [length].
  rewrite length_drop.
  replace (Z.of_nat (idx `min` length es + S (length es - (idx + 2))))
    with (Z.of_nat (length es) - 1) by lia.
  exact R3.
Qed.

Lemma buildNode_is (buf : BNode) (t : Z) (es : list entry) :
  blen buf < 65536 -> 0 <= t < 65536 -> nsize es <= blen buf ->
  Forall (fun e => 0 <= e_ptr e < 18446744073709551616) es ->
  exists d, buildNode buf t es = Ok d /\ blen d = blen buf
            /\ node_is d t es.
Proof.
  intros Hlen Ht Hfit Hp. unfold nsize in Hfit.
  pose proof (kvsize_nonneg es).
  unfold buildNode.
  destruct (setHeader_rep buf t (Z.of_nat (length es)))
    as (d0 & Hr0 & L0 & R0); [lia|lia|lia|exact Ht|].
  rewrite Hr0. cbn [rbind].
  destruct (appendAll_rep t (Z.of_nat (length es)) es d0 [] R0)
    as (d1 & Hr1 & L1 & R1); [simpl; lia|cbn [kvsize]; lia|exact Hp|].
  exists d1. split; [exact Hr1|]. split; [lia|exact R1].
Qed.

Lemma the_node_built (buf : BNode) (t : Z) (es : list entry) :
  blen buf < 65536 -> 0 <= t < 65536 -> nsize es <= blen buf ->
  Forall (fun e => 0 <= e_ptr e < 18446744073709551616) es ->
  node_is (the_node (buildNode buf t es)) t es
  /\ blen (the_node (buildNode buf t es)) = blen buf.
Proof.
  intros H1 H2 H3 H4.
  destruct (buildNode_is buf t es H1 H2 H3 H4) as (d & -> & L & R).
  now split.
Qed.

Lemma leafAC_is : node_is leafAC BNODE_LEAF acEntries /\ blen leafAC = 128.
Proof.
  apply (the_node_built (make 128) BNODE_LEAF acEntries);
    [reflexivity|vm_compute; split; congruence|vm_compute; congruence|].
  repeat (apply List.Forall_cons; [unfold e_ptr; simpl; lia|]).
  apply List.Forall_nil.
Qed.

Lemma leafEG_is : node_is leafEG BNODE_LEAF egEntries /\ blen leafEG = 128.
Proof.
  apply (the_node_built (make 128) BNODE_LEAF egEntries);
    [reflexivity|vm_compute; split; congruence|vm_compute; congruence|].
  repeat (apply List.Forall_cons; [unfold e_ptr; simpl; lia|]).
  apply List.Forall_nil.
Qed.

Lemma nodeKids_is :
  node_is nodeKids BNODE_NODE kidEntries /\ blen nodeKids = 128.
Proof.
  apply (the_node_built (make 128) BNODE_NODE kidEntries);
    [reflexivity|vm_compute; split; congruence|vm_compute; congruence|].
  repeat (apply List.Forall_cons; [unfold e_ptr; simpl; lia|]).
  apply List.Forall_nil.
Qed.

(** ** Writing a node and reading it back *)

(** X6. A node written into a buffer with setHeader and one nodeAppendKV
    per entry reads back as written: btype and nkeys give the header,
    getPtr, getKey and getVal give each entry in turn, and nbytes is
    4 + 10 per entry + 4 + key length + value length per entry. The buffer
    must be shorter than 64 KiB and hold that many bytes, the type must
    fit 16 bits and the pointers 64 bits. *)
Theorem buildNode_roundtrip (buf : BNode) (t : Z) (es : list entry) :
  blen buf < 65536 -> 0 <= t < 65536 -> nsize es <= blen buf ->
  Forall (fun e => 0 <= e_ptr e < 18446744073709551616) es ->
  exists d,
    buildNode buf t es = Ok d
    /\ blen d = blen buf
    /\ btype d = Ok t
    /\ nkeys d = Ok (Z.of_nat (length es))
    /\ entries_of d = Ok es
    /\ nbytes d = Ok (nsize es).
Proof.
  intros H1 H2 H3 H4.
  destruct (buildNode_is buf t es H1 H2 H3 H4) as (d & Hr & L & R).
  exists d. split; [exact Hr|]. split; [exact L|].
  now apply node_is_read.
Qed.

Lemma buildNode_roundtrip_witness :
  blen (make 128) < 65536 /\ 0 <= BNODE_NODE < 65536
  /\ nsize kidEntries <= blen (make 128)
  /\ Forall (fun e => 0 <= e_ptr e < 18446744073709551616) kidEntries
  /\ exists d,
       buildNode (make 128) BNODE_NODE kidEntries = Ok d
       /\ blen d = blen (make 128)
       /\ btype d = Ok BNODE_NODE
       /\ nkeys d = Ok (Z.of_nat (length kidEntries))
       /\ entries_of d = Ok kidEntries
       /\ nbytes d = Ok (nsize kidEntries).
Proof.
  assert (H1 : blen (make 128) < 65536) by reflexivity.
  assert (H2 : 0 <= BNODE_NODE < 65536) by (vm_compute; split; congruence).
  assert (H3 : nsize kidEntries <= blen (make 128))
    by (vm_compute; congruence).
  assert (H4 : Forall (fun e => 0 <= e_ptr e < 18446744073709551616)
                 kidEntries) by (repeat (apply List.Forall_cons; [unfold e_ptr; simpl; lia|]);
        apply List.Forall_nil).
  split; [exact H1|]. split; [exact H2|]. split; [exact H3|].
  split; [exact H4|].
  exact (buildNode_roundtrip (make 128) BNODE_NODE kidEntries H1 H2 H3 H4).
Defined.

(** ** Leaves: insertion, update and deletion of an entry *)

Lemma nsize_insert (es : list entry) (i : nat) (e : entry) :
  (i <= length es)%nat ->
  nsize (take i es ++ e :: drop i es) = nsize es + 10 + esz e.
Proof.
  intros H. rewrite nsize_app, nsize_cons.
  pose proof (nsize_take_drop i es H). lia.
Qed.

Lemma nsize_remove (es : list entry) (i : nat) (e : entry) :
  es !! i = Some e ->
  nsize (take i es ++ drop (S i) es) = nsize es - 10 - esz e.
Proof.
  intros H. rewrite <- (take_drop_middle es i e H) at 3.
  rewrite !nsize_app, nsize_cons. lia.
Qed.

(** X7. leafInsert writes into [new] the leaf [old] with the entry
    (key, val) put at position [idx]: the entries before [idx] stay, the
    new entry follows with a zero pointer, the entries from [idx] on move
    up by one; the size grows by 14 + key length + value length. The
    buffer [new] must hold the result; nothing of [old] is lost. *)
Theorem leafInsert_entries (new old : BNode) (t : Z) (es : list entry)
    (idx : nat) (key val : list byte) :
  node_is old t es ->
  (idx <= length es)%nat ->
  blen new < 65536 ->
  nsize es + 14 + blen key + blen val <= blen new ->
  exists new',
    leafInsert new old (Z.of_nat idx) key val = Ok new'
    /\ blen new' = blen new
    /\ btype new' = Ok BNODE_LEAF
    /\ nkeys new' = Ok (Z.of_nat (length es) + 1)
    /\ entries_of new' = Ok (take idx es ++ (0, key, val) :: drop idx es)
    /\ nbytes new' = Ok (nsize es + 14 + blen key + blen val).
Proof.
  intros R Hidx Hlen Hcap.
  destruct (leafInsert_rep new old t es idx key val R Hidx Hlen Hcap)
    as (new' & Hr & L & R').
  exists new'. split; [exact Hr|]. split; [exact L|].
  destruct (node_is_read _ _ _ R') as (H1 & H2 & H3 & H4).
  split; [exact H1|]. split; [|split; [exact H3|]].
  - rewrite H2. f_equal. rewrite length_app, length_take. cbn [length].
    rewrite length_drop. lia.
  - rewrite H4, nsize_insert by exact Hidx. f_equal.
    unfold esz, e_key, e_val. cbn [fst snd]. lia.
Qed.

Lemma leafInsert_entries_witness :
  node_is leafAC BNODE_LEAF acEntries
  /\ (2 <= length acEntries)%nat
  /\ blen (make 256) < 65536
  /\ nsize acEntries + 14 + blen [x62] + blen [x32] <= blen (make 256)
  /\ exists new',
       leafInsert (make 256) leafAC (Z.of_nat 2) [x62] [x32] = Ok new'
       /\ blen new' = blen (make 256)
       /\ btype new' = Ok BNODE_LEAF
       /\ nkeys new' = Ok (Z.of_nat (length acEntries) + 1)
       /\ entries_of new'
          = Ok (take 2 acEntries ++ (0, [x62], [x32]) :: drop 2 acEntries)
       /\ nbytes new' = Ok (nsize acEntries + 14 + blen [x62] + blen [x32]).
Proof.
  assert (H2 : (2 <= length acEntries)%nat) by (simpl; lia).
  assert (H3 : blen (make 256) < 65536) by reflexivity.
  assert (H4 : nsize acEntries + 14 + blen [x62] + blen [x32]
               <= blen (make 256)) by (vm_compute; congruence).
  split; [exact (proj1 leafAC_is)|]. split; [exact H2|].
  split; [exact H3|]. split; [exact H4|].
  exact (leafInsert_entries (make 256) leafAC BNODE_LEAF acEntries 2
           [x62] [x32] (proj1 leafAC_is) H2 H3 H4).
Defined.

(** X8. leafUpdate writes into [new] the leaf [old] with the entry at
    [idx] replaced by (key, val) with a zero pointer; every other entry
    keeps its place and the number of keys is unchanged. *)
Theorem leafUpdate_entries (new old : BNode) (t : Z) (es : list entry)
    (idx : nat) (key val : list byte) :
  node_is old t es ->
  (idx < length es)%nat ->
  blen new < 65536 ->
  nsize (take idx es ++ (0, key, val) :: drop (S idx) es) <= blen new ->
  exists new',
    leafUpdate new old (Z.of_nat idx) key val = Ok new'
    /\ blen new' = blen new
    /\ btype new' = Ok BNODE_LEAF
    /\ nkeys new' = Ok (Z.of_nat (length es))
    /\ entries_of new'
       = Ok (take idx es ++ (0, key, val) :: drop (S idx) es).
Proof.
  intros R Hidx Hlen Hcap.
  destruct (leafUpdate_rep new old t es idx key val R Hidx Hlen Hcap)
    as (new' & Hr & L & R').
  exists new'. split; [exact Hr|]. split; [exact L|].
  destruct (node_is_read _ _ _ R') as (H1 & H2 & H3 & H4).
  split; [exact H1|]. split; [|exact H3].
  rewrite H2. f_equal. rewrite length_app, length_take. cbn [length].
  rewrite length_drop. lia.
Qed.

Lemma leafUpdate_entries_witness :
  node_is leafAC BNODE_LEAF acEntries
  /\ (1 < length acEntries)%nat
  /\ blen (make 256) < 65536
  /\ nsize (take 1 acEntries ++ (0, [x61], [x39; x39]) :: drop 2 acEntries)
     <= blen (make 256)
  /\ exists new',
       leafUpdate (make 256) leafAC (Z.of_nat 1) [x61] [x39; x39] = Ok new'
       /\ blen new' = blen (make 256)
       /\ btype new' = Ok BNODE_LEAF
       /\ nkeys new' = Ok (Z.of_nat (length acEntries))
       /\ entries_of new'
          = Ok (take 1 acEntries ++ (0, [x61], [x39; x39])
                  :: drop 2 acEntries).
Proof.
  assert (H2 : (1 < length acEntries)%nat) by (simpl; lia).
  assert (H3 : blen (make 256) < 65536) by reflexivity.
  assert (H4 : nsize (take 1 acEntries ++ (0, [x61], [x39; x39])
                        :: drop 2 acEntries) <= blen (make 256))
    by (vm_compute; congruence).
  split; [exact (proj1 leafAC_is)|]. split; [exact H2|].
  split; [exact H3|]. split; [exact H4|].
  exact (leafUpdate_entries (make 256) leafAC BNODE_LEAF acEntries 1
           [x61] [x39; x39] (proj1 leafAC_is) H2 H3 H4).
Defined.

(** X9. leafDelete writes into [new] the leaf [old] without the entry at
    [idx]: the entries before and after it follow each other in their
    order, there is one key less, and the size shrinks by 14 + key and
    value length of the entry removed. *)
Theorem leafDelete_entries (new old : BNode) (t : Z) (es : list entry)
    (idx : nat) (e : entry) :
  node_is old t es ->
  es !! idx = Some e ->
  blen new < 65536 ->
  nsize es - 10 - esz e <= blen new ->
  exists new',
    leafDelete new old (Z.of_nat idx) = Ok new'
    /\ blen new' = blen new
    /\ btype new' = Ok BNODE_LEAF
    /\ nkeys new' = Ok (Z.of_nat (length es) - 1)
    /\ entries_of new' = Ok (take idx es ++ drop (S idx) es)
    /\ nbytes new' = Ok (nsize es - 10 - esz e).
Proof.
  intros R He Hlen Hcap.
  pose proof (lookup_lt_Some _ _ _ He) as Hidx.
  destruct (leafDelete_rep new old t es idx R Hidx Hlen)
    as (new' & Hr & L & R');
    [rewrite (nsize_remove es idx e He); exact Hcap|].
  exists new'. split; [exact Hr|]. split; [exact L|].
  destruct (node_is_read _ _ _ R') as (H1 & H2 & H3 & H4).
  split; [exact H1|]. split; [|split; [exact H3|]].
  - rewrite H2. f_equal. rewrite length_app, length_take, length_drop. lia.
  - rewrite H4. f_equal. now apply nsize_remove.
Qed.

Lemma leafDelete_entries_witness :
  node_is leafAC BNODE_LEAF acEntries
  /\ acEntries !! 1%nat = Some (0, [x61], [x31])
  /\ blen (make 64) < 65536
  /\ nsize acEntries - 10 - esz (0, [x61], [x31]) <= blen (make 64)
  /\ exists new',
       leafDelete (make 64) leafAC (Z.of_nat 1) = Ok new'
       /\ blen new' = blen (make 64)
       /\ btype new' = Ok BNODE_LEAF
       /\ nkeys new' = Ok (Z.of_nat (length acEntries) - 1)
       /\ entries_of new' = Ok (take 1 acEntries ++ drop 2 acEntries)
       /\ nbytes new' = Ok (nsize acEntries - 10 - esz (0, [x61], [x31])).
Proof.
  assert (H2 : acEntries !! 1%nat = Some (0, [x61], [x31])) by reflexivity.
  assert (H3 : blen (make 64) < 65536) by reflexivity.
  assert (H4 : nsize acEntries - 10 - esz (0, [x61], [x31])
               <= blen (make 64)) by (vm_compute; congruence).
  split; [exact (proj1 leafAC_is)|]. split; [exact H2|].
  split; [exact H3|]. split; [exact H4|].
  exact (leafDelete_entries (make 64) leafAC BNODE_LEAF acEntries 1
           (0, [x61], [x31]) (proj1 leafAC_is) H2 H3 H4).
Defined.

(** ** Internal nodes: merging and replacing links *)

(** X10. nodeMerge writes into [new] a node of the type of [left] whose
    entries are those of [left] followed by those of [right], each in
    their order; its size is the sum of the two sizes less one header. *)
Theorem nodeMerge_entries (new left_ right_ : BNode) (t t' : Z)
    (l r : list entry) :
  node_is left_ t l ->
  node_is right_ t' r ->
  blen new < 65536 ->
  nsize l + nsize r - HEADER <= blen new ->
  exists new',
    nodeMerge new left_ right_ = Ok new'
    /\ blen new' = blen new
    /\ btype new' = Ok t
    /\ nkeys new' = Ok (Z.of_nat (length l) + Z.of_nat (length r))
    /\ entries_of new' = Ok (l ++ r)
    /\ nbytes new' = Ok (nsize l + nsize r - HEADER).
Proof.
  intros Rl Rr Hlen Hcap. unfold HEADER in *.
  destruct (nodeMerge_rep new left_ right_ t t' l r Rl Rr Hlen)
    as (new' & Hr & L & R'); [rewrite nsize_app; exact Hcap|].
  exists new'. split; [exact Hr|]. split; [exact L|].
  destruct (node_is_read _ _ _ R') as (H1 & H2 & H3 & H4).
  split; [exact H1|]. split; [|split; [exact H3|]].
  - rewrite H2, length_app. f_equal. lia.
  - rewrite H4, nsize_app. reflexivity.
Qed.

Lemma nodeMerge_entries_witness :
  node_is leafAC BNODE_LEAF acEntries
  /\ node_is leafEG BNODE_LEAF egEntries
  /\ blen (make 128) < 65536
  /\ nsize acEntries + nsize egEntries - HEADER <= blen (make 128)
  /\ exists new',
       nodeMerge (make 128) leafAC leafEG = Ok new'
       /\ blen new' = blen (make 128)
       /\ btype new' = Ok BNODE_LEAF
       /\ nkeys new'
          = Ok (Z.of_nat (length acEntries) + Z.of_nat (length egEntries))
       /\ entries_of new' = Ok (acEntries ++ egEntries)
       /\ nbytes new' = Ok (nsize acEntries + nsize egEntries - HEADER).
Proof.
  assert (H3 : blen (make 128) < 65536) by reflexivity.
  assert (H4 : nsize acEntries + nsize egEntries - HEADER
               <= blen (make 128)) by (vm_compute; congruence).
  split; [exact (proj1 leafAC_is)|]. split; [exact (proj1 leafEG_is)|].
  split; [exact H3|]. split; [exact H4|].
  exact (nodeMerge_entries (make 128) leafAC leafEG BNODE_LEAF BNODE_LEAF
           acEntries egEntries (proj1 leafAC_is) (proj1 leafEG_is) H3 H4).
Defined.

(** X11. nodeReplace2Kid writes into [new] the internal node [old] with
    the two links at [idx] and [idx + 1] replaced by one link (ptr, key)
    with an empty value: the links before [idx] and after [idx + 1] keep
    their order, and there is one key less. *)
Theorem nodeReplace2Kid_entries (new old : BNode) (t : Z)
    (es : list entry) (idx : nat) (ptr : Z) (key : list byte) :
  node_is old t es ->
  (idx + 1 < length es)%nat ->
  0 <= ptr < 18446744073709551616 ->
  blen new < 65536 ->
  nsize (take idx es ++ (ptr, key, []) :: drop (idx + 2) es) <= blen new ->
  exists new',
    nodeReplace2Kid new old (Z.of_nat idx) ptr key = Ok new'
    /\ blen new' = blen new
    /\ btype new' = Ok BNODE_NODE
    /\ nkeys new' = Ok (Z.of_nat (length es) - 1)
    /\ entries_of new'
       = Ok (take idx es ++ (ptr, key, []) :: drop (idx + 2) es).
Proof.
  intros R Hidx Hptr Hlen Hcap.
  destruct (nodeReplace2Kid_rep new old t es idx ptr key R Hidx Hptr Hlen
              Hcap) as (new' & Hr & L & R').
  exists new'. split; [exact Hr|]. split; [exact L|].
  destruct (node_is_read _ _ _ R') as (H1 & H2 & H3 & H4).
  split; [exact H1|]. split; [|exact H3].
  rewrite H2. f_equal. rewrite length_app, length_take. cbn [length].
  rewrite length_drop. lia.
Qed.

Lemma nodeReplace2Kid_entries_witness :
  node_is nodeKids BNODE_NODE kidEntries
  /\ (1 + 1 < length kidEntries)%nat
  /\ 0 <= 9 < 18446744073709551616
  /\ blen (make 128) < 65536
  /\ nsize (take 1 kidEntries ++ (9, [x65], []) :: drop (1 + 2) kidEntries)
     <= blen (make 128)
  /\ exists new',
       nodeReplace2Kid (make 128) nodeKids (Z.of_nat 1) 9 [x65] = Ok new'
       /\ blen new' = blen (make 128)
       /\ btype new' = Ok BNODE_NODE
       /\ nkeys new' = Ok (Z.of_nat (length kidEntries) - 1)
       /\ entries_of new'
          = Ok (take 1 kidEntries ++ (9, [x65], [])
                  :: drop (1 + 2) kidEntries).
Proof.
  assert (H2 : (1 + 1 < length kidEntries)%nat) by (simpl; lia).
  assert (H3 : 0 <= 9 < 18446744073709551616) by lia.
  assert (H4 : blen (make 128) < 65536) by reflexivity.
  assert (H5 : nsize (take 1 kidEntries ++ (9, [x65], [])
                        :: drop (1 + 2) kidEntries) <= blen (make 128))
    by (vm_compute; congruence).
  split; [exact (proj1 nodeKids_is)|]. split; [exact H2|].
  split; [exact H3|]. split; [exact H4|]. split; [exact H5|].
  exact (nodeReplace2Kid_entries (make 128) nodeKids BNODE_NODE kidEntries
           1 9 [x65] (proj1 nodeKids_is) H2 H3 H4 H5).
Defined.

(** ** Splitting a node in two *)

(** X12. nodeSplit2 cuts a node of at least two entries, each of which
    fits a page by itself, at a position from 1 to the number of keys less
    one: [left] receives the entries before the cut and [right] those
    after it, in their order and with the type of the node, and [right]
    is at most a page. The buffer [left] must hold the whole node, the
    buffer [right] a page. *)
Theorem nodeSplit2_halves (leftb rightb old : BNode) (t : Z)
    (es : list entry) :
  node_is old t es ->
  (2 <= length es)%nat ->
  (forall e, e ∈ es -> 14 + esz e <= BTREE_PAGE_SIZE) ->
  nsize es <= blen leftb < 65536 ->
  BTREE_PAGE_SIZE <= blen rightb < 65536 ->
  exists (j : nat) (l r : BNode),
    nodeSplit2 leftb rightb old = Ok (l, r)
    /\ (1 <= j < length es)%nat
    /\ btype l = Ok t /\ btype r = Ok t
    /\ entries_of l = Ok (take j es)
    /\ entries_of r = Ok (drop j es)
    /\ nbytes r = Ok (nsize (drop j es))
    /\ nsize (drop j es) <= BTREE_PAGE_SIZE.
Proof.
  intros R Hcnt Hfit [Hl1 Hl2] Hr.
  destruct (nodeSplit2_spec leftb rightb old t es R Hcnt Hfit Hl2 Hr
              (or_introl Hl1))
    as (j & l & r & Hrun & Hj & Rl & Rr & _ & _ & Hsz & _).
  exists j, l, r. split; [exact Hrun|]. split; [exact Hj|].
  destruct (node_is_read _ _ _ Rl) as (H1 & _ & H3 & _).
  destruct (node_is_read _ _ _ Rr) as (H1' & _ & H3' & H4').
  repeat (split; [assumption|]). exact Hsz.
Qed.

Lemma grownLeaf_entries_fit :
  forall e, e ∈ grownLeafEntries -> 14 + esz e <= BTREE_PAGE_SIZE.
Proof.
  intros e He. unfold grownLeafEntries in He.
  rewrite !elem_of_cons in He.
  destruct He as [->|[->|[->|He]]]; [| | |inversion He];
    vm_compute; congruence.
Qed.

Lemma nodeSplit2_halves_witness :
  node_is grownLeaf BNODE_LEAF grownLeafEntries
  /\ (2 <= length grownLeafEntries)%nat
  /\ (forall e, e ∈ grownLeafEntries -> 14 + esz e <= BTREE_PAGE_SIZE)
  /\ nsize grownLeafEntries <= blen (make (2 * BTREE_PAGE_SIZE)) < 65536
  /\ BTREE_PAGE_SIZE <= blen (make BTREE_PAGE_SIZE) < 65536
  /\ exists (j : nat) (l r : BNode),
       nodeSplit2 (make (2 * BTREE_PAGE_SIZE)) (make BTREE_PAGE_SIZE)
         grownLeaf = Ok (l, r)
       /\ (1 <= j < length grownLeafEntries)%nat
       /\ btype l = Ok BNODE_LEAF /\ btype r = Ok BNODE_LEAF
       /\ entries_of l = Ok (take j grownLeafEntries)
       /\ entries_of r = Ok (drop j grownLeafEntries)
       /\ nbytes r = Ok (nsize (drop j grownLeafEntries))
       /\ nsize (drop j grownLeafEntries) <= BTREE_PAGE_SIZE.
Proof.
  assert (H2 : (2 <= length grownLeafEntries)%nat) by (simpl; lia).
  assert (H3 : nsize grownLeafEntries
               <= blen (make (2 * BTREE_PAGE_SIZE)) < 65536)
    by (vm_compute; split; congruence).
  assert (H4 : BTREE_PAGE_SIZE <= blen (make BTREE_PAGE_SIZE) < 65536)
    by (vm_compute; split; congruence).
  split; [exact (proj1 grownLeaf_is)|]. split; [exact H2|].
  split; [exact grownLeaf_entries_fit|].
  split; [exact H3|]. split; [exact H4|].
  exact (nodeSplit2_halves (make (2 * BTREE_PAGE_SIZE))
           (make BTREE_PAGE_SIZE) grownLeaf BNODE_LEAF grownLeafEntries
           (proj1 grownLeaf_is) H2 grownLeaf_entries_fit H3 H4).
Defined.

(** * Deletion *)

(** ** A key that is not in the tree *)

Lemma treeDelete_absent (pg : gmap Z BNode) (fr : Z) (q : list byte)
    (h : nat) :
  forall (fuel : nat) (t : tree h) (d : BNode),
    rep pg h t d -> tok h t -> sorted1 (keys (flat h t)) ->
    leaf_get (flat h t) q = None ->
    (h < fuel)%nat ->
    treeDelete fuel d q (mkPager pg fr) = Ok ([], mkPager pg fr).
Proof.
  induction h as [|h IH]; intros fuel t d Hrep Htok Hs Hget Hfuel;
    (destruct fuel as [|fuel]; [lia|]); cbn [treeDelete].
  - simpl in Hrep, Htok, Hget. destruct Htok as (Hne & _ & _).
    rewrite (sbind_lift _ _ _ _ (nodeLookupLE_rep _ _ _ q Hrep)).
    rewrite (sbind_lift _ _ _ _ (rep_btype _ _ _ _ Hrep)).
    change (BNODE_LEAF =? BNODE_LEAF) with true. cbn iota.
    assert (Hlt : (lookupLE (keys t) q < length t)%nat).
    { rewrite <- keys_length. apply lookupLE_lt.
      intros E. apply keys_nil_inv in E. contradiction. }
    destruct (lookup_lt_is_Some_2 t _ Hlt) as [e He].
    rewrite (sbind_lift _ _ _ _ (rep_getKey _ _ _ _ Hrep _ _ He)).
    unfold leaf_get in Hget. rewrite He in Hget. unfold bytes_Equal.
    destruct (decide (e_key e = q)) as [E|N].
    + rewrite bool_decide_eq_true_2 in Hget by exact E. discriminate.
    + rewrite bool_decide_eq_false_2 by congruence. reflexivity.
  - change (list (Z * tree h)) in (type of t).
    destruct Hrep as [Hn Hk]. destruct Htok as (Hne & _ & Hkt).
    rewrite (sbind_lift _ _ _ _ (nodeLookupLE_rep _ _ _ q Hn)).
    rewrite (sbind_lift _ _ _ _ (rep_btype _ _ _ _ Hn)).
    change (BNODE_NODE =? BNODE_LEAF) with false.
    change (BNODE_NODE =? BNODE_NODE) with true. cbn iota.
    rewrite keys_links.
    set (segs := map (fun pt => flat h pt.2) t) in *.
    pose proof (segs_nonempty h t Hkt) as Hsn. fold segs in Hsn.
    simpl flat in Hs, Hget. fold segs in Hs, Hget.
    assert (Hsegs : segs <> [])
      by (subst segs; destruct t; [contradiction|discriminate]).
    destruct (route_idx segs Hsn Hs q Hsegs) as [B HB].
    set (idx := lookupLE (map first_key segs) q) in *.
    assert (Hpt : exists pt, t !! idx = Some pt /\ B = flat h pt.2).
    { pose proof (lookup_lt_Some _ _ _ HB) as Hlt.
      unfold segs in Hlt. rewrite length_map in Hlt.
      destruct (lookup_lt_is_Some_2 t idx Hlt) as [pt Hpt].
      exists pt. split; [exact Hpt|].
      unfold segs in HB. rewrite list_lookup_fmap, Hpt in HB.
      simpl in HB. congruence. }
    destruct Hpt as (pt & Hpt & ->).
    assert (Hl : map (link h) t !! idx = Some (link h pt))
      by (rewrite list_lookup_fmap, Hpt; reflexivity).
    pose proof (Forall_lookup_1 _ _ _ _ Hk Hpt) as (d' & Hd' & Hr').
    pose proof (Forall_lookup_1 _ _ _ _ Hkt Hpt) as Ht'.
    unfold nodeDelete.
    rewrite (sbind_lift _ _ _ _ (rep_getPtr _ _ _ _ Hn _ _ Hl)).
    unfold link at 1, e_ptr. cbn [fst snd].
    rewrite (sbind_Ok _ _ _ _ _ (tree_get_spec pg fr _ _ Hd')).
    assert (Hs' : sorted1 (keys (flat h pt.2))).
    { rewrite (concat_middle segs idx _ HB), !keys_app in Hs.
      exact (sorted1_segment _ _ _ Hs). }
    assert (Hget' : leaf_get (flat h pt.2) q = None)
      by now rewrite <- (route_get segs Hsn Hs q _ HB).
    rewrite (sbind_Ok _ _ _ (mkPager pg fr) []
               (IH fuel pt.2 d' Hr' Ht' Hs' Hget' ltac:(lia))).
    reflexivity.
Qed.

(** X13. On a well-formed tree of any height, Delete of a key that is not
    among the keys in the leaves returns false and leaves the tree as it
    is: the root pointer and every page are unchanged, and no page is
    allocated or freed. *)
Theorem Delete_absent_unchanged (fuel h : nat) (tr : BTree)
    (es : list entry) (q : list byte) :
  contents h tr es -> (h < fuel)%nat -> q ∉ keys es ->
  Delete fuel tr q = Ok (false, tr).
Proof.
  intros Hc Hfuel Hq. destruct tr as [r [pg fr]].
  destruct Hc as [_ Hc]. unfold Delete. cbn [root pager fresh pages] in *.
  destruct Hc as [(-> & _ & ->)|Hh]; [reflexivity|].
  destruct Hh as (t & d & Hd & Hrep & Htok & Hflat & Hord & Hnd & Hb).
  cbn [root pager fresh pages] in *.
  apply Forall_cons in Hb as [Hrb _].
  replace (r =? 0) with false by (symmetry; apply Z.eqb_neq; lia).
  destruct (checkLimit q []); [reflexivity|].
  rewrite (sbind_Ok _ _ _ _ _ (tree_get_spec pg fr _ _ Hd)).
  assert (Hs : sorted1 (keys (flat h t)))
    by (rewrite Hflat; exact (proj1 Hord)).
  assert (Hget : leaf_get (flat h t) q = None).
  { rewrite Hflat. now apply leaf_get_stored; [exact (proj1 Hord)|]. }
  rewrite (sbind_Ok _ _ _ (mkPager pg fr) []
             (treeDelete_absent pg fr q h fuel t d Hrep Htok Hs Hget Hfuel)).
  reflexivity.
Qed.

Lemma Delete_absent_unchanged_witness :
  contents 1 twoLeavesTree twoLeavesEntries
  /\ ([x62] ∉ keys twoLeavesEntries)
  /\ Delete 2 twoLeavesTree [x62] = Ok (false, twoLeavesTree).
Proof.
  assert (H : [x62] ∉ keys twoLeavesEntries).
  { unfold twoLeavesEntries, keys. simpl map.
    rewrite !not_elem_of_cons. repeat split; try discriminate.
    apply not_elem_of_nil. }
  split; [exact twoLeavesTree_contents|]. split; [exact H|].
  apply (Delete_absent_unchanged 2 1 twoLeavesTree twoLeavesEntries [x62]).
  - exact twoLeavesTree_contents.
  - lia.
  - exact H.
Defined.

(** ** Removing an entry from sorted entries *)

Lemma lookup_remove {A} (l : list A) (i j : nat) :
  (i <= length l)%nat ->
  (take i l ++ drop (S i) l) !! j
  = if decide (j < i)%nat then l !! j else l !! S j.
Proof.
  intros Hi. destruct (decide (j < i)%nat) as [H|H].
  - rewrite lookup_app_l by (rewrite length_take; lia).
    now apply lookup_take_lt.
  - rewrite lookup_app_r by (rewrite length_take; lia).
    rewrite length_take, Nat.min_l by lia.
    rewrite lookup_drop. f_equal. lia.
Qed.

Lemma keys_remove (es : list entry) (i : nat) :
  keys (take i es ++ drop (S i) es)
  = take i (keys es) ++ drop (S i) (keys es).
Proof. unfold keys. now rewrite fmap_app, fmap_take, fmap_drop. Qed.

Section LeafDel.
Context (es : list entry) (q : list byte).
Hypothesis Hs : sorted1 (keys es).
Hypothesis Hin : q ∈ keys es.
Hypothesis H0 : keys es !! 0%nat <> Some q.

Let idx := lookupLE (keys es) q.

Lemma del_idx : keys es !! idx = Some q /\ (1 <= idx < length es)%nat.
Proof.
  pose proof (lookupLE_found _ _ Hs Hin) as Hk. fold idx in Hk.
  split; [exact Hk|]. pose proof (lookup_lt_Some _ _ _ Hk) as Hlt.
  rewrite keys_length in Hlt. split; [|exact Hlt].
  destruct idx as [|i] eqn:E; [|lia]. contradiction.
Qed.

Lemma leaf_del_shape :
  exists e, es !! idx = Some e /\ e_key e = q
            /\ leaf_del es q = take idx es ++ drop (S idx) es.
Proof.
  destruct del_idx as [Hk Hi]. rewrite keys_lookup in Hk.
  destruct (es !! idx) as [e|] eqn:He; [|discriminate].
  simpl in Hk. injection Hk as Hk. exists e.
  split; [reflexivity|]. split; [exact Hk|].
  unfold leaf_del. fold idx. rewrite He.
  now rewrite bool_decide_eq_true_2 by (symmetry; exact Hk).
Qed.

Lemma leaf_del_keys :
  keys (leaf_del es q) = take idx (keys es) ++ drop (S idx) (keys es).
Proof.
  destruct leaf_del_shape as (e & _ & _ & ->). apply keys_remove.
Qed.

Lemma leaf_del_head : keys (leaf_del es q) !! 0%nat = keys es !! 0%nat.
Proof.
  destruct del_idx as [_ Hi]. rewrite leaf_del_keys.
  rewrite lookup_remove by (rewrite keys_length; lia).
  destruct (decide (0 < idx)%nat); [reflexivity|lia].
Qed.

Lemma leaf_del_sorted : sorted1 (keys (leaf_del es q)).
Proof.
  destruct del_idx as [_ Hi]. rewrite leaf_del_keys.
  assert (Hlen : (idx <= length (keys es))%nat)
    by (rewrite keys_length; lia).
  apply sorted1_intro.
  - intros i j a b Hij Ha Hb. rewrite lookup_remove in Ha, Hb by exact Hlen.
    destruct (decide (i < idx)%nat); destruct (decide (j < idx)%nat);
      (eapply sorted1_lt; [exact Hs| |exact Ha|exact Hb]; lia).
  - intros a b Ha Hb. rewrite lookup_remove in Ha, Hb by exact Hlen.
    destruct (decide (0 < idx)%nat); [|lia].
    destruct (decide (1 < idx)%nat);
      exact (sorted1_le0 _ _ _ _ Hs Ha Hb).
Qed.

Lemma leaf_get_del (q' : list byte) :
  leaf_get (leaf_del es q) q'
  = if decide (q' = q) then None else leaf_get es q'.
Proof.
  destruct del_idx as [Hk Hi].
  destruct leaf_del_shape as (e & He & Hek & Hdel).
  assert (Hlen : (idx <= length (keys es))%nat)
    by (rewrite keys_length; lia).
  pose proof (lookupLE_spec (keys es) q' (sorted1_increasing _ Hs))
    as (Hr & Hle & Hgt).
  set (i := lookupLE (keys es) q') in *.
  assert (Hil : (i < length es)%nat).
  { destruct Hr as [Hr|Hr]; [now rewrite keys_length in Hr|lia]. }
  (* the key before the one removed is below it *)
  assert (Hprev : forall k, keys es !! (idx - 1)%nat = Some k -> key_lt k q).
  { intros k Hk'. destruct (decide (idx - 1 = 0)%nat) as [E|N].
    - rewrite E in Hk'.
      destruct (key_le_cases k q (sorted1_le0 _ _ _ _ Hs Hk' Hk))
        as [->|Hlt]; [contradiction|exact Hlt].
    - eapply sorted1_lt; [exact Hs| |exact Hk'|exact Hk]. lia. }
  set (i' := if decide (i < idx)%nat then i else (i - 1)%nat).
  assert (Hi' : lookupLE (keys (leaf_del es q)) q' = i').
  { apply lookupLE_unique; [apply sorted1_increasing, leaf_del_sorted|].
    rewrite leaf_del_keys. unfold i'. split.
    - left. rewrite length_app, length_take, length_drop, keys_length.
      destruct (decide (i < idx)%nat); lia.
    - split.
      + intros j a Hj Ha. rewrite lookup_remove in Ha by exact Hlen.
        destruct (decide (i < idx)%nat); destruct (decide (j < idx)%nat);
          (eapply Hle; [|exact Ha]; lia).
      + intros j a Hj1 Hj Ha. rewrite lookup_remove in Ha by exact Hlen.
        destruct (decide (i < idx)%nat); destruct (decide (j < idx)%nat);
          (eapply Hgt; [| |exact Ha]; lia). }
  unfold leaf_get at 1. rewrite Hi', Hdel.
  rewrite lookup_remove by lia. unfold i'.
  destruct (decide (i < idx)%nat) as [H1|H1].
  - destruct (decide (i < idx)%nat); [|lia].
    destruct (decide (q' = q)) as [->|N]; [|reflexivity].
    exfalso. pose proof (lookupLE_found _ _ Hs Hin) as Hf.
    fold i in Hf. fold idx in Hk. unfold i, idx in H1. lia.
  - destruct (decide (i - 1 < idx)%nat) as [H2|H2].
    + (* the index found was that of the key removed *)
      assert (i = idx) as Ei by lia.
      assert (Hq : key_le q q').
      { apply (Hle idx); [lia|exact Hk]. }
      destruct (lookup_lt_is_Some_2 es (i - 1)) as [p Hp]; [lia|].
      rewrite Hp.
      assert (Hpk : key_lt (e_key p) q).
      { apply Hprev. rewrite Ei in Hp.
        rewrite keys_lookup, Hp. reflexivity. }
      rewrite bool_decide_eq_false_2.
      * destruct (decide (q' = q)) as [->|N]; [reflexivity|].
        unfold leaf_get. fold i. rewrite Ei, He.
        now rewrite bool_decide_eq_false_2 by congruence.
      * intros E. rewrite E in Hpk.
        apply (key_lt_irrefl q).
        now apply (key_le_lt_trans q q' q).
    + replace (S (i - 1)) with i by lia.
      destruct (decide (q' = q)) as [->|N]; [|reflexivity].
      exfalso. pose proof (lookupLE_found _ _ Hs Hin) as Hf.
      unfold i, idx in *. lia.
Qed.
End LeafDel.

(** ** A key in a tree that is one leaf *)

(** X14. While the tree is one leaf, Delete of a stored key other than
    the empty key returns true and leaves a well-formed tree of one leaf
    with the entry of that key removed and the others in their order:
    afterwards Get does not find the key and answers as before for every
    other key. *)
Theorem Delete_leaf_root (fuel : nat) (tr : BTree) (es : list entry)
    (q : list byte) :
  contents 0 tr es -> (0 < fuel)%nat -> q ∈ keys es -> q <> [] ->
  exists tr' : BTree,
    Delete fuel tr q = Ok (true, tr')
    /\ contents 0 tr' (leaf_del es q)
    /\ Get fuel tr' q = Ok None
    /\ (forall q', q' <> q -> Get fuel tr' q' = Get fuel tr q').
Proof.
  intros Hc Hfuel Hin Hq.
  assert (Hgoal : exists tr' : BTree,
            Delete fuel tr q = Ok (true, tr')
            /\ contents 0 tr' (leaf_del es q)).
  { destruct tr as [r [pg fr]]. destruct Hc as [[Hfr Hpg] Hc].
    cbn [root pager fresh pages] in *.
    destruct Hc as [(_ & _ & ->)|Hh]; [inversion Hin|].
    destruct Hh as (t & d & Hd & Hrep & Htok & Hflat & [Hs H0] & Hnd & Hb).
    cbn [root pager fresh pages] in *. simpl in Hrep, Htok, Hflat. subst t.
    destruct Htok as (Hne & Hsz & Hok).
    apply Forall_cons in Hb as [Hrb _].
    assert (H0' : keys es !! 0%nat <> Some q) by (rewrite H0; congruence).
    destruct (del_idx es q Hs Hin H0') as [Hk Hi].
    destruct (leaf_del_shape es q Hs Hin H0') as (e & He & Hek & Hdel).
    set (idx := lookupLE (keys es) q) in *.
    assert (Hlim : checkLimit q [] = None).
    { apply checkLimit_ok. rewrite Forall_forall in Hok.
      assert (Hin' : e ∈ es) by now apply list_elem_of_lookup_2 in He.
      destruct (Hok e Hin') as [H1 _]. rewrite Hek in H1.
      split; [exact H1|]. vm_compute. discriminate. }
    pose proof (nsize_remove es idx e He) as Hrem.
    pose proof (esz_pos e) as Hesz.
    assert (Hnew : blen (make BTREE_PAGE_SIZE) = 4096)
      by (apply blen_make; vm_compute; congruence).
    unfold BTREE_PAGE_SIZE in *.
    destruct (leafDelete_rep (make 4096) d BNODE_LEAF es idx Hrep)
      as (d' & Hrun & Hlen & Hd'); [lia|lia|lia|].
    unfold Delete. cbn [root pager].
    replace (r =? 0) with false by (symmetry; apply Z.eqb_neq; lia).
    rewrite Hlim.
    rewrite (sbind_Ok _ _ _ _ _ (tree_get_spec pg fr _ _ Hd)).
    assert (Htd : treeDelete fuel d q (mkPager pg fr)
                  = Ok (d', mkPager pg fr)).
    { destruct fuel as [|fuel]; [lia|]. cbn [treeDelete].
      rewrite (sbind_lift _ _ _ _ (nodeLookupLE_rep _ _ _ q Hrep)).
      rewrite (sbind_lift _ _ _ _ (rep_btype _ _ _ _ Hrep)).
      change (BNODE_LEAF =? BNODE_LEAF) with true. cbn iota.
      rewrite (sbind_lift _ _ _ _ (rep_getKey _ _ _ _ Hrep _ _ He)).
      unfold bytes_Equal.
      rewrite bool_decide_eq_true_2 by (symmetry; exact Hek). cbn [negb].
      fold idx. unfold lift, BTREE_PAGE_SIZE. now rewrite Hrun. }
    rewrite (sbind_Ok _ _ _ _ _ Htd).
    replace (blen d' =? 0) with false by (symmetry; apply Z.eqb_neq; lia).
    assert (Hfree : delete r pg !! fr = None).
    { rewrite lookup_delete_ne by lia. apply Hpg. lia. }
    assert (Hroot : Delete_root r d' (mkPager pg fr)
                    = Ok (fr, mkPager (<[fr := d']> (delete r pg)) (fr + 1))).
    { unfold Delete_root.
      rewrite (sbind_Ok _ _ _ _ _ (tree_del_spec pg fr _ _ Hd)).
      rewrite (sbind_lift _ _ _ _ (rep_btype _ _ _ _ Hd')).
      change (BNODE_LEAF =? BNODE_NODE) with false. cbn iota.
      unfold mret at 1. unfold sbind at 1.
      apply (tree_new_spec (delete r pg) fr d' _ _ Hd'); [|exact Hfree].
      unfold BTREE_PAGE_SIZE. lia. }
    rewrite (sbind_Ok _ _ _ _ _ Hroot). unfold mret.
    exists (mkBTree fr (mkPager (<[fr := d']> (delete r pg)) (fr + 1))).
    split; [reflexivity|]. rewrite Hdel. split.
    - split; [simpl; lia|]. intros p Hp. simpl in *.
      rewrite lookup_insert_ne by lia.
      rewrite lookup_delete_ne by lia. apply Hpg. lia.
    - right. exists (take idx es ++ drop (S idx) es), d'.
      cbn [root pager pages fresh tok rep flat ptrs].
      split; [apply lookup_insert_eq|]. split; [exact Hd'|].
      split.
      { split; [|split].
        - intros E. apply (f_equal length) in E.
          rewrite length_app, length_take in E. simpl in E. lia.
        - rewrite Hrem. unfold BTREE_PAGE_SIZE. lia.
        - apply Forall_app. split;
            [now apply Forall_take|now apply Forall_drop]. }
      split; [reflexivity|]. rewrite <- Hdel. split.
      { split; [now apply leaf_del_sorted|].
        rewrite <- H0. now apply leaf_del_head. }
      split; [repeat constructor; intros H; inversion H|].
      repeat constructor; lia. }
  destruct Hgoal as (tr' & Hrun & Hc').
  exists tr'. split; [exact Hrun|]. split; [exact Hc'|].
  destruct (contents_order _ _ _ Hc) as [->|[Hs H0]]; [inversion Hin|].
  assert (H0' : keys es !! 0%nat <> Some q) by (rewrite H0; congruence).
  split.
  - rewrite (Get_spec fuel 0 tr' _ q Hc' Hfuel).
    rewrite (leaf_get_del es q Hs Hin H0' q).
    destruct (decide (q = q)); [reflexivity|contradiction].
  - intros q' Hq'.
    rewrite (Get_spec fuel 0 tr' _ q' Hc' Hfuel).
    rewrite (Get_spec fuel 0 tr _ q' Hc Hfuel).
    rewrite (leaf_get_del es q Hs Hin H0' q').
    destruct (decide (q' = q)); [contradiction|reflexivity].
Qed.

Lemma Delete_leaf_root_witness :
  contents 0 oneKeyTree oneKeyEntries
  /\ [x61] ∈ keys oneKeyEntries
  /\ exists tr' : BTree,
       Delete 1 oneKeyTree [x61] = Ok (true, tr')
       /\ contents 0 tr' (leaf_del oneKeyEntries [x61])
       /\ Get 1 tr' [x61] = Ok None
       /\ (forall q', q' <> [x61] -> Get 1 tr' q' = Get 1 oneKeyTree q').
Proof.
  assert (H : [x61] ∈ keys oneKeyEntries).
  { unfold oneKeyEntries, keys. simpl map.
    apply elem_of_cons. right. apply elem_of_cons. now left. }
  split; [exact oneKeyTree_contents|]. split; [exact H|].
  apply (Delete_leaf_root 1 oneKeyTree oneKeyEntries [x61]).
  - exact oneKeyTree_contents.
  - lia.
  - exact H.
  - discriminate.
Defined.

(** ** The iterator *)

Lemma SeekLE_loop_0 (fuel : nat) (q : list byte) (it : BIter) (s : Pager) :
  SeekLE_loop fuel 0 q it s = Ok (it, s).
Proof. destruct fuel; reflexivity. Qed.

Lemma SeekLE_loop_spec (pg : gmap Z BNode) (fr : Z) (q : list byte)
    (h : nat) :
  forall (fuel : nat) (t : tree h) (d : BNode) (p : Z) (it : BIter),
    pg !! p = Some d -> p <> 0 ->
    rep pg h t d -> tok h t -> sorted1 (keys (flat h t)) ->
    (forall p', p' ∈ ptrs h t -> p' <> 0) ->
    (h < fuel)%nat ->
    exists (path : list BNode) (pos : list Z) (dl : BNode)
           (els : list entry),
      SeekLE_loop fuel p q it (mkPager pg fr)
      = Ok (mkBIter (Path it ++ path ++ [dl])
                    (Pos it ++ pos ++ [Z.of_nat (lookupLE (keys els) q)]),
            mkPager pg fr)
      /\ length path = h /\ length pos = h
      /\ node_is dl BNODE_LEAF els
      /\ (lookupLE (keys els) q < length els)%nat
      /\ els !! lookupLE (keys els) q
         = flat h t !! lookupLE (keys (flat h t)) q.
Proof.
  induction h as [|h IH]; intros fuel t d p it Hd Hp Hrep Htok Hs Hnz Hfuel;
    (destruct fuel as [|fuel]; [lia|]); cbn [SeekLE_loop];
    (replace (p =? 0) with false by (symmetry; apply Z.eqb_neq; exact Hp));
    rewrite (sbind_Ok _ _ _ _ _ (tree_get_spec pg fr _ _ Hd)).
  - (* a leaf *)
    simpl in Hrep, Htok. destruct Htok as (Hne & _ & _).
    rewrite (sbind_lift _ _ _ _ (nodeLookupLE_rep _ _ _ q Hrep)).
    rewrite (sbind_lift _ _ _ _ (rep_btype _ _ _ _ Hrep)).
    change (BNODE_LEAF =? BNODE_NODE) with false. cbn iota.
    unfold sbind at 1, mret at 1. rewrite SeekLE_loop_0.
    exists [], [], d, t. cbn [Path Pos app length flat].
    split; [reflexivity|]. split; [reflexivity|]. split; [reflexivity|].
    split; [exact Hrep|]. split; [|reflexivity].
    rewrite <- keys_length. apply lookupLE_lt.
    intros E. apply keys_nil_inv in E. contradiction.
  - (* an internal node *)
    change (list (Z * tree h)) in (type of t).
    destruct Hrep as [Hn Hk]. destruct Htok as (Hne & _ & Hkt).
    rewrite (sbind_lift _ _ _ _ (nodeLookupLE_rep _ _ _ q Hn)).
    rewrite (sbind_lift _ _ _ _ (rep_btype _ _ _ _ Hn)).
    change (BNODE_NODE =? BNODE_NODE) with true. cbn iota.
    rewrite keys_links.
    set (segs := map (fun pt => flat h pt.2) t) in *.
    pose proof (segs_nonempty h t Hkt) as Hsn. fold segs in Hsn.
    simpl flat in Hs |- *. fold segs in Hs |- *.
    assert (Hsegs : segs <> [])
      by (subst segs; destruct t; [contradiction|discriminate]).
    destruct (route_idx segs Hsn Hs q Hsegs) as [B HB].
    set (idx := lookupLE (map first_key segs) q) in *.
    assert (Hpt : exists pt, t !! idx = Some pt /\ B = flat h pt.2).
    { pose proof (lookup_lt_Some _ _ _ HB) as Hlt.
      unfold segs in Hlt. rewrite length_map in Hlt.
      destruct (lookup_lt_is_Some_2 t idx Hlt) as [pt Hpt].
      exists pt. split; [exact Hpt|].
      unfold segs in HB. rewrite list_lookup_fmap, Hpt in HB.
      simpl in HB. congruence. }
    destruct Hpt as (pt & Hpt & ->).
    assert (Hl : map (link h) t !! idx = Some (link h pt))
      by (rewrite list_lookup_fmap, Hpt; reflexivity).
    rewrite (sbind_lift _ _ _ _ (rep_getPtr _ _ _ _ Hn _ _ Hl)).
    pose proof (Forall_lookup_1 _ _ _ _ Hk Hpt) as (d' & Hd' & Hr').
    pose proof (Forall_lookup_1 _ _ _ _ Hkt Hpt) as Ht'.
    unfold link at 1, e_ptr. cbn [fst snd].
    assert (Hin : pt ∈ t) by (now apply list_elem_of_lookup_2 in Hpt).
    assert (Hs' : sorted1 (keys (flat h pt.2))).
    { rewrite (concat_middle segs idx _ HB), !keys_app in Hs.
      exact (sorted1_segment _ _ _ Hs). }
    destruct (IH fuel pt.2 d' pt.1
                (mkBIter (Path it ++ [d]) (Pos it ++ [Z.of_nat idx]))
                Hd') as (path & pos & dl & els & Hrun & Hlp & Hlq & Hdl
                         & Hlt & Hlk).
    + apply Hnz. apply (elem_of_ptrs h t pt); [exact Hin|now left].
    + exact Hr'.
    + exact Ht'.
    + exact Hs'.
    + intros p' Hp'. apply Hnz.
      apply (elem_of_ptrs h t pt); [exact Hin|now right].
    + lia.
    + exists (d :: path), (Z.of_nat idx :: pos), dl, els.
      rewrite Hrun. cbn [Path Pos length].
      rewrite <- !app_assoc. cbn [app].
      split; [reflexivity|]. split; [now rewrite Hlp|].
      split; [now rewrite Hlq|]. split; [exact Hdl|].
      split; [exact Hlt|]. rewrite Hlk.
      destruct (route_lookup segs Hsn Hs q _ HB) as [Hi Hlt'].
      fold idx in Hi. rewrite Hi.
      rewrite (concat_middle segs idx _ HB) at 1.
      rewrite lookup_app_r by lia.
      replace (length (concat (take idx segs))
               + lookupLE (keys (flat h pt.2)) q
               - length (concat (take idx segs)))%nat
        with (lookupLE (keys (flat h pt.2)) q) by lia.
      now rewrite lookup_app_l by exact Hlt'.
Qed.

(** X15. On a well-formed tree of any height SeekLE stops on the entry
    with the greatest key at most the search key: the iterator holds one
    node and one position per level, Deref returns the key and value of an
    entry in the leaves whose key is at most the search key, and every
    entry after it has a greater key. On the empty tree the iterator is
    not valid and Deref returns (nil, nil). *)
Theorem SeekLE_Deref (fuel h : nat) (tr : BTree) (es : list entry)
    (q : list byte) :
  contents h tr es -> (h < fuel)%nat ->
  exists it : BIter,
    SeekLE fuel tr q = Ok it
    /\ (es = [] -> Valid it = false /\ Deref it = Ok ([], []))
    /\ (es <> [] ->
        exists (i : nat) (e : entry),
          es !! i = Some e
          /\ length (Path it) = S h /\ length (Pos it) = S h
          /\ Valid it = true
          /\ Deref it = Ok (e_key e, e_val e)
          /\ key_le (e_key e) q
          /\ (forall (j : nat) (e' : entry),
                (i < j)%nat -> es !! j = Some e' -> key_lt q (e_key e'))).
Proof.
  destruct tr as [r [pg fr]]. intros [_ Hc] Hfuel.
  cbn [root pager fresh pages] in *. unfold SeekLE. cbn [root pager].
  destruct Hc as [(-> & -> & ->)|Hh].
  - rewrite SeekLE_loop_0. exists (mkBIter [] []). cbn [rbind fst].
    split; [reflexivity|]. split; [intros _; split; reflexivity|].
    intros H. contradiction.
  - destruct Hh as (t & d & Hd & Hrep & Htok & Hflat & Hord & Hnd & Hb).
    cbn [root pager fresh pages] in *.
    apply Forall_cons in Hb as [Hrb Hb].
    destruct (SeekLE_loop_spec pg fr q h fuel t d r (mkBIter [] []) Hd)
      as (path & pos & dl & els & Hrun & Hlp & Hlq & Hdl & Hlt & Hlk);
      [lia|exact Hrep|exact Htok|rewrite Hflat; exact (proj1 Hord)| |
       exact Hfuel|].
    { intros p' Hp'. rewrite Forall_forall in Hb.
      specialize (Hb p' Hp'). lia. }
    rewrite Hrun. cbn [rbind fst Path Pos app]. rewrite Hflat in Hlk.
    eexists. split; [reflexivity|]. split.
    { intros E. exfalso. apply (flat_nonempty h t Htok). now rewrite Hflat. }
    intros _. set (i := lookupLE (keys els) q) in *.
    destruct (lookup_lt_is_Some_2 els i Hlt) as [e He].
    exists (lookupLE (keys es) q), e.
    assert (Hv : Valid (mkBIter (path ++ [dl]) (pos ++ [Z.of_nat i]))
                 = true).
    { unfold Valid. cbn [Path Pos]. rewrite !length_app. cbn [length].
      apply andb_true_intro. split; apply Nat.ltb_lt; lia. }
    split; [now rewrite <- Hlk|].
    cbn [Path Pos]. rewrite !length_app. cbn [length].
    split; [lia|]. split; [lia|]. split; [exact Hv|]. split.
    { unfold Deref. rewrite Hv. cbn [negb Path Pos].
      rewrite !last_snoc.
      rewrite (rep_getKey _ _ _ _ Hdl _ _ He). cbn [rbind].
      rewrite (rep_getVal _ _ _ _ Hdl _ _ He). reflexivity. }
    destruct Hord as [Hs H0].
    pose proof (lookupLE_spec (keys es) q (proj1 Hs)) as (_ & Hle & Hgt).
    rewrite He in Hlk. symmetry in Hlk.
    split.
    + destruct (decide (lookupLE (keys es) q = 0%nat)) as [E|N].
      * rewrite E in Hlk. rewrite keys_lookup, Hlk in H0.
        simpl in H0. injection H0 as ->. apply key_le_nil.
      * apply (Hle (lookupLE (keys es) q)); [lia|].
        rewrite keys_lookup, Hlk. reflexivity.
    + intros j e' Hj He'. apply (Hgt j); [lia|exact Hj|].
      rewrite keys_lookup, He'. reflexivity.
Qed.

Lemma SeekLE_Deref_witness :
  exists it : BIter,
    SeekLE 2 twoLeavesTree [x62] = Ok it
    /\ (twoLeavesEntries = [] -> Valid it = false /\ Deref it = Ok ([], []))
    /\ (twoLeavesEntries <> [] ->
        exists (i : nat) (e : entry),
          twoLeavesEntries !! i = Some e
          /\ length (Path it) = 2%nat /\ length (Pos it) = 2%nat
          /\ Valid it = true
          /\ Deref it = Ok (e_key e, e_val e)
          /\ key_le (e_key e) [x62]
          /\ (forall (j : nat) (e' : entry),
                (i < j)%nat -> twoLeavesEntries !! j = Some e' ->
                key_lt [x62] (e_key e'))).
Proof.
  apply (SeekLE_Deref 2 1 twoLeavesTree twoLeavesEntries [x62]).
  - exact twoLeavesTree_contents.
  - lia.
Defined.

(** ** Update *)

Lemma leaf_put_keys_stored (es : list entry) (k v : list byte) :
  sorted1 (keys es) -> k ∈ keys es -> keys (leaf_put es k v) = keys es.
Proof.
  intros Hs Hin. pose proof (lookupLE_found _ _ Hs Hin) as Hk.
  pose proof Hk as Hk'. rewrite keys_lookup in Hk'. unfold leaf_put.
  destruct (es !! lookupLE (keys es) k) as [e|] eqn:He; [|discriminate].
  simpl in Hk'. injection Hk' as Hk'.
  rewrite bool_decide_eq_true_2 by (now symmetry).
  rewrite keys_splice. unfold e_key at 1. cbn [fst snd].
  now apply take_drop_middle.
Qed.

Lemma stored_in_order (h : nat) (tr : BTree) (es : list entry)
    (q : list byte) :
  contents h tr es -> q ∈ keys es -> in_order es.
Proof.
  intros Hc Hin. destruct (contents_order h tr es Hc) as [-> | H];
    [inversion Hin|exact H].
Qed.

(** X16. Update in mode 1 (update only) on a well-formed tree: for a key
    that is not stored it returns (false, nil) and leaves the tree as it
    is; for a stored key and a value within the limit it returns
    (true, nil) and a well-formed tree with the same keys in which Get
    finds the new value; for a stored key and a value over the limit it
    returns true together with the error of Insert, the tree unchanged. *)
Theorem Update_update_only (fuel h : nat) (tr : BTree) (es : list entry)
    (k v : list byte) :
  contents h tr es ->
  (h + 2 <= fuel)%nat ->
  fresh (pager tr) + 3 * Z.of_nat h + 4 <= 18446744073709551616 ->
  (k ∉ keys es -> Update fuel tr k v 1 = Ok (false, None, tr))
  /\ (k ∈ keys es -> blen v <= BTREE_MAX_VAL_SIZE ->
        exists (h' : nat) (tr' : BTree),
          Update fuel tr k v 1 = Ok (true, None, tr')
          /\ contents h' tr' (put es k v)
          /\ keys (put es k v) = keys es
          /\ Get fuel tr' k = Ok (Some v))
  /\ (k ∈ keys es -> blen v > BTREE_MAX_VAL_SIZE ->
        Update fuel tr k v 1
        = Ok (true, Some "value too large"%string, tr)).
Proof.
  intros Hc Hfuel Hmax. unfold Update. cbn [Z.eqb Pos.eqb].
  rewrite (Get_spec fuel h tr es k Hc) by lia. cbn [rbind].
  split; [|split].
  - intros Hnot.
    destruct (contents_order h tr es Hc) as [-> | [Hs _]];
      [reflexivity|].
    now rewrite (proj2 (leaf_get_stored es k Hs) Hnot).
  - intros Hin Hv.
    pose proof (stored_in_order h tr es k Hc Hin) as Hord.
    destruct (proj1 (leaf_get_stored es k (proj1 Hord)) Hin)
      as (p & v0 & Hg & Hmem).
    rewrite Hg.
    assert (Hlim : checkLimit k v = None).
    { apply checkLimit_ok. unfold entry_ok, e_key, e_val.
      cbn [fst snd]. split; [|exact Hv].
      destruct Hc as [_ [(_ & _ & ->)|Hh]]; [inversion Hin|].
      destruct Hh as (t & d & _ & _ & Htok & Hflat & _).
      pose proof (tok_entry_ok h t Htok) as Hok. rewrite Hflat in Hok.
      rewrite Forall_forall in Hok. specialize (Hok _ Hmem).
      unfold entry_ok, e_key in Hok. cbn [fst snd] in Hok.
      exact (proj1 Hok). }
    destruct (Insert_spec fuel h tr es k v Hc Hlim ltac:(lia) Hmax)
      as (h' & tr' & Hrun & Hc' & Hh & _).
    exists h', tr'. rewrite Hrun. cbn [rbind fst snd].
    split; [reflexivity|]. split; [exact Hc'|]. split.
    + destruct es as [|e es]; [inversion Hin|]. cbn [put].
      apply leaf_put_keys_stored; [exact (proj1 Hord)|exact Hin].
    + rewrite (Get_spec fuel h' tr' _ k Hc') by lia.
      f_equal. apply get_put_same. now right.
  - intros Hin Hv.
    pose proof (stored_in_order h tr es k Hc Hin) as Hord.
    destruct (proj1 (leaf_get_stored es k (proj1 Hord)) Hin)
      as (p & v0 & Hg & Hmem).
    rewrite Hg.
    assert (Hk : blen k <= BTREE_MAX_KEY_SIZE).
    { destruct Hc as [_ [(_ & _ & ->)|Hh]]; [inversion Hin|].
      destruct Hh as (t & d & _ & _ & Htok & Hflat & _).
      pose proof (tok_entry_ok h t Htok) as Hok. rewrite Hflat in Hok.
      rewrite Forall_forall in Hok. specialize (Hok _ Hmem).
      unfold entry_ok, e_key in Hok. cbn [fst snd] in Hok.
      exact (proj1 Hok). }
    unfold Insert, checkLimit.
    replace (blen k >? BTREE_MAX_KEY_SIZE) with false
      by (symmetry; rewrite Z.gtb_ltb; apply Z.ltb_ge; lia).
    replace (blen v >? BTREE_MAX_VAL_SIZE) with true
      by (symmetry; rewrite Z.gtb_ltb; apply Z.ltb_lt; lia).
    reflexivity.
Qed.

Lemma Update_update_only_witness :
  contents 1 twoLeavesTree twoLeavesEntries
  /\ (bigKey x14 ∉ keys twoLeavesEntries ->
        Update 3 twoLeavesTree (bigKey x14) [x31] 1
        = Ok (false, None, twoLeavesTree))
  /\ (bigKey x14 ∈ keys twoLeavesEntries ->
      blen [x31] <= BTREE_MAX_VAL_SIZE ->
        exists (h' : nat) (tr' : BTree),
          Update 3 twoLeavesTree (bigKey x14) [x31] 1 = Ok (true, None, tr')
          /\ contents h' tr' (put twoLeavesEntries (bigKey x14) [x31])
          /\ keys (put twoLeavesEntries (bigKey x14) [x31])
             = keys twoLeavesEntries
          /\ Get 3 tr' (bigKey x14) = Ok (Some [x31]))
  /\ (bigKey x14 ∈ keys twoLeavesEntries ->
      blen [x31] > BTREE_MAX_VAL_SIZE ->
        Update 3 twoLeavesTree (bigKey x14) [x31] 1
        = Ok (true, Some "value too large"%string, twoLeavesTree)).
Proof.
  split; [exact twoLeavesTree_contents|].
  apply (Update_update_only 3 1 twoLeavesTree twoLeavesEntries
           (bigKey x14) [x31]).
  - exact twoLeavesTree_contents.
  - lia.
  - rewrite twoLeavesTree_fresh. lia.
Defined.

(** X17. Update in mode 2 (insert only) on a well-formed tree: for a key
    that is stored it returns (false, nil) and leaves the tree as it is,
    so the old value stays; for a key that is not stored and within the
    limits it returns (true, nil) and a well-formed tree that holds the
    new entry, which Get finds; for a key that is not stored and over a
    limit it returns true together with the error of checkLimit, the tree
    unchanged. *)
Theorem Update_insert_only (fuel h : nat) (tr : BTree) (es : list entry)
    (k v : list byte) :
  contents h tr es ->
  (h + 2 <= fuel)%nat ->
  fresh (pager tr) + 3 * Z.of_nat h + 4 <= 18446744073709551616 ->
  (k ∈ keys es ->
     Update fuel tr k v 2 = Ok (false, None, tr)
     /\ exists v0, Get fuel tr k = Ok (Some v0))
  /\ (k ∉ keys es -> checkLimit k v = None ->
        exists (h' : nat) (tr' : BTree),
          Update fuel tr k v 2 = Ok (true, None, tr')
          /\ contents h' tr' (put es k v)
          /\ Get fuel tr' k = Ok (Some v))
  /\ (k ∉ keys es -> forall err : string,
        checkLimit k v = Some err ->
        Update fuel tr k v 2 = Ok (true, Some err, tr)).
Proof.
  intros Hc Hfuel Hmax. unfold Update. cbn [Z.eqb Pos.eqb].
  rewrite (Get_spec fuel h tr es k Hc) by lia. cbn [rbind].
  assert (Hnone : k ∉ keys es -> leaf_get es k = None).
  { intros Hnot.
    destruct (contents_order h tr es Hc) as [-> | [Hs _]];
      [reflexivity|].
    exact (proj2 (leaf_get_stored es k Hs) Hnot). }
  split; [|split].
  - intros Hin.
    pose proof (stored_in_order h tr es k Hc Hin) as Hord.
    destruct (proj1 (leaf_get_stored es k (proj1 Hord)) Hin)
      as (p & v0 & Hg & Hmem).
    rewrite Hg. split; [reflexivity|now exists v0].
  - intros Hnot Hlim. rewrite (Hnone Hnot).
    destruct (Insert_spec fuel h tr es k v Hc Hlim ltac:(lia) Hmax)
      as (h' & tr' & Hrun & Hc' & Hh & _).
    exists h', tr'. rewrite Hrun. cbn [rbind fst snd].
    split; [reflexivity|]. split; [exact Hc'|].
    rewrite (Get_spec fuel h' tr' _ k Hc') by lia.
    f_equal. apply get_put_same. exact (contents_order h tr es Hc).
  - intros Hnot err Hlim. rewrite (Hnone Hnot).
    unfold Insert. rewrite Hlim. reflexivity.
Qed.

Lemma Update_insert_only_witness :
  contents 1 twoLeavesTree twoLeavesEntries
  /\ (bigKey x14 ∈ keys twoLeavesEntries ->
        Update 3 twoLeavesTree (bigKey x14) [x31] 2
        = Ok (false, None, twoLeavesTree)
        /\ exists v0, Get 3 twoLeavesTree (bigKey x14) = Ok (Some v0))
  /\ (bigKey x14 ∉ keys twoLeavesEntries ->
      checkLimit (bigKey x14) [x31] = None ->
        exists (h' : nat) (tr' : BTree),
          Update 3 twoLeavesTree (bigKey x14) [x31] 2 = Ok (true, None, tr')
          /\ contents h' tr' (put twoLeavesEntries (bigKey x14) [x31])
          /\ Get 3 tr' (bigKey x14) = Ok (Some [x31]))
  /\ (bigKey x14 ∉ keys twoLeavesEntries -> forall err : string,
        checkLimit (bigKey x14) [x31] = Some err ->
        Update 3 twoLeavesTree (bigKey x14) [x31] 2
        = Ok (true, Some err, twoLeavesTree)).
Proof.
  split; [exact twoLeavesTree_contents|].
  apply (Update_insert_only 3 1 twoLeavesTree twoLeavesEntries
           (bigKey x14) [x31]).
  - exact twoLeavesTree_contents.
  - lia.
  - rewrite twoLeavesTree_fresh. lia.
Defined.

(** ** What Commit writes, and when *)

(** X18. A Commit by the holder of the writer mutex never panics and
    releases the mutex. With a changed root it calls FlushPages and Sync
    first; only when that fsync succeeds does it publish the root and the
    free list of the transaction and call StoreMaster and Sync, in this
    order; when the first fsync fails, StoreMaster is not called. It
    returns nil exactly when the root is unchanged or both fsyncs
    succeed. ([io] lists the calls latest first.) *)
Theorem Commit_io_order (s1 s2 : option string) (kv : Tx.KV)
    (tx : Tx.KVTX) :
  Tx.writer kv = true ->
  exists (err : option string) (kv' : Tx.KV),
    Tx.Commit s1 s2 kv tx = Ok (err, kv')
    /\ Tx.writer kv' = false
    /\ Tx.io kv'
       = (if Tx.tree_root kv =? Tx.tx_root tx then []
          else match s1 with
               | Some _ => [Tx.EvSync; Tx.EvFlushPages]
               | None => [Tx.EvSync; Tx.EvStoreMaster;
                          Tx.EvSync; Tx.EvFlushPages]
               end) ++ Tx.io kv
    /\ (Tx.tree_root kv <> Tx.tx_root tx -> s1 = None ->
          Tx.tree_root kv' = Tx.tx_root tx
          /\ Tx.free kv' = Tx.fl_data (Tx.tx_free tx))
    /\ (err = None <->
        Tx.tree_root kv = Tx.tx_root tx \/ (s1 = None /\ s2 = None)).
Proof.
  intros Hw. unfold Tx.Commit, Tx.Commit_body.
  destruct (Z.eqb_spec (Tx.tree_root kv) (Tx.tx_root tx)) as [E|N].
  - unfold Tx.Unlock. rewrite Hw. cbn [rbind]. do 2 eexists.
    split; [reflexivity|]. split; [reflexivity|]. split; [reflexivity|].
    split; [intros C; contradiction|]. split; [now left|reflexivity].
  - destruct s1 as [e1|]; [|destruct s2 as [e2|]];
      cbn; unfold Tx.Unlock; cbn; rewrite Hw; cbn [rbind];
      do 2 eexists; (split; [reflexivity|]);
      (split; [reflexivity|]); (split; [reflexivity|]).
    + split; [intros _ C; discriminate|].
      split; [discriminate|intros [C|[C _]]; [contradiction|discriminate]].
    + split; [intros _ _; split; reflexivity|].
      split; [discriminate|intros [C|[_ C]]; [contradiction|discriminate]].
    + split; [intros _ _; split; reflexivity|].
      split; [intros _; right; split; reflexivity|reflexivity].
Qed.

Lemma Commit_io_order_witness :
  exists kv tx,
    Tx.Begin storeV7 zeroTX = Some (kv, tx)
    /\ Tx.writer kv = true
    /\ exists (err : option string) (kv' : Tx.KV),
         Tx.Commit None None kv (Tx.set_tx_root 2 tx) = Ok (err, kv')
         /\ Tx.writer kv' = false
         /\ Tx.io kv'
            = (if Tx.tree_root kv =? Tx.tx_root (Tx.set_tx_root 2 tx)
               then []
               else [Tx.EvSync; Tx.EvStoreMaster;
                     Tx.EvSync; Tx.EvFlushPages]) ++ Tx.io kv
         /\ (Tx.tree_root kv <> Tx.tx_root (Tx.set_tx_root 2 tx) ->
             @None string = None ->
               Tx.tree_root kv' = Tx.tx_root (Tx.set_tx_root 2 tx)
               /\ Tx.free kv' = Tx.fl_data (Tx.tx_free (Tx.set_tx_root 2 tx)))
         /\ (err = None <->
             Tx.tree_root kv = Tx.tx_root (Tx.set_tx_root 2 tx)
             \/ (@None string = None /\ @None string = None)).
Proof.
  do 2 eexists. split; [reflexivity|]. split; [reflexivity|].
  apply (Commit_io_order None None); reflexivity.
Defined.

(** X19. When the first fsync of a Commit with a changed root fails,
    Commit returns the error prefixed with "fsync: " and what rollbackTX
    leaves: the root of the store is the root of the transaction, not the
    root the store had, and the count of flushed pages is zero; the free
    list and the version are as before and the mutex is released. *)
Theorem Commit_failed_fsync_rollback (e : string) (s2 : option string)
    (kv : Tx.KV) (tx : Tx.KVTX) :
  Tx.writer kv = true ->
  Tx.tree_root kv <> Tx.tx_root tx ->
  exists kv' : Tx.KV,
    Tx.Commit (Some e) s2 kv tx = Ok (Some ("fsync: " ++ e)%string, kv')
    /\ Tx.tree_root kv' = Tx.tx_root tx
    /\ Tx.page_flushed kv' = 0
    /\ Tx.free kv' = Tx.free kv
    /\ Tx.version kv' = Tx.version kv
    /\ Tx.writer kv' = false.
Proof.
  intros Hw N. unfold Tx.Commit, Tx.Commit_body.
  destruct (Z.eqb_spec (Tx.tree_root kv) (Tx.tx_root tx)) as [E|_];
    [contradiction|].
  cbn. unfold Tx.Unlock. cbn. rewrite Hw. cbn [rbind].
  eexists. split; [reflexivity|]. repeat split.
Qed.

Lemma Commit_failed_fsync_rollback_witness :
  exists kv tx,
    Tx.Begin storeV7 zeroTX = Some (kv, tx)
    /\ Tx.tree_root kv <> Tx.tx_root (Tx.set_tx_root 2 tx)
    /\ exists kv' : Tx.KV,
         Tx.Commit (Some "EIO"%string) None kv (Tx.set_tx_root 2 tx)
         = Ok (Some "fsync: EIO"%string, kv')
         /\ Tx.tree_root kv' = 2
         /\ Tx.page_flushed kv' = 0
         /\ Tx.free kv' = Tx.free kv
         /\ Tx.version kv' = Tx.version kv
         /\ Tx.writer kv' = false.
Proof.
  do 2 eexists. split; [reflexivity|]. split; [discriminate|].
  apply (Commit_failed_fsync_rollback "EIO" None); [reflexivity|discriminate].
Defined.

(** ** When nodeDelete merges *)

(** X21. shouldMerge reads the pages only. It proposes a merge only for
    an updated child of at most a quarter page, only with the sibling
    stored under the neighbouring link of the parent (the left one for
    -1, the right one for +1), and only when the two nodes merged fit a
    page; with direction 0 it returns the empty node. The left sibling is
    taken whenever it fits. *)
Theorem shouldMerge_fits (pg : gmap Z BNode) (fr : Z)
    (node updated : BNode) (t tu : Z) (es us : list entry) (idx : nat) :
  node_is node t es ->
  (idx < length es)%nat ->
  node_is updated tu us ->
  (forall e, e ∈ es ->
     exists ds ts ss, pg !! e_ptr e = Some ds /\ node_is ds ts ss
                      /\ nsize ss <= BTREE_PAGE_SIZE) ->
  exists (dir : Z) (sib : BNode),
    shouldMerge node (Z.of_nat idx) updated (mkPager pg fr)
    = Ok ((dir, sib), mkPager pg fr)
    /\ (dir = -1 \/ dir = 0 \/ dir = 1)
    /\ (dir = 0 -> sib = [])
    /\ (dir <> 0 ->
        nsize us <= BTREE_PAGE_SIZE / 4
        /\ exists e ts ss,
             es !! Z.to_nat (Z.of_nat idx + dir) = Some e
             /\ 0 <= Z.of_nat idx + dir
             /\ pg !! e_ptr e = Some sib
             /\ node_is sib ts ss
             /\ nsize ss + nsize us - HEADER <= BTREE_PAGE_SIZE)
    /\ (forall e ds ts ss,
          (0 < idx)%nat -> es !! (idx - 1)%nat = Some e ->
          pg !! e_ptr e = Some ds -> node_is ds ts ss ->
          nsize us <= BTREE_PAGE_SIZE / 4 ->
          nsize ss + nsize us - HEADER <= BTREE_PAGE_SIZE ->
          dir = -1).
Proof.
  intros Hn Hidx Hu Hkids.
  pose proof (rep_n_range _ _ _ _ Hn) as Hrange.
  pose proof (nsize_ge_4 us) as Hus4.
  assert (Hsib : forall j e, es !! j = Some e ->
            exists ds ts ss, getPtr node (Z.of_nat j) = Ok (e_ptr e)
              /\ pg !! e_ptr e = Some ds /\ node_is ds ts ss
              /\ nbytes ds = Ok (nsize ss)
              /\ 4 <= nsize ss <= BTREE_PAGE_SIZE).
  { intros j e He.
    destruct (Hkids e (list_elem_of_lookup_2 _ _ _ He))
      as (ds & ts & ss & Hp & Hds & Hsz).
    exists ds, ts, ss. split; [exact (rep_getPtr _ _ _ _ Hn _ _ He)|].
    split; [exact Hp|]. split; [exact Hds|].
    split; [exact (rep_nbytes _ _ _ _ Hds eq_refl)|].
    pose proof (nsize_ge_4 ss). lia. }
  unfold shouldMerge.
  rewrite (sbind_lift _ _ _ _ (rep_nbytes _ _ _ _ Hu eq_refl)).
  change (BTREE_PAGE_SIZE / 4) with 1024.
  destruct (Z.gtb_spec (nsize us) 1024) as [Hbig|Hsmall].
  { exists 0, []. split; [reflexivity|]. split; [lia|].
    split; [reflexivity|]. split; [intros C; contradiction|].
    intros; lia. }
  set (tryRight := sbind (lift (nkeys node)) _).
  assert (HR : exists (dir : Z) (sib : BNode),
            tryRight (mkPager pg fr) = Ok ((dir, sib), mkPager pg fr)
            /\ (dir = 0 \/ dir = 1)
            /\ (dir = 0 -> sib = [])
            /\ (dir <> 0 ->
                exists e ts ss,
                  es !! S idx = Some e
                  /\ pg !! e_ptr e = Some sib
                  /\ node_is sib ts ss
                  /\ nsize ss + nsize us - HEADER <= BTREE_PAGE_SIZE)).
  { subst tryRight.
    rewrite (sbind_lift _ _ _ _ (rep_nkeys _ _ _ _ Hn)).
    rewrite u16_small by lia.
    destruct (Z.ltb_spec (Z.of_nat idx + 1) (Z.of_nat (length es)))
      as [Hlt|Hge].
    - destruct (lookup_lt_is_Some_2 es (S idx) ltac:(lia)) as [e He].
      destruct (Hsib _ _ He) as (ds & ts & ss & Hp & Hpg & Hds & Hnb & Hsz).
      replace (Z.of_nat idx + 1) with (Z.of_nat (S idx)) by lia.
      rewrite (sbind_lift _ _ _ _ Hp).
      rewrite (sbind_Ok _ _ _ _ _ (tree_get_spec pg fr _ _ Hpg)).
      rewrite (sbind_lift _ _ _ _ Hnb).
      unfold HEADER, BTREE_PAGE_SIZE in *. rewrite u16_small by lia.
      destruct (Z.leb_spec (nsize ss + nsize us - 4) 4096) as [Hf|Hnf].
      + exists 1, ds. split; [reflexivity|]. split; [now right|].
        split; [intros C; discriminate|]. intros _.
        exists e, ts, ss.
        split; [exact He|]. split; [exact Hpg|]. split; [exact Hds|exact Hf].
      + exists 0, []. split; [reflexivity|]. split; [now left|].
        split; [reflexivity|]. intros C; contradiction.
    - exists 0, []. split; [reflexivity|]. split; [now left|].
      split; [reflexivity|]. intros C; contradiction. }
  destruct HR as (dirR & sibR & HrunR & HdirR & HsibR & HfitR).
  assert (HfromR :
    exists (dir : Z) (sib : BNode),
      tryRight (mkPager pg fr) = Ok ((dir, sib), mkPager pg fr)
      /\ (dir = -1 \/ dir = 0 \/ dir = 1)
      /\ (dir = 0 -> sib = [])
      /\ (dir <> 0 ->
          nsize us <= 1024
          /\ exists e ts ss,
               es !! Z.to_nat (Z.of_nat idx + dir) = Some e
               /\ 0 <= Z.of_nat idx + dir
               /\ pg !! e_ptr e = Some sib
               /\ node_is sib ts ss
               /\ nsize ss + nsize us - HEADER <= BTREE_PAGE_SIZE)
      /\ dir <> -1).
  { exists dirR, sibR. split; [exact HrunR|]. split; [lia|].
    split; [exact HsibR|]. split; [|lia].
    intros Hd. split; [lia|].
    destruct (HfitR Hd) as (e & ts & ss & He & Hp & Hds & Hf).
    exists e, ts, ss. assert (dirR = 1) as -> by lia.
    replace (Z.to_nat (Z.of_nat idx + 1)) with (S idx) by lia.
    split; [exact He|]. split; [lia|].
    split; [exact Hp|]. split; [exact Hds|exact Hf]. }
  clear HrunR HdirR HsibR HfitR dirR sibR.
  destruct HfromR as (dirR & sibR & HrunR & HdirR & HsibR & HfitR & HnotL).
  destruct (Z.gtb_spec (Z.of_nat idx) 0) as [Hpos|Hzero].
  - destruct (lookup_lt_is_Some_2 es (idx - 1) ltac:(lia)) as [e He].
    destruct (Hsib _ _ He) as (ds & ts & ss & Hp & Hpg & Hds & Hnb & Hsz).
    rewrite u16_small by lia.
    replace (Z.of_nat idx - 1) with (Z.of_nat (idx - 1)) by lia.
    rewrite (sbind_lift _ _ _ _ Hp).
    rewrite (sbind_Ok _ _ _ _ _ (tree_get_spec pg fr _ _ Hpg)).
    rewrite (sbind_lift _ _ _ _ Hnb).
    unfold HEADER, BTREE_PAGE_SIZE in *. rewrite u16_small by lia.
    destruct (Z.leb_spec (nsize ss + nsize us - 4) 4096) as [Hf|Hnf].
    + exists (-1), ds. split; [reflexivity|]. split; [now left|].
      split; [intros C; discriminate|]. split; [|intros; reflexivity].
      intros _. split; [lia|]. exists e, ts, ss.
      replace (Z.to_nat (Z.of_nat idx + -1)) with (idx - 1)%nat by lia.
      split; [exact He|]. split; [lia|].
      split; [exact Hpg|]. split; [exact Hds|exact Hf].
    + exists dirR, sibR. split; [exact HrunR|]. split; [exact HdirR|].
      split; [exact HsibR|]. split; [exact HfitR|].
      intros e' ds' ts' ss' _ He' Hpg' Hds' _ Hf'.
      rewrite He in He'. injection He' as <-.
      rewrite Hpg in Hpg'. injection Hpg' as <-.
      pose proof (rep_nbytes _ _ _ _ Hds' eq_refl) as Hnb'.
      rewrite Hnb in Hnb'. injection Hnb' as Hnb'. lia.
  - exists dirR, sibR. split; [exact HrunR|]. split; [exact HdirR|].
    split; [exact HsibR|]. split; [exact HfitR|].
    intros; lia.
Qed.

Lemma shouldMerge_fits_witness :
  node_is nodeKids BNODE_NODE kidEntries
  /\ node_is leafEG BNODE_LEAF egEntries
  /\ exists (dir : Z) (sib : BNode),
       shouldMerge nodeKids (Z.of_nat 1) leafEG (mkPager kidPages 8)
       = Ok ((dir, sib), mkPager kidPages 8)
       /\ (dir = -1 \/ dir = 0 \/ dir = 1)
       /\ (dir = 0 -> sib = [])
       /\ (dir <> 0 ->
           nsize egEntries <= BTREE_PAGE_SIZE / 4
           /\ exists e ts ss,
                kidEntries !! Z.to_nat (Z.of_nat 1 + dir) = Some e
                /\ 0 <= Z.of_nat 1 + dir
                /\ kidPages !! e_ptr e = Some sib
                /\ node_is sib ts ss
                /\ nsize ss + nsize egEntries - HEADER <= BTREE_PAGE_SIZE)
       /\ (forall e ds ts ss,
             (0 < 1)%nat -> kidEntries !! (1 - 1)%nat = Some e ->
             kidPages !! e_ptr e = Some ds -> node_is ds ts ss ->
             nsize egEntries <= BTREE_PAGE_SIZE / 4 ->
             nsize ss + nsize egEntries - HEADER <= BTREE_PAGE_SIZE ->
             dir = -1).
Proof.
  split; [exact (proj1 nodeKids_is)|]. split; [exact (proj1 leafEG_is)|].
  apply (shouldMerge_fits kidPages 8 nodeKids leafEG BNODE_NODE BNODE_LEAF
           kidEntries egEntries 1).
  - exact (proj1 nodeKids_is).
  - simpl. lia.
  - exact (proj1 leafEG_is).
  - intros e He. unfold kidEntries in He.
    apply elem_of_cons in He as [E | He];
      [|apply elem_of_cons in He as [E | He];
        [|apply elem_of_cons in He as [E | He]; [|inversion He]]];
      rewrite E.
    + exists leafAC, BNODE_LEAF, acEntries.
      split; [reflexivity|]. split; [exact (proj1 leafAC_is)|].
      vm_compute. congruence.
    + exists leafEG, BNODE_LEAF, egEntries.
      split; [reflexivity|]. split; [exact (proj1 leafEG_is)|].
      vm_compute. congruence.
    + exists leafEG, BNODE_LEAF, egEntries.
      split; [reflexivity|]. split; [exact (proj1 leafEG_is)|].
      vm_compute. congruence.
Defined.

(** ** Replacing a link by the links to new nodes *)

(** X22. nodeReplaceKidN, given one to three non-empty nodes that each fit
    a page, stores them under the next page numbers of the pager, in
    their order, and writes the parent with the link at [idx] replaced by
    one link per node: the page number it was stored under, its first key
    and an empty value. The other links keep their order, the pages that
    were there stay as they were, and no other page is written. *)
Theorem nodeReplaceKidN_links (ty : Z) (nodes : list BNode)
    (parts : list (list entry)) (old : BNode) (es : list entry)
    (idx : nat) (pg : gmap Z BNode) (fr : Z) :
  Forall2 (fun dn p => node_is dn ty p /\ nsize p <= BTREE_PAGE_SIZE
                       /\ p <> []) nodes parts ->
  node_is old BNODE_NODE es ->
  (idx < length es)%nat ->
  (1 <= length nodes <= 3)%nat ->
  nsize (take idx es ++ alloc_links fr parts ++ drop (S idx) es)
    <= 2 * BTREE_PAGE_SIZE ->
  0 < fr -> fr + Z.of_nat (length nodes) <= 18446744073709551616 ->
  (forall p, fr <= p -> pg !! p = None) ->
  exists (new' : BNode) (pg' : gmap Z BNode),
    nodeReplaceKidN (make (2 * BTREE_PAGE_SIZE)) old (Z.of_nat idx) nodes
      (mkPager pg fr)
    = Ok (new', mkPager pg' (fr + Z.of_nat (length nodes)))
    /\ btype new' = Ok BNODE_NODE
    /\ nkeys new' = Ok (Z.of_nat (length es + length nodes - 1))
    /\ entries_of new'
       = Ok (take idx es ++ alloc_links fr parts ++ drop (S idx) es)
    /\ (forall (j : nat) (dn : BNode), nodes !! j = Some dn ->
          pg' !! (fr + Z.of_nat j) = Some dn)
    /\ (forall p, p < fr -> pg' !! p = pg !! p)
    /\ (forall p, fr + Z.of_nat (length nodes) <= p -> pg' !! p = None).
Proof.
  intros HF Hold Hidx Hlen Hsz Hfr Hmax Hfree.
  destruct (nodeReplaceKidN_spec ty nodes parts old es idx pg fr
              HF Hold Hidx Hlen Hsz Hfr Hmax Hfree)
    as (new' & pg' & Hrun & _ & Hnew & Hst & Hkeep & Hnone).
  exists new', pg'. split; [exact Hrun|].
  destruct (node_is_read _ _ _ Hnew) as (Ht & Hn & He & _).
  split; [exact Ht|]. split.
  { rewrite Hn. f_equal.
    assert (Hal : forall f ps, length (alloc_links f ps) = length ps).
    { intros f ps. revert f. induction ps as [|p ps IH]; intros f;
        [reflexivity|]. cbn [alloc_links length]. now rewrite IH. }
    rewrite !length_app, length_take, length_drop, Hal.
    rewrite <- (Forall2_length _ _ _ HF). lia. }
  split; [exact He|]. split; [exact Hst|]. split; [exact Hkeep|exact Hnone].
Qed.

Lemma nodeReplaceKidN_links_witness :
  node_is nodeKids BNODE_NODE kidEntries
  /\ exists (new' : BNode) (pg' : gmap Z BNode),
       nodeReplaceKidN (make (2 * BTREE_PAGE_SIZE)) nodeKids (Z.of_nat 1)
         [leafAC; leafEG] (mkPager kidPages 8)
       = Ok (new', mkPager pg' (8 + Z.of_nat (length [leafAC; leafEG])))
       /\ btype new' = Ok BNODE_NODE
       /\ nkeys new'
          = Ok (Z.of_nat (length kidEntries + length [leafAC; leafEG] - 1))
       /\ entries_of new'
          = Ok (take 1 kidEntries
                ++ alloc_links 8 [acEntries; egEntries]
                ++ drop 2 kidEntries)
       /\ (forall (j : nat) (dn : BNode), [leafAC; leafEG] !! j = Some dn ->
             pg' !! (8 + Z.of_nat j) = Some dn)
       /\ (forall p, p < 8 -> pg' !! p = kidPages !! p)
       /\ (forall p, 8 + Z.of_nat (length [leafAC; leafEG]) <= p ->
             pg' !! p = None).
Proof.
  split; [exact (proj1 nodeKids_is)|].
  apply (nodeReplaceKidN_links BNODE_LEAF [leafAC; leafEG]
           [acEntries; egEntries] nodeKids kidEntries 1 kidPages 8).
  - constructor; [|constructor; [|constructor]].
    + split; [exact (proj1 leafAC_is)|].
      split; [vm_compute; congruence|discriminate].
    + split; [exact (proj1 leafEG_is)|].
      split; [vm_compute; congruence|discriminate].
  - exact (proj1 nodeKids_is).
  - simpl. lia.
  - simpl. lia.
  - vm_compute. congruence.
  - lia.
  - simpl. lia.
  - intros p Hp. unfold kidPages.
    rewrite !lookup_insert_ne by lia. apply lookup_empty.
Defined.

(** ** The reader list *)

Lemma set_index_Some (p i : Z) (o : gmap Z Tx.KVReader) (r : Tx.KVReader) :
  o !! p = Some r ->
  Readers.set_index p i o
  = Ok (<[p := Tx.mkKVReader (Tx.r_version r) (Tx.r_root r)
               (Tx.r_chunks r) i]> o).
Proof. intros H. unfold Readers.set_index. now rewrite H. Qed.

Lemma indexed_inj (s : Readers.state) (i j : nat) (p : Z) :
  Readers.indexed s ->
  Readers.rl s !! i = Some p -> Readers.rl s !! j = Some p -> i = j.
Proof.
  intros H Hi Hj. destruct (H i p Hi) as (r & Hr & Ei).
  destruct (H j p Hj) as (r' & Hr' & Ej).
  rewrite Hr in Hr'. injection Hr' as <-. lia.
Qed.

(** X23. The methods the heap of readers is built on keep every reader's
    [index] equal to its position in the list: Swap exchanges the two
    readers and corrects both indexes, Push appends the reader with the
    index of the last position, Pop removes the last reader and marks it
    with the index -1. None of them changes a version. *)
Theorem ReaderList_keeps_index (s : Readers.state) :
  Readers.indexed s ->
  (forall i j : nat,
     (i < length (Readers.rl s))%nat -> (j < length (Readers.rl s))%nat ->
     exists s',
       Readers.Swap s i j = Ok s'
       /\ Readers.indexed s'
       /\ Readers.rl s' !! i = Readers.rl s !! j
       /\ Readers.rl s' !! j = Readers.rl s !! i
       /\ (forall k, k <> i -> k <> j ->
             Readers.rl s' !! k = Readers.rl s !! k)
       /\ (forall p, Tx.r_version <$> Readers.objs s' !! p
                     = Tx.r_version <$> Readers.objs s !! p))
  /\ (forall (item : Z) (r : Tx.KVReader),
        Readers.objs s !! item = Some r -> item ∉ Readers.rl s ->
        exists s',
          Readers.Push s item = Ok s'
          /\ Readers.indexed s'
          /\ Readers.rl s' = Readers.rl s ++ [item]
          /\ (forall p, Tx.r_version <$> Readers.objs s' !! p
                        = Tx.r_version <$> Readers.objs s !! p))
  /\ (Readers.rl s <> [] ->
        exists (item : Z) (s' : Readers.state),
          Readers.Pop s = Ok (item, s')
          /\ Readers.rl s = Readers.rl s' ++ [item]
          /\ Readers.indexed s'
          /\ (exists r, Readers.objs s' !! item = Some r
                        /\ Tx.r_index r = -1)
          /\ (forall p, Tx.r_version <$> Readers.objs s' !! p
                        = Tx.r_version <$> Readers.objs s !! p)).
Proof.
  destruct s as [o l]. intros Hix. cbn [Readers.rl Readers.objs] in *.
  assert (Hver : forall (p a : Z) (x r : Tx.KVReader)
                   (o' : gmap Z Tx.KVReader),
             o' !! a = Some r -> Tx.r_version x = Tx.r_version r ->
             Tx.r_version <$> (<[a := x]> o') !! p
             = Tx.r_version <$> o' !! p).
  { intros p a x r o' Ha Hx. destruct (decide (a = p)) as [->|N].
    - rewrite lookup_insert_eq, Ha. simpl. now rewrite Hx.
    - now rewrite lookup_insert_ne by exact N. }
  split; [|split].
  - intros i j Hi Hj. unfold Readers.Swap. cbn [Readers.rl Readers.objs].
    destruct (lookup_lt_is_Some_2 l i Hi) as [p Hp].
    destruct (lookup_lt_is_Some_2 l j Hj) as [q Hq].
    rewrite Hp, Hq.
    destruct (Hix i p Hp) as (rp & Hrp & Eip).
    destruct (Hix j q Hq) as (rq & Hrq & Ejq).
    destruct (decide (i = j)) as [E|N].
    + subst j. rewrite Hp in Hq. injection Hq as <-.
      rewrite Hrp in Hrq. injection Hrq as <-.
      rewrite (list_insert_id l i p Hp), (list_insert_id l i p Hp), Hp.
      rewrite (set_index_Some _ _ _ _ Hrp). cbn [rbind].
      rewrite (set_index_Some p _ _ _ (lookup_insert_eq _ _ _)).
      cbn [rbind Tx.r_version Tx.r_root Tx.r_chunks].
      eexists. split; [reflexivity|].
      cbn [Readers.rl Readers.objs]. split.
      { intros k a Hk. cbn [Readers.rl Readers.objs] in Hk |- *.
        destruct (decide (a = p)) as [->|Na].
        - rewrite lookup_insert_eq. eexists. split; [reflexivity|].
          cbn. f_equal. exact (indexed_inj (Readers.mkState o l) _ _ _
                                 Hix Hp Hk).
        - rewrite !lookup_insert_ne by congruence. exact (Hix k a Hk). }
      split; [exact Hp|]. split; [exact Hp|].
      split; [reflexivity|].
      intros p0.
      etrans; [apply Hver with (r := Tx.mkKVReader (Tx.r_version rp)
                 (Tx.r_root rp) (Tx.r_chunks rp) (Z.of_nat i));
               [apply lookup_insert_eq|reflexivity]|].
      apply Hver with (r := rp); [exact Hrp|reflexivity].
    + assert (Hpq : p <> q).
      { intros ->. apply N.
        exact (indexed_inj (Readers.mkState o l) _ _ _ Hix Hp Hq). }
      rewrite list_lookup_insert_ne by congruence.
      rewrite list_lookup_insert_eq by exact Hi.
      rewrite list_lookup_insert_eq by (rewrite length_insert; exact Hj).
      rewrite (set_index_Some _ _ _ _ Hrq). cbn [rbind].
      assert (Hrp' : (<[q := Tx.mkKVReader (Tx.r_version rq) (Tx.r_root rq)
                              (Tx.r_chunks rq) (Z.of_nat i)]> o) !! p
                     = Some rp)
        by (rewrite lookup_insert_ne by congruence; exact Hrp).
      rewrite (set_index_Some _ _ _ _ Hrp'). cbn [rbind].
      eexists. split; [reflexivity|].
      cbn [Readers.rl Readers.objs]. split.
      { intros k a Hk. cbn [Readers.rl Readers.objs] in Hk |- *.
        destruct (decide (k = j)) as [->|Nj].
        - rewrite list_lookup_insert_eq in Hk
            by (rewrite length_insert; exact Hj).
          injection Hk as <-. rewrite lookup_insert_eq.
          eexists. split; reflexivity.
        - rewrite list_lookup_insert_ne in Hk by congruence.
          destruct (decide (k = i)) as [->|Ni].
          + rewrite list_lookup_insert_eq in Hk by exact Hi.
            injection Hk as <-.
            rewrite lookup_insert_ne by congruence.
            rewrite lookup_insert_eq. eexists. split; reflexivity.
          + rewrite list_lookup_insert_ne in Hk by congruence.
            assert (a <> p).
            { intros ->. apply Ni.
              exact (indexed_inj (Readers.mkState o l) _ _ _ Hix Hk Hp). }
            assert (a <> q).
            { intros ->. apply Nj.
              exact (indexed_inj (Readers.mkState o l) _ _ _ Hix Hk Hq). }
            rewrite !lookup_insert_ne by congruence. exact (Hix k a Hk). }
      split.
      { rewrite list_lookup_insert_ne by congruence.
        now rewrite list_lookup_insert_eq by exact Hi. }
      split.
      { now rewrite list_lookup_insert_eq
          by (rewrite length_insert; exact Hj). }
      split.
      { intros k Hki Hkj. now rewrite !list_lookup_insert_ne by congruence. }
      intros p0.
      etrans; [apply Hver with (r := rp); [exact Hrp'|reflexivity]|].
      apply Hver with (r := rq); [exact Hrq|reflexivity].
  - intros item r Hr Hnot. unfold Readers.Push.
    cbn [Readers.rl Readers.objs].
    rewrite (set_index_Some _ _ _ _ Hr). cbn [rbind].
    eexists. split; [reflexivity|]. cbn [Readers.rl Readers.objs].
    split; [|split; [reflexivity|]].
    + intros k a Hk. cbn [Readers.rl Readers.objs] in Hk |- *.
        apply lookup_snoc_Some in Hk as [[Hlt Hk] | [Hlen E]].
      * rewrite lookup_insert_ne.
        -- exact (Hix k a Hk).
        -- intros ->. apply Hnot. now apply list_elem_of_lookup_2 in Hk.
      * subst a. rewrite lookup_insert_eq. eexists.
        split; [reflexivity|]. cbn. now rewrite Hlen.
    + intros p0. apply Hver with (r := r); [exact Hr|reflexivity].
  - intros Hne. unfold Readers.Pop. cbn [Readers.rl Readers.objs].
    assert (Hlen : (0 < length l)%nat)
      by (destruct l; [contradiction|simpl; lia]).
    destruct (lookup_lt_is_Some_2 l (length l - 1) ltac:(lia)) as [p Hp].
    rewrite Hp. destruct (Hix _ p Hp) as (rp & Hrp & Ei).
    rewrite (set_index_Some _ _ _ _ Hrp). cbn [rbind].
    do 2 eexists. split; [reflexivity|]. cbn [Readers.rl Readers.objs].
    split.
    { rewrite <- (take_drop_middle l (length l - 1) p Hp) at 1.
      f_equal. rewrite drop_ge by lia. reflexivity. }
    split.
    { intros k a Hk. cbn [Readers.rl Readers.objs] in Hk |- *.
        apply lookup_take_Some in Hk as [Hk Hlt].
      rewrite lookup_insert_ne.
      - exact (Hix k a Hk).
      - intros ->.
        pose proof (indexed_inj (Readers.mkState o l) _ _ _ Hix Hk Hp).
        lia. }
    split.
    { rewrite lookup_insert_eq. eexists. split; reflexivity. }
    intros p0. apply Hver with (r := rp); [exact Hrp|reflexivity].
Qed.

Lemma twoReaders_indexed : Readers.indexed twoReaders.
Proof.
  intros i p Hi. unfold twoReaders in *. cbn [Readers.rl Readers.objs] in *.
  destruct i as [|[|i]]; [| |destruct i; discriminate];
    injection Hi as <-; eexists; split; reflexivity.
Qed.

Lemma ReaderList_keeps_index_witness :
  Readers.indexed twoReaders
  /\ (forall i j : nat,
        (i < length (Readers.rl twoReaders))%nat ->
        (j < length (Readers.rl twoReaders))%nat ->
        exists s',
          Readers.Swap twoReaders i j = Ok s'
          /\ Readers.indexed s'
          /\ Readers.rl s' !! i = Readers.rl twoReaders !! j
          /\ Readers.rl s' !! j = Readers.rl twoReaders !! i
          /\ (forall k, k <> i -> k <> j ->
                Readers.rl s' !! k = Readers.rl twoReaders !! k)
          /\ (forall p, Tx.r_version <$> Readers.objs s' !! p
                        = Tx.r_version <$> Readers.objs twoReaders !! p))
  /\ (forall (item : Z) (r : Tx.KVReader),
        Readers.objs twoReaders !! item = Some r ->
        item ∉ Readers.rl twoReaders ->
        exists s',
          Readers.Push twoReaders item = Ok s'
          /\ Readers.indexed s'
          /\ Readers.rl s' = Readers.rl twoReaders ++ [item]
          /\ (forall p, Tx.r_version <$> Readers.objs s' !! p
                        = Tx.r_version <$> Readers.objs twoReaders !! p))
  /\ (Readers.rl twoReaders <> [] ->
        exists (item : Z) (s' : Readers.state),
          Readers.Pop twoReaders = Ok (item, s')
          /\ Readers.rl twoReaders = Readers.rl s' ++ [item]
          /\ Readers.indexed s'
          /\ (exists r, Readers.objs s' !! item = Some r
                        /\ Tx.r_index r = -1)
          /\ (forall p, Tx.r_version <$> Readers.objs s' !! p
                        = Tx.r_version <$> Readers.objs twoReaders !! p)).
Proof.
  split; [exact twoReaders_indexed|].
  apply (ReaderList_keeps_index twoReaders). exact twoReaders_indexed.
Defined.

(** ** Moving the iterator *)

Lemma sbind_mret {A} (m : M A) (s : Pager) : sbind m mret s = m s.
Proof. unfold sbind, mret. destruct (m s) as [[a s']| |]; reflexivity. Qed.

Lemma sbind_assoc {A B C} (a : M A) (f : A -> M B) (g : B -> M C)
    (s : Pager) :
  sbind (sbind a f) g s = sbind a (fun x => sbind (f x) g) s.
Proof. unfold sbind. destruct (a s) as [[x s']| |]; reflexivity. Qed.

Lemma sbind_ext {A B} (a : M A) (f g : A -> M B) (s : Pager) :
  (forall x s', f x s' = g x s') -> sbind a f s = sbind a g s.
Proof.
  intros H. unfold sbind. destruct (a s) as [[x s']| |];
    [apply H|reflexivity|reflexivity].
Qed.

Lemma nextKids_snoc (c : nat) :
  forall (m : nat) (it : BIter) (s : Pager),
    sbind (nextKids m c it) (nextKid (m + c)) s = nextKids m (S c) it s.
Proof.
  induction c as [|c IH]; intros m it s.
  - cbn [nextKids]. rewrite Nat.add_0_r.
    unfold sbind at 1, mret at 1. symmetry. apply sbind_mret.
  - change (nextKids m (S c) it)
      with (sbind (nextKid m it) (fun it' => nextKids (S m) c it')).
    rewrite sbind_assoc.
    change (nextKids m (S (S c)) it)
      with (sbind (nextKid m it) (fun it' => nextKids (S m) (S c) it')).
    apply sbind_ext. intros it1 s1.
    replace (m + S c)%nat with (S m + c)%nat by lia. apply IH.
Qed.

(** iterNext from the level [l]: the levels above the deepest level [m]
    that can move pass the call on; the level [m] moves, and the levels
    from [m] on take the kid of the level before. *)
Lemma iterNext_unroll (m : nat) (it : BIter) (p : Z) (s : Pager) :
  movable it m true -> Pos it !! m = Some p ->
  forall l : nat,
    (m <= l)%nat ->
    (forall x, (m < x <= l)%nat -> movable it x false) ->
    iterNext l it s
    = nextKids m (l - m + 1)
        (mkBIter (Path it) (<[m := u16 (p + 1)]> (Pos it))) s.
Proof.
  intros (p0 & d & n & Hp & Hd & Hn & Hmv) Hp'.
  rewrite Hp in Hp'. injection Hp' as ->.
  induction l as [|l IH]; intros Hml Hex.
  - assert (m = 0%nat) as -> by lia. cbn [iterNext Nat.sub Nat.add].
    unfold at_index. rewrite Hp, Hd.
    rewrite !(sbind_lift _ _ _ _ eq_refl), (sbind_lift _ _ _ _ Hn), Hmv.
    unfold set_at.
    replace (0 <? length (Pos it))%nat with true
      by (symmetry; apply Nat.ltb_lt; now apply lookup_lt_Some in Hp).
    rewrite (sbind_lift _ _ _ _ eq_refl). cbn [nextKids].
    symmetry. apply sbind_mret.
  - destruct (decide (m = S l)) as [E|N].
    + subst m. cbn [iterNext]. unfold at_index. rewrite Hp, Hd.
      rewrite !(sbind_lift _ _ _ _ eq_refl), (sbind_lift _ _ _ _ Hn), Hmv.
      unfold set_at.
      replace (S l <? length (Pos it))%nat with true
        by (symmetry; apply Nat.ltb_lt; now apply lookup_lt_Some in Hp).
      rewrite (sbind_lift _ _ _ _ eq_refl).
      replace (S l - S l + 1)%nat with 1%nat by lia. cbn [nextKids].
      symmetry. apply sbind_mret.
    + destruct (Hex (S l) ltac:(lia)) as (px & dx & nx & Hpx & Hdx & Hnx & Hx).
      cbn [iterNext]. unfold at_index at 1 2. rewrite Hpx, Hdx.
      rewrite !(sbind_lift _ _ _ _ eq_refl), (sbind_lift _ _ _ _ Hnx), Hx.
      unfold sbind at 1. rewrite IH; [|lia|intros x Hx'; apply Hex; lia].
      replace (S l - m + 1)%nat with (S (l - m + 1)) by lia.
      rewrite <- nextKids_snoc.
      replace (m + (l - m + 1))%nat with (S l) by lia. reflexivity.
Qed.

Lemma nextKid_under (x : nat) (d0 : BNode) (j0 : Z) (P : list BNode)
    (Q : list Z) (s : Pager) :
  nextKid (S x) (mkBIter (d0 :: P) (j0 :: Q)) s
  = under d0 j0 (nextKid x (mkBIter P Q) s).
Proof.
  unfold nextKid, kidAt, at_index, set_at. cbn [Path Pos length].
  change (S x + 1)%nat with (S (x + 1)).
  change (S (x + 1) <? S (length Q))%nat with (x + 1 <? length Q)%nat.
  change (S (x + 1) <? S (length P))%nat with (x + 1 <? length P)%nat.
  change ((d0 :: P) !! S x) with (P !! x).
  change ((j0 :: Q) !! S x) with (Q !! x).
  destruct (x + 1 <? length Q)%nat; [|reflexivity].
  destruct (P !! x) as [node|]; [|reflexivity].
  destruct (Q !! x) as [pos|]; [|reflexivity].
  unfold sbind, lift, mret, under.
  destruct (getPtr node pos) as [ptr| |]; [|reflexivity|reflexivity].
  destruct (tree_get ptr s) as [[kid s']| |]; [|reflexivity|reflexivity].
  destruct (x + 1 <? length P)%nat; reflexivity.
Qed.

Lemma nextKids_under (c : nat) :
  forall (m : nat) (d0 : BNode) (j0 : Z) (P : list BNode) (Q : list Z)
         (s : Pager),
    nextKids (S m) c (mkBIter (d0 :: P) (j0 :: Q)) s
    = under d0 j0 (nextKids m c (mkBIter P Q) s).
Proof.
  induction c as [|c IH]; intros m d0 j0 P Q s; cbn [nextKids].
  - reflexivity.
  - unfold sbind. rewrite nextKid_under.
    destruct (nextKid m (mkBIter P Q) s) as [[[P' Q'] s']| |];
      [|reflexivity|reflexivity].
    cbn [under Path Pos]. apply IH.
Qed.

(** *** The iterator on the tree *)

Lemma descent_length (pg : gmap Z BNode) (h : nat) :
  forall (t : tree h) (d : BNode) (js : list nat) (path : list BNode),
    descent pg h t d js path -> length js = S h /\ length path = S h.
Proof.
  induction h as [|h IH]; intros t d js path H.
  - destruct H as (j & -> & -> & _). split; reflexivity.
  - destruct H as (j & js' & path' & pt & d' & -> & -> & _ & _ & H).
    destruct (IH _ _ _ _ H) as [H1 H2]. cbn [length]. now rewrite H1, H2.
Qed.

Lemma rank_zeros (h : nat) :
  forall t : tree h, rank h t (replicate (S h) 0%nat) = 0%nat.
Proof.
  induction h as [|h IH]; intros t; [reflexivity|].
  change (list (Z * tree h)) in (type of t).
  cbn [rank replicate]. destruct t as [|pt t]; [reflexivity|].
  cbn [take concat length Nat.add map]. apply IH.
Qed.

(** The leaf and the position the iterator ends on. *)
Lemma descent_leaf (pg : gmap Z BNode) (h : nat) :
  forall (t : tree h) (d : BNode) (js : list nat) (path : list BNode),
    rep pg h t d -> descent pg h t d js path ->
    exists (dl : BNode) (els : list entry) (jl : nat),
      last path = Some dl
      /\ last (map Z.of_nat js) = Some (Z.of_nat jl)
      /\ node_is dl BNODE_LEAF els
      /\ (jl < length els)%nat
      /\ els !! jl = flat h t !! rank h t js.
Proof.
  induction h as [|h IH]; intros t d js path Hrep H.
  - destruct H as (j & -> & -> & Hj). exists d, t, j.
    repeat (split; [first [reflexivity|exact Hrep|exact Hj]|]).
    reflexivity.
  - change (list (Z * tree h)) in (type of t).
    destruct H as (j & js' & path' & pt & d' & -> & -> & Hpt & Hd' & H).
    destruct Hrep as [_ Hk].
    pose proof (Forall_lookup_1 _ _ _ _ Hk Hpt) as (d'' & Hd'' & Hr').
    rewrite Hd' in Hd''. injection Hd'' as <-.
    destruct (IH _ _ _ _ Hr' H) as (dl & els & jl & Hl & Hlp & Hdl & Hjl & He).
    exists dl, els, jl. cbn [map]. rewrite !last_cons, Hl, Hlp.
    split; [reflexivity|]. split; [reflexivity|].
    split; [exact Hdl|]. split; [exact Hjl|].
    rewrite He. cbn [rank flat]. rewrite Hpt.
    set (segs := map (fun pt0 => flat h pt0.2) t).
    assert (HB : segs !! j = Some (flat h pt.2))
      by (unfold segs; rewrite list_lookup_fmap, Hpt; reflexivity).
    assert (Hlt : (rank h pt.2 js' < length (flat h pt.2))%nat).
    { apply lookup_lt_is_Some. rewrite <- He.
      now apply lookup_lt_is_Some_2. }
    rewrite (concat_middle segs j _ HB) at 1.
    rewrite lookup_app_r by lia.
    replace (length (concat (take j segs)) + rank h pt.2 js'
             - length (concat (take j segs)))%nat
      with (rank h pt.2 js') by lia.
    now rewrite lookup_app_l by exact Hlt.
Qed.

Lemma tok_top_nonempty (h : nat) (t : tree h) :
  tok h t -> (0 < length (node_entries h t))%nat.
Proof.
  destruct h as [|h]; simpl; intros (N & _); [|rewrite length_map];
    (destruct t; [contradiction|simpl; lia]).
Qed.

(** The block of iterNext, run down from a node: the way to the first
    entry under the position [j]. *)
Lemma nextKids_leftmost (pg : gmap Z BNode) (fr : Z) (h : nat) :
  forall (t : tree h) (d : BNode) (j : nat) (rest : list BNode)
         (restq : list Z),
    rep pg h t d -> tok h t ->
    (j < length (node_entries h t))%nat ->
    length rest = h -> length restq = h ->
    exists path' : list BNode,
      nextKids 0 (S h) (mkBIter (d :: rest) (Z.of_nat j :: restq))
        (mkPager pg fr)
      = Ok (mkBIter path' (map Z.of_nat (j :: replicate h 0%nat)),
            mkPager pg fr)
      /\ descent pg h t d (j :: replicate h 0%nat) path'.
Proof.
  induction h as [|h IH]; intros t d j rest restq Hrep Htok Hj Hl Hlq.
  - destruct rest; [|discriminate]. destruct restq; [|discriminate].
    exists [d]. split; [reflexivity|]. exists j. repeat split. exact Hj.
  - change (list (Z * tree h)) in (type of t).
    destruct rest as [|r0 rest]; [discriminate|].
    destruct restq as [|q0 restq]; [discriminate|].
    injection Hl as Hl. injection Hlq as Hlq.
    destruct Hrep as [Hn Hk]. destruct Htok as (Hne & _ & Hkt).
    cbn [node_entries] in Hj. rewrite length_map in Hj.
    destruct (lookup_lt_is_Some_2 t j Hj) as [pt Hpt].
    pose proof (Forall_lookup_1 _ _ _ _ Hk Hpt) as (d' & Hd' & Hr').
    pose proof (Forall_lookup_1 _ _ _ _ Hkt Hpt) as Ht'.
    assert (Hlk : map (link h) t !! j = Some (link h pt))
      by (rewrite list_lookup_fmap, Hpt; reflexivity).
    pose proof (tok_top_nonempty h pt.2 Ht') as H0.
    destruct (IH pt.2 d' 0%nat rest restq Hr' Ht' H0 Hl Hlq)
      as (path' & Hrun & Hdesc).
    exists (d :: path'). split.
    + assert (Hkid : kidAt 0 (mkBIter (d :: r0 :: rest)
                                (Z.of_nat j :: q0 :: restq))
                       (mkPager pg fr) = Ok (d', mkPager pg fr)).
      { unfold kidAt, at_index. cbn [Path Pos].
        change ((d :: r0 :: rest) !! 0%nat) with (Some d).
        change ((Z.of_nat j :: q0 :: restq) !! 0%nat)
          with (Some (Z.of_nat j)).
        cbn iota. rewrite !(sbind_lift _ _ _ _ eq_refl).
        rewrite (sbind_lift _ _ _ _ (rep_getPtr _ _ _ _ Hn _ _ Hlk)).
        unfold link at 1, e_ptr. cbn [fst snd].
        exact (tree_get_spec pg fr _ _ Hd'). }
      assert (HnK : nextKid 0 (mkBIter (d :: r0 :: rest)
                                 (Z.of_nat j :: q0 :: restq))
                      (mkPager pg fr)
                    = Ok (mkBIter (d :: d' :: rest)
                            (Z.of_nat j :: Z.of_nat 0 :: restq),
                          mkPager pg fr)).
      { unfold nextKid. cbn [Path Pos length].
        change (0 + 1 <? S (S (length restq)))%nat with true. cbn iota.
        rewrite (sbind_Ok _ _ _ _ _ Hkid). unfold set_at. cbn [length].
        change (0 + 1 <? S (S (length rest)))%nat with true.
        change (0 + 1 <? S (S (length restq)))%nat with true. cbn iota.
        rewrite !(sbind_lift _ _ _ _ eq_refl). reflexivity. }
      change (nextKids 0 (S (S h))
                (mkBIter (d :: r0 :: rest) (Z.of_nat j :: q0 :: restq)))
        with (sbind (nextKid 0 (mkBIter (d :: r0 :: rest)
                                  (Z.of_nat j :: q0 :: restq)))
                (fun it' => nextKids 1 (S h) it')).
      rewrite (sbind_Ok _ _ _ _ _ HnK), nextKids_under, Hrun. reflexivity.
    + exists j, (0%nat :: replicate h 0%nat), path', pt, d'.
      repeat (split; [first [reflexivity|assumption]|]). exact Hdesc.
Qed.

Lemma movable_cons (d0 : BNode) (j0 : Z) (P : list BNode) (Q : list Z)
    (x : nat) (b : bool) :
  movable (mkBIter P Q) x b -> movable (mkBIter (d0 :: P) (j0 :: Q)) (S x) b.
Proof. intros H. exact H. Qed.

(** The entries of an internal node's subtrees around the kid [j]. *)
Lemma flat_around (h : nat) (t : list (Z * tree h)) (j : nat)
    (pt : Z * tree h) :
  t !! j = Some pt ->
  Forall (fun pt => tok h pt.2) t ->
  let segs := map (fun pt0 => flat h pt0.2) t in
  length (concat segs)
  = (length (concat (take j segs)) + length (flat h pt.2)
     + length (concat (drop (S j) segs)))%nat
  /\ ((S j < length t)%nat -> (0 < length (concat (drop (S j) segs)))%nat)
  /\ (length t <= S j -> length (concat (drop (S j) segs)) = 0)%nat
  /\ length (concat (take (S j) segs))
     = (length (concat (take j segs)) + length (flat h pt.2))%nat.
Proof.
  intros Hpt Hkt segs.
  assert (HB : segs !! j = Some (flat h pt.2))
    by (unfold segs; rewrite list_lookup_fmap, Hpt; reflexivity).
  pose proof (segs_nonempty h t Hkt) as Hsn. fold segs in Hsn.
  assert (Hlen : length segs = length t) by apply length_map.
  split; [|split; [|split]].
  - rewrite (concat_middle segs j _ HB) at 1. rewrite !length_app. lia.
  - intros Hlt.
    destruct (drop (S j) segs) as [|s rest] eqn:E.
    + apply drop_nil_inv in E. lia.
    + assert (Hs : segs !! (S j + 0)%nat = Some s)
        by (rewrite <- lookup_drop, E; reflexivity).
      pose proof (Forall_lookup_1 _ _ _ _ Hsn Hs) as Hne.
      cbn [concat]. rewrite length_app.
      destruct s; [contradiction|simpl; lia].
  - intros Hge. rewrite drop_ge by lia. reflexivity.
  - rewrite (take_S_r segs j _ HB), concat_app, length_app.
    cbn [concat]. rewrite app_nil_r. reflexivity.
Qed.

(** Next on the way to an entry: the way to the entry after it, when
    there is one; at the last entry no level can move. *)
Lemma next_descent (pg : gmap Z BNode) (fr : Z) (h : nat) :
  forall (t : tree h) (d : BNode) (js : list nat) (path : list BNode),
    rep pg h t d -> tok h t -> descent pg h t d js path ->
    (rank h t js < length (flat h t))%nat
    /\ ((rank h t js + 1 < length (flat h t))%nat ->
        exists (m : nat) (p : Z) (js' : list nat) (path' : list BNode),
          (m <= h)%nat
          /\ movable (mkBIter path (map Z.of_nat js)) m true
          /\ map Z.of_nat js !! m = Some p
          /\ (forall x, (m < x <= h)%nat ->
                movable (mkBIter path (map Z.of_nat js)) x false)
          /\ nextKids m (h - m + 1)
               (mkBIter path (<[m := u16 (p + 1)]> (map Z.of_nat js)))
               (mkPager pg fr)
             = Ok (mkBIter path' (map Z.of_nat js'), mkPager pg fr)
          /\ descent pg h t d js' path'
          /\ rank h t js' = S (rank h t js))
    /\ ((rank h t js + 1 = length (flat h t))%nat ->
        forall x, (x <= h)%nat ->
          movable (mkBIter path (map Z.of_nat js)) x false).
Proof.
  induction h as [|h IH]; intros t d js path Hrep Htok Hdesc.
  - destruct Hdesc as (j & -> & -> & Hj). cbn [rank flat map].
    pose proof (rep_n_range _ _ _ _ Hrep) as Hrange.
    pose proof (rep_nkeys _ _ _ _ Hrep) as Hnk.
    split; [exact Hj|]. split.
    + intros Hlt. exists 0%nat, (Z.of_nat j), [S j], [d].
      split; [lia|]. split.
      { exists (Z.of_nat j), d, (Z.of_nat (length t)).
        repeat (split; [first [reflexivity|exact Hnk]|]).
        rewrite u16_small by lia. apply Z.ltb_lt. lia. }
      split; [reflexivity|]. split; [intros x Hx; lia|].
      split.
      { cbn [Nat.sub Nat.add nextKids insert list_insert].
        rewrite u16_small by lia.
        replace (Z.of_nat j + 1) with (Z.of_nat (S j)) by lia.
        reflexivity. }
      split; [|reflexivity]. exists (S j). repeat split. lia.
    + intros Heq x Hx. assert (x = 0%nat) as -> by lia.
      exists (Z.of_nat j), d, (Z.of_nat (length t)).
      repeat (split; [first [reflexivity|exact Hnk]|]).
      rewrite u16_small by lia. apply Z.ltb_ge. lia.
  - change (list (Z * tree h)) in (type of t).
    destruct Hdesc as (j & js' & path' & pt & d' & -> & -> & Hpt & Hd' & Hdesc).
    destruct Hrep as [Hn Hk]. destruct Htok as (Hne & Hsz & Hkt).
    pose proof (Forall_lookup_1 _ _ _ _ Hk Hpt) as (d'' & Hd'' & Hr').
    rewrite Hd' in Hd''. injection Hd'' as <-.
    pose proof (Forall_lookup_1 _ _ _ _ Hkt Hpt) as Ht'.
    destruct (IH pt.2 d' js' path' Hr' Ht' Hdesc) as (Hlt' & Hnext & Hlast).
    destruct (flat_around h t j pt Hpt Hkt) as (Hall & Hmore & Hnone & Htk).
    cbn zeta in Hall, Hmore, Hnone, Htk.
    pose proof (lookup_lt_Some _ _ _ Hpt) as Hjlt.
    pose proof (rep_n_range _ _ _ _ Hn) as Hrange.
    pose proof (rep_nkeys _ _ _ _ Hn) as Hnk.
    rewrite length_map in Hrange, Hnk.
    destruct (descent_length _ _ _ _ _ _ Hdesc) as [Hljs Hlpath].
    cbn [rank flat map]. rewrite Hpt.
    set (segs := map (fun pt0 => flat h pt0.2) t) in *.
    split; [lia|]. split.
    + intros Hlt.
      destruct (decide (rank h pt.2 js' + 1 < length (flat h pt.2))%nat)
        as [Hin|Hout].
      * (* the entry after is under the same kid *)
        destruct (Hnext Hin)
          as (m & p & js'' & path'' & Hm & Hmv & Hp & Hex & Hrun & Hd2 & Hr2).
        exists (S m), p, (j :: js''), (d :: path'').
        split; [lia|]. split; [exact (movable_cons _ _ _ _ _ _ Hmv)|].
        split; [exact Hp|]. split.
        { intros x Hx. destruct x as [|x]; [lia|].
          apply movable_cons, Hex. lia. }
        split.
        { change (<[S m := u16 (p + 1)]> (Z.of_nat j :: map Z.of_nat js'))
            with (Z.of_nat j :: <[m := u16 (p + 1)]> (map Z.of_nat js')).
          cbn [Nat.sub].
          rewrite nextKids_under, Hrun. reflexivity. }
        split.
        { exists j, js'', path'', pt, d'.
          repeat (split; [first [reflexivity|assumption]|]). exact Hd2. }
        cbn [rank]. rewrite Hpt. fold segs. lia.
      * (* the first entry under the next kid *)
        assert (Hj1 : (S j < length t)%nat).
        { destruct (decide (S j < length t)%nat) as [Y|N]; [exact Y|].
          specialize (Hnone ltac:(lia)). lia. }
        destruct (nextKids_leftmost pg fr (S h) t d (S j) path'
                    (map Z.of_nat js') (conj Hn Hk)
                    (conj Hne (conj Hsz Hkt)))
          as (path'' & Hrun & Hd2);
          [cbn [node_entries]; rewrite length_map; exact Hj1
          |exact Hlpath|rewrite length_map; exact Hljs|].
        exists 0%nat, (Z.of_nat j), (S j :: replicate (S h) 0%nat), path''.
        split; [lia|]. split.
        { exists (Z.of_nat j), d, (Z.of_nat (length t)).
          repeat (split; [first [reflexivity|exact Hnk]|]).
          rewrite u16_small by lia. apply Z.ltb_lt. lia. }
        split; [reflexivity|]. split.
        { intros x Hx. destruct x as [|x]; [lia|].
          apply movable_cons, Hlast; lia. }
        split.
        { change (<[0%nat := u16 (Z.of_nat j + 1)]>
                    (Z.of_nat j :: map Z.of_nat js'))
            with (u16 (Z.of_nat j + 1) :: map Z.of_nat js').
          rewrite u16_small by lia.
          replace (Z.of_nat j + 1) with (Z.of_nat (S j)) by lia.
          replace (S h - 0 + 1)%nat with (S (S h)) by lia.
          exact Hrun. }
        split; [exact Hd2|].
        cbn [rank]. fold segs. rewrite Htk.
        destruct (t !! S j) as [pt1|]; [|lia].
        rewrite (rank_zeros h pt1.2). lia.
    + intros Heq x Hx.
      assert (Hj1 : (length t <= S j)%nat).
      { destruct (decide (S j < length t)%nat) as [Y|N]; [|lia].
        specialize (Hmore Y). lia. }
      specialize (Hnone Hj1).
      destruct x as [|x].
      * exists (Z.of_nat j), d, (Z.of_nat (length t)).
        repeat (split; [first [reflexivity|exact Hnk]|]).
        rewrite u16_small by lia. apply Z.ltb_ge. lia.
      * apply movable_cons, Hlast; lia.
Qed.

Lemma SeekLE_loop_descent (pg : gmap Z BNode) (fr : Z) (q : list byte)
    (h : nat) :
  forall (fuel : nat) (t : tree h) (d : BNode) (p : Z) (it : BIter),
    pg !! p = Some d -> p <> 0 ->
    rep pg h t d -> tok h t -> sorted1 (keys (flat h t)) ->
    (forall p', p' ∈ ptrs h t -> p' <> 0) ->
    (h < fuel)%nat ->
    exists (js : list nat) (path : list BNode),
      SeekLE_loop fuel p q it (mkPager pg fr)
      = Ok (mkBIter (Path it ++ path) (Pos it ++ map Z.of_nat js),
            mkPager pg fr)
      /\ descent pg h t d js path
      /\ rank h t js = lookupLE (keys (flat h t)) q.
Proof.
  induction h as [|h IH]; intros fuel t d p it Hd Hp Hrep Htok Hs Hnz Hfuel;
    (destruct fuel as [|fuel]; [lia|]); cbn [SeekLE_loop];
    (replace (p =? 0) with false by (symmetry; apply Z.eqb_neq; exact Hp));
    rewrite (sbind_Ok _ _ _ _ _ (tree_get_spec pg fr _ _ Hd)).
  - simpl in Hrep, Htok. destruct Htok as (Hne & _ & _).
    rewrite (sbind_lift _ _ _ _ (nodeLookupLE_rep _ _ _ q Hrep)).
    rewrite (sbind_lift _ _ _ _ (rep_btype _ _ _ _ Hrep)).
    change (BNODE_LEAF =? BNODE_NODE) with false. cbn iota.
    unfold sbind at 1, mret at 1. rewrite SeekLE_loop_0.
    exists [lookupLE (keys t) q], [d]. cbn [Path Pos flat rank map].
    split; [reflexivity|]. split; [|reflexivity].
    exists (lookupLE (keys t) q). split; [reflexivity|].
    split; [reflexivity|].
    rewrite <- keys_length. apply lookupLE_lt.
    intros E. apply keys_nil_inv in E. contradiction.
  - change (list (Z * tree h)) in (type of t).
    destruct Hrep as [Hn Hk]. destruct Htok as (Hne & _ & Hkt).
    rewrite (sbind_lift _ _ _ _ (nodeLookupLE_rep _ _ _ q Hn)).
    rewrite (sbind_lift _ _ _ _ (rep_btype _ _ _ _ Hn)).
    change (BNODE_NODE =? BNODE_NODE) with true. cbn iota.
    rewrite keys_links.
    set (segs := map (fun pt => flat h pt.2) t) in *.
    pose proof (segs_nonempty h t Hkt) as Hsn. fold segs in Hsn.
    simpl flat in Hs |- *. fold segs in Hs |- *.
    assert (Hsegs : segs <> [])
      by (subst segs; destruct t; [contradiction|discriminate]).
    destruct (route_idx segs Hsn Hs q Hsegs) as [B HB].
    set (idx := lookupLE (map first_key segs) q) in *.
    assert (Hpt : exists pt, t !! idx = Some pt /\ B = flat h pt.2).
    { pose proof (lookup_lt_Some _ _ _ HB) as Hlt.
      unfold segs in Hlt. rewrite length_map in Hlt.
      destruct (lookup_lt_is_Some_2 t idx Hlt) as [pt Hpt].
      exists pt. split; [exact Hpt|].
      unfold segs in HB. rewrite list_lookup_fmap, Hpt in HB.
      simpl in HB. congruence. }
    destruct Hpt as (pt & Hpt & ->).
    assert (Hl : map (link h) t !! idx = Some (link h pt))
      by (rewrite list_lookup_fmap, Hpt; reflexivity).
    rewrite (sbind_lift _ _ _ _ (rep_getPtr _ _ _ _ Hn _ _ Hl)).
    pose proof (Forall_lookup_1 _ _ _ _ Hk Hpt) as (d' & Hd' & Hr').
    pose proof (Forall_lookup_1 _ _ _ _ Hkt Hpt) as Ht'.
    unfold link at 1, e_ptr. cbn [fst snd].
    assert (Hin : pt ∈ t) by (now apply list_elem_of_lookup_2 in Hpt).
    assert (Hs' : sorted1 (keys (flat h pt.2))).
    { rewrite (concat_middle segs idx _ HB), !keys_app in Hs.
      exact (sorted1_segment _ _ _ Hs). }
    destruct (IH fuel pt.2 d' pt.1
                (mkBIter (Path it ++ [d]) (Pos it ++ [Z.of_nat idx]))
                Hd') as (js & path & Hrun & Hdesc & Hrank).
    + apply Hnz. apply (elem_of_ptrs h t pt); [exact Hin|now left].
    + exact Hr'.
    + exact Ht'.
    + exact Hs'.
    + intros p' Hp'. apply Hnz.
      apply (elem_of_ptrs h t pt); [exact Hin|now right].
    + lia.
    + exists (idx :: js), (d :: path).
      rewrite Hrun. cbn [Path Pos map].
      rewrite <- !app_assoc. cbn [app].
      split; [reflexivity|]. split.
      * exists idx, js, path, pt, d'.
        repeat (split; [first [reflexivity|assumption]|]). exact Hdesc.
      * cbn [rank]. rewrite Hpt. fold segs. rewrite Hrank.
        destruct (route_lookup segs Hsn Hs q _ HB) as [Hi _].
        fold idx in Hi. now rewrite Hi.
Qed.

Lemma SeekLE_stands (fuel h : nat) (tr : BTree) (es : list entry)
    (q : list byte) :
  contents h tr es -> es <> [] -> (h < fuel)%nat ->
  exists it : BIter,
    SeekLE fuel tr q = Ok it
    /\ stands_at h tr es it (lookupLE (keys es) q).
Proof.
  destruct tr as [r [pg fr]]. intros [_ Hc] Hne Hfuel.
  cbn [root pager fresh pages] in *. unfold SeekLE. cbn [root pager].
  destruct Hc as [(_ & _ & ->)|Hh]; [contradiction|].
  destruct Hh as (t & d & Hd & Hrep & Htok & Hflat & Hord & Hnd & Hb).
  cbn [root pager fresh pages] in *.
  apply Forall_cons in Hb as [Hrb Hb].
  destruct (SeekLE_loop_descent pg fr q h fuel t d r (mkBIter [] []) Hd)
    as (js & path & Hrun & Hdesc & Hrank);
    [lia|exact Hrep|exact Htok|rewrite Hflat; exact (proj1 Hord)| |
     exact Hfuel|].
  { intros p' Hp'. rewrite Forall_forall in Hb.
    specialize (Hb p' Hp'). lia. }
  rewrite Hrun. cbn [rbind fst Path Pos app].
  eexists. split; [reflexivity|].
  exists t, d, js. cbn [root pager pages Path Pos].
  rewrite Hflat in Hrank.
  repeat (split; [first [reflexivity|assumption]|]). exact Hrank.
Qed.

Lemma Deref_stands (h : nat) (tr : BTree) (es : list entry) (it : BIter)
    (i : nat) :
  stands_at h tr es it i ->
  exists e : entry,
    es !! i = Some e /\ Valid it = true
    /\ Deref it = Ok (e_key e, e_val e).
Proof.
  intros (t & d & js & Hd & Hrep & Htok & Hflat & Hdesc & Hpos & Hrank).
  destruct (descent_leaf _ _ _ _ _ _ Hrep Hdesc)
    as (dl & els & jl & Hl & Hlp & Hdl & Hjl & He).
  destruct (lookup_lt_is_Some_2 els jl Hjl) as [e Hje].
  exists e. rewrite Hflat, Hrank, Hje in He. split; [now symmetry|].
  destruct (descent_length _ _ _ _ _ _ Hdesc) as [Hljs Hlpath].
  assert (Hv : Valid it = true).
  { unfold Valid. rewrite Hpos, length_map, Hljs, Hlpath. reflexivity. }
  split; [exact Hv|].
  unfold Deref. rewrite Hv, Hpos, Hl, Hlp. cbn [negb].
  rewrite (rep_getKey _ _ _ _ Hdl _ _ Hje). cbn [rbind].
  rewrite (rep_getVal _ _ _ _ Hdl _ _ Hje). reflexivity.
Qed.

Lemma Next_stands (h : nat) (tr : BTree) (es : list entry) (it : BIter)
    (i : nat) :
  stands_at h tr es it i -> (S i < length es)%nat ->
  exists it' : BIter, Next tr it = Ok it' /\ stands_at h tr es it' (S i).
Proof.
  destruct tr as [r [pg fr]].
  intros (t & d & js & Hd & Hrep & Htok & Hflat & Hdesc & Hpos & Hrank) Hlt.
  cbn [root pager pages] in *.
  destruct (descent_length _ _ _ _ _ _ Hdesc) as [Hljs Hlpath].
  destruct (next_descent pg fr h t d js (Path it) Hrep Htok Hdesc)
    as (_ & Hnext & _).
  destruct Hnext as (m & p & js' & path' & Hm & Hmv & Hp & Hex & Hrun
                     & Hd2 & Hr2); [rewrite Hflat, Hrank; lia|].
  unfold Next. rewrite Hlpath. cbn [pager].
  destruct it as [P Q]. cbn [Path Pos] in *. subst Q.
  rewrite (iterNext_unroll m _ p _ Hmv Hp h Hm Hex). cbn [Path Pos].
  rewrite Hrun. cbn [rbind fst].
  eexists. split; [reflexivity|].
  exists t, d, js'. cbn [root pager pages Path Pos].
  repeat (split; [first [reflexivity|assumption]|]). lia.
Qed.

Lemma Nexts_stands (h : nat) (tr : BTree) (es : list entry) (n : nat) :
  forall (it : BIter) (i : nat),
    stands_at h tr es it i -> (i + n < length es)%nat ->
    exists it' : BIter,
      Nexts n tr it = Ok it' /\ stands_at h tr es it' (i + n).
Proof.
  induction n as [|n IH]; intros it i Hst Hlt.
  - exists it. rewrite Nat.add_0_r. split; [reflexivity|exact Hst].
  - destruct (Next_stands h tr es it i Hst ltac:(lia)) as (it1 & Hrun & Hst1).
    destruct (IH it1 (S i) Hst1 ltac:(lia)) as (it' & Hrun' & Hst').
    exists it'. cbn [Nexts]. rewrite Hrun. cbn [rbind].
    split; [exact Hrun'|].
    replace (i + S n)%nat with (S i + n)%nat by lia. exact Hst'.
Qed.

Lemma SeekLE_empty (fuel h : nat) (tr : BTree) (q : list byte) :
  contents h tr [] -> SeekLE fuel tr q = Ok (mkBIter [] []).
Proof.
  intros [_ [(Hr & _ & _)|Hh]].
  - unfold SeekLE. rewrite Hr, SeekLE_loop_0. reflexivity.
  - destruct Hh as (t & d & _ & _ & Htok & Hflat & _).
    exfalso. exact (flat_nonempty h t Htok Hflat).
Qed.

(** X24. A scan forward: on a well-formed tree of any height, after
    SeekLE has stopped on the entry number i of the leaves (the one with
    the greatest key at most the search key), n calls of Next do not
    panic and leave the iterator on the entry number i + n, for every
    entry there is: Deref returns its key and value. So Next visits the
    entries one by one in the order of their keys, across the leaves. *)
Theorem Next_scans_in_order (fuel h : nat) (tr : BTree) (es : list entry)
    (q : list byte) :
  contents h tr es -> (h < fuel)%nat ->
  exists it0 : BIter,
    SeekLE fuel tr q = Ok it0
    /\ forall (n : nat) (e : entry),
         es !! (lookupLE (keys es) q + n)%nat = Some e ->
         exists it : BIter,
           Nexts n tr it0 = Ok it
           /\ Valid it = true
           /\ Deref it = Ok (e_key e, e_val e).
Proof.
  intros Hc Hfuel. destruct es as [|e0 es].
  - exists (mkBIter [] []). split; [exact (SeekLE_empty fuel h tr q Hc)|].
    intros n e He. rewrite lookup_nil in He. discriminate.
  - destruct (SeekLE_stands fuel h tr (e0 :: es) q Hc ltac:(discriminate)
                Hfuel) as (it0 & Hrun & Hst).
    exists it0. split; [exact Hrun|]. intros n e He.
    destruct (Nexts_stands h tr (e0 :: es) n it0 _ Hst
                (lookup_lt_Some _ _ _ He)) as (it & Hn & Hst').
    exists it. split; [exact Hn|].
    destruct (Deref_stands h tr _ it _ Hst') as (e' & He' & Hv & Hde).
    rewrite He in He'. injection He' as <-. split; [exact Hv|exact Hde].
Qed.

Lemma Next_scans_in_order_witness :
  exists it0 : BIter,
    SeekLE 2 twoLeavesTree [x01] = Ok it0
    /\ forall (n : nat) (e : entry),
         twoLeavesEntries
           !! (lookupLE (keys twoLeavesEntries) [x01] + n)%nat = Some e ->
         exists it : BIter,
           Nexts n twoLeavesTree it0 = Ok it
           /\ Valid it = true
           /\ Deref it = Ok (e_key e, e_val e).
Proof.
  apply (Next_scans_in_order 2 1 twoLeavesTree twoLeavesEntries [x01]).
  - exact twoLeavesTree_contents.
  - lia.
Defined.

(** *** Moving backward *)

Lemma prevKids_snoc (c : nat) :
  forall (m : nat) (it : BIter) (s : Pager),
    sbind (prevKids m c it) (prevKid (m + c)) s = prevKids m (S c) it s.
Proof.
  induction c as [|c IH]; intros m it s.
  - cbn [prevKids]. rewrite Nat.add_0_r.
    unfold sbind at 1, mret at 1. symmetry. apply sbind_mret.
  - change (prevKids m (S c) it)
      with (sbind (prevKid m it) (fun it' => prevKids (S m) c it')).
    rewrite sbind_assoc.
    change (prevKids m (S (S c)) it)
      with (sbind (prevKid m it) (fun it' => prevKids (S m) (S c) it')).
    apply sbind_ext. intros it1 s1.
    replace (m + S c)%nat with (S m + c)%nat by lia. apply IH.
Qed.

Lemma iterPrev_unroll (m : nat) (it : BIter) (p : Z) (s : Pager) :
  movable_back it m true -> Pos it !! m = Some p ->
  forall l : nat,
    (m <= l)%nat ->
    (forall x, (m < x <= l)%nat -> movable_back it x false) ->
    iterPrev l it s
    = prevKids m (l - m + 1)
        (mkBIter (Path it) (<[m := u16 (p - 1)]> (Pos it))) s.
Proof.
  intros (p0 & Hp & Hmv) Hp'.
  rewrite Hp in Hp'. injection Hp' as ->.
  assert (Hhere : forall l, m = l ->
            iterPrev l it s
            = prevKids m 1
                (mkBIter (Path it) (<[m := u16 (p - 1)]> (Pos it))) s).
  { intros l <-. destruct m as [|m]; cbn [iterPrev]; unfold at_index;
      rewrite Hp; cbn iota; rewrite (sbind_lift _ _ _ _ eq_refl), Hmv;
      unfold set_at;
      (match goal with
       | |- context [(?a <? length (Pos it))%nat] =>
           replace (a <? length (Pos it))%nat with true
             by (symmetry; apply Nat.ltb_lt;
                 now apply lookup_lt_Some in Hp)
       end);
      rewrite (sbind_lift _ _ _ _ eq_refl); cbn [prevKids];
      symmetry; apply sbind_mret. }
  induction l as [|l IH]; intros Hml Hex.
  - rewrite (Hhere 0%nat) by lia. replace (0 - m + 1)%nat with 1%nat by lia.
    reflexivity.
  - destruct (decide (m = S l)) as [E|N].
    + rewrite (Hhere (S l) E).
      replace (S l - m + 1)%nat with 1%nat by lia. reflexivity.
    + destruct (Hex (S l) ltac:(lia)) as (px & Hpx & Hx).
      cbn [iterPrev]. unfold at_index at 1. rewrite Hpx. cbn iota.
      rewrite (sbind_lift _ _ _ _ eq_refl), Hx.
      unfold sbind at 1. rewrite IH; [|lia|intros x Hx'; apply Hex; lia].
      replace (S l - m + 1)%nat with (S (l - m + 1)) by lia.
      rewrite <- prevKids_snoc.
      replace (m + (l - m + 1))%nat with (S l) by lia. reflexivity.
Qed.

Lemma prevKid_under (x : nat) (d0 : BNode) (j0 : Z) (P : list BNode)
    (Q : list Z) (s : Pager) :
  prevKid (S x) (mkBIter (d0 :: P) (j0 :: Q)) s
  = under d0 j0 (prevKid x (mkBIter P Q) s).
Proof.
  unfold prevKid, kidAt, at_index, set_at. cbn [Path Pos length].
  change (S x + 1)%nat with (S (x + 1)).
  change (S (x + 1) <? S (length Q))%nat with (x + 1 <? length Q)%nat.
  change (S (x + 1) <? S (length P))%nat with (x + 1 <? length P)%nat.
  change ((d0 :: P) !! S x) with (P !! x).
  change ((j0 :: Q) !! S x) with (Q !! x).
  destruct (x + 1 <? length Q)%nat; [|reflexivity].
  destruct (P !! x) as [node|]; [|reflexivity].
  destruct (Q !! x) as [pos|]; [|reflexivity].
  unfold sbind, lift, mret, under.
  destruct (getPtr node pos) as [ptr| |]; [|reflexivity|reflexivity].
  destruct (tree_get ptr s) as [[kid s']| |]; [|reflexivity|reflexivity].
  destruct (x + 1 <? length P)%nat; [|reflexivity].
  destruct (nkeys kid) as [n| |]; reflexivity.
Qed.

Lemma prevKids_under (c : nat) :
  forall (m : nat) (d0 : BNode) (j0 : Z) (P : list BNode) (Q : list Z)
         (s : Pager),
    prevKids (S m) c (mkBIter (d0 :: P) (j0 :: Q)) s
    = under d0 j0 (prevKids m c (mkBIter P Q) s).
Proof.
  induction c as [|c IH]; intros m d0 j0 P Q s; cbn [prevKids].
  - reflexivity.
  - unfold sbind. rewrite prevKid_under.
    destruct (prevKid m (mkBIter P Q) s) as [[[P' Q'] s']| |];
      [|reflexivity|reflexivity].
    cbn [under Path Pos]. apply IH.
Qed.

Lemma movable_back_cons (d0 : BNode) (j0 : Z) (P : list BNode)
    (Q : list Z) (x : nat) (b : bool) :
  movable_back (mkBIter P Q) x b ->
  movable_back (mkBIter (d0 :: P) (j0 :: Q)) (S x) b.
Proof. intros H. exact H. Qed.

Lemma upto_all (h : nat) (t : tree h) :
  upto h t (length (node_entries h t)) = length (flat h t).
Proof.
  destruct h as [|h]; [reflexivity|].
  change (list (Z * tree h)) in (type of t).
  cbn [upto node_entries flat]. rewrite take_ge; [reflexivity|].
  rewrite !length_map. lia.
Qed.

(** The block of iterPrev, run down from a node: the way to the last
    entry under the position [j]. *)
Lemma prevKids_rightmost (pg : gmap Z BNode) (fr : Z) (h : nat) :
  forall (t : tree h) (d : BNode) (j : nat) (rest : list BNode)
         (restq : list Z),
    rep pg h t d -> tok h t ->
    (j < length (node_entries h t))%nat ->
    length rest = h -> length restq = h ->
    exists (path' : list BNode) (js' : list nat),
      prevKids 0 (S h) (mkBIter (d :: rest) (Z.of_nat j :: restq))
        (mkPager pg fr)
      = Ok (mkBIter path' (map Z.of_nat (j :: js')), mkPager pg fr)
      /\ descent pg h t d (j :: js') path'
      /\ S (rank h t (j :: js')) = upto h t (S j).
Proof.
  induction h as [|h IH]; intros t d j rest restq Hrep Htok Hj Hl Hlq.
  - destruct rest; [|discriminate]. destruct restq; [|discriminate].
    exists [d], []. split; [reflexivity|]. split; [|reflexivity].
    exists j. repeat split. exact Hj.
  - change (list (Z * tree h)) in (type of t).
    destruct rest as [|r0 rest]; [discriminate|].
    destruct restq as [|q0 restq]; [discriminate|].
    injection Hl as Hl. injection Hlq as Hlq.
    destruct Hrep as [Hn Hk]. destruct Htok as (Hne & _ & Hkt).
    cbn [node_entries] in Hj. rewrite length_map in Hj.
    destruct (lookup_lt_is_Some_2 t j Hj) as [pt Hpt].
    pose proof (Forall_lookup_1 _ _ _ _ Hk Hpt) as (d' & Hd' & Hr').
    pose proof (Forall_lookup_1 _ _ _ _ Hkt Hpt) as Ht'.
    assert (Hlk : map (link h) t !! j = Some (link h pt))
      by (rewrite list_lookup_fmap, Hpt; reflexivity).
    pose proof (tok_top_nonempty h pt.2 Ht') as H0.
    pose proof (rep_node_is pg h pt.2 d' Hr') as Hnode.
    pose proof (rep_n_range _ _ _ _ Hnode) as Hrange.
    pose proof (rep_nkeys _ _ _ _ Hnode) as Hnk.
    set (n' := length (node_entries h pt.2)) in *.
    destruct (IH pt.2 d' (n' - 1)%nat rest restq Hr' Ht' ltac:(lia) Hl Hlq)
      as (path' & js' & Hrun & Hdesc & Hrank).
    exists (d :: path'), ((n' - 1)%nat :: js'). split; [|split].
    + assert (Hkid : kidAt 0 (mkBIter (d :: r0 :: rest)
                                (Z.of_nat j :: q0 :: restq))
                       (mkPager pg fr) = Ok (d', mkPager pg fr)).
      { unfold kidAt, at_index. cbn [Path Pos].
        change ((d :: r0 :: rest) !! 0%nat) with (Some d).
        change ((Z.of_nat j :: q0 :: restq) !! 0%nat)
          with (Some (Z.of_nat j)).
        cbn iota. rewrite !(sbind_lift _ _ _ _ eq_refl).
        rewrite (sbind_lift _ _ _ _ (rep_getPtr _ _ _ _ Hn _ _ Hlk)).
        unfold link at 1, e_ptr. cbn [fst snd].
        exact (tree_get_spec pg fr _ _ Hd'). }
      assert (HnK : prevKid 0 (mkBIter (d :: r0 :: rest)
                                 (Z.of_nat j :: q0 :: restq))
                      (mkPager pg fr)
                    = Ok (mkBIter (d :: d' :: rest)
                            (Z.of_nat j :: Z.of_nat (n' - 1) :: restq),
                          mkPager pg fr)).
      { unfold prevKid. cbn [Path Pos length].
        change (0 + 1 <? S (S (length restq)))%nat with true. cbn iota.
        rewrite (sbind_Ok _ _ _ _ _ Hkid). unfold set_at. cbn [length].
        change (0 + 1 <? S (S (length rest)))%nat with true.
        change (0 + 1 <? S (S (length restq)))%nat with true. cbn iota.
        rewrite (sbind_lift _ _ _ _ eq_refl).
        rewrite (sbind_lift _ _ _ _ Hnk).
        rewrite (sbind_lift _ _ _ _ eq_refl).
        rewrite u16_small by lia.
        replace (Z.of_nat n' - 1) with (Z.of_nat (n' - 1)) by lia.
        reflexivity. }
      change (prevKids 0 (S (S h))
                (mkBIter (d :: r0 :: rest) (Z.of_nat j :: q0 :: restq)))
        with (sbind (prevKid 0 (mkBIter (d :: r0 :: rest)
                                  (Z.of_nat j :: q0 :: restq)))
                (fun it' => prevKids 1 (S h) it')).
      rewrite (sbind_Ok _ _ _ _ _ HnK), prevKids_under, Hrun. reflexivity.
    + exists j, ((n' - 1)%nat :: js'), path', pt, d'.
      repeat (split; [first [reflexivity|assumption]|]). exact Hdesc.
    + destruct (flat_around h t j pt Hpt Hkt) as (_ & _ & _ & Htk).
      cbn zeta in Htk. cbn [rank upto]. rewrite Hpt, Htk.
      replace (S (n' - 1)) with n' in Hrank by lia.
      unfold n' in Hrank at 2. rewrite upto_all in Hrank. lia.
Qed.

Lemma take_segs_pos (h : nat) (t : list (Z * tree h)) (j : nat) :
  Forall (fun pt => tok h pt.2) t ->
  (0 < j <= length t)%nat ->
  (0 < length (concat (take j (map (fun pt => flat h pt.2) t))))%nat.
Proof.
  intros Hkt Hj. destruct t as [|pt t]; [simpl in Hj; lia|].
  destruct j as [|j]; [lia|]. cbn [map take concat].
  apply Forall_cons in Hkt as [Hpt _].
  pose proof (flat_nonempty h pt.2 Hpt) as Hne.
  rewrite length_app. destruct (flat h pt.2); [contradiction|simpl; lia].
Qed.

(** Prev on the way to an entry: the way to the entry before it, when
    there is one; at the first entry no level can move. *)
Lemma prev_descent (pg : gmap Z BNode) (fr : Z) (h : nat) :
  forall (t : tree h) (d : BNode) (js : list nat) (path : list BNode),
    rep pg h t d -> tok h t -> descent pg h t d js path ->
    ((0 < rank h t js)%nat ->
       exists (m : nat) (p : Z) (js' : list nat) (path' : list BNode),
         (m <= h)%nat
         /\ movable_back (mkBIter path (map Z.of_nat js)) m true
         /\ map Z.of_nat js !! m = Some p
         /\ (forall x, (m < x <= h)%nat ->
               movable_back (mkBIter path (map Z.of_nat js)) x false)
         /\ prevKids m (h - m + 1)
              (mkBIter path (<[m := u16 (p - 1)]> (map Z.of_nat js)))
              (mkPager pg fr)
            = Ok (mkBIter path' (map Z.of_nat js'), mkPager pg fr)
         /\ descent pg h t d js' path'
         /\ S (rank h t js') = rank h t js)
    /\ (rank h t js = 0%nat ->
        forall x, (x <= h)%nat ->
          movable_back (mkBIter path (map Z.of_nat js)) x false).
Proof.
  induction h as [|h IH]; intros t d js path Hrep Htok Hdesc.
  - destruct Hdesc as (j & -> & -> & Hj). cbn [rank flat map].
    pose proof (rep_n_range _ _ _ _ Hrep) as Hrange.
    split.
    + intros Hpos. exists 0%nat, (Z.of_nat j), [(j - 1)%nat], [d].
      split; [lia|]. split.
      { exists (Z.of_nat j). split; [reflexivity|].
        rewrite Z.gtb_ltb. apply Z.ltb_lt. lia. }
      split; [reflexivity|]. split; [intros x Hx; lia|].
      split.
      { cbn [Nat.sub Nat.add prevKids].
        change (<[0%nat := u16 (Z.of_nat j - 1)]> [Z.of_nat j])
          with [u16 (Z.of_nat j - 1)].
        rewrite u16_small by lia.
        replace (Z.of_nat j - 1) with (Z.of_nat (j - 1)) by lia.
        reflexivity. }
      split; [|lia]. exists (j - 1)%nat. repeat split. lia.
    + intros Heq x Hx. assert (x = 0%nat) as -> by lia.
      exists (Z.of_nat j). split; [reflexivity|].
      rewrite Z.gtb_ltb. apply Z.ltb_ge. lia.
  - change (list (Z * tree h)) in (type of t).
    destruct Hdesc as (j & js' & path' & pt & d' & -> & -> & Hpt & Hd' & Hdesc).
    destruct Hrep as [Hn Hk]. destruct Htok as (Hne & Hsz & Hkt).
    pose proof (Forall_lookup_1 _ _ _ _ Hk Hpt) as (d'' & Hd'' & Hr').
    rewrite Hd' in Hd''. injection Hd'' as <-.
    pose proof (Forall_lookup_1 _ _ _ _ Hkt Hpt) as Ht'.
    destruct (IH pt.2 d' js' path' Hr' Ht' Hdesc) as (Hprev & Hfirst).
    pose proof (lookup_lt_Some _ _ _ Hpt) as Hjlt.
    pose proof (rep_n_range _ _ _ _ Hn) as Hrange.
    rewrite length_map in Hrange.
    destruct (descent_length _ _ _ _ _ _ Hdesc) as [Hljs Hlpath].
    cbn [rank flat map]. rewrite Hpt.
    set (segs := map (fun pt0 => flat h pt0.2) t) in *.
    split.
    + intros Hpos.
      destruct (decide (0 < rank h pt.2 js')%nat) as [Hin|Hout].
      * (* the entry before is under the same kid *)
        destruct (Hprev Hin)
          as (m & p & js'' & path'' & Hm & Hmv & Hp & Hex & Hrun & Hd2 & Hr2).
        exists (S m), p, (j :: js''), (d :: path'').
        split; [lia|]. split; [exact (movable_back_cons _ _ _ _ _ _ Hmv)|].
        split; [exact Hp|]. split.
        { intros x Hx. destruct x as [|x]; [lia|].
          apply movable_back_cons, Hex. lia. }
        split.
        { change (<[S m := u16 (p - 1)]> (Z.of_nat j :: map Z.of_nat js'))
            with (Z.of_nat j :: <[m := u16 (p - 1)]> (map Z.of_nat js')).
          cbn [Nat.sub].
          rewrite prevKids_under, Hrun. reflexivity. }
        split.
        { exists j, js'', path'', pt, d'.
          repeat (split; [first [reflexivity|assumption]|]). exact Hd2. }
        cbn [rank]. rewrite Hpt. fold segs. lia.
      * (* the last entry under the kid before *)
        assert (Hj1 : (0 < j)%nat).
        { destruct j as [|j]; [|lia]. rewrite take_0 in Hpos.
          cbn [concat length] in Hpos. lia. }
        destruct (prevKids_rightmost pg fr (S h) t d (j - 1)%nat path'
                    (map Z.of_nat js') (conj Hn Hk)
                    (conj Hne (conj Hsz Hkt)))
          as (path'' & js'' & Hrun & Hd2 & Hr2);
          [cbn [node_entries]; rewrite length_map; lia
          |exact Hlpath|rewrite length_map; exact Hljs|].
        exists 0%nat, (Z.of_nat j), ((j - 1)%nat :: js''), path''.
        split; [lia|]. split.
        { exists (Z.of_nat j). split; [reflexivity|].
          rewrite Z.gtb_ltb. apply Z.ltb_lt. lia. }
        split; [reflexivity|]. split.
        { intros x Hx. destruct x as [|x]; [lia|].
          apply movable_back_cons, Hfirst; lia. }
        split.
        { change (<[0%nat := u16 (Z.of_nat j - 1)]>
                    (Z.of_nat j :: map Z.of_nat js'))
            with (u16 (Z.of_nat j - 1) :: map Z.of_nat js').
          rewrite u16_small by lia.
          replace (Z.of_nat j - 1) with (Z.of_nat (j - 1)) by lia.
          replace (S h - 0 + 1)%nat with (S (S h)) by lia.
          exact Hrun. }
        split; [exact Hd2|].
        etrans; [exact Hr2|]. cbn [upto]. fold segs.
        replace (S (j - 1)) with j by lia. lia.
    + intros Heq x Hx.
      assert (Hj0 : j = 0%nat).
      { destruct (decide (j = 0%nat)) as [Y|N]; [exact Y|].
        pose proof (take_segs_pos h t j Hkt ltac:(lia)) as Hp.
        fold segs in Hp. lia. }
      destruct x as [|x].
      * exists (Z.of_nat j). split; [reflexivity|].
        rewrite Z.gtb_ltb. apply Z.ltb_ge. lia.
      * apply movable_back_cons, Hfirst; lia.
Qed.

Lemma Prev_stands (h : nat) (tr : BTree) (es : list entry) (it : BIter)
    (i : nat) :
  stands_at h tr es it (S i) ->
  exists it' : BIter, Prev tr it = Ok it' /\ stands_at h tr es it' i.
Proof.
  destruct tr as [r [pg fr]].
  intros (t & d & js & Hd & Hrep & Htok & Hflat & Hdesc & Hpos & Hrank).
  cbn [root pager pages] in *.
  destruct (descent_length _ _ _ _ _ _ Hdesc) as [Hljs Hlpath].
  destruct (prev_descent pg fr h t d js (Path it) Hrep Htok Hdesc)
    as (Hprev & _).
  destruct Hprev as (m & p & js' & path' & Hm & Hmv & Hp & Hex & Hrun
                     & Hd2 & Hr2); [lia|].
  unfold Prev. rewrite Hlpath. cbn [pager].
  destruct it as [P Q]. cbn [Path Pos] in *. subst Q.
  rewrite (iterPrev_unroll m _ p _ Hmv Hp h Hm Hex). cbn [Path Pos].
  rewrite Hrun. cbn [rbind fst].
  eexists. split; [reflexivity|].
  exists t, d, js'. cbn [root pager pages Path Pos].
  repeat (split; [first [reflexivity|assumption]|]). lia.
Qed.

Lemma Prevs_stands (h : nat) (tr : BTree) (es : list entry) (n : nat) :
  forall (it : BIter) (i : nat),
    stands_at h tr es it (i + n) ->
    exists it' : BIter,
      Prevs n tr it = Ok it' /\ stands_at h tr es it' i.
Proof.
  induction n as [|n IH]; intros it i Hst.
  - exists it. rewrite Nat.add_0_r in Hst. split; [reflexivity|exact Hst].
  - replace (i + S n)%nat with (S (i + n)) in Hst by lia.
    destruct (Prev_stands h tr es it (i + n) Hst) as (it1 & Hrun & Hst1).
    destruct (IH it1 i Hst1) as (it' & Hrun' & Hst').
    exists it'. cbn [Prevs]. rewrite Hrun. cbn [rbind].
    split; [exact Hrun'|exact Hst'].
Qed.

(** X25. A scan backward: on a well-formed tree of any height, after
    SeekLE has stopped on the entry number i of the leaves, n calls of
    Prev, for n up to i, do not panic and leave the iterator on the entry
    number i - n: Deref returns its key and value. So Prev visits the
    entries one by one in the reverse order of their keys, across the
    leaves, down to the entry of the empty key at the start. *)
Theorem Prev_scans_back (fuel h : nat) (tr : BTree) (es : list entry)
    (q : list byte) :
  contents h tr es -> (h < fuel)%nat ->
  exists it0 : BIter,
    SeekLE fuel tr q = Ok it0
    /\ forall (n : nat) (e : entry),
         (n <= lookupLE (keys es) q)%nat ->
         es !! (lookupLE (keys es) q - n)%nat = Some e ->
         exists it : BIter,
           Prevs n tr it0 = Ok it
           /\ Valid it = true
           /\ Deref it = Ok (e_key e, e_val e).
Proof.
  intros Hc Hfuel. destruct es as [|e0 es].
  - exists (mkBIter [] []). split; [exact (SeekLE_empty fuel h tr q Hc)|].
    intros n e _ He. rewrite lookup_nil in He. discriminate.
  - destruct (SeekLE_stands fuel h tr (e0 :: es) q Hc ltac:(discriminate)
                Hfuel) as (it0 & Hrun & Hst).
    exists it0. split; [exact Hrun|]. intros n e Hn He.
    set (i := lookupLE (keys (e0 :: es)) q) in *.
    replace i with (i - n + n)%nat in Hst by lia.
    destruct (Prevs_stands h tr (e0 :: es) n it0 _ Hst) as (it & Hp & Hst').
    exists it. split; [exact Hp|].
    destruct (Deref_stands h tr _ it _ Hst') as (e' & He' & Hv & Hde).
    rewrite He in He'. injection He' as <-. split; [exact Hv|exact Hde].
Qed.

Lemma Prev_scans_back_witness :
  exists it0 : BIter,
    SeekLE 2 twoLeavesTree (bigKey x14) = Ok it0
    /\ forall (n : nat) (e : entry),
         (n <= lookupLE (keys twoLeavesEntries) (bigKey x14))%nat ->
         twoLeavesEntries
           !! (lookupLE (keys twoLeavesEntries) (bigKey x14) - n)%nat
         = Some e ->
         exists it : BIter,
           Prevs n twoLeavesTree it0 = Ok it
           /\ Valid it = true
           /\ Deref it = Ok (e_key e, e_val e).
Proof.
  apply (Prev_scans_back 2 1 twoLeavesTree twoLeavesEntries (bigKey x14)).
  - exact twoLeavesTree_contents.
  - lia.
Defined.

(** *** At the two ends *)

Lemma iterNext_exhausted (it : BIter) (s : Pager) :
  forall l : nat,
    (forall x, (x <= l)%nat -> movable it x false) ->
    iterNext l it s = nextKids 1 l it s.
Proof.
  induction l as [|l IH]; intros Hex.
  - destruct (Hex 0%nat ltac:(lia)) as (p & d & n & Hp & Hd & Hn & Hx).
    cbn [iterNext nextKids]. unfold at_index. rewrite Hp, Hd. cbn iota.
    rewrite !(sbind_lift _ _ _ _ eq_refl), (sbind_lift _ _ _ _ Hn), Hx.
    reflexivity.
  - destruct (Hex (S l) ltac:(lia)) as (p & d & n & Hp & Hd & Hn & Hx).
    cbn [iterNext]. unfold at_index at 1 2. rewrite Hp, Hd. cbn iota.
    rewrite !(sbind_lift _ _ _ _ eq_refl), (sbind_lift _ _ _ _ Hn), Hx.
    unfold sbind at 1. rewrite IH by (intros x Hx'; apply Hex; lia).
    rewrite <- nextKids_snoc. reflexivity.
Qed.

Lemma iterPrev_exhausted (it : BIter) (s : Pager) :
  forall l : nat,
    (forall x, (x <= l)%nat -> movable_back it x false) ->
    iterPrev l it s = prevKids 1 l it s.
Proof.
  induction l as [|l IH]; intros Hex.
  - destruct (Hex 0%nat ltac:(lia)) as (p & Hp & Hx).
    cbn [iterPrev prevKids]. unfold at_index. rewrite Hp. cbn iota.
    rewrite (sbind_lift _ _ _ _ eq_refl), Hx. reflexivity.
  - destruct (Hex (S l) ltac:(lia)) as (p & Hp & Hx).
    cbn [iterPrev]. unfold at_index at 1. rewrite Hp. cbn iota.
    rewrite (sbind_lift _ _ _ _ eq_refl), Hx.
    unfold sbind at 1. rewrite IH by (intros x Hx'; apply Hex; lia).
    rewrite <- prevKids_snoc. reflexivity.
Qed.

Lemma descent_head (pg : gmap Z BNode) (h : nat) (t : tree h) (d : BNode)
    (js : list nat) (path : list BNode) :
  descent pg h t d js path ->
  exists (j : nat) (restq : list nat) (rest : list BNode),
    js = j :: restq /\ path = d :: rest
    /\ (j < length (node_entries h t))%nat
    /\ length rest = h /\ length restq = h.
Proof.
  intros H. pose proof (descent_length _ _ _ _ _ _ H) as [Hl Hp].
  destruct h as [|h].
  - destruct H as (j & -> & -> & Hj). exists j, [], [].
    repeat split. exact Hj.
  - change (list (Z * tree h)) in (type of t).
    destruct H as (j & js' & path' & pt & d' & -> & -> & Hpt & _ & _).
    exists j, js', path'. cbn [length] in Hl, Hp.
    split; [reflexivity|]. split; [reflexivity|].
    split; [|split; lia].
    cbn [node_entries]. rewrite length_map.
    now apply lookup_lt_Some in Hpt.
Qed.

(** Where a move that no level can make leaves the iterator: on an entry
    of the tree; in a tree of one or two levels, where it was. *)
Lemma end_stands (h : nat) (tr : BTree) (es : list entry) (it : BIter)
    (i : nat) (kids : nat -> nat -> BIter -> M BIter) :
  (kids = nextKids \/ kids = prevKids) ->
  stands_at h tr es it i ->
  exists (it' : BIter) (i' : nat),
    (let* r := kids 1%nat h it (pager tr) in Ok r.1) = Ok it'
    /\ stands_at h tr es it' i'
    /\ ((h <= 1)%nat -> it' = it).
Proof.
  destruct tr as [r [pg fr]].
  intros Hkids (t & d & js & Hd & Hrep & Htok & Hflat & Hdesc & Hpos & Hrank).
  cbn [root pager pages] in *.
  destruct it as [P Q]. cbn [Path Pos] in *. subst Q.
  destruct h as [|h].
  - exists (mkBIter P (map Z.of_nat js)), i.
    split; [destruct Hkids as [-> | ->]; reflexivity|].
    split; [|reflexivity].
    exists t, d, js. repeat (split; [first [reflexivity|assumption]|]).
    exact Hrank.
  - change (list (Z * tree h)) in (type of t).
    destruct Hdesc as (j & js' & path' & pt & d' & -> & -> & Hpt & Hd' & Hdesc).
    destruct Hrep as [Hn Hk]. destruct Htok as (Hne & Hsz & Hkt).
    pose proof (Forall_lookup_1 _ _ _ _ Hk Hpt) as (d'' & Hd'' & Hr').
    rewrite Hd' in Hd''. injection Hd'' as <-.
    pose proof (Forall_lookup_1 _ _ _ _ Hkt Hpt) as Ht'.
    destruct (descent_head _ _ _ _ _ _ Hdesc)
      as (j1 & restq & rest & -> & -> & Hj1 & Hl & Hlq).
    assert (Hrun : exists (path'' : list BNode) (js'' : list nat),
              kids 0%nat (S h) (mkBIter (d' :: rest)
                                  (Z.of_nat j1 :: map Z.of_nat restq))
                (mkPager pg fr)
              = Ok (mkBIter path'' (map Z.of_nat (j1 :: js'')),
                    mkPager pg fr)
              /\ descent pg h pt.2 d' (j1 :: js'') path'').
    { destruct Hkids as [-> | ->].
      - destruct (nextKids_leftmost pg fr h pt.2 d' j1 rest
                    (map Z.of_nat restq) Hr' Ht' Hj1 Hl)
          as (path'' & Hrun & Hd2); [now rewrite length_map|].
        now exists path'', (replicate h 0%nat).
      - destruct (prevKids_rightmost pg fr h pt.2 d' j1 rest
                    (map Z.of_nat restq) Hr' Ht' Hj1 Hl)
          as (path'' & js'' & Hrun & Hd2 & _); [now rewrite length_map|].
        now exists path'', js''. }
    destruct Hrun as (path'' & js'' & Hrun & Hd2).
    exists (mkBIter (d :: path'') (map Z.of_nat (j :: j1 :: js''))),
      (rank (S h) t (j :: j1 :: js'')).
    split; [|split].
    + cbn [map].
      assert (E : kids 1%nat (S h)
                    (mkBIter (d :: d' :: rest)
                       (Z.of_nat j :: Z.of_nat j1 :: map Z.of_nat restq))
                    (mkPager pg fr)
                  = under d (Z.of_nat j)
                      (kids 0%nat (S h)
                         (mkBIter (d' :: rest)
                            (Z.of_nat j1 :: map Z.of_nat restq))
                         (mkPager pg fr))).
      { destruct Hkids as [-> | ->];
          [apply nextKids_under|apply prevKids_under]. }
      cbn [pager]. rewrite E, Hrun. reflexivity.
    + exists t, d, (j :: j1 :: js''). cbn [root pager pages Path Pos].
      split; [exact Hd|]. split; [exact (conj Hn Hk)|].
      split; [exact (conj Hne (conj Hsz Hkt))|]. split; [exact Hflat|].
      split; [|split; reflexivity].
      exists j, (j1 :: js''), path'', pt, d'.
      repeat (split; [first [reflexivity|assumption]|]). exact Hd2.
    + intros Hh. assert (h = 0%nat) as -> by lia.
      destruct rest; [|discriminate]. destruct restq; [|discriminate].
      destruct Hd2 as (j2 & E1 & -> & _). injection E1 as _ <-.
      reflexivity.
Qed.

Lemma Next_at_end (h : nat) (tr : BTree) (es : list entry) (it : BIter)
    (i : nat) :
  stands_at h tr es it i -> S i = length es ->
  exists (it' : BIter) (e : entry),
    Next tr it = Ok it' /\ e ∈ es /\ Valid it' = true
    /\ Deref it' = Ok (e_key e, e_val e)
    /\ ((h <= 1)%nat -> it' = it).
Proof.
  intros Hst Hi.
  destruct (end_stands h tr es it i nextKids (or_introl eq_refl) Hst)
    as (it' & i' & Hrun & Hst' & Hsame).
  destruct (Deref_stands h tr es it' i' Hst') as (e & He & Hv & Hde).
  exists it', e.
  split; [|split; [|split; [exact Hv|split; [exact Hde|exact Hsame]]]].
  - destruct tr as [r [pg fr]].
    destruct Hst as (t & d & js & Hd & Hrep & Htok & Hflat & Hdesc & Hpos
                     & Hrank).
    cbn [root pager pages] in *.
    destruct (descent_length _ _ _ _ _ _ Hdesc) as [Hljs Hlpath].
    destruct (next_descent pg fr h t d js (Path it) Hrep Htok Hdesc)
      as (_ & _ & Hlast).
    specialize (Hlast ltac:(rewrite Hflat, Hrank; lia)).
    unfold Next. rewrite Hlpath. cbn [pager].
    destruct it as [P Q]. cbn [Path Pos] in *. subst Q.
    rewrite (iterNext_exhausted _ _ h Hlast). exact Hrun.
  - now apply list_elem_of_lookup_2 in He.
Qed.

Lemma Prev_at_start (h : nat) (tr : BTree) (es : list entry) (it : BIter) :
  stands_at h tr es it 0 ->
  exists (it' : BIter) (e : entry),
    Prev tr it = Ok it' /\ e ∈ es /\ Valid it' = true
    /\ Deref it' = Ok (e_key e, e_val e)
    /\ ((h <= 1)%nat -> it' = it).
Proof.
  intros Hst.
  destruct (end_stands h tr es it 0 prevKids (or_intror eq_refl) Hst)
    as (it' & i' & Hrun & Hst' & Hsame).
  destruct (Deref_stands h tr es it' i' Hst') as (e & He & Hv & Hde).
  exists it', e.
  split; [|split; [|split; [exact Hv|split; [exact Hde|exact Hsame]]]].
  - destruct tr as [r [pg fr]].
    destruct Hst as (t & d & js & Hd & Hrep & Htok & Hflat & Hdesc & Hpos
                     & Hrank).
    cbn [root pager pages] in *.
    destruct (descent_length _ _ _ _ _ _ Hdesc) as [Hljs Hlpath].
    destruct (prev_descent pg fr h t d js (Path it) Hrep Htok Hdesc)
      as (_ & Hfirst).
    specialize (Hfirst Hrank).
    unfold Prev. rewrite Hlpath. cbn [pager].
    destruct it as [P Q]. cbn [Path Pos] in *. subst Q.
    rewrite (iterPrev_exhausted _ _ h Hfirst). exact Hrun.
  - now apply list_elem_of_lookup_2 in He.
Qed.

(** X26. At the two ends of a well-formed, non-empty tree the iterator
    does not fall off: Next on the last entry and Prev on the first entry
    do not panic and leave a valid iterator on an entry of the tree. In a
    tree of one or two levels they leave the iterator exactly as it
    was. *)
Theorem Next_Prev_at_the_ends (fuel h : nat) (tr : BTree)
    (es : list entry) (q : list byte) :
  contents h tr es -> (h < fuel)%nat -> es <> [] ->
  exists it0 : BIter,
    SeekLE fuel tr q = Ok it0
    /\ (forall n : nat,
          S (lookupLE (keys es) q + n) = length es ->
          exists (itn it' : BIter) (e : entry),
            Nexts n tr it0 = Ok itn
            /\ Next tr itn = Ok it'
            /\ e ∈ es /\ Valid it' = true
            /\ Deref it' = Ok (e_key e, e_val e)
            /\ ((h <= 1)%nat -> it' = itn))
    /\ (exists (itn it' : BIter) (e : entry),
          Prevs (lookupLE (keys es) q) tr it0 = Ok itn
          /\ Prev tr itn = Ok it'
          /\ e ∈ es /\ Valid it' = true
          /\ Deref it' = Ok (e_key e, e_val e)
          /\ ((h <= 1)%nat -> it' = itn)).
Proof.
  intros Hc Hfuel Hne.
  destruct (SeekLE_stands fuel h tr es q Hc Hne Hfuel) as (it0 & Hrun & Hst).
  exists it0. split; [exact Hrun|]. split.
  - intros n Hn.
    destruct (Nexts_stands h tr es n it0 _ Hst ltac:(lia))
      as (itn & Hrunn & Hstn).
    destruct (Next_at_end h tr es itn _ Hstn Hn)
      as (it' & e & Hnext & He & Hv & Hde & Hsame).
    exists itn, it', e. repeat (split; [assumption|]). exact Hsame.
  - set (i := lookupLE (keys es) q) in *.
    replace i with (0 + i)%nat in Hst by lia.
    destruct (Prevs_stands h tr es i it0 0%nat Hst) as (itn & Hrunn & Hstn).
    destruct (Prev_at_start h tr es itn Hstn)
      as (it' & e & Hprev & He & Hv & Hde & Hsame).
    exists itn, it', e. repeat (split; [assumption|]). exact Hsame.
Qed.

Lemma Next_Prev_at_the_ends_witness :
  twoLeavesEntries <> []
  /\ exists it0 : BIter,
       SeekLE 2 twoLeavesTree (bigKey x0a) = Ok it0
       /\ (forall n : nat,
             S (lookupLE (keys twoLeavesEntries) (bigKey x0a) + n)
             = length twoLeavesEntries ->
             exists (itn it' : BIter) (e : entry),
               Nexts n twoLeavesTree it0 = Ok itn
               /\ Next twoLeavesTree itn = Ok it'
               /\ e ∈ twoLeavesEntries
               /\ Valid it' = true
               /\ Deref it' = Ok (e_key e, e_val e)
               /\ ((1 <= 1)%nat -> it' = itn))
       /\ (exists (itn it' : BIter) (e : entry),
             Prevs (lookupLE (keys twoLeavesEntries) (bigKey x0a))
               twoLeavesTree it0 = Ok itn
             /\ Prev twoLeavesTree itn = Ok it'
             /\ e ∈ twoLeavesEntries
             /\ Valid it' = true
             /\ Deref it' = Ok (e_key e, e_val e)
             /\ ((1 <= 1)%nat -> it' = itn)).
Proof.
  split; [discriminate|].
  apply (Next_Prev_at_the_ends 2 1 twoLeavesTree twoLeavesEntries
           (bigKey x0a)).
  - exact twoLeavesTree_contents.
  - lia.
  - discriminate.
Defined.

(** ** The store on the mapped file *)

Lemma u64_small (z : Z) : 0 <= z < 18446744073709551616 -> u64 z = z.
Proof. intros H. unfold u64. now apply Z.mod_small. Qed.

Lemma pageRead_loop_spec (chunks : list (list byte)) :
  forall start ptr : Z,
    Forall (fun c => blen c mod BTREE_PAGE_SIZE = 0) chunks ->
    0 <= start <= ptr ->
    BTREE_PAGE_SIZE * start + blen (concat chunks) < 18446744073709551616 ->
    (BTREE_PAGE_SIZE * (ptr - start + 1) <= blen (concat chunks) ->
       Store.pageRead_loop chunks start ptr
       = Ok (take (Z.to_nat BTREE_PAGE_SIZE)
               (drop (Z.to_nat (BTREE_PAGE_SIZE * (ptr - start)))
                  (concat chunks))))
    /\ (blen (concat chunks) < BTREE_PAGE_SIZE * (ptr - start + 1) ->
        Store.pageRead_loop chunks start ptr = Panic "bad ptr").
Proof.
  unfold BTREE_PAGE_SIZE.
  induction chunks as [|c chunks IH]; intros start ptr Hm Hs Hmax.
  - cbn [concat Store.pageRead_loop]. unfold blen. cbn [length].
    split; [intros H; lia|reflexivity].
  - apply Forall_cons in Hm as [Hc Hm].
    cbn [concat Store.pageRead_loop] in *. rewrite blen_app in *.
    pose proof (blen_nonneg c) as Hc0.
    pose proof (blen_nonneg (concat chunks)) as Hr0.
    apply Z.mod_divide in Hc; [|lia]. destruct Hc as [k Hk].
    assert (Hk0 : 0 <= k) by lia.
    unfold BTREE_PAGE_SIZE.
    rewrite (u64_small (blen c)) by lia.
    replace (blen c / 4096) with k by (rewrite Hk; now rewrite Z.div_mul).
    rewrite (u64_small (start + k)) by lia.
    destruct (Z.ltb_spec ptr (start + k)) as [Hin|Hout].
    + split; [|intros H; lia]. intros _.
      rewrite (u64_small (ptr - start)) by lia.
      rewrite (u64_small (4096 * (ptr - start))) by lia.
      rewrite (u64_small (4096 * (ptr - start) + 4096)) by lia.
      unfold slice.
      replace ((0 <=? 4096 * (ptr - start))
               && (4096 * (ptr - start) <=? 4096 * (ptr - start) + 4096)
               && (4096 * (ptr - start) + 4096 <=? blen c)) with true
        by (symmetry; rewrite !andb_true_iff, !Z.leb_le; lia).
      f_equal.
      replace (4096 * (ptr - start) + 4096 - 4096 * (ptr - start))
        with 4096 by lia.
      rewrite drop_app_le by (unfold blen in *; lia).
      rewrite take_app_le; [reflexivity|].
      rewrite length_drop. unfold blen in *. lia.
    + specialize (IH (start + k) ptr Hm ltac:(lia) ltac:(lia)).
      destruct IH as [IH1 IH2]. split.
      * intros H. rewrite IH1 by lia. f_equal. f_equal.
        rewrite drop_app_ge by (unfold blen in *; lia).
        f_equal. unfold blen in *. lia.
      * intros H. apply IH2. lia.
Qed.

(** X27. pageRead returns the page number [ptr] of the mapped file: when
    every chunk is a whole number of pages, it is the 4096 bytes at the
    offset 4096 * ptr of the chunks laid end to end, whichever chunk
    holds them; for a page number beyond the mappings it panics with
    "bad ptr". *)
Theorem pageRead_nth_page (db : Store.KV) (ptr : Z) :
  Forall (fun c => blen c mod BTREE_PAGE_SIZE = 0) (Store.mmap_chunks db) ->
  blen (concat (Store.mmap_chunks db)) < 18446744073709551616 ->
  0 <= ptr ->
  (BTREE_PAGE_SIZE * (ptr + 1) <= blen (concat (Store.mmap_chunks db)) ->
     exists page,
       Store.pageRead db ptr = Ok page
       /\ blen page = BTREE_PAGE_SIZE
       /\ page = take (Z.to_nat BTREE_PAGE_SIZE)
                   (drop (Z.to_nat (BTREE_PAGE_SIZE * ptr))
                      (concat (Store.mmap_chunks db))))
  /\ (blen (concat (Store.mmap_chunks db)) < BTREE_PAGE_SIZE * (ptr + 1) ->
      Store.pageRead db ptr = Panic "bad ptr").
Proof.
  intros Hm Hmax Hp.
  destruct (pageRead_loop_spec (Store.mmap_chunks db) 0 ptr Hm ltac:(lia)
              ltac:(lia)) as [H1 H2].
  rewrite Z.sub_0_r in H1, H2. unfold Store.pageRead. split.
  - intros H. eexists. split; [exact (H1 H)|]. split; [|reflexivity].
    unfold blen in *. rewrite length_take, length_drop.
    unfold BTREE_PAGE_SIZE in *. lia.
  - exact H2.
Qed.

Lemma pageRead_nth_page_witness :
  Forall (fun c => blen c mod BTREE_PAGE_SIZE = 0)
    (Store.mmap_chunks twoChunks)
  /\ (BTREE_PAGE_SIZE * (2 + 1)
      <= blen (concat (Store.mmap_chunks twoChunks)) ->
      exists page,
        Store.pageRead twoChunks 2 = Ok page
        /\ blen page = BTREE_PAGE_SIZE
        /\ page = take (Z.to_nat BTREE_PAGE_SIZE)
                    (drop (Z.to_nat (BTREE_PAGE_SIZE * 2))
                       (concat (Store.mmap_chunks twoChunks))))
  /\ (blen (concat (Store.mmap_chunks twoChunks))
      < BTREE_PAGE_SIZE * (2 + 1) ->
      Store.pageRead twoChunks 2 = Panic "bad ptr").
Proof.
  assert (H : Forall (fun c => blen c mod BTREE_PAGE_SIZE = 0)
                (Store.mmap_chunks twoChunks)).
  { unfold twoChunks. cbn [Store.mmap_chunks].
    repeat (apply List.Forall_cons; [vm_compute; reflexivity|]).
    apply List.Forall_nil. }
  split; [exact H|].
  apply (pageRead_nth_page twoChunks 2 H); [vm_compute; reflexivity|lia].
Defined.

Lemma int_small (z : Z) :
  -9223372036854775808 <= z < 9223372036854775808 -> Store.int z = z.
Proof.
  intros H. unfold Store.int.
  rewrite Z.mod_small by lia. lia.
Qed.

Lemma grow_pages_spec (fuel : nat) :
  forall f n : Z,
    0 <= f < n -> n < 1099511627776 ->
    (Z.to_nat (n - f) <= fuel)%nat ->
    exists p : Z,
      Store.grow_pages fuel f n = Ok p /\ n <= p /\ 8 * p <= 9 * n.
Proof.
  induction fuel as [|fuel IH]; intros f n Hf Hn Hfuel; [lia|].
  cbn [Store.grow_pages].
  destruct (Z.ltb_spec f n) as [_|C]; [|lia].
  pose proof (Z.quot_pos f 8 ltac:(lia) ltac:(lia)) as Hq0.
  assert (Hq : 8 * (f ÷ 8) <= f).
  { rewrite Z.quot_div_nonneg by lia. apply Z.mul_div_le. lia. }
  set (inc := if f ÷ 8 <? 1 then 1 else f ÷ 8).
  assert (Hinc : 1 <= inc /\ 8 * inc <= Z.max 8 f).
  { unfold inc. destruct (Z.ltb_spec (f ÷ 8) 1); lia. }
  rewrite int_small by lia.
  destruct (Z.lt_ge_cases (f + inc) n) as [Hlt|Hge].
  - apply IH; lia.
  - exists (f + inc). split; [|lia].
    destruct fuel; cbn [Store.grow_pages];
      (destruct (Z.ltb_spec (f + inc) n) as [C|_]; [lia|reflexivity]).
Qed.

(** X28. extendFile leaves a file that is large enough when it is, without
    a call of Fallocate. Otherwise it asks Fallocate for a whole number of
    pages that is at least [npages] and at most nine eighths of it; when
    Fallocate succeeds that is the new file size, when it fails the error
    is returned with the prefix "fallocate: " and the size stays. The
    mappings are not touched. *)
Theorem extendFile_enough (fuel : nat) (fallocate : Z -> option string)
    (db : Store.KV) (npages : Z) :
  0 <= Store.mmap_file db < 4503599627370496 ->
  0 <= npages < 1099511627776 ->
  (Z.to_nat npages <= fuel)%nat ->
  exists (err : option string) (db' : Store.KV),
    Store.extendFile fuel fallocate db npages = Ok (err, db')
    /\ Store.mmap_total db' = Store.mmap_total db
    /\ Store.mmap_chunks db' = Store.mmap_chunks db
    /\ (npages <= Store.mmap_file db / BTREE_PAGE_SIZE ->
        err = None /\ db' = db)
    /\ (Store.mmap_file db / BTREE_PAGE_SIZE < npages ->
        exists pages : Z,
          npages <= pages /\ 8 * pages <= 9 * npages
          /\ Store.fallocated db'
             = pages * BTREE_PAGE_SIZE :: Store.fallocated db
          /\ match fallocate (pages * BTREE_PAGE_SIZE) with
             | None =>
                 err = None
                 /\ Store.mmap_file db' = pages * BTREE_PAGE_SIZE
             | Some e =>
                 err = Some ("fallocate: " ++ e)%string
                 /\ Store.mmap_file db' = Store.mmap_file db
             end).
Proof.
  intros Hfile Hn Hfuel. unfold Store.extendFile, BTREE_PAGE_SIZE.
  rewrite Z.quot_div_nonneg by lia.
  pose proof (Z.div_pos (Store.mmap_file db) 4096 ltac:(lia) ltac:(lia))
    as Hq0.
  destruct (Z.geb_spec (Store.mmap_file db / 4096) npages) as [Hge|Hlt].
  - exists None, db. repeat (split; [reflexivity|]).
    split; [intros _; split; reflexivity|intros C; lia].
  - destruct (grow_pages_spec fuel (Store.mmap_file db / 4096) npages
                ltac:(lia) ltac:(lia) ltac:(lia)) as (p & Hrun & Hp1 & Hp2).
    rewrite Hrun. cbn [rbind]. rewrite int_small by lia.
    destruct (fallocate (p * 4096)) as [e|] eqn:Hfa;
      (do 2 eexists; split; [reflexivity|]; cbn [Store.mmap_total
         Store.mmap_chunks Store.fallocated Store.mmap_file];
       split; [reflexivity|]; split; [reflexivity|];
       split; [intros C; lia|]; intros _; exists p;
       split; [exact Hp1|]; split; [exact Hp2|]; split; [reflexivity|];
       rewrite Hfa; split; reflexivity).
Qed.

Lemma extendFile_enough_witness :
  exists (err : option string) (db' : Store.KV),
    Store.extendFile 5 (fun _ => None) twoChunks 5 = Ok (err, db')
    /\ Store.mmap_total db' = Store.mmap_total twoChunks
    /\ Store.mmap_chunks db' = Store.mmap_chunks twoChunks
    /\ (5 <= Store.mmap_file twoChunks / BTREE_PAGE_SIZE ->
        err = None /\ db' = twoChunks)
    /\ (Store.mmap_file twoChunks / BTREE_PAGE_SIZE < 5 ->
        exists pages : Z,
          5 <= pages /\ 8 * pages <= 9 * 5
          /\ Store.fallocated db'
             = pages * BTREE_PAGE_SIZE :: Store.fallocated twoChunks
          /\ match (fun _ : Z => @None string) (pages * BTREE_PAGE_SIZE) with
             | None =>
                 err = None
                 /\ Store.mmap_file db' = pages * BTREE_PAGE_SIZE
             | Some e =>
                 err = Some ("fallocate: " ++ e)%string
                 /\ Store.mmap_file db' = Store.mmap_file twoChunks
             end).
Proof.
  apply (extendFile_enough 5 (fun _ => None) twoChunks 5).
  - vm_compute. split; [discriminate|reflexivity].
  - lia.
  - vm_compute. lia.
Defined.

Lemma grow_alloc_spec (total size : Z) (fuel : nat) :
  forall alloc : Z,
    0 <= total < 2305843009213693952 -> size < 2305843009213693952 ->
    67108864 <= alloc < 4611686018427387904 ->
    (4096 | alloc) ->
    size <= alloc * 2 ^ Z.of_nat fuel ->
    exists a : Z,
      Store.grow_alloc fuel total alloc size = Ok a
      /\ alloc <= a < 4611686018427387904
      /\ (4096 | a)
      /\ size <= total + a.
Proof.
  induction fuel as [|fuel IH]; intros alloc Ht Hs Ha Hd Hpow;
    cbn [Store.grow_alloc]; rewrite int_small by lia.
  - cbn [Z.of_nat] in Hpow. rewrite Z.pow_0_r, Z.mul_1_r in Hpow.
    destruct (Z.ltb_spec (total + alloc) size) as [C|_]; [lia|].
    exists alloc. repeat split; (assumption || lia).
  - destruct (Z.ltb_spec (total + alloc) size) as [Hlt|Hge].
    + rewrite int_small by lia.
      destruct (IH (alloc * 2)) as (a & Hrun & Ha1 & Ha2 & Ha3);
        [exact Ht|exact Hs|lia|now apply Z.divide_mul_l| |].
      * rewrite Nat2Z.inj_succ, Z.pow_succ_r in Hpow by lia. lia.
      * exists a. split; [exact Hrun|]. repeat split; (assumption || lia).
    + exists alloc. repeat split; (assumption || lia).
Qed.

Lemma mapped_total_pages (chunks : list (list byte)) :
  Forall (fun c => blen c mod BTREE_PAGE_SIZE = 0) chunks ->
  (4096 | blen (concat chunks)).
Proof.
  unfold BTREE_PAGE_SIZE. induction chunks as [|c chunks IH]; intros H.
  - exists 0. reflexivity.
  - apply Forall_cons in H as [Hc H]. cbn [concat]. rewrite blen_app.
    apply Z.divide_add_r; [|now apply IH].
    apply Z.mod_divide; [lia|exact Hc].
Qed.

(** X29. extendMmap keeps the mappings whole: when every chunk is a whole
    number of pages and [mmap.total] is their size, it leaves them so. A
    mapping that already covers [size] is left alone. Otherwise one chunk
    is mapped at the end whose size is at least that of all the mappings
    before it and at least 64 MiB, and afterwards the mappings cover
    [size]; when Mmap fails the error is returned with the prefix
    "mmap: " and the store is left as it was. *)
Theorem extendMmap_covers (fuel : nat)
    (mmap : Z -> Z -> list byte * option string) (db : Store.KV)
    (size : Z) :
  Store.mapped db ->
  Store.mmap_total db < 2305843009213693952 ->
  size < 2305843009213693952 ->
  (forall off len chunk, mmap off len = (chunk, None) -> blen chunk = len) ->
  (35 <= fuel)%nat ->
  exists (err : option string) (db' : Store.KV),
    Store.extendMmap fuel mmap db size = Ok (err, db')
    /\ Store.mapped db'
    /\ (size <= Store.mmap_total db -> err = None /\ db' = db)
    /\ (forall e, err = Some e ->
          db' = db /\ exists e', e = ("mmap: " ++ e')%string)
    /\ (Store.mmap_total db < size -> err = None ->
        size <= Store.mmap_total db'
        /\ exists chunk,
             Store.mmap_chunks db' = Store.mmap_chunks db ++ [chunk]
             /\ Store.mmap_total db' = Store.mmap_total db + blen chunk
             /\ Store.mmap_total db <= blen chunk
             /\ 67108864 <= blen chunk).
Proof.
  intros Hmap Htot Hsize Hmmap Hfuel. unfold Store.extendMmap.
  pose proof Hmap as [Hm Ht].
  pose proof (blen_nonneg (concat (Store.mmap_chunks db))) as H0.
  destruct (Z.leb_spec size (Store.mmap_total db)) as [Hle|Hgt].
  - exists None, db. split; [reflexivity|]. split; [exact Hmap|].
    split; [intros _; split; reflexivity|].
    split; [intros e C; discriminate|intros C; lia].
  - change (Z.shiftl 64 20) with 67108864.
    destruct (grow_alloc_spec (Store.mmap_total db) size fuel
                (Z.max (Store.mmap_total db) 67108864))
      as (a & Hrun & Ha1 & Ha2 & Ha3); [lia|lia|lia| | |].
    { destruct (Z.max_spec (Store.mmap_total db) 67108864) as [[_ ->]|[_ ->]].
      - exists 16384. reflexivity.
      - rewrite Ht. now apply mapped_total_pages. }
    { assert (2 ^ 35 <= 2 ^ Z.of_nat fuel)
        by (apply Z.pow_le_mono_r; lia).
      change (2 ^ 35) with 34359738368 in *. nia. }
    rewrite Hrun. cbn [rbind].
    destruct (mmap (Store.mmap_total db) a) as [chunk [e|]] eqn:Hcall.
    + exists (Some ("mmap: " ++ e)%string), db.
      split; [reflexivity|]. split; [exact Hmap|].
      split; [intros C; lia|]. split.
      * intros e0 E. injection E as <-. split; [reflexivity|now exists e].
      * intros _ C. discriminate.
    + pose proof (Hmmap _ _ _ Hcall) as Hlen.
      rewrite int_small by lia.
      eexists None, _. split; [reflexivity|].
      cbn [Store.mmap_total Store.mmap_chunks].
      split; [|split; [intros C; lia|split; [intros e C; discriminate|]]].
      * split; cbn [Store.mmap_total Store.mmap_chunks].
        -- apply Forall_app. split; [exact Hm|].
           apply List.Forall_cons; [|apply List.Forall_nil].
           rewrite Hlen. unfold BTREE_PAGE_SIZE.
           apply Z.mod_divide; [lia|exact Ha2].
        -- rewrite concat_app, blen_app. cbn [concat].
           rewrite app_nil_r, Hlen, Ht. reflexivity.
      * intros _ _. split; [lia|]. exists chunk.
        split; [reflexivity|]. rewrite Hlen.
        split; [reflexivity|]. lia.
Qed.

Lemma extendMmap_covers_witness :
  Store.mapped twoChunks
  /\ exists (err : option string) (db' : Store.KV),
       Store.extendMmap 35 zeroMmap
         twoChunks 20000 = Ok (err, db')
       /\ Store.mapped db'
       /\ (20000 <= Store.mmap_total twoChunks -> err = None /\ db' = twoChunks)
       /\ (forall e, err = Some e ->
             db' = twoChunks /\ exists e', e = ("mmap: " ++ e')%string)
       /\ (Store.mmap_total twoChunks < 20000 -> err = None ->
           20000 <= Store.mmap_total db'
           /\ exists chunk,
                Store.mmap_chunks db' = Store.mmap_chunks twoChunks ++ [chunk]
                /\ Store.mmap_total db'
                   = Store.mmap_total twoChunks + blen chunk
                /\ Store.mmap_total twoChunks <= blen chunk
                /\ 67108864 <= blen chunk).
Proof.
  assert (H : Store.mapped twoChunks).
  { split.
    - unfold twoChunks. cbn [Store.mmap_chunks].
      repeat (apply List.Forall_cons; [vm_compute; reflexivity|]).
      apply List.Forall_nil.
    - vm_compute. reflexivity. }
  split; [exact H|].
  apply (extendMmap_covers 35 zeroMmap twoChunks 20000 H).
  - vm_compute. reflexivity.
  - lia.
  - intros off len chunk E. unfold zeroMmap in E.
    destruct (Z.ltb_spec len 0); [discriminate|]. injection E as <-.
    unfold blen. rewrite length_replicate. lia.
  - lia.
Defined.

(** ** A tree of one leaf, whatever the order of its keys *)

Lemma contents_leaf_tree (tr : BTree) (es : list entry) :
  contents 0 tr es -> es <> [] -> leaf_tree tr es.
Proof.
  intros [Hpg [(_ & _ & ->)|Hh]] Hne; [contradiction|].
  destruct Hh as (t & d & Hd & Hrep & Htok & Hflat & _ & _ & Hb).
  simpl in Hrep, Htok, Hflat. subst t. destruct Htok as (_ & Hsz & Hok).
  apply Forall_cons in Hb as [Hrb _].
  split; [exact Hpg|]. split; [exact Hrb|]. split; [exact Hne|].
  split; [exact Hsz|]. split; [exact Hok|]. now exists d.
Qed.

Lemma leaf_tree_Get (fuel : nat) (tr : BTree) (es : list entry)
    (q : list byte) :
  leaf_tree tr es -> (0 < fuel)%nat -> Get fuel tr q = Ok (leaf_get es q).
Proof.
  destruct tr as [r [pg fr]].
  intros (_ & Hr & Hne & _ & _ & d & Hd & Hrep) Hfuel.
  cbn [root pager pages fresh] in *. unfold Get. cbn [root pager].
  replace (r =? 0) with false by (symmetry; apply Z.eqb_neq; lia).
  rewrite (sbind_Ok _ _ _ _ _ (tree_get_spec pg fr _ _ Hd)).
  destruct fuel as [|fuel]; [lia|]. cbn [Get_loop].
  rewrite (sbind_lift _ _ _ _ (nodeLookupLE_rep _ _ _ q Hrep)).
  rewrite (sbind_lift _ _ _ _ (rep_btype _ _ _ _ Hrep)).
  change (BNODE_LEAF =? BNODE_LEAF) with true. cbn iota.
  rewrite (sbind_lift _ _ _ _ (rep_nkeys _ _ _ _ Hrep)).
  assert (Hlt : (lookupLE (keys es) q < length es)%nat).
  { rewrite <- keys_length. apply lookupLE_lt.
    intros E. apply keys_nil_inv in E. contradiction. }
  destruct (lookup_lt_is_Some_2 es _ Hlt) as [e He].
  replace (Z.of_nat (lookupLE (keys es) q) <? Z.of_nat (length es))
    with true by (symmetry; apply Z.ltb_lt; lia).
  rewrite (sbind_lift _ _ _ _ (rep_getKey _ _ _ _ Hrep _ _ He)).
  unfold leaf_get. rewrite He. unfold bytes_Equal.
  destruct (bool_decide (e_key e = q)); [|reflexivity].
  rewrite (sbind_lift _ _ _ _ (rep_getVal _ _ _ _ Hrep _ _ He)).
  reflexivity.
Qed.

Lemma leaf_tree_Insert (fuel : nat) (tr : BTree) (es : list entry)
    (k v : list byte) :
  leaf_tree tr es -> entry_ok (0, k, v) ->
  nsize (leaf_put es k v) <= BTREE_PAGE_SIZE ->
  (0 < fuel)%nat ->
  exists tr' : BTree,
    Insert fuel tr k v = Ok (None, tr')
    /\ leaf_tree tr' (leaf_put es k v)
    /\ fresh (pager tr') = fresh (pager tr) + 1.
Proof.
  destruct tr as [r [pg fr]].
  intros ([Hfr Hpg] & Hr & Hne & Hsz & Hok & d & Hd & Hrep) Hkv Hfit Hfuel.
  cbn [root pager pages fresh] in *.
  destruct fuel as [|fuel]; [lia|].
  destruct (leaf_insert_spec k v es d Hkv Hrep Hne Hsz Hok fuel
              (mkPager (delete r pg) fr)) as (d' & Hrun & Hlen & Hd').
  pose proof (rep_n_range _ _ _ _ Hd') as Hn'.
  assert (Hsplit : nodeSplit3 d' = Ok [rd d' 0 BTREE_PAGE_SIZE]).
  { unfold nodeSplit3. rewrite (rep_nbytes _ _ _ _ Hd') by reflexivity.
    cbn [rbind].
    replace (nsize (leaf_put es k v) <=? BTREE_PAGE_SIZE) with true
      by (symmetry; apply Z.leb_le; exact Hfit).
    rewrite slice_ok by (unfold BTREE_PAGE_SIZE in *; lia).
    rewrite Z.sub_0_r. reflexivity. }
  assert (Hnode : node_is (rd d' 0 BTREE_PAGE_SIZE) BNODE_LEAF
                    (leaf_put es k v)).
  { apply node_rep_prefix; [exact Hd'| |unfold BTREE_PAGE_SIZE in *; lia].
    unfold nsize in Hfit. lia. }
  assert (Hfree : delete r pg !! fr = None).
  { rewrite lookup_delete_ne by lia. apply Hpg. lia. }
  assert (Hbody : Insert_body (S fuel) r k v (mkPager pg fr)
                  = Ok (fr, mkPager (<[fr := rd d' 0 BTREE_PAGE_SIZE]>
                                       (delete r pg)) (fr + 1))).
  { unfold Insert_body.
    replace (r =? 0) with false by (symmetry; apply Z.eqb_neq; lia).
    cbn iota.
    rewrite (sbind_Ok _ _ _ _ _ (tree_get_spec pg fr _ _ Hd)).
    rewrite (sbind_Ok _ _ _ _ _ (tree_del_spec pg fr _ _ Hd)).
    rewrite (sbind_Ok _ _ _ _ _ Hrun).
    rewrite (sbind_lift _ _ _ _ Hsplit).
    cbn [length Z.of_nat]. change (Z.pos 1 >? 1) with false. cbn iota.
    exact (tree_new_spec _ _ _ _ _ Hnode Hfit Hfree). }
  eexists. unfold Insert. cbn [root pager].
  rewrite (proj2 (checkLimit_ok k v) Hkv), Hbody.
  split; [reflexivity|]. unfold leaf_tree, pager_ok.
  cbn [root pager pages fresh]. split; [|reflexivity].
  split.
  { split; [simpl; lia|]. intros p Hp. cbn [pages fresh] in *.
    rewrite lookup_insert_ne by lia.
    rewrite lookup_delete_ne by lia. apply Hpg. lia. }
  split; [cbn [root pager fresh]; lia|].
  split; [now apply leaf_put_nonempty|]. split; [exact Hfit|].
  split; [now apply leaf_put_entry_ok|].
  exists (rd d' 0 BTREE_PAGE_SIZE). split; [apply lookup_insert_eq|exact Hnode].
Qed.

Lemma leaf_tree_Delete (fuel : nat) (tr : BTree) (es : list entry)
    (q : list byte) (e : entry) :
  leaf_tree tr es ->
  es !! lookupLE (keys es) q = Some e -> e_key e = q ->
  (2 <= length es)%nat -> (0 < fuel)%nat ->
  exists tr' : BTree,
    Delete fuel tr q = Ok (true, tr')
    /\ leaf_tree tr' (leaf_del es q)
    /\ fresh (pager tr') = fresh (pager tr) + 1.
Proof.
  destruct tr as [r [pg fr]].
  intros ([Hfr Hpg] & Hr & Hne & Hsz & Hok & d & Hd & Hrep) He Hek Hlen Hfuel.
  cbn [root pager pages fresh] in *.
  set (idx := lookupLE (keys es) q) in *.
  pose proof (lookup_lt_Some _ _ _ He) as Hi.
  assert (Hdel : leaf_del es q = take idx es ++ drop (S idx) es).
  { unfold leaf_del. fold idx. rewrite He.
    now rewrite bool_decide_eq_true_2 by (symmetry; exact Hek). }
  assert (Hlim : checkLimit q [] = None).
  { apply checkLimit_ok. rewrite Forall_forall in Hok.
    assert (Hin' : e ∈ es) by now apply list_elem_of_lookup_2 in He.
    destruct (Hok e Hin') as [H1 _]. rewrite Hek in H1.
    split; [exact H1|]. vm_compute. discriminate. }
  pose proof (nsize_remove es idx e He) as Hrem.
  pose proof (esz_pos e) as Hesz.
  assert (Hnew : blen (make BTREE_PAGE_SIZE) = 4096)
    by (apply blen_make; vm_compute; congruence).
  unfold BTREE_PAGE_SIZE in *.
  destruct (leafDelete_rep (make 4096) d BNODE_LEAF es idx Hrep)
    as (d' & Hrun & Hlen' & Hd'); [lia|lia|lia|].
  unfold Delete. cbn [root pager].
  replace (r =? 0) with false by (symmetry; apply Z.eqb_neq; lia).
  rewrite Hlim.
  rewrite (sbind_Ok _ _ _ _ _ (tree_get_spec pg fr _ _ Hd)).
  assert (Htd : treeDelete fuel d q (mkPager pg fr)
                = Ok (d', mkPager pg fr)).
  { destruct fuel as [|fuel]; [lia|]. cbn [treeDelete].
    rewrite (sbind_lift _ _ _ _ (nodeLookupLE_rep _ _ _ q Hrep)).
    rewrite (sbind_lift _ _ _ _ (rep_btype _ _ _ _ Hrep)).
    change (BNODE_LEAF =? BNODE_LEAF) with true. cbn iota.
    rewrite (sbind_lift _ _ _ _ (rep_getKey _ _ _ _ Hrep _ _ He)).
    unfold bytes_Equal.
    rewrite bool_decide_eq_true_2 by (symmetry; exact Hek). cbn [negb].
    fold idx. unfold lift, BTREE_PAGE_SIZE. now rewrite Hrun. }
  rewrite (sbind_Ok _ _ _ _ _ Htd).
  replace (blen d' =? 0) with false by (symmetry; apply Z.eqb_neq; lia).
  assert (Hfree : delete r pg !! fr = None).
  { rewrite lookup_delete_ne by lia. apply Hpg. lia. }
  assert (Hroot : Delete_root r d' (mkPager pg fr)
                  = Ok (fr, mkPager (<[fr := d']> (delete r pg)) (fr + 1))).
  { unfold Delete_root.
    rewrite (sbind_Ok _ _ _ _ _ (tree_del_spec pg fr _ _ Hd)).
    rewrite (sbind_lift _ _ _ _ (rep_btype _ _ _ _ Hd')).
    change (BNODE_LEAF =? BNODE_NODE) with false. cbn iota.
    unfold mret at 1. unfold sbind at 1.
    apply (tree_new_spec (delete r pg) fr d' _ _ Hd'); [|exact Hfree].
    unfold BTREE_PAGE_SIZE. lia. }
  rewrite (sbind_Ok _ _ _ _ _ Hroot). unfold mret.
  eexists. split; [reflexivity|]. unfold leaf_tree, pager_ok.
  cbn [root pager pages fresh]. split; [|reflexivity]. rewrite Hdel.
  split.
  { split; [simpl; lia|]. intros p Hp. cbn [pages fresh] in *.
    rewrite lookup_insert_ne by lia.
    rewrite lookup_delete_ne by lia. apply Hpg. lia. }
  split; [lia|]. split.
  { intros E. apply (f_equal length) in E.
    rewrite length_app, length_take, length_drop in E. simpl in E. lia. }
  split; [rewrite Hrem; unfold BTREE_PAGE_SIZE; lia|]. split.
  { apply Forall_app. split; [now apply Forall_take|now apply Forall_drop]. }
  exists d'. split; [apply lookup_insert_eq|exact Hd'].
Qed.

Lemma lookup_loop_above (ks : list (list byte)) (q : list byte)
    (i found : nat) :
  (forall k, head ks = Some k -> key_lt q k) ->
  lookup_loop ks q i found = found.
Proof.
  intros H. destruct ks as [|k ks]; [reflexivity|]. cbn [lookup_loop].
  specialize (H k eq_refl). unfold key_lt in H.
  rewrite (cmp_antisym q k).
  destruct (Z.leb_spec (- bytes_Compare q k) 0); [lia|].
  destruct (Z.geb_spec (- bytes_Compare q k) 0); [reflexivity|lia].
Qed.

Lemma key_lt_nil (b : list byte) : b <> [] -> key_lt [] b.
Proof. destruct b; [contradiction|]. intros _. reflexivity. Qed.

(** X30. Delete accepts the empty key and removes the entry of the empty
    key, which the first Insert put at the start of the tree. While the
    tree is one leaf this is what follows: the first key stored is still
    found; but after the Insert of a key below it, which lands behind it
    in the leaf, Get finds the new key and no longer finds the first key,
    although no Delete has removed it. *)
Theorem Delete_empty_key_hides_first_key (fuel : nat) (tr : BTree)
    (s e1 : entry) (rest : list entry) (k0 v : list byte) :
  contents 0 tr (s :: e1 :: rest) ->
  (0 < fuel)%nat ->
  e_key e1 <> [] ->
  key_lt k0 (e_key e1) ->
  entry_ok (0, k0, v) ->
  nsize (e1 :: (0, k0, v) :: rest) <= BTREE_PAGE_SIZE ->
  exists t1 t2 : BTree,
    Get fuel tr (e_key e1) = Ok (Some (e_val e1))
    /\ Delete fuel tr [] = Ok (true, t1)
    /\ Get fuel t1 (e_key e1) = Ok (Some (e_val e1))
    /\ Insert fuel t1 k0 v = Ok (None, t2)
    /\ Get fuel t2 k0 = Ok (Some v)
    /\ Get fuel t2 (e_key e1) = Ok None.
Proof.
  intros Hc Hfuel Hk1 Hlt Hkv Hfit.
  set (k1 := e_key e1) in *.
  pose proof (contents_leaf_tree tr _ Hc ltac:(discriminate)) as Hleaf.
  destruct (contents_order _ _ _ Hc) as [C|[[Hinc _] H0]]; [discriminate|].
  cbn [keys map drop] in Hinc, H0. injection H0 as Hs0.
  fold k1 in Hinc.
  assert (Hrest : forall r1, head (keys rest) = Some r1 -> key_lt k1 r1).
  { intros r1 Hr1. apply (Hinc 0%nat 1%nat); [lia|reflexivity|].
    unfold keys in Hr1.
    destruct (map e_key rest); [discriminate|]. injection Hr1 as ->.
    reflexivity. }
  assert (Hne10 : k0 <> k1).
  { intros ->. now apply key_lt_irrefl in Hlt. }
  (* the lists *)
  assert (Hget0 : leaf_get (s :: e1 :: rest) k1 = Some (e_val e1)).
  { unfold leaf_get, lookupLE. cbn [keys map drop lookup_loop]. fold k1.
    rewrite cmp_refl. cbn. fold k1.
    now rewrite bool_decide_eq_true_2. }
  assert (Hidx0 : lookupLE (keys (s :: e1 :: rest)) [] = 0%nat).
  { unfold lookupLE. cbn [keys map drop]. apply lookup_loop_above.
    intros k E. injection E as <-. now apply key_lt_nil. }
  assert (Hdel : leaf_del (s :: e1 :: rest) [] = e1 :: rest).
  { unfold leaf_del. rewrite Hidx0. cbn [lookup list_lookup].
    rewrite bool_decide_eq_true_2 by (now symmetry). reflexivity. }
  assert (Hget1 : leaf_get (e1 :: rest) k1 = Some (e_val e1)).
  { unfold leaf_get, lookupLE. cbn [keys map drop].
    rewrite (lookup_loop_above _ _ _ _ Hrest). cbn. fold k1.
    now rewrite bool_decide_eq_true_2. }
  assert (Hput : leaf_put (e1 :: rest) k0 v = e1 :: (0, k0, v) :: rest).
  { unfold leaf_put, lookupLE. cbn [keys map drop].
    rewrite lookup_loop_above
      by (intros r1 Hr1; exact (key_lt_trans _ _ _ Hlt (Hrest r1 Hr1))).
    cbn [lookup list_lookup]. fold k1.
    rewrite bool_decide_eq_false_2 by exact Hne10. reflexivity. }
  assert (Hget2 : leaf_get (e1 :: (0, k0, v) :: rest) k0 = Some v).
  { unfold leaf_get, lookupLE. cbn [keys map drop lookup_loop].
    change (e_key (0, k0, v)) with k0. rewrite !cmp_refl.
    change (0 <=? 0) with true. change (0 >=? 0) with true. cbn iota.
    cbn [lookup list_lookup]. change (e_key (0, k0, v)) with k0.
    now rewrite bool_decide_eq_true_2. }
  assert (Hget3 : leaf_get (e1 :: (0, k0, v) :: rest) k1 = None).
  { unfold leaf_get, lookupLE. cbn [keys map drop lookup_loop].
    change (e_key (0, k0, v)) with k0. unfold key_lt in Hlt.
    destruct (Z.leb_spec (bytes_Compare k0 k1) 0); [|lia].
    destruct (Z.geb_spec (bytes_Compare k0 k1) 0); [lia|].
    rewrite (lookup_loop_above _ _ _ _ Hrest).
    cbn [lookup list_lookup]. change (e_key (0, k0, v)) with k0.
    now rewrite bool_decide_eq_false_2. }
  (* the runs *)
  destruct (leaf_tree_Delete fuel tr _ [] s Hleaf)
    as (t1 & Hrun1 & Hleaf1 & _);
    [rewrite Hidx0; reflexivity|exact Hs0|simpl; lia|exact Hfuel|].
  rewrite Hdel in Hleaf1.
  destruct (leaf_tree_Insert fuel t1 _ k0 v Hleaf1 Hkv)
    as (t2 & Hrun2 & Hleaf2 & _); [rewrite Hput; exact Hfit|exact Hfuel|].
  rewrite Hput in Hleaf2.
  exists t1, t2.
  split; [now rewrite (leaf_tree_Get fuel tr _ k1 Hleaf Hfuel), Hget0|].
  split; [exact Hrun1|].
  split; [now rewrite (leaf_tree_Get fuel t1 _ k1 Hleaf1 Hfuel), Hget1|].
  split; [exact Hrun2|].
  split; [now rewrite (leaf_tree_Get fuel t2 _ k0 Hleaf2 Hfuel), Hget2|].
  now rewrite (leaf_tree_Get fuel t2 _ k1 Hleaf2 Hfuel), Hget3.
Qed.

Lemma Delete_empty_key_hides_first_key_witness :
  contents 0 oneKeyTree [(0, [], []); (0, [x61], [x31])]
  /\ exists t1 t2 : BTree,
       Get 1 oneKeyTree [x61] = Ok (Some [x31])
       /\ Delete 1 oneKeyTree [] = Ok (true, t1)
       /\ Get 1 t1 [x61] = Ok (Some [x31])
       /\ Insert 1 t1 [x30] [x32] = Ok (None, t2)
       /\ Get 1 t2 [x30] = Ok (Some [x32])
       /\ Get 1 t2 [x61] = Ok None.
Proof.
  split; [exact oneKeyTree_contents|].
  apply (Delete_empty_key_hides_first_key 1 oneKeyTree (0, [], [])
           (0, [x61], [x31]) [] [x30] [x32]).
  - exact oneKeyTree_contents.
  - lia.
  - discriminate.
  - reflexivity.
  - split; vm_compute; discriminate.
  - vm_compute. discriminate.
Defined.

(** ** A transaction and its pages *)

Lemma u64_add_u64 (a b : Z) : u64 (a + u64 b) = u64 (a + b).
Proof. unfold u64. now rewrite Zplus_mod_idemp_r. Qed.

Lemma u64_add_int (a b : Z) : u64 (a + Store.int b) = u64 (a + b).
Proof.
  unfold u64, Store.int.
  replace (a + ((b + 9223372036854775808) mod 18446744073709551616
                - 9223372036854775808))
    with (a + b
          + (- ((b + 9223372036854775808) / 18446744073709551616))
            * 18446744073709551616).
  - apply Z_mod_plus_full.
  - pose proof (Z.div_mod (b + 9223372036854775808) 18446744073709551616
                  ltac:(lia)) as H.
    lia.
Qed.

Lemma int_add_int (a b : Z) :
  Store.int (Store.int a + b) = Store.int (a + b).
Proof.
  unfold Store.int. f_equal.
  replace ((a + 9223372036854775808) mod 18446744073709551616
           - 9223372036854775808 + b + 9223372036854775808)
    with (a + b + 9223372036854775808
          + (- ((a + 9223372036854775808) / 18446744073709551616))
            * 18446744073709551616).
  - apply Z_mod_plus_full.
  - pose proof (Z.div_mod (a + 9223372036854775808) 18446744073709551616
                  ltac:(lia)) as H.
    lia.
Qed.

(** At most 2^64 consecutive numbers stay distinct as [uint64]. *)
Lemma u64_add_inj (b i j : Z) :
  0 <= i < j -> j < 18446744073709551616 -> u64 (b + i) <> u64 (b + j).
Proof.
  unfold u64. intros Hij Hj E.
  pose proof (Z.div_mod (b + i) 18446744073709551616 ltac:(lia)) as Hi.
  pose proof (Z.div_mod (b + j) 18446744073709551616 ltac:(lia)) as Hj'.
  rewrite E in Hi. lia.
Qed.

(** The pages of [pageNews]: the k-th node gets the number
    [page_flushed + nappend + k], is stored under it, and the other
    entries of [page.updates] stay. *)
Lemma pageNews_spec (kv : Tx.KV) (nodes : list BNode) :
  forall tx : Tx.KVTX,
    Z.of_nat (length nodes) <= 18446744073709551616 ->
    let r := KVTX.pageNews kv tx nodes in
    let P := fun i : nat =>
               u64 (Tx.page_flushed kv + Tx.nappend tx + Z.of_nat i) in
    length r.1 = length nodes
    /\ (forall (i : nat) (node : BNode),
          nodes !! i = Some node ->
          r.1 !! i = Some (P i)
          /\ Tx.updates r.2 !! P i = Some (Some node))
    /\ (forall ptr : Z,
          (forall i : nat, (i < length nodes)%nat -> ptr <> P i) ->
          Tx.updates r.2 !! ptr = Tx.updates tx !! ptr)
    /\ Store.int (Tx.nappend r.2)
       = Store.int (Tx.nappend tx + Z.of_nat (length nodes))
    /\ Tx.tx_root r.2 = Tx.tx_root tx
    /\ Tx.tx_free r.2 = Tx.tx_free tx.
Proof.
  induction nodes as [|node rest IH]; intros tx Hlen r P.
  - subst r. cbn [KVTX.pageNews fst snd length].
    split; [reflexivity|]. split; [intros i n H; discriminate|].
    split; [reflexivity|]. split; [now rewrite Z.add_0_r|split; reflexivity].
  - cbn [length] in Hlen.
    set (tx1 := (KVTX.pageNew kv tx node).2).
    assert (Hn1 : Tx.nappend tx1 = Store.int (Tx.nappend tx + 1))
      by reflexivity.
    assert (Hu1 : Tx.updates tx1
                  = <[P 0%nat := Some node]> (Tx.updates tx)).
    { subst tx1 P. cbn. now rewrite u64_add_u64, Z.add_0_r. }
    assert (HP : forall i : nat,
               u64 (Tx.page_flushed kv + Tx.nappend tx1 + Z.of_nat i)
               = P (S i)).
    { intros i. subst P. cbn beta. rewrite Hn1.
      replace (Tx.page_flushed kv + Store.int (Tx.nappend tx + 1)
               + Z.of_nat i)
        with (Tx.page_flushed kv + Z.of_nat i
              + Store.int (Tx.nappend tx + 1)) by lia.
      rewrite u64_add_int. f_equal. lia. }
    destruct (IH tx1 ltac:(lia)) as (IHl & IHa & IHb & IHn & IHr & IHf).
    change (KVTX.pageNews kv tx (node :: rest))
      with ((KVTX.pageNew kv tx node).1 :: (KVTX.pageNews kv tx1 rest).1,
            (KVTX.pageNews kv tx1 rest).2) in r.
    subst r. cbn [fst snd length].
    split; [now rewrite IHl|].
    split; [|split; [|split; [|split]]].
    + intros [|i] n Hi.
      * cbn in Hi. injection Hi as <-. split.
        { cbn [lookup list_lookup]. f_equal. subst P. cbn.
          now rewrite u64_add_u64, Z.add_0_r. }
        rewrite IHb.
        { rewrite Hu1. apply lookup_insert_eq. }
        intros i Hi. rewrite HP. subst P. cbn beta.
        apply u64_add_inj; lia.
      * cbn in Hi. destruct (IHa i n Hi) as [H1 H2].
        rewrite HP in H1, H2. split; [exact H1|exact H2].
    + intros ptr Hptr. rewrite IHb.
      * rewrite Hu1. apply lookup_insert_ne. intros E.
        apply (Hptr 0%nat); [lia|now symmetry].
      * intros i Hi. rewrite HP. apply Hptr. lia.
    + rewrite IHn, Hn1, int_add_int. f_equal. lia.
    + rewrite IHr. reflexivity.
    + rewrite IHf. reflexivity.
Qed.

(** What Begin leaves in the store and in the transaction. *)
Lemma Begin_fields (kv : Tx.KV) (tx0 : Tx.KVTX) :
  Tx.writer kv = false ->
  exists tx : Tx.KVTX,
    Tx.Begin kv tx0 = Some (Tx.set_writer true kv, tx)
    /\ Tx.tx_root tx = Tx.tree_root kv
    /\ Tx.tx_version tx = Tx.version kv
    /\ Tx.fl_data (Tx.tx_free tx) = Tx.free kv
    /\ Tx.updates tx = ∅
    /\ Tx.nappend tx = Tx.nappend tx0
    /\ Tx.freed (Tx.tx_free tx) = Tx.freed (Tx.tx_free tx0).
Proof.
  intros Hw. unfold Tx.Begin. rewrite Hw. eexists.
  split; [reflexivity|]. cbn.
  split; [reflexivity|]. split; [reflexivity|].
  split; [destruct (Tx.readers kv); reflexivity|].
  split; [reflexivity|]. split; [reflexivity|].
  destruct (Tx.readers kv); reflexivity.
Qed.

(** X20. Begin writes into the transaction of the caller. On a store
    whose writer mutex is free it takes the mutex, gives the transaction
    the root, the version and the free list of the store and an empty
    map of page updates, and leaves its count of appended pages and its
    list of freed pages as the caller had them; no Begin returns while
    the transaction runs. The pages that pageNew then allocates get the
    numbers after page_flushed + nappend, one after the other as uint64;
    pageGet reads each of them back and reads every other page from the
    store. Abort releases the mutex and leaves the store exactly as it
    was before Begin, whatever was allocated. *)
Theorem Begin_pages_Abort (get : Z -> res BNode) (kv : Tx.KV)
    (tx0 : Tx.KVTX) (nodes : list BNode) :
  Tx.writer kv = false ->
  Z.of_nat (length nodes) <= 18446744073709551616 ->
  exists (kv1 : Tx.KV) (tx : Tx.KVTX),
    Tx.Begin kv tx0 = Some (kv1, tx)
    /\ Tx.tx_root tx = Tx.tree_root kv
    /\ Tx.tx_version tx = Tx.version kv
    /\ Tx.fl_data (Tx.tx_free tx) = Tx.free kv
    /\ Tx.updates tx = ∅
    /\ Tx.nappend tx = Tx.nappend tx0
    /\ Tx.freed (Tx.tx_free tx) = Tx.freed (Tx.tx_free tx0)
    /\ (forall tx2 : Tx.KVTX, Tx.Begin kv1 tx2 = None)
    /\ let ptrs := (KVTX.pageNews kv1 tx nodes).1 in
       let tx' := (KVTX.pageNews kv1 tx nodes).2 in
       length ptrs = length nodes
       /\ (forall (i : nat) (node : BNode),
             nodes !! i = Some node ->
             exists ptr : Z,
               ptr = u64 (Tx.page_flushed kv + Tx.nappend tx0 + Z.of_nat i)
               /\ ptrs !! i = Some ptr
               /\ KVTX.pageGet get tx' ptr = Ok node)
       /\ (forall ptr : Z,
             ptr ∉ ptrs -> KVTX.pageGet get tx' ptr = get ptr)
       /\ Tx.tx_root tx' = Tx.tree_root kv
       /\ Tx.tx_free tx' = Tx.tx_free tx
       /\ Tx.Abort kv1 tx' = Ok kv.
Proof.
  intros Hw Hlen.
  destruct (Begin_fields kv tx0 Hw)
    as (tx & HB & Hroot & Hver & Hfree & Hupd & Hnap & Hfreed).
  exists (Tx.set_writer true kv), tx.
  split; [exact HB|]. split; [exact Hroot|]. split; [exact Hver|].
  split; [exact Hfree|]. split; [exact Hupd|]. split; [exact Hnap|].
  split; [exact Hfreed|]. split; [reflexivity|]. intros ptrs tx'.
  destruct (pageNews_spec (Tx.set_writer true kv) nodes tx Hlen)
    as (Hl & Ha & Hb & _ & Hr & Hf).
  fold ptrs in Hl, Ha. fold tx' in Ha, Hb, Hr, Hf.
  change (Tx.page_flushed (Tx.set_writer true kv))
    with (Tx.page_flushed kv) in Ha, Hb.
  rewrite Hnap in Ha, Hb. rewrite Hupd in Hb. rewrite Hroot in Hr.
  split; [exact Hl|].
  split; [|split; [|split; [exact Hr|split; [exact Hf|]]]].
  - intros i node Hi. destruct (Ha i node Hi) as [H1 H2].
    eexists. split; [reflexivity|]. split; [exact H1|].
    unfold KVTX.pageGet. now rewrite H2.
  - intros ptr Hptr. unfold KVTX.pageGet. rewrite Hb.
    + now rewrite lookup_empty.
    + intros i Hi E. apply Hptr.
      destruct (nodes !! i) as [node|] eqn:Hn.
      * destruct (Ha i node Hn) as [H1 _]. rewrite E.
        eapply list_elem_of_lookup_2. exact H1.
      * apply lookup_ge_None in Hn. lia.
  - unfold Tx.Abort, Tx.Unlock. cbn. f_equal.
    destruct kv; cbn in *. now rewrite Hw.
Qed.

(** On [storeV7], whose file has two pages, with a transaction that was
    used before and counts three appended pages: the two nodes go to
    pages 5 and 6. *)
Lemma Begin_pages_Abort_witness :
  exists (kv1 : Tx.KV) (tx : Tx.KVTX),
    Tx.Begin storeV7 usedTX = Some (kv1, tx)
    /\ Tx.updates tx = ∅
    /\ Tx.nappend tx = 3
    /\ Tx.freed (Tx.tx_free tx) = [4]
    /\ (KVTX.pageNews kv1 tx [leafAC; leafEG]).1 = [5; 6]
    /\ KVTX.pageGet (fun _ => Ok []) (KVTX.pageNews kv1 tx [leafAC; leafEG]).2
         6 = Ok leafEG
    /\ Tx.Abort kv1 (KVTX.pageNews kv1 tx [leafAC; leafEG]).2 = Ok storeV7.
Proof.
  destruct (Begin_pages_Abort (fun _ => Ok []) storeV7 usedTX
              [leafAC; leafEG] eq_refl ltac:(cbn; lia))
    as (kv1 & tx & HB & _ & _ & _ & Hu & Hn & Hf & _ & _ & Hp & _ & _ & _ & HA).
  exists kv1, tx. injection HB as <- <-.
  split; [reflexivity|]. split; [exact Hu|]. split; [exact Hn|].
  split; [exact Hf|]. split; [reflexivity|].
  split; [|exact HA].
  destruct (Hp 1%nat leafEG eq_refl) as (ptr & -> & _ & Hg). exact Hg.
Defined.
